(** * Streaming caches of betfairlightweight: [streaming/cache.py]

    A shallow embedding of the delta-application engine
    ([Available], [RunnerBook], [MarketBookCache], [OrderBookRunner],
    [OrderBookCache], [RaceCache]) and the properties of its merge
    semantics.

    Conventions of the embedding.
    - A Python number (an [int] or a finite [float]) is a rational [Q];
      Python's [==] and [<] on numbers compare mathematical values, which
      is [Qeq_bool] and the strict order of [Q].  [1] and [1.0] are two
      representations of one value, just as [1#1] and [2#2] are.
    - A row of a ladder is a Python list of numbers: [list Q].
    - An operation that can raise ([IndexError], [KeyError]) returns
      [option]; [None] stands for the raised exception.
    - A payload [dict] whose keys are fixed by the protocol is a record of
      [option] fields, [None] meaning "key absent"; a free-form [dict] is an
      insertion-ordered association list.
    - What [cache.py] imports from other modules (the date helpers, the
      enumerations of the order stream) is a parameter of the development:
      the classes [DateOps] and [EnumOps].
    - The state of a cache is a value.  Where two attributes share one
      object, a position in a list stands for the reference; an attribute
      that only refers to the caller's payload object
      ([streaming_update] of the market and the order cache) is left out,
      because the ladders share that object's lists and change them. *)

From Stdlib Require Import List ZArith QArith Bool String Lia Permutation.
Import ListNotations.

(** ** Exceptions as [option] *)

Definition bind {A B : Type} (m : option A) (f : A -> option B) : option B :=
  match m with
  | Some a => f a
  | None => None
  end.

Notation "x <- m ;; k" := (bind m (fun x => k))
  (at level 61, m at next level, right associativity).
Notation "' p <- m ;; k" := (bind m (fun x => match x with p => k end))
  (at level 61, p pattern, m at next level, right associativity).

(** ** Python sequence indexing *)

(** [l[i]]: a negative index counts from the end; out of range raises. *)
Definition py_index {A : Type} (l : list A) (i : Z) : option A :=
  if (0 <=? i)%Z then nth_error l (Z.to_nat i)
  else if (0 <=? i + Z.of_nat (List.length l))%Z
       then nth_error l (Z.to_nat (i + Z.of_nat (List.length l)))
       else None.

(** ** Numbers and rows *)

Definition row : Type := list Q.

(** Python's [<] on numbers. *)
Definition Qlt_bool (x y : Q) : bool := negb (Qle_bool y x).

(** Python's [<] on lists: the first position where the items differ
    decides; if there is none the shorter list is the smaller. *)
Fixpoint row_ltb (r1 r2 : row) : bool :=
  match r1, r2 with
  | [], [] => false
  | [], _ :: _ => true
  | _ :: _, [] => false
  | x :: r1', y :: r2' =>
      if Qeq_bool x y then row_ltb r1' r2' else Qlt_bool x y
  end.

(** [list.sort] is a stable sort that uses [<] only.  The stable sorted
    arrangement of a list is unique, so a stable insertion sort computes
    what Timsort does. *)
Fixpoint insert_row (x : row) (l : list row) : list row :=
  match l with
  | [] => [x]
  | y :: l' => if row_ltb y x then y :: insert_row x l' else x :: l
  end.

Definition sort_asc (l : list row) : list row := fold_right insert_row [] l.

(** [list.sort(reverse=r)]: with [reverse] the list is reversed, sorted and
    reversed again, which keeps equal elements in their original order. *)
Definition list_sort (reverse : bool) (l : list row) : list row :=
  if reverse then rev (sort_asc (rev l)) else sort_asc l.

(** ** Python [dict]: an insertion-ordered association list *)

Section Dict.

Variables (K V : Type).
Variable keqb : K -> K -> bool.

(** [d.get(k)] *)
Fixpoint dict_get (k : K) (d : list (K * V)) : option V :=
  match d with
  | [] => None
  | (k', v) :: d' => if keqb k' k then Some v else dict_get k d'
  end.

(** [d[k] = v]: an existing key keeps its place, a new key goes last. *)
Fixpoint dict_set (k : K) (v : V) (d : list (K * V)) : list (K * V) :=
  match d with
  | [] => [(k, v)]
  | (k', v') :: d' =>
      if keqb k' k then (k', v) :: d' else (k', v') :: dict_set k v d'
  end.

End Dict.

Arguments dict_get {K V} keqb k d.
Arguments dict_set {K V} keqb k v d.

(** [l[i] = x] for an index that is in range. *)
Fixpoint list_set {A : Type} (i : nat) (x : A) (l : list A) : list A :=
  match l, i with
  | [], _ => []
  | _ :: l', O => x :: l'
  | y :: l', S i' => y :: list_set i' x l'
  end.

(** A [for] loop whose body can raise. *)
Fixpoint for_each {S X : Type} (body : S -> X -> option S) (xs : list X)
  (s : S) : option S :=
  match xs with
  | [] => Some s
  | x :: xs' => s' <- body s x ;; for_each body xs' s'
  end.

(** A list comprehension whose element expression can raise. *)
Fixpoint comprehension {A B : Type} (f : A -> option B) (l : list A)
  : option (list B) :=
  match l with
  | [] => Some []
  | x :: l' =>
      y <- f x ;;
      ys <- comprehension f l' ;;
      Some (y :: ys)
  end.

(** Scalars of free-form payloads. *)
Inductive value : Type :=
  | VNum (q : Q)
  | VStr (s : string)
  | VBool (b : bool).

(** The number a scalar is, if it is one: Python's [bool] is a kind of
    [int], [True] is [1] and [False] is [0]. *)
Definition as_number (v : value) : option Q :=
  match v with
  | VNum q => Some q
  | VBool true => Some 1
  | VBool false => Some 0
  | VStr _ => None
  end.

(** Python's [==] on scalars, which with [hash] decides when two scalars
    are one key of a [dict]: numbers and booleans compare by value
    ([True == 1], [1 == 1.0]), strings compare with strings only. *)
Definition value_eqb (v w : value) : bool :=
  match as_number v, as_number w with
  | Some p, Some q => Qeq_bool p q
  | None, None =>
      match v, w with
      | VStr s, VStr t => String.eqb s t
      | _, _ => false
      end
  | _, _ => false
  end.

(** A free-form [dict] with string keys. *)
Definition pydict : Type := list (string * value).

Definition pydict_get (k : string) (d : pydict) : option value :=
  dict_get String.eqb k d.

(** The composite key [(selection_id, handicap)]. *)
Definition runner_key : Type := (Z * Q)%type.

Definition runner_key_eqb (k1 k2 : runner_key) : bool :=
  Z.eqb (fst k1) (fst k2) && Qeq_bool (snd k1) (snd k2).

(** [d.get("hc", 0)] *)
Definition hc_or_0 (hc : option Q) : Q :=
  match hc with Some h => h | None => 0 end.

(** One entry of [Available.serialise]: [{"price": .., "size": ..}]. *)
Record price_size : Type := PriceSize { ps_price : Q; ps_size : Q }.

(** ** [class Available] *)

Module Available.

Record t : Type := mk {
  prices : list row;
  deletion_select : Z;
  reverse : bool;
  serialise : list price_size
}.

(** The body of the list comprehension of [sort]. *)
Definition render_row (ds : Z) (volume : row) : option price_size :=
  p <- py_index volume (ds - 1) ;;
  s <- py_index volume ds ;;
  Some (PriceSize p s).

Fixpoint render (ds : Z) (ps : list row) : option (list price_size) :=
  match ps with
  | [] => Some []
  | volume :: ps' =>
      e <- render_row ds volume ;;
      es <- render ds ps' ;;
      Some (e :: es)
  end.

(** [sort(self, sort=True)] *)
Definition sort (sort : bool) (a : t) : option t :=
  let ps := if sort then list_sort (reverse a) (prices a) else prices a in
  s <- render (deletion_select a) ps ;;
  Some (mk ps (deletion_select a) (reverse a) s).

(** [__init__(self, prices, deletion_select, reverse=False)];
    [prices or []] maps [None] (and the empty list) to the empty list. *)
Definition init (initial : option (list row)) (ds : Z) (rev : bool)
  : option t :=
  let ps := match initial with Some (r :: l) => r :: l | _ => [] end in
  sort true (mk ps ds rev []).

(** [clear(self)] *)
Definition clear (a : t) : option t :=
  sort true (mk [] (deletion_select a) (reverse a) (serialise a)).

(** The inner [for ... else] of [update] for one incoming row [book]: the
    resulting rows and whether [book] was appended. *)
Fixpoint scan (ds : Z) (book : row) (ps : list row)
  : option (list row * bool) :=
  match ps with
  | [] =>
      s <- py_index book ds ;;
      if Qeq_bool s 0 then Some ([], false) else Some ([book], true)
  | trade :: rest =>
      t0 <- py_index trade 0 ;;
      b0 <- py_index book 0 ;;
      if Qeq_bool t0 b0 then
        s <- py_index book ds ;;
        if Qeq_bool s 0 then Some (rest, false)
        else Some (book :: rest, false)
      else
        '(rest', appended) <- scan ds book rest ;;
        Some (trade :: rest', appended)
  end.

(** The outer loop of [update]: the rows and the [sort] flag. *)
Fixpoint update_loop (ds : Z) (book_update : list row) (ps : list row)
  (sort : bool) : option (list row * bool) :=
  match book_update with
  | [] => Some (ps, sort)
  | book :: more =>
      '(ps', appended) <- scan ds book ps ;;
      update_loop ds more ps' (sort || appended)
  end.

(** [update(self, book_update)] *)
Definition update (a : t) (book_update : list row) : option t :=
  '(ps, srt) <- update_loop (deletion_select a) book_update (prices a) false ;;
  sort srt (mk ps (deletion_select a) (reverse a) (serialise a)).

End Available.

(** ** Payloads of the market stream *)

(** One entry of [marketDefinition["runners"]]: the keys the cache reads by
    name, and the remaining keys. *)
Record runner_definition : Type := mkRunnerDefinition {
  rd_id : Z;
  rd_hc : option Q;
  rd_fields : pydict
}.

(** One entry of [market_change["rc"]]. *)
Record runner_change : Type := mkRunnerChange {
  rc_id : Z;
  rc_hc : option Q;
  rc_ltp : option Q;
  rc_tv : option Q;
  rc_trd : option (list row);
  rc_atb : option (list row);
  rc_batb : option (list row);
  rc_bdatb : option (list row);
  rc_atl : option (list row);
  rc_batl : option (list row);
  rc_bdatl : option (list row);
  rc_spn : option Q;
  rc_spf : option Q;
  rc_spb : option (list row);
  rc_spl : option (list row)
}.

Record market_definition_t : Type := mkMarketDefinition {
  md_fields : pydict;
  md_runners : option (list runner_definition)
}.

Record market_change : Type := mkMarketChange {
  mc_marketDefinition : option market_definition_t;
  mc_tv : option Q;
  mc_rc : option (list runner_change)
}.

(** ** [class RunnerBook] *)

Module RunnerBook.

(** The mapping built by [serialise]. *)
Record ex_snapshot : Type := mkEx {
  tradedVolume : list price_size;
  availableToBack : list price_size;
  availableToLay : list price_size
}.

Record sp_snapshot : Type := mkSp {
  nearPrice : option Q;
  farPrice : option Q;
  backStakeTaken : list price_size;
  layLiabilityTaken : list price_size;
  actualSP : option value
}.

Record snapshot : Type := mkSnapshot {
  status : option value;
  ex : ex_snapshot;
  sp : sp_snapshot;
  adjustmentFactor : option value;
  removalDate : option value;
  lastPriceTraded : option Q;
  handicap_out : Q;
  totalMatched : option Q;
  selectionId : Z
}.

(** [definition] is [None] for the empty dict [{}]; [serialised] is [None]
    for the empty dict it holds until [serialise] is first called. *)
Record t : Type := mk {
  selection_id : Z;
  last_price_traded : option Q;
  total_matched : option Q;
  traded : Available.t;
  available_to_back : Available.t;
  best_available_to_back : Available.t;
  best_display_available_to_back : Available.t;
  available_to_lay : Available.t;
  best_available_to_lay : Available.t;
  best_display_available_to_lay : Available.t;
  starting_price_back : Available.t;
  starting_price_lay : Available.t;
  starting_price_near : option Q;
  starting_price_far : option Q;
  handicap : Q;
  definition : option runner_definition;
  _definition_status : option value;
  _definition_bsp : option value;
  _definition_adjustment_factor : option value;
  _definition_removal_date : option value;
  serialised : option snapshot
}.

(** Attribute assignments [runner.f = v]. *)
Definition set_last_price_traded (v : option Q) (r : t) : t :=
  mk (selection_id r) v (total_matched r) (traded r) (available_to_back r)
    (best_available_to_back r) (best_display_available_to_back r)
    (available_to_lay r) (best_available_to_lay r)
    (best_display_available_to_lay r) (starting_price_back r)
    (starting_price_lay r) (starting_price_near r) (starting_price_far r)
    (handicap r) (definition r) (_definition_status r) (_definition_bsp r)
    (_definition_adjustment_factor r) (_definition_removal_date r)
    (serialised r).

Definition set_total_matched (v : option Q) (r : t) : t :=
  mk (selection_id r) (last_price_traded r) v (traded r) (available_to_back r)
    (best_available_to_back r) (best_display_available_to_back r)
    (available_to_lay r) (best_available_to_lay r)
    (best_display_available_to_lay r) (starting_price_back r)
    (starting_price_lay r) (starting_price_near r) (starting_price_far r)
    (handicap r) (definition r) (_definition_status r) (_definition_bsp r)
    (_definition_adjustment_factor r) (_definition_removal_date r)
    (serialised r).

Definition set_traded (v : Available.t) (r : t) : t :=
  mk (selection_id r) (last_price_traded r) (total_matched r) v
    (available_to_back r)
    (best_available_to_back r) (best_display_available_to_back r)
    (available_to_lay r) (best_available_to_lay r)
    (best_display_available_to_lay r) (starting_price_back r)
    (starting_price_lay r) (starting_price_near r) (starting_price_far r)
    (handicap r) (definition r) (_definition_status r) (_definition_bsp r)
    (_definition_adjustment_factor r) (_definition_removal_date r)
    (serialised r).

Definition set_available_to_back (v : Available.t) (r : t) : t :=
  mk (selection_id r) (last_price_traded r) (total_matched r) (traded r) v
    (best_available_to_back r) (best_display_available_to_back r)
    (available_to_lay r) (best_available_to_lay r)
    (best_display_available_to_lay r) (starting_price_back r)
    (starting_price_lay r) (starting_price_near r) (starting_price_far r)
    (handicap r) (definition r) (_definition_status r) (_definition_bsp r)
    (_definition_adjustment_factor r) (_definition_removal_date r)
    (serialised r).

Definition set_best_available_to_back (v : Available.t) (r : t) : t :=
  mk (selection_id r) (last_price_traded r) (total_matched r) (traded r)
    (available_to_back r) v (best_display_available_to_back r)
    (available_to_lay r) (best_available_to_lay r)
    (best_display_available_to_lay r) (starting_price_back r)
    (starting_price_lay r) (starting_price_near r) (starting_price_far r)
    (handicap r) (definition r) (_definition_status r) (_definition_bsp r)
    (_definition_adjustment_factor r) (_definition_removal_date r)
    (serialised r).

Definition set_best_display_available_to_back (v : Available.t) (r : t) : t :=
  mk (selection_id r) (last_price_traded r) (total_matched r) (traded r)
    (available_to_back r) (best_available_to_back r) v
    (available_to_lay r) (best_available_to_lay r)
    (best_display_available_to_lay r) (starting_price_back r)
    (starting_price_lay r) (starting_price_near r) (starting_price_far r)
    (handicap r) (definition r) (_definition_status r) (_definition_bsp r)
    (_definition_adjustment_factor r) (_definition_removal_date r)
    (serialised r).

Definition set_available_to_lay (v : Available.t) (r : t) : t :=
  mk (selection_id r) (last_price_traded r) (total_matched r) (traded r)
    (available_to_back r) (best_available_to_back r)
    (best_display_available_to_back r) v (best_available_to_lay r)
    (best_display_available_to_lay r) (starting_price_back r)
    (starting_price_lay r) (starting_price_near r) (starting_price_far r)
    (handicap r) (definition r) (_definition_status r) (_definition_bsp r)
    (_definition_adjustment_factor r) (_definition_removal_date r)
    (serialised r).

Definition set_best_available_to_lay (v : Available.t) (r : t) : t :=
  mk (selection_id r) (last_price_traded r) (total_matched r) (traded r)
    (available_to_back r) (best_available_to_back r)
    (best_display_available_to_back r) (available_to_lay r) v
    (best_display_available_to_lay r) (starting_price_back r)
    (starting_price_lay r) (starting_price_near r) (starting_price_far r)
    (handicap r) (definition r) (_definition_status r) (_definition_bsp r)
    (_definition_adjustment_factor r) (_definition_removal_date r)
    (serialised r).

Definition set_best_display_available_to_lay (v : Available.t) (r : t) : t :=
  mk (selection_id r) (last_price_traded r) (total_matched r) (traded r)
    (available_to_back r) (best_available_to_back r)
    (best_display_available_to_back r) (available_to_lay r)
    (best_available_to_lay r) v (starting_price_back r)
    (starting_price_lay r) (starting_price_near r) (starting_price_far r)
    (handicap r) (definition r) (_definition_status r) (_definition_bsp r)
    (_definition_adjustment_factor r) (_definition_removal_date r)
    (serialised r).

Definition set_starting_price_back (v : Available.t) (r : t) : t :=
  mk (selection_id r) (last_price_traded r) (total_matched r) (traded r)
    (available_to_back r) (best_available_to_back r)
    (best_display_available_to_back r) (available_to_lay r)
    (best_available_to_lay r) (best_display_available_to_lay r) v
    (starting_price_lay r) (starting_price_near r) (starting_price_far r)
    (handicap r) (definition r) (_definition_status r) (_definition_bsp r)
    (_definition_adjustment_factor r) (_definition_removal_date r)
    (serialised r).

Definition set_starting_price_lay (v : Available.t) (r : t) : t :=
  mk (selection_id r) (last_price_traded r) (total_matched r) (traded r)
    (available_to_back r) (best_available_to_back r)
    (best_display_available_to_back r) (available_to_lay r)
    (best_available_to_lay r) (best_display_available_to_lay r)
    (starting_price_back r) v (starting_price_near r) (starting_price_far r)
    (handicap r) (definition r) (_definition_status r) (_definition_bsp r)
    (_definition_adjustment_factor r) (_definition_removal_date r)
    (serialised r).

Definition set_starting_price_near (v : option Q) (r : t) : t :=
  mk (selection_id r) (last_price_traded r) (total_matched r) (traded r)
    (available_to_back r) (best_available_to_back r)
    (best_display_available_to_back r) (available_to_lay r)
    (best_available_to_lay r) (best_display_available_to_lay r)
    (starting_price_back r) (starting_price_lay r) v (starting_price_far r)
    (handicap r) (definition r) (_definition_status r) (_definition_bsp r)
    (_definition_adjustment_factor r) (_definition_removal_date r)
    (serialised r).

Definition set_starting_price_far (v : option Q) (r : t) : t :=
  mk (selection_id r) (last_price_traded r) (total_matched r) (traded r)
    (available_to_back r) (best_available_to_back r)
    (best_display_available_to_back r) (available_to_lay r)
    (best_available_to_lay r) (best_display_available_to_lay r)
    (starting_price_back r) (starting_price_lay r) (starting_price_near r) v
    (handicap r) (definition r) (_definition_status r) (_definition_bsp r)
    (_definition_adjustment_factor r) (_definition_removal_date r)
    (serialised r).

Definition set_serialised (v : option snapshot) (r : t) : t :=
  mk (selection_id r) (last_price_traded r) (total_matched r) (traded r)
    (available_to_back r) (best_available_to_back r)
    (best_display_available_to_back r) (available_to_lay r)
    (best_available_to_lay r) (best_display_available_to_lay r)
    (starting_price_back r) (starting_price_lay r) (starting_price_near r)
    (starting_price_far r)
    (handicap r) (definition r) (_definition_status r) (_definition_bsp r)
    (_definition_adjustment_factor r) (_definition_removal_date r) v.

(** [self.definition.get(key)] *)
Definition definition_get (key : string) (d : option runner_definition)
  : option value :=
  match d with
  | Some rd => pydict_get key (rd_fields rd)
  | None => None
  end.

(** [update_definition(self, definition)] *)
Definition update_definition (d : option runner_definition) (r : t) : t :=
  mk (selection_id r) (last_price_traded r) (total_matched r) (traded r)
    (available_to_back r) (best_available_to_back r)
    (best_display_available_to_back r) (available_to_lay r)
    (best_available_to_lay r) (best_display_available_to_lay r)
    (starting_price_back r) (starting_price_lay r) (starting_price_near r)
    (starting_price_far r) (handicap r) d
    (definition_get "status" d) (definition_get "bsp" d)
    (definition_get "adjustmentFactor" d) (definition_get "removalDate" d)
    (serialised r).

(** [__init__(self, id, ltp=None, ..., hc=0, definition=None)], called with
    the keys of [nd] and, from the definition path, [definition]. *)
Definition init (nd : runner_change) (d : option runner_definition)
  : option t :=
  trd <- Available.init (rc_trd nd) 1 false ;;
  atb <- Available.init (rc_atb nd) 1 true ;;
  batb <- Available.init (rc_batb nd) 2 false ;;
  bdatb <- Available.init (rc_bdatb nd) 2 false ;;
  atl <- Available.init (rc_atl nd) 1 false ;;
  batl <- Available.init (rc_batl nd) 2 false ;;
  bdatl <- Available.init (rc_bdatl nd) 2 false ;;
  spb <- Available.init (rc_spb nd) 1 false ;;
  spl <- Available.init (rc_spl nd) 1 false ;;
  Some (update_definition d
          (mk (rc_id nd) (rc_ltp nd) (rc_tv nd) trd atb batb bdatb atl batl
             bdatl spb spl (rc_spn nd) (rc_spf nd) (hc_or_0 (rc_hc nd))
             d None None None None None)).

(** [update_traded(self, traded_update)] *)
Definition update_traded (traded_update : list row) (r : t) : option t :=
  match traded_update with
  | [] => a <- Available.clear (traded r) ;; Some (set_traded a r)
  | _ :: _ =>
      a <- Available.update (traded r) traded_update ;; Some (set_traded a r)
  end.

(** A list is true when it is not empty. *)
Definition truthy {A : Type} (l : list A) : bool :=
  match l with [] => false | _ :: _ => true end.

(** [serialise_available_to_back(self)] *)
Definition serialise_available_to_back (r : t) : list price_size :=
  if truthy (Available.prices (available_to_back r))
  then Available.serialise (available_to_back r)
  else if truthy (Available.prices (best_display_available_to_back r))
  then Available.serialise (best_display_available_to_back r)
  else if truthy (Available.prices (best_available_to_back r))
  then Available.serialise (best_available_to_back r)
  else [].

(** [serialise_available_to_lay(self)] *)
Definition serialise_available_to_lay (r : t) : list price_size :=
  if truthy (Available.prices (available_to_lay r))
  then Available.serialise (available_to_lay r)
  else if truthy (Available.prices (best_display_available_to_lay r))
  then Available.serialise (best_display_available_to_lay r)
  else if truthy (Available.prices (best_available_to_lay r))
  then Available.serialise (best_available_to_lay r)
  else [].

(** The mapping assigned to [self.serialised] by [serialise]. *)
Definition to_snapshot (r : t) : snapshot :=
  mkSnapshot (_definition_status r)
    (mkEx (Available.serialise (traded r))
       (serialise_available_to_back r) (serialise_available_to_lay r))
    (mkSp (starting_price_near r) (starting_price_far r)
       (Available.serialise (starting_price_back r))
       (Available.serialise (starting_price_lay r))
       (_definition_bsp r))
    (_definition_adjustment_factor r) (_definition_removal_date r)
    (last_price_traded r) (handicap r) (total_matched r) (selection_id r).

(** [serialise(self)] *)
Definition serialise (r : t) : t := set_serialised (Some (to_snapshot r)) r.

End RunnerBook.

(** ** [class MarketBookCache] *)

Module MarketBookCache.

(** [runners] is the store of runner objects: it only grows, so a position
    in it identifies one object.  [runner_dict] maps a key to such a
    position, which models the reference the Python dict shares with the
    list.  [market_definition] is [None] for the initial [{}].

    The attribute [streaming_update] is not part of the state.  It is a
    reference to the payload object of the last call, and that object does
    not stay as it was sent: the constructor of [Available] keeps the
    payload's own list of rows ([self.prices = prices or []]), sorts it in
    place and changes it on later updates.  The state here holds values,
    not objects; nothing in [cache.py] but [create_resource] reads the
    attribute. *)
Record t : Type := mk {
  market_id : string;
  publish_time : Z;
  total_matched : option Q;
  market_definition : option market_definition_t;
  _definition_bet_delay : option value;
  _definition_version : option value;
  _definition_complete : option value;
  _definition_runners_voidable : option value;
  _definition_status : option value;
  _definition_bsp_reconciled : option value;
  _definition_cross_matching : option value;
  _definition_in_play : option value;
  _definition_number_of_winners : option value;
  _definition_number_of_active_runners : option value;
  _definition_price_ladder_definition : option value;
  _definition_key_line_description : option value;
  runners : list RunnerBook.t;
  runner_dict : list (runner_key * nat);
  _number_of_runners : nat
}.

(** [__init__(self, market_id, publish_time)] *)
Definition init (mid : string) (pt : Z) : t :=
  mk mid pt None None None None None None None None None None None None None
    None [] [] 0.

Definition set_runners (rs : list RunnerBook.t) (m : t) : t :=
  mk (market_id m) (publish_time m) (total_matched m) (market_definition m)
    (_definition_bet_delay m) (_definition_version m) (_definition_complete m)
    (_definition_runners_voidable m) (_definition_status m)
    (_definition_bsp_reconciled m) (_definition_cross_matching m)
    (_definition_in_play m) (_definition_number_of_winners m)
    (_definition_number_of_active_runners m)
    (_definition_price_ladder_definition m)
    (_definition_key_line_description m)
    rs (runner_dict m) (_number_of_runners m).

Definition set_total_matched (v : option Q) (m : t) : t :=
  mk (market_id m) (publish_time m) v (market_definition m)
    (_definition_bet_delay m) (_definition_version m) (_definition_complete m)
    (_definition_runners_voidable m) (_definition_status m)
    (_definition_bsp_reconciled m) (_definition_cross_matching m)
    (_definition_in_play m) (_definition_number_of_winners m)
    (_definition_number_of_active_runners m)
    (_definition_price_ladder_definition m)
    (_definition_key_line_description m)
    (runners m) (runner_dict m) (_number_of_runners m).

(** [self.publish_time = publish_time] *)
Definition set_publish_time (pt : Z) (m : t) : t :=
  mk (market_id m) pt (total_matched m) (market_definition m)
    (_definition_bet_delay m) (_definition_version m) (_definition_complete m)
    (_definition_runners_voidable m) (_definition_status m)
    (_definition_bsp_reconciled m) (_definition_cross_matching m)
    (_definition_in_play m) (_definition_number_of_winners m)
    (_definition_number_of_active_runners m)
    (_definition_price_ladder_definition m)
    (_definition_key_line_description m)
    (runners m) (runner_dict m) (_number_of_runners m).

(** The assignments that open [_process_market_definition]. *)
Definition set_definition (md : market_definition_t) (m : t) : t :=
  let get k := pydict_get k (md_fields md) in
  mk (market_id m) (publish_time m) (total_matched m) (Some md)
    (get "betDelay"%string) (get "version"%string) (get "complete"%string)
    (get "runnersVoidable"%string) (get "status"%string)
    (get "bspReconciled"%string) (get "crossMatching"%string)
    (get "inPlay"%string)
    (get "numberOfWinners"%string) (get "numberOfActiveRunners"%string)
    (get "priceLadderDefinition"%string) (get "keyLineDefinition"%string)
    (runners m) (runner_dict m) (_number_of_runners m).

(** The dict comprehension of [_add_new_runner], over the runners paired
    with their positions. *)
Definition build_runner_dict (rs : list RunnerBook.t)
  : list (runner_key * nat) :=
  fold_left
    (fun d ir =>
       dict_set runner_key_eqb
         (RunnerBook.selection_id (snd ir), RunnerBook.handicap (snd ir))
         (fst ir) d)
    (combine (seq 0 (List.length rs)) rs) [].

(** [_add_new_runner(self, **kwargs)]: the cache and the position of the
    runner it returns. *)
Definition _add_new_runner (nd : runner_change) (d : option runner_definition)
  (m : t) : option (t * nat) :=
  runner <- RunnerBook.init nd d ;;
  let rs := runners m ++ [runner] in
  Some (mk (market_id m) (publish_time m) (total_matched m)
          (market_definition m)
          (_definition_bet_delay m) (_definition_version m)
          (_definition_complete m) (_definition_runners_voidable m)
          (_definition_status m) (_definition_bsp_reconciled m)
          (_definition_cross_matching m) (_definition_in_play m)
          (_definition_number_of_winners m)
          (_definition_number_of_active_runners m)
          (_definition_price_ladder_definition m)
          (_definition_key_line_description m)
          rs (build_runner_dict rs) (List.length rs),
        List.length (runners m)).

(** [runner.serialise()] on the runner at position [i]. *)
Definition serialise_runner (i : nat) (m : t) : option t :=
  runner <- nth_error (runners m) i ;;
  Some (set_runners (list_set i (RunnerBook.serialise runner) (runners m)) m).

(** [if key in new_data: ...] *)
Definition when {A : Type} (o : option A)
  (f : A -> RunnerBook.t -> option RunnerBook.t) (r : RunnerBook.t)
  : option RunnerBook.t :=
  match o with
  | Some v => f v r
  | None => Some r
  end.

(** [runner.<ladder>.update(rows)] *)
Definition update_ladder (get : RunnerBook.t -> Available.t)
  (set : Available.t -> RunnerBook.t -> RunnerBook.t) (rows : list row)
  (r : RunnerBook.t) : option RunnerBook.t :=
  a <- Available.update (get r) rows ;;
  Some (set a r).

(** The [if runner:] branch of [update_cache]. *)
Definition apply_runner_change (new_data : runner_change) (runner : RunnerBook.t)
  : option RunnerBook.t :=
  r <- when (rc_ltp new_data)
         (fun v r => Some (RunnerBook.set_last_price_traded (Some v) r))
         runner ;;
  r <- when (rc_tv new_data)
         (fun v r => Some (RunnerBook.set_total_matched (Some v) r)) r ;;
  r <- when (rc_spn new_data)
         (fun v r => Some (RunnerBook.set_starting_price_near (Some v) r)) r ;;
  r <- when (rc_spf new_data)
         (fun v r => Some (RunnerBook.set_starting_price_far (Some v) r)) r ;;
  r <- when (rc_trd new_data) RunnerBook.update_traded r ;;
  r <- when (rc_atb new_data)
         (update_ladder RunnerBook.available_to_back
            RunnerBook.set_available_to_back) r ;;
  r <- when (rc_atl new_data)
         (update_ladder RunnerBook.available_to_lay
            RunnerBook.set_available_to_lay) r ;;
  r <- when (rc_batb new_data)
         (update_ladder RunnerBook.best_available_to_back
            RunnerBook.set_best_available_to_back) r ;;
  r <- when (rc_batl new_data)
         (update_ladder RunnerBook.best_available_to_lay
            RunnerBook.set_best_available_to_lay) r ;;
  r <- when (rc_bdatb new_data)
         (update_ladder RunnerBook.best_display_available_to_back
            RunnerBook.set_best_display_available_to_back) r ;;
  r <- when (rc_bdatl new_data)
         (update_ladder RunnerBook.best_display_available_to_lay
            RunnerBook.set_best_display_available_to_lay) r ;;
  r <- when (rc_spb new_data)
         (update_ladder RunnerBook.starting_price_back
            RunnerBook.set_starting_price_back) r ;;
  when (rc_spl new_data)
    (update_ladder RunnerBook.starting_price_lay
       RunnerBook.set_starting_price_lay) r.

(** The body of the loop over [market_change["rc"]]. *)
Definition process_runner_change (m : t) (new_data : runner_change)
  : option t :=
  match dict_get runner_key_eqb (rc_id new_data, hc_or_0 (rc_hc new_data))
          (runner_dict m) with
  | Some i =>
      runner <- nth_error (runners m) i ;;
      runner' <- apply_runner_change new_data runner ;;
      serialise_runner i (set_runners (list_set i runner' (runners m)) m)
  | None =>
      '(m', i) <- _add_new_runner new_data None m ;;
      serialise_runner i m'
  end.

(** The keyword arguments [id=selection_id, hc=hc] of the definition path. *)
Definition definition_kwargs (selection_id : Z) (hc : Q) : runner_change :=
  mkRunnerChange selection_id (Some hc) None None None None None None None
    None None None None None None.

(** The body of the loop over [market_definition["runners"]]. *)
Definition process_runner_definition (m : t) (rd : runner_definition)
  : option t :=
  let selection_id := rd_id rd in
  let hc := hc_or_0 (rd_hc rd) in
  match dict_get runner_key_eqb (selection_id, hc) (runner_dict m) with
  | Some i =>
      runner <- nth_error (runners m) i ;;
      serialise_runner i
        (set_runners
           (list_set i (RunnerBook.update_definition (Some rd) runner)
              (runners m)) m)
  | None =>
      '(m', i) <- _add_new_runner (definition_kwargs selection_id hc)
                    (Some rd) m ;;
      serialise_runner i m'
  end.

(** [_process_market_definition(self, market_definition)] *)
Definition _process_market_definition (md : market_definition_t) (m : t)
  : option t :=
  for_each process_runner_definition
    (match md_runners md with Some l => l | None => [] end)
    (set_definition md m).

(** [update_cache(self, market_change, publish_time)] *)
Definition update_cache (m : t) (mc : market_change) (pt : Z) : option t :=
  let m := set_publish_time pt m in
  m <- match mc_marketDefinition mc with
       | Some md => _process_market_definition md m
       | None => Some m
       end ;;
  let m := match mc_tv mc with
           | Some v => set_total_matched (Some v) m
           | None => m
           end in
  match mc_rc mc with
  | Some rc => for_each process_runner_change rc m
  | None => Some m
  end.

(** The [closed] property. *)
Definition closed (m : t) : bool :=
  match market_definition m with
  | Some md =>
      match pydict_get "status" (md_fields md) with
      | Some (VStr status) => String.eqb status "CLOSED"
      | _ => false
      end
  | None => false
  end.

(** The mapping returned by the [serialise] property; [runners_out] is its
    ["runners"] entry, an element being [None] for the [{}] a runner holds
    before its first [serialise]. *)
Record snapshot : Type := mkSnapshot {
  marketId : string;
  totalAvailable : option value;
  isMarketDataDelayed : option value;
  lastMatchTime : option value;
  betDelay : option value;
  version : option value;
  complete : option value;
  runnersVoidable : option value;
  totalMatched : option Q;
  status : option value;
  bspReconciled : option value;
  crossMatching : option value;
  inplay : option value;
  numberOfWinners : option value;
  numberOfRunners : nat;
  numberOfActiveRunners : option value;
  runners_out : list (option RunnerBook.snapshot);
  publishTime : Z;
  priceLadderDefinition : option value;
  keyLineDescription : option value;
  marketDefinition : option market_definition_t
}.

(** The [serialise] property. *)
Definition serialise (m : t) : snapshot :=
  mkSnapshot (market_id m) None None None
    (_definition_bet_delay m) (_definition_version m) (_definition_complete m)
    (_definition_runners_voidable m) (total_matched m) (_definition_status m)
    (_definition_bsp_reconciled m) (_definition_cross_matching m)
    (_definition_in_play m) (_definition_number_of_winners m)
    (_number_of_runners m) (_definition_number_of_active_runners m)
    (map RunnerBook.serialised (runners m)) (publish_time m)
    (_definition_price_ladder_definition m)
    (_definition_key_line_description m) (market_definition m).

End MarketBookCache.

(** ** Date helpers *)

(** [BaseResource.strip_datetime] and [utils.create_date_string] are
    imported by [cache.py] from modules the caches do not define; they are
    parameters of the development. *)
Class DateOps : Type := {
  datetime : Type;
  strip_datetime : option Z -> option datetime;
  create_date_string : option datetime -> option string
}.

(** ** Enumerations *)

(** [StreamingOrderType], [StreamingPersistenceType], [StreamingSide] and
    [StreamingStatus] are imported by [cache.py] from [enums]; the
    serialisers read [E[name].value], which raises for a name that is not
    a member.  The tables are parameters of the development. *)
Class EnumOps : Type := {
  StreamingOrderType : string -> option string;
  StreamingPersistenceType : string -> option string;
  StreamingSide : string -> option string;
  StreamingStatus : string -> option string
}.

(** ** Payloads of the order stream *)

(** One entry of [order_changes["uo"]]: the keyword arguments of
    [UnmatchedOrder.__init__]; the ones with a default are optional. *)
Record order_payload : Type := mkOrderPayload {
  op_id : string;
  op_p : Q;
  op_s : Q;
  op_side : string;
  op_status : string;
  op_ot : string;
  op_pd : Z;
  op_sm : Q;
  op_sr : Q;
  op_sl : Q;
  op_sc : Q;
  op_sv : Q;
  op_rfo : string;
  op_rfs : string;
  op_pt : option string;
  op_md : option Z;
  op_avp : option Q;
  op_bsp : option Q;
  op_ld : option Z;
  op_rac : option string;
  op_rc : option string;
  op_lsrc : option string;
  op_cd : option Z
}.

(** One entry of [order_book["orc"]]. *)
Record order_change : Type := mkOrderChange {
  oc_id : Z;
  oc_fullImage : option bool;
  oc_ml : option (list row);
  oc_mb : option (list row);
  oc_uo : option (list order_payload);
  oc_hc : option Q;
  oc_smc : option pydict
}.

Record order_book : Type := mkOrderBook {
  ob_closed : option bool;
  ob_orc : option (list order_change)
}.

(** ** [class UnmatchedOrder] *)

Module UnmatchedOrder.

Section WithDates.

Context {D : DateOps}.

Record t : Type := mk {
  bet_id : string;
  price : Q;
  size : Q;
  bsp_liability : option Q;
  side : string;
  status : string;
  persistence_type : option string;
  order_type : string;
  placed_date : option datetime;
  _placed_date_string : option string;
  matched_date : option datetime;
  _matched_date_string : option string;
  average_price_matched : option Q;
  size_matched : Q;
  size_remaining : Q;
  size_lapsed : Q;
  size_cancelled : Q;
  size_voided : Q;
  regulator_auth_code : option string;
  regulator_code : option string;
  reference_order : string;
  reference_strategy : string;
  lapsed_date : option datetime;
  _lapsed_date_string : option string;
  lapse_status_reason_code : option string;
  cancelled_date : option datetime;
  _cancelled_date_string : option string
}.

(** [__init__(self, id, p, s, ..., cd=None, **kwargs)] *)
Definition init (i : order_payload) : t :=
  let placed := strip_datetime (Some (op_pd i)) in
  let matched := strip_datetime (op_md i) in
  let lapsed := strip_datetime (op_ld i) in
  let cancelled := strip_datetime (op_cd i) in
  mk (op_id i) (op_p i) (op_s i) (op_bsp i) (op_side i) (op_status i)
    (op_pt i) (op_ot i)
    placed (create_date_string placed)
    matched (create_date_string matched)
    (op_avp i) (op_sm i) (op_sr i) (op_sl i) (op_sc i) (op_sv i)
    (op_rac i) (op_rc i) (op_rfo i) (op_rfs i)
    lapsed (create_date_string lapsed)
    (op_lsrc i)
    cancelled (create_date_string cancelled).

Context {E : EnumOps}.

(** The mapping returned by [serialise]. *)
Record current_order : Type := mkCurrentOrder {
  averagePriceMatched : Q;
  betId : string;
  bspLiability : option Q;
  handicap : Q;
  marketId : option string;
  matchedDate : option string;
  orderType : string;
  persistenceType : option string;
  placedDate : option string;
  priceSize : price_size;
  regulatorAuthCode : option string;
  regulatorCode : option string;
  selectionId : Z;
  side_out : string;
  sizeCancelled : Q;
  sizeLapsed : Q;
  sizeMatched : Q;
  sizeRemaining : Q;
  sizeVoided : Q;
  status_out : string;
  customerStrategyRef : string;
  customerOrderRef : string;
  lapsedDate : option string;
  lapseStatusReasonCode : option string;
  cancelledDate : option string
}.

(** [self.average_price_matched or 0.0] *)
Definition or_zero (avp : option Q) : Q :=
  match avp with
  | Some q => if Qeq_bool q 0 then 0 else q
  | None => 0
  end.

(** [StreamingPersistenceType[pt].value if pt else None]: [None] and the
    empty string are false. *)
Definition persistence_value (pt : option string) : option (option string) :=
  match pt with
  | Some (String c s) =>
      v <- StreamingPersistenceType (String c s) ;; Some (Some v)
  | _ => Some None
  end.

(** [serialise(self, market_id, selection_id, handicap)] *)
Definition serialise (market_id : option string) (selection_id : Z)
  (hc : Q) (o : t) : option current_order :=
  ot <- StreamingOrderType (order_type o) ;;
  pt <- persistence_value (persistence_type o) ;;
  sd <- StreamingSide (side o) ;;
  st <- StreamingStatus (status o) ;;
  Some (mkCurrentOrder (or_zero (average_price_matched o)) (bet_id o)
          (bsp_liability o) hc market_id (_matched_date_string o) ot pt
          (_placed_date_string o) (PriceSize (price o) (size o))
          (regulator_auth_code o) (regulator_code o) selection_id sd
          (size_cancelled o) (size_lapsed o) (size_matched o)
          (size_remaining o) (size_voided o) st (reference_strategy o)
          (reference_order o) (_lapsed_date_string o)
          (lapse_status_reason_code o) (_cancelled_date_string o)).

End WithDates.

End UnmatchedOrder.

(** ** [class OrderBookRunner] *)

Module OrderBookRunner.

Section WithDates.

Context {D : DateOps}.

Record t : Type := mk {
  selection_id : Z;
  full_image : option bool;
  matched_lays : Available.t;
  matched_backs : Available.t;
  unmatched_orders : list (string * UnmatchedOrder.t);
  handicap : Q;
  strategy_matches : option pydict
}.

(** [update_unmatched(self, unmatched_orders)], on the mapping. *)
Definition set_orders (orders : list order_payload)
  (d : list (string * UnmatchedOrder.t)) : list (string * UnmatchedOrder.t) :=
  fold_left
    (fun d i => dict_set String.eqb (op_id i) (UnmatchedOrder.init i) d)
    orders d.

(** [__init__(self, id, fullImage=None, ml=None, mb=None, uo=None, hc=0,
    smc=None)], called with the keys of [order_changes]. *)
Definition init (oc : order_change) : option t :=
  ml <- Available.init (oc_ml oc) 1 false ;;
  mb <- Available.init (oc_mb oc) 1 false ;;
  Some (mk (oc_id oc) (oc_fullImage oc) ml mb
          (match oc_uo oc with
           | Some uo => set_orders uo []
           | None => []
           end)
          (hc_or_0 (oc_hc oc)) (oc_smc oc)).

Definition update_unmatched (orders : list order_payload) (r : t) : t :=
  mk (selection_id r) (full_image r) (matched_lays r) (matched_backs r)
    (set_orders orders (unmatched_orders r)) (handicap r)
    (strategy_matches r).

Definition set_matched_lays (a : Available.t) (r : t) : t :=
  mk (selection_id r) (full_image r) a (matched_backs r)
    (unmatched_orders r) (handicap r) (strategy_matches r).

Definition set_matched_backs (a : Available.t) (r : t) : t :=
  mk (selection_id r) (full_image r) (matched_lays r) a
    (unmatched_orders r) (handicap r) (strategy_matches r).

(** The mapping returned by [serialise_matches]. *)
Record matches : Type := mkMatches {
  selectionId : Z;
  matchedLays : list price_size;
  matchedBacks : list price_size
}.

(** [serialise_matches(self)] *)
Definition serialise_matches (r : t) : matches :=
  mkMatches (selection_id r) (Available.serialise (matched_lays r))
    (Available.serialise (matched_backs r)).

Context {E : EnumOps}.

(** [serialise_orders(self, market_id)] *)
Definition serialise_orders (market_id : option string) (r : t)
  : option (list UnmatchedOrder.current_order) :=
  let orders := map snd (unmatched_orders r) in
  comprehension
    (fun order =>
       UnmatchedOrder.serialise market_id (selection_id r) (handicap r) order)
    orders.

End WithDates.

End OrderBookRunner.

(** ** [class OrderBookCache] *)

Module OrderBookCache.

Section WithDates.

Context {D : DateOps}.

(** [runners] is the mapping from [(selection_id, handicap)] to the runner.
    As in [MarketBookCache], the attribute [streaming_update] is not part
    of the state: it refers to the order book object of the last call,
    whose ["ml"] and ["mb"] lists the matched ladders keep and sort in
    place. *)
Record t : Type := mk {
  _datetime_updated : option datetime;
  publish_time : option Z;
  market_id : option string;
  closed : option bool;
  runners : list (runner_key * OrderBookRunner.t)
}.

Definition set_runners (rs : list (runner_key * OrderBookRunner.t)) (c : t)
  : t :=
  mk (_datetime_updated c) (publish_time c) (market_id c) (closed c) rs.

(** [if full_image or runner is None] *)
Definition replaces (full_image : option bool)
  (runner : option OrderBookRunner.t) : bool :=
  match full_image, runner with
  | Some true, _ => true
  | _, None => true
  | _, Some _ => false
  end.

(** The [else] branch: the partial fields applied to the stored runner. *)
Definition apply_order_change (oc : order_change) (runner : OrderBookRunner.t)
  : option OrderBookRunner.t :=
  r <- match oc_ml oc with
       | Some ml =>
           a <- Available.update (OrderBookRunner.matched_lays runner) ml ;;
           Some (OrderBookRunner.set_matched_lays a runner)
       | None => Some runner
       end ;;
  r <- match oc_mb oc with
       | Some mb =>
           a <- Available.update (OrderBookRunner.matched_backs r) mb ;;
           Some (OrderBookRunner.set_matched_backs a r)
       | None => Some r
       end ;;
  Some (match oc_uo oc with
        | Some uo => OrderBookRunner.update_unmatched uo r
        | None => r
        end).

(** The body of the loop over [order_book.get("orc", [])]. *)
Definition process_order_change (c : t) (order_changes : order_change)
  : option t :=
  let selection_id := oc_id order_changes in
  let handicap := hc_or_0 (oc_hc order_changes) in
  let full_image := oc_fullImage order_changes in
  let _lookup := (selection_id, handicap) in
  let runner := dict_get runner_key_eqb _lookup (runners c) in
  if replaces full_image runner then
    r <- OrderBookRunner.init order_changes ;;
    Some (set_runners (dict_set runner_key_eqb _lookup r (runners c)) c)
  else
    match runner with
    | Some runner =>
        r <- apply_order_change order_changes runner ;;
        Some (set_runners (dict_set runner_key_eqb _lookup r (runners c)) c)
    | None => Some c
    end.

(** [update_cache(self, order_book, publish_time)] *)
Definition update_cache (c : t) (ob : order_book) (pt : Z) : option t :=
  let c := mk (strip_datetime (Some pt)) (Some pt) (market_id c)
             (match ob_closed ob with
              | Some b => Some b
              | None => closed c
              end)
             (runners c) in
  for_each process_order_change
    (match ob_orc ob with Some l => l | None => [] end) c.

Context {E : EnumOps}.

(** The mapping returned by the [serialise] property. *)
Record current_orders : Type := mkCurrentOrders {
  currentOrders : list UnmatchedOrder.current_order;
  matches : list OrderBookRunner.matches;
  moreAvailable : bool
}.

(** The body of the loop of [serialise], on the pair [orders, matches]. *)
Definition serialise_runner (market_id : option string)
  (acc : list UnmatchedOrder.current_order * list OrderBookRunner.matches)
  (runner : OrderBookRunner.t)
  : option (list UnmatchedOrder.current_order
            * list OrderBookRunner.matches) :=
  os <- OrderBookRunner.serialise_orders market_id runner ;;
  Some (fst acc ++ os, snd acc ++ [OrderBookRunner.serialise_matches runner]).

(** The [serialise] property. *)
Definition serialise (c : t) : option current_orders :=
  let runners := map snd (runners c) in
  acc <- for_each (serialise_runner (market_id c)) runners ([], []) ;;
  Some (mkCurrentOrders (fst acc) (snd acc) false).

End WithDates.

End OrderBookCache.

(** ** [class RunnerChange], [class RaceCache] *)

(** Payloads of the race stream: a race runner change is a free-form dict;
    [update["rpc"]] is kept whole. *)
Record race_update : Type := mkRaceUpdate {
  ru_rpc : option pydict;
  ru_rrc : option (list pydict)
}.

Module RunnerChange.

Record t : Type := mk { change : pydict }.

End RunnerChange.

Module RaceCache.

Section WithDates.

Context {D : DateOps}.

(** [rrc] is the store of [RunnerChange] objects; the [runner_dict] built
    by [update_cache] maps an id to a position in it.  The race cache
    keeps the payloads it is given and changes none of them, so
    [streaming_update] holds the update as it was sent. *)
Record t : Type := mk {
  _datetime_updated : option datetime;
  publish_time : option Z;
  market_id : option string;
  race_id : option string;
  rpc : option pydict;
  rrc : list RunnerChange.t;
  streaming_update : option race_update
}.

Definition set_rrc (l : list RunnerChange.t) (c : t) : t :=
  mk (_datetime_updated c) (publish_time c) (market_id c) (race_id c)
    (rpc c) l (streaming_update c).

(** [{runner.change["id"]: runner for runner in self.rrc}], from position
    [i] on. *)
Fixpoint build_runner_dict (i : nat) (l : list RunnerChange.t)
  (d : list (value * nat)) : option (list (value * nat)) :=
  match l with
  | [] => Some d
  | runner :: l' =>
      id <- pydict_get "id" (RunnerChange.change runner) ;;
      build_runner_dict (S i) l' (dict_set value_eqb id i d)
  end.

(** The body of the loop over [update["rrc"]]; [runner_dict] is the one
    built before the loop and is not updated by it. *)
Definition process_runner_update (runner_dict : list (value * nat))
  (l : list RunnerChange.t) (runner_update : pydict)
  : option (list RunnerChange.t) :=
  id <- pydict_get "id" runner_update ;;
  match dict_get value_eqb id runner_dict with
  | Some i => Some (list_set i (RunnerChange.mk runner_update) l)
  | None => Some (l ++ [RunnerChange.mk runner_update])
  end.

(** [update_cache(self, update, publish_time)] *)
Definition update_cache (c : t) (update : race_update) (pt : Z) : option t :=
  let c := mk (strip_datetime (Some pt)) (Some pt) (market_id c) (race_id c)
             (match ru_rpc update with
              | Some p => Some p
              | None => rpc c
              end)
             (rrc c) (Some update) in
  match ru_rrc update with
  | Some updates =>
      runner_dict <- build_runner_dict 0 (rrc c) [] ;;
      l <- for_each (process_runner_update runner_dict)
             updates (rrc c) ;;
      Some (set_rrc l c)
  | None => Some c
  end.

(** The ["rrc"] entry of the [serialise] property. *)
Definition serialise_rrc (c : t) : list pydict :=
  map RunnerChange.change (rrc c).

(** The mapping returned by the [serialise] property. *)
Record snapshot : Type := mkSnapshot {
  pt_out : option Z;
  mid_out : option string;
  id_out : option string;
  rpc_out : option pydict;
  rrc_out : list pydict
}.

(** The [serialise] property. *)
Definition serialise (c : t) : snapshot :=
  mkSnapshot (publish_time c) (market_id c) (race_id c) (rpc c)
    (serialise_rrc c).

End WithDates.

End RaceCache.

(** * Specification vocabulary *)

(** ** Rows of a ladder *)

(** The row has an identity field. *)
Definition has_id (r : row) : bool :=
  match r with [] => false | _ :: _ => true end.

(** The rows share an identity: [trade[0] == book[0]]. *)
Definition same_id (trade book : row) : bool :=
  match trade, book with
  | t0 :: _, b0 :: _ => Qeq_bool t0 b0
  | _, _ => false
  end.

(** Both rows have an identity field and the two differ. *)
Definition differs_id (trade book : row) : bool :=
  match trade, book with
  | t0 :: _, b0 :: _ => negb (Qeq_bool t0 b0)
  | _, _ => false
  end.

(** No row of [ps] has the identity of [book]. *)
Definition unmatched (book : row) (ps : list row) : bool :=
  forallb (fun trade => differs_id trade book) ps.

(** Some row of [ps] has the identity of [book]. *)
Definition matched (book : row) (ps : list row) : bool :=
  existsb (fun trade => same_id trade book) ps.

(** The size field [book[deletion_select]] exists and is zero. *)
Definition size_is_zero (ds : Z) (book : row) : bool :=
  match py_index book ds with
  | Some s => Qeq_bool s 0
  | None => false
  end.

(** The size field exists and is not zero. *)
Definition size_nonzero (ds : Z) (book : row) : bool :=
  match py_index book ds with
  | Some s => negb (Qeq_bool s 0)
  | None => false
  end.

(** The row has the fields [sort] reads: it can be rendered. *)
Definition row_ok (ds : Z) (r : row) : bool :=
  match Available.render_row ds r with
  | Some _ => true
  | None => false
  end.

Definition rows_ok (ds : Z) (ps : list row) : bool := forallb (row_ok ds) ps.

(** The cached rendering is the rendering of the rows: the state every
    method of [Available] leaves behind. *)
Definition consistent (a : Available.t) : Prop :=
  Available.render (Available.deletion_select a) (Available.prices a)
  = Some (Available.serialise a).

(** Every element is related to all the elements after it. *)
Fixpoint pairwise {A : Type} (R : A -> A -> bool) (l : list A) : bool :=
  match l with
  | [] => true
  | x :: l' => forallb (R x) l' && pairwise R l'
  end.

(** No two rows share an identity. *)
Definition ids_distinct (ps : list row) : bool := pairwise differs_id ps.

(** The identity of [r1] may come before that of [r2] in the direction
    [rev] ([true]: descending). *)
Definition id_leb (rev : bool) (r1 r2 : row) : bool :=
  match r1, r2 with
  | x :: _, y :: _ => if rev then Qle_bool y x else Qle_bool x y
  | _, _ => false
  end.

(** The rows are sorted by identity in the direction [rev]. *)
Definition ids_sorted (rev : bool) (ps : list row) : bool :=
  pairwise (id_leb rev) ps.

(** [new] is [old] after rows were deleted or replaced in place by rows of
    the same identity: what is left keeps its relative order. *)
Inductive kept_in_order : list row -> list row -> Prop :=
  | kept_nil : kept_in_order [] []
  | kept_delete : forall r old new,
      kept_in_order old new -> kept_in_order (r :: old) new
  | kept_row : forall r r' old new,
      same_id r r' = true ->
      kept_in_order old new -> kept_in_order (r :: old) (r' :: new).

(** What a batch of nonzero rows turns a row into when every identity of
    the batch is already in the ladder: the last row of the batch with its
    identity, or itself. *)
Fixpoint override (batch : list row) (r : row) : row :=
  match batch with
  | [] => r
  | book :: more => override more (if same_id r book then book else r)
  end.

(** The four outcomes of the inner loop of [update] for one row [book]:
    the rows before and after, and whether [book] was appended. *)
Inductive merge_step (ds : Z) (book : row)
  : list row -> list row -> bool -> Prop :=
  | step_drop : forall ps,
      unmatched book ps = true -> size_is_zero ds book = true ->
      merge_step ds book ps ps false
  | step_append : forall ps,
      unmatched book ps = true -> size_nonzero ds book = true ->
      merge_step ds book ps (ps ++ [book]) true
  | step_delete : forall l1 trade l2,
      unmatched book l1 = true -> same_id trade book = true ->
      size_is_zero ds book = true ->
      merge_step ds book (l1 ++ trade :: l2) (l1 ++ l2) false
  | step_replace : forall l1 trade l2,
      unmatched book l1 = true -> same_id trade book = true ->
      size_nonzero ds book = true ->
      merge_step ds book (l1 ++ trade :: l2) (l1 ++ book :: l2) false.

(** The ladders the program can hold: built by the constructor, changed by
    [update] and [clear] only. *)
Inductive ladder : Available.t -> Prop :=
  | ladder_init : forall initial ds rev a,
      Available.init initial ds rev = Some a -> ladder a
  | ladder_update : forall a batch a',
      ladder a -> Available.update a batch = Some a' -> ladder a'
  | ladder_clear : forall a a',
      ladder a -> Available.clear a = Some a' -> ladder a'.

(** ** Payloads and entries of the caches *)

(** A runner change that carries the identity fields and ["ltp"] only. *)
Definition ltp_only (id : Z) (hc : option Q) (ltp : Q) : runner_change :=
  mkRunnerChange id hc (Some ltp) None None None None None None None None
    None None None None.

(** The snapshot [s] with its ["lastPriceTraded"] set to [v]. *)
Definition with_lastPriceTraded (v : option Q) (s : RunnerBook.snapshot)
  : RunnerBook.snapshot :=
  RunnerBook.mkSnapshot (RunnerBook.status s) (RunnerBook.ex s)
    (RunnerBook.sp s) (RunnerBook.adjustmentFactor s)
    (RunnerBook.removalDate s) v (RunnerBook.handicap_out s)
    (RunnerBook.totalMatched s) (RunnerBook.selectionId s).

(** What a runner change [nd] leaves of the runner [R] in [R']: the
    identity and definition fields and the cached snapshot always, and
    every field whose key is absent from [nd]. *)
Definition absent_fields_kept (nd : runner_change) (R R' : RunnerBook.t)
  : Prop :=
  (RunnerBook.selection_id R' = RunnerBook.selection_id R /\
   RunnerBook.handicap R' = RunnerBook.handicap R /\
   RunnerBook.definition R' = RunnerBook.definition R /\
   RunnerBook._definition_status R' = RunnerBook._definition_status R /\
   RunnerBook._definition_bsp R' = RunnerBook._definition_bsp R /\
   RunnerBook._definition_adjustment_factor R'
   = RunnerBook._definition_adjustment_factor R /\
   RunnerBook._definition_removal_date R'
   = RunnerBook._definition_removal_date R /\
   RunnerBook.serialised R' = RunnerBook.serialised R) /\
  (rc_ltp nd = None ->
   RunnerBook.last_price_traded R' = RunnerBook.last_price_traded R) /\
  (rc_tv nd = None ->
   RunnerBook.total_matched R' = RunnerBook.total_matched R) /\
  (rc_spn nd = None ->
   RunnerBook.starting_price_near R' = RunnerBook.starting_price_near R) /\
  (rc_spf nd = None ->
   RunnerBook.starting_price_far R' = RunnerBook.starting_price_far R) /\
  (rc_trd nd = None -> RunnerBook.traded R' = RunnerBook.traded R) /\
  (rc_atb nd = None ->
   RunnerBook.available_to_back R' = RunnerBook.available_to_back R) /\
  (rc_atl nd = None ->
   RunnerBook.available_to_lay R' = RunnerBook.available_to_lay R) /\
  (rc_batb nd = None ->
   RunnerBook.best_available_to_back R'
   = RunnerBook.best_available_to_back R) /\
  (rc_batl nd = None ->
   RunnerBook.best_available_to_lay R' = RunnerBook.best_available_to_lay R) /\
  (rc_bdatb nd = None ->
   RunnerBook.best_display_available_to_back R'
   = RunnerBook.best_display_available_to_back R) /\
  (rc_bdatl nd = None ->
   RunnerBook.best_display_available_to_lay R'
   = RunnerBook.best_display_available_to_lay R) /\
  (rc_spb nd = None ->
   RunnerBook.starting_price_back R' = RunnerBook.starting_price_back R) /\
  (rc_spl nd = None ->
   RunnerBook.starting_price_lay R' = RunnerBook.starting_price_lay R).

(** The cached snapshot of the runner is the snapshot of its fields. *)
Definition fresh (r : RunnerBook.t) : Prop :=
  RunnerBook.serialised r = Some (RunnerBook.to_snapshot r).

(** The market caches the program can hold: built by the constructor,
    changed by [update_cache] only. *)
Inductive market : MarketBookCache.t -> Prop :=
  | market_init : forall mid pt, market (MarketBookCache.init mid pt)
  | market_update : forall m mc pt m',
      market m -> MarketBookCache.update_cache m mc pt = Some m' -> market m'.

(** The ladder [Available(None, ds, rev)]. *)
Definition empty_ladder (ds : Z) (rev : bool) : Available.t :=
  Available.mk [] ds rev [].

(** The entry has an ["id"], and it is not [id]. *)
Definition id_differs (id : value) (e : RunnerChange.t) : bool :=
  match pydict_get "id" (RunnerChange.change e) with
  | Some id' => negb (value_eqb id' id)
  | None => false
  end.

(** The entry has the ["id"] [id]. *)
Definition id_matches (id : value) (e : RunnerChange.t) : bool :=
  match pydict_get "id" (RunnerChange.change e) with
  | Some id' => value_eqb id' id
  | None => false
  end.

Definition has_race_id (e : RunnerChange.t) : bool :=
  match pydict_get "id" (RunnerChange.change e) with
  | Some _ => true
  | None => false
  end.

(** The position of the last entry of [l] that has the id [id], the
    positions counted from [i]: what the lookup
    [{runner.change["id"]: runner for runner in self.rrc}] reads. *)
Fixpoint last_with_id (id : value) (i : nat) (l : list RunnerChange.t)
  : option nat :=
  match l with
  | [] => None
  | e :: l' =>
      match last_with_id id (S i) l' with
      | Some j => Some j
      | None => if id_matches id e then Some i else None
      end
  end.

(** The position among the entries [l0] the cache held when the update
    began that the payload [u] is written to, if any. *)
Definition target (l0 : list RunnerChange.t) (u : pydict) : option nat :=
  match pydict_get "id" u with
  | Some id => last_with_id id 0 l0
  | None => None
  end.

(** The payload of the update that ends at position [j]: the last one
    written there. *)
Definition replacement (l0 : list RunnerChange.t) (updates : list pydict)
  (j : nat) : option pydict :=
  find
    (fun u =>
       match target l0 u with
       | Some j' => Nat.eqb j' j
       | None => false
       end)
    (rev updates).

(** The payloads of the update whose id none of the entries [l0] has, in
    the order of the update. *)
Definition appended (l0 : list RunnerChange.t) (updates : list pydict)
  : list pydict :=
  filter
    (fun u =>
       match target l0 u with
       | Some _ => false
       | None => true
       end)
    updates.

(** An instance of the date helpers to evaluate the caches on concrete
    inputs: a date stays the epoch value, no string is rendered. *)
Definition epoch_dates : DateOps :=
  Build_DateOps Z (fun t => t) (fun _ => None).

(** ** The ladder as a map from identities to rows *)

(** The row of [ps] that has the identity of [x], if any. *)
Definition lookup_id (x : row) (ps : list row) : option row :=
  find (fun r => same_id r x) ps.

(** What one incoming row [book] makes of the row held under the identity
    of [x]: a row of that identity takes its place, or removes it when its
    size is zero; another row leaves it. *)
Definition write (ds : Z) (x : row) (held : option row) (book : row)
  : option row :=
  if same_id book x
  then if size_nonzero ds book then Some book else None
  else held.

(** ** Runners of a market cache *)

(** The key of a runner: [(runner.selection_id, runner.handicap)]. *)
Definition key_of (r : RunnerBook.t) : runner_key :=
  (RunnerBook.selection_id r, RunnerBook.handicap r).

(** The key a runner change is looked up with. *)
Definition change_key (nd : runner_change) : runner_key :=
  (rc_id nd, hc_or_0 (rc_hc nd)).

(** The key a runner definition is looked up with. *)
Definition definition_key (rd : runner_definition) : runner_key :=
  (rd_id rd, hc_or_0 (rd_hc rd)).

(** The index of the cache is the one built from its runners, and the
    count is their number. *)
Definition indexed (m : MarketBookCache.t) : Prop :=
  MarketBookCache.runner_dict m
  = MarketBookCache.build_runner_dict (MarketBookCache.runners m) /\
  MarketBookCache._number_of_runners m
  = List.length (MarketBookCache.runners m).

(** No two runners have one key. *)
Definition keys_distinct (rs : list RunnerBook.t) : bool :=
  pairwise (fun r1 r2 => negb (runner_key_eqb (key_of r1) (key_of r2))) rs.

(** The price data of two runners is the same: everything a market
    definition does not carry. *)
Definition same_prices (r r' : RunnerBook.t) : Prop :=
  RunnerBook.selection_id r' = RunnerBook.selection_id r /\
  RunnerBook.handicap r' = RunnerBook.handicap r /\
  RunnerBook.last_price_traded r' = RunnerBook.last_price_traded r /\
  RunnerBook.total_matched r' = RunnerBook.total_matched r /\
  RunnerBook.traded r' = RunnerBook.traded r /\
  RunnerBook.available_to_back r' = RunnerBook.available_to_back r /\
  RunnerBook.best_available_to_back r' = RunnerBook.best_available_to_back r /\
  RunnerBook.best_display_available_to_back r'
  = RunnerBook.best_display_available_to_back r /\
  RunnerBook.available_to_lay r' = RunnerBook.available_to_lay r /\
  RunnerBook.best_available_to_lay r' = RunnerBook.best_available_to_lay r /\
  RunnerBook.best_display_available_to_lay r'
  = RunnerBook.best_display_available_to_lay r /\
  RunnerBook.starting_price_back r' = RunnerBook.starting_price_back r /\
  RunnerBook.starting_price_lay r' = RunnerBook.starting_price_lay r /\
  RunnerBook.starting_price_near r' = RunnerBook.starting_price_near r /\
  RunnerBook.starting_price_far r' = RunnerBook.starting_price_far r.

(** The scalars a runner caches are those of the definition it holds. *)
Definition runner_synced (r : RunnerBook.t) : Prop :=
  RunnerBook._definition_status r
  = RunnerBook.definition_get "status" (RunnerBook.definition r) /\
  RunnerBook._definition_bsp r
  = RunnerBook.definition_get "bsp" (RunnerBook.definition r) /\
  RunnerBook._definition_adjustment_factor r
  = RunnerBook.definition_get "adjustmentFactor" (RunnerBook.definition r) /\
  RunnerBook._definition_removal_date r
  = RunnerBook.definition_get "removalDate" (RunnerBook.definition r).

(** [market_definition.get(key)] on the definition a cache holds. *)
Definition market_definition_get (key : string) (m : MarketBookCache.t)
  : option value :=
  match MarketBookCache.market_definition m with
  | Some md => pydict_get key (md_fields md)
  | None => None
  end.

(** The cache [m] after [_add_new_runner] has built the runner [r] and
    [serialise] has been called on it. *)
Definition with_runner (r : RunnerBook.t) (m : MarketBookCache.t)
  : MarketBookCache.t :=
  MarketBookCache.mk (MarketBookCache.market_id m)
    (MarketBookCache.publish_time m) (MarketBookCache.total_matched m)
    (MarketBookCache.market_definition m)
    (MarketBookCache._definition_bet_delay m)
    (MarketBookCache._definition_version m)
    (MarketBookCache._definition_complete m)
    (MarketBookCache._definition_runners_voidable m)
    (MarketBookCache._definition_status m)
    (MarketBookCache._definition_bsp_reconciled m)
    (MarketBookCache._definition_cross_matching m)
    (MarketBookCache._definition_in_play m)
    (MarketBookCache._definition_number_of_winners m)
    (MarketBookCache._definition_number_of_active_runners m)
    (MarketBookCache._definition_price_ladder_definition m)
    (MarketBookCache._definition_key_line_description m)
    (MarketBookCache.runners m ++ [RunnerBook.serialise r])
    (MarketBookCache.build_runner_dict (MarketBookCache.runners m ++ [r]))
    (List.length (MarketBookCache.runners m ++ [r])).

(** The market-level fields of a cache: the cache without its runners,
    index and count. *)
Definition market_level (m : MarketBookCache.t) : MarketBookCache.t :=
  MarketBookCache.mk (MarketBookCache.market_id m)
    (MarketBookCache.publish_time m) (MarketBookCache.total_matched m)
    (MarketBookCache.market_definition m)
    (MarketBookCache._definition_bet_delay m)
    (MarketBookCache._definition_version m)
    (MarketBookCache._definition_complete m)
    (MarketBookCache._definition_runners_voidable m)
    (MarketBookCache._definition_status m)
    (MarketBookCache._definition_bsp_reconciled m)
    (MarketBookCache._definition_cross_matching m)
    (MarketBookCache._definition_in_play m)
    (MarketBookCache._definition_number_of_winners m)
    (MarketBookCache._definition_number_of_active_runners m)
    (MarketBookCache._definition_price_ladder_definition m)
    (MarketBookCache._definition_key_line_description m) [] [] 0.

(** The scalars a cache holds are those of the definition it holds. *)
Definition market_synced (m : MarketBookCache.t) : Prop :=
  MarketBookCache._definition_bet_delay m
  = market_definition_get "betDelay" m /\
  MarketBookCache._definition_version m
  = market_definition_get "version" m /\
  MarketBookCache._definition_complete m
  = market_definition_get "complete" m /\
  MarketBookCache._definition_runners_voidable m
  = market_definition_get "runnersVoidable" m /\
  MarketBookCache._definition_status m
  = market_definition_get "status" m /\
  MarketBookCache._definition_bsp_reconciled m
  = market_definition_get "bspReconciled" m /\
  MarketBookCache._definition_cross_matching m
  = market_definition_get "crossMatching" m /\
  MarketBookCache._definition_in_play m
  = market_definition_get "inPlay" m /\
  MarketBookCache._definition_number_of_winners m
  = market_definition_get "numberOfWinners" m /\
  MarketBookCache._definition_number_of_active_runners m
  = market_definition_get "numberOfActiveRunners" m /\
  MarketBookCache._definition_price_ladder_definition m
  = market_definition_get "priceLadderDefinition" m /\
  MarketBookCache._definition_key_line_description m
  = market_definition_get "keyLineDefinition" m.

(** Every runner of [m] is still in [m'] at its position, with its key. *)
Definition runners_kept (m m' : MarketBookCache.t) : Prop :=
  forall i r,
    nth_error (MarketBookCache.runners m) i = Some r ->
    exists r',
      nth_error (MarketBookCache.runners m') i = Some r' /\
      key_of r' = key_of r.

(** Every runner of [m] is still in [m'] at its position, with its price
    data. *)
Definition prices_kept (m m' : MarketBookCache.t) : Prop :=
  forall i r,
    nth_error (MarketBookCache.runners m) i = Some r ->
    exists r',
      nth_error (MarketBookCache.runners m') i = Some r' /\
      same_prices r r'.

(** A market change to evaluate the cache on: two runners of one
    selection, told apart by their handicap. *)
Definition two_handicaps : market_change :=
  mkMarketChange None None
    (Some [ltp_only 7 None 2; ltp_only 7 (Some (3#2)) 4]).

(** The runner with selection [id], handicap [hc], last traded price
    [ltp], no other scalar, no definition and nine empty ladders. *)
Definition bare_runner (id : Z) (hc : option Q) (ltp : Q) : RunnerBook.t :=
  RunnerBook.mk id (Some ltp) None
    (empty_ladder 1 false) (empty_ladder 1 true) (empty_ladder 2 false)
    (empty_ladder 2 false) (empty_ladder 1 false) (empty_ladder 2 false)
    (empty_ladder 2 false) (empty_ladder 1 false) (empty_ladder 1 false)
    None None (hc_or_0 hc) None None None None None None.

(** The rows of an optional ladder key. *)
Definition rows_of (o : option (list row)) : list row :=
  match o with Some l => l | None => [] end.

(** Every ladder key of the runner change holds rows of the arity of its
    ladder. *)
Definition change_ok (nd : runner_change) : bool :=
  rows_ok 1 (rows_of (rc_trd nd)) && rows_ok 1 (rows_of (rc_atb nd)) &&
  rows_ok 2 (rows_of (rc_batb nd)) && rows_ok 2 (rows_of (rc_bdatb nd)) &&
  rows_ok 1 (rows_of (rc_atl nd)) && rows_ok 2 (rows_of (rc_batl nd)) &&
  rows_ok 2 (rows_of (rc_bdatl nd)) && rows_ok 1 (rows_of (rc_spb nd)) &&
  rows_ok 1 (rows_of (rc_spl nd)).

(** [market_definition.get("status") == "CLOSED"] *)
Definition status_closed (md : market_definition_t) : bool :=
  match pydict_get "status" (md_fields md) with
  | Some (VStr status) => String.eqb status "CLOSED"
  | _ => false
  end.

(** A market definition to evaluate the cache on: a closed market with
    one runner, a winner. *)
Definition closing_definition : market_definition_t :=
  mkMarketDefinition [("status", VStr "CLOSED"); ("version", VNum 4)]%string
    (Some [mkRunnerDefinition 7 None
             [("status", VStr "WINNER"); ("bsp", VNum (5#2))]%string]).

(** ** What a runner change writes *)

(** What a runner change [nd] writes into the runner [R], giving [R']: a
    scalar it carries is stored, the rows of a ladder key it carries are
    merged into that ladder by [update], and ["trd"] without rows empties
    the traded ladder. *)
Definition present_fields_written (nd : runner_change) (R R' : RunnerBook.t)
  : Prop :=
  (forall v, rc_ltp nd = Some v -> RunnerBook.last_price_traded R' = Some v) /\
  (forall v, rc_tv nd = Some v -> RunnerBook.total_matched R' = Some v) /\
  (forall v,
      rc_spn nd = Some v -> RunnerBook.starting_price_near R' = Some v) /\
  (forall v,
      rc_spf nd = Some v -> RunnerBook.starting_price_far R' = Some v) /\
  (rc_trd nd = Some [] ->
   RunnerBook.traded R'
   = Available.mk [] (Available.deletion_select (RunnerBook.traded R))
       (Available.reverse (RunnerBook.traded R)) []) /\
  (forall rows,
      rc_trd nd = Some rows -> rows <> [] ->
      Available.update (RunnerBook.traded R) rows
      = Some (RunnerBook.traded R')) /\
  (forall rows,
      rc_atb nd = Some rows ->
      Available.update (RunnerBook.available_to_back R) rows
      = Some (RunnerBook.available_to_back R')) /\
  (forall rows,
      rc_atl nd = Some rows ->
      Available.update (RunnerBook.available_to_lay R) rows
      = Some (RunnerBook.available_to_lay R')) /\
  (forall rows,
      rc_batb nd = Some rows ->
      Available.update (RunnerBook.best_available_to_back R) rows
      = Some (RunnerBook.best_available_to_back R')) /\
  (forall rows,
      rc_batl nd = Some rows ->
      Available.update (RunnerBook.best_available_to_lay R) rows
      = Some (RunnerBook.best_available_to_lay R')) /\
  (forall rows,
      rc_bdatb nd = Some rows ->
      Available.update (RunnerBook.best_display_available_to_back R) rows
      = Some (RunnerBook.best_display_available_to_back R')) /\
  (forall rows,
      rc_bdatl nd = Some rows ->
      Available.update (RunnerBook.best_display_available_to_lay R) rows
      = Some (RunnerBook.best_display_available_to_lay R')) /\
  (forall rows,
      rc_spb nd = Some rows ->
      Available.update (RunnerBook.starting_price_back R) rows
      = Some (RunnerBook.starting_price_back R')) /\
  (forall rows,
      rc_spl nd = Some rows ->
      Available.update (RunnerBook.starting_price_lay R) rows
      = Some (RunnerBook.starting_price_lay R')).

(** The ladder is in the state the methods of [Available] leave behind,
    with the size position [ds] and the direction [rev]: rendered, and
    sorted by identity. *)
Definition well_kept (ds : Z) (rev : bool) (a : Available.t) : Prop :=
  consistent a /\ Available.deletion_select a = ds /\
  Available.reverse a = rev /\
  ids_sorted rev (Available.prices a) = true.

(** The nine ladders of a runner as the constructor of [RunnerBook] sets
    them up: the size at position 1 or 2, the back side of the full-depth
    ladder descending, every other one ascending. *)
Definition runner_ladders_ok (r : RunnerBook.t) : Prop :=
  well_kept 1 false (RunnerBook.traded r) /\
  well_kept 1 true (RunnerBook.available_to_back r) /\
  well_kept 2 false (RunnerBook.best_available_to_back r) /\
  well_kept 2 false (RunnerBook.best_display_available_to_back r) /\
  well_kept 1 false (RunnerBook.available_to_lay r) /\
  well_kept 2 false (RunnerBook.best_available_to_lay r) /\
  well_kept 2 false (RunnerBook.best_display_available_to_lay r) /\
  well_kept 1 false (RunnerBook.starting_price_back r) /\
  well_kept 1 false (RunnerBook.starting_price_lay r).

(** Every runner change of the market change holds rows of the arity of
    their ladders. *)
Definition market_change_ok (mc : market_change) : bool :=
  forallb change_ok (match mc_rc mc with Some rc => rc | None => [] end).

(** A runner change to evaluate a runner on: traded volume and one
    price to back. *)
Definition traded_and_back : runner_change :=
  mkRunnerChange 7 None None None (Some [[2; 5]]) (Some [[3; 1]]) None None
    None None None None None None None.

(** The change that carries ["trd"] and ["atb"] without rows. *)
Definition no_rows : runner_change :=
  mkRunnerChange 7 None None None (Some []) (Some []) None None
    None None None None None None None.

(** The state [update_cache] keeps a market cache in: the index agrees
    with the runners, no two runners share a key, and the ladders of every
    runner are well kept. *)
Definition cache_ok (m : MarketBookCache.t) : Prop :=
  (indexed m /\ keys_distinct (MarketBookCache.runners m) = true) /\
  Forall runner_ladders_ok (MarketBookCache.runners m).

(** A market change to evaluate the cache on: the second runner change
    holds a row without a size. *)
Definition short_row : market_change :=
  mkMarketChange None (Some 10)
    (Some [traded_and_back;
           mkRunnerChange 8 None None None None (Some [[3]]) None None None
             None None None None None None]).

(** ** Entries of the order cache *)

(** No two entries of the mapping have one key. *)
Definition dict_keys_distinct {K V : Type} (keqb : K -> K -> bool)
  (d : list (K * V)) : bool :=
  pairwise (fun e1 e2 => negb (keqb (fst e1) (fst e2))) d.

(** The key an order runner change is looked up with. *)
Definition order_key (oc : order_change) : runner_key :=
  (oc_id oc, hc_or_0 (oc_hc oc)).

(** Every ["ml"] and ["mb"] row of the order book has a price and a
    size. *)
Definition order_change_ok (oc : order_change) : bool :=
  rows_ok 1 (rows_of (oc_ml oc)) && rows_ok 1 (rows_of (oc_mb oc)).

Definition order_book_ok (ob : order_book) : bool :=
  forallb order_change_ok (match ob_orc ob with Some l => l | None => [] end).

Section OrderVocabulary.

Context {D : DateOps}.

(** What a change without [fullImage] makes of the runner [r] the cache
    holds under its key: the identity, the markers and the strategy
    matches stay, the rows of ["ml"] and ["mb"] are merged into the
    matched ladders, the orders of ["uo"] are stored under their ids. *)
Definition order_runner_merged (oc : order_change) (r r' : OrderBookRunner.t)
  : Prop :=
  OrderBookRunner.selection_id r' = OrderBookRunner.selection_id r /\
  OrderBookRunner.handicap r' = OrderBookRunner.handicap r /\
  OrderBookRunner.full_image r' = OrderBookRunner.full_image r /\
  OrderBookRunner.strategy_matches r' = OrderBookRunner.strategy_matches r /\
  match oc_ml oc with
  | Some ml =>
      Available.update (OrderBookRunner.matched_lays r) ml
      = Some (OrderBookRunner.matched_lays r')
  | None => OrderBookRunner.matched_lays r' = OrderBookRunner.matched_lays r
  end /\
  match oc_mb oc with
  | Some mb =>
      Available.update (OrderBookRunner.matched_backs r) mb
      = Some (OrderBookRunner.matched_backs r')
  | None => OrderBookRunner.matched_backs r' = OrderBookRunner.matched_backs r
  end /\
  OrderBookRunner.unmatched_orders r'
  = match oc_uo oc with
    | Some uo =>
        OrderBookRunner.set_orders uo (OrderBookRunner.unmatched_orders r)
    | None => OrderBookRunner.unmatched_orders r
    end.

(** The order caches the program can hold: built without runners, changed
    by [update_cache] only. *)
Inductive order_cache : OrderBookCache.t -> Prop :=
  | order_cache_init : forall c,
      OrderBookCache.runners c = [] -> order_cache c
  | order_cache_update : forall c ob pt c',
      order_cache c -> OrderBookCache.update_cache c ob pt = Some c' ->
      order_cache c'.

(** An entry of [runners]: the key is the runner's selection and handicap,
    the matched ladders are well kept, and every order is stored under its
    bet id, once. *)
Definition order_runner_ok (e : runner_key * OrderBookRunner.t) : Prop :=
  runner_key_eqb (fst e)
    (OrderBookRunner.selection_id (snd e), OrderBookRunner.handicap (snd e))
  = true /\
  well_kept 1 false (OrderBookRunner.matched_lays (snd e)) /\
  well_kept 1 false (OrderBookRunner.matched_backs (snd e)) /\
  Forall (fun kv => UnmatchedOrder.bet_id (snd kv) = fst kv)
    (OrderBookRunner.unmatched_orders (snd e)) /\
  dict_keys_distinct String.eqb (OrderBookRunner.unmatched_orders (snd e))
  = true.

Definition order_cache_ok (c : OrderBookCache.t) : Prop :=
  dict_keys_distinct runner_key_eqb (OrderBookCache.runners c) = true /\
  Forall order_runner_ok (OrderBookCache.runners c).

End OrderVocabulary.

(** Payloads to evaluate the order cache on: one order, the image of a
    runner that holds it, and a change of that runner without
    [fullImage]. *)
Definition first_order : order_payload :=
  mkOrderPayload "o1" 2 10 "B" "E" "L" 1000 0 10 0 0 0 "ref" "strategy"
    None None None None None None None None None.

Definition opening_image : order_change :=
  mkOrderChange 7 (Some true) (Some [[2; 5]]) (Some [[4; 6]])
    (Some [first_order]) None None.



Definition later_change : order_change :=
  mkOrderChange 7 None (Some [[2; 0]; [3; 1]]) None None None
    (Some [("strategy", VNum 1)]%string).

Definition empty_order_cache : @OrderBookCache.t epoch_dates :=
  @OrderBookCache.mk epoch_dates None None (Some "1.101"%string) None [].

(** An order book whose second change holds a row without a size. *)
Definition short_order_book : order_book :=
  mkOrderBook (Some true)
    (Some [opening_image;
           mkOrderChange 8 None (Some [[2]]) None None None None]).

(** ** Entries of the race cache *)

(** The payload has an ["id"]. *)
Definition has_id_key (u : pydict) : bool :=
  match pydict_get "id" u with
  | Some _ => true
  | None => false
  end.

(** The race update can be applied to the entries [l]: it carries no
    ["rrc"], or every entry and every payload of ["rrc"] has an ["id"]. *)
Definition race_update_ok (l : list RunnerChange.t) (u : race_update) : bool :=
  match ru_rrc u with
  | Some updates => forallb has_race_id l && forallb has_id_key updates
  | None => true
  end.

(** What an update makes of the entry [e]: it stays, or a payload of the
    update with the id of [e] has taken its place. *)
Definition kept_or_replaced (u : race_update) (e e' : RunnerChange.t) : Prop :=
  e' = e \/
  exists upd id,
    In upd (match ru_rrc u with Some l => l | None => [] end) /\
    e' = RunnerChange.mk upd /\
    pydict_get "id" upd = Some id /\
    id_matches id e = true.

(** Race caches and an update to evaluate them on: two entries; one
    entry without ["id"]; a payload for the second entry and one with a
    new id. *)
Definition two_entries : @RaceCache.t epoch_dates :=
  @RaceCache.mk epoch_dates None None None (Some "28587288.1650"%string) None
    [RunnerChange.mk [("id", VNum 1); ("x", VNum 5)]%string;
     RunnerChange.mk [("id", VNum 2); ("x", VNum 6)]%string]
    None.

Definition entry_without_id : @RaceCache.t epoch_dates :=
  @RaceCache.mk epoch_dates None None None (Some "28587288.1650"%string) None
    [RunnerChange.mk [("x", VNum 5)]%string] None.

Definition second_and_new : race_update :=
  mkRaceUpdate (Some [("ord", VNum 1)]%string)
    (Some [[("id", VNum 2); ("y", VNum 9)];
           [("id", VNum 3); ("y", VNum 7)]]%string).

(** ** The serialised order book *)

Definition is_some {A : Type} (o : option A) : bool :=
  match o with Some _ => true | None => false end.

Section SerialiseVocabulary.

Context {D : DateOps} {E : EnumOps}.

(** The names the order holds are members of their enumerations. *)
Definition names_known (o : UnmatchedOrder.t) : bool :=
  is_some (StreamingOrderType (UnmatchedOrder.order_type o)) &&
  is_some
    (UnmatchedOrder.persistence_value (UnmatchedOrder.persistence_type o)) &&
  is_some (StreamingSide (UnmatchedOrder.side o)) &&
  is_some (StreamingStatus (UnmatchedOrder.status o)).

(** The unmatched orders of the runners, runner by runner, each with the
    runner that holds it. *)
Definition orders_of (rs : list OrderBookRunner.t)
  : list (OrderBookRunner.t * UnmatchedOrder.t) :=
  flat_map
    (fun r => map (fun kv => (r, snd kv)) (OrderBookRunner.unmatched_orders r))
    rs.

Definition stored_orders (c : OrderBookCache.t)
  : list (OrderBookRunner.t * UnmatchedOrder.t) :=
  orders_of (map snd (OrderBookCache.runners c)).

(** [o] is the order [ro] holds, labelled with the market of the cache and
    the selection and handicap of its runner. *)
Definition serialised_from (market_id : option string)
  (ro : OrderBookRunner.t * UnmatchedOrder.t)
  (o : UnmatchedOrder.current_order) : Prop :=
  UnmatchedOrder.serialise market_id
    (OrderBookRunner.selection_id (fst ro)) (OrderBookRunner.handicap (fst ro))
    (snd ro) = Some o.

End SerialiseVocabulary.

(** Tables to evaluate the serialisers on. *)
Definition stream_enums : EnumOps :=
  Build_EnumOps
    (fun n => if String.eqb n "L" then Some "LIMIT"%string else None)
    (fun n => if String.eqb n "P" then Some "PERSIST"%string else None)
    (fun n =>
       if String.eqb n "B" then Some "BACK"%string
       else if String.eqb n "L" then Some "LAY"%string else None)
    (fun n => if String.eqb n "E" then Some "EXECUTABLE"%string else None).

(** An order whose status is not in the tables. *)
Definition odd_order : order_payload :=
  mkOrderPayload "o2" 3 4 "L" "X" "L" 2000 0 4 0 0 0 "ref" "strategy"
    None None None None None None None None None.

(** A ladder to evaluate [update] on: two prices, ascending. *)
Definition two_rows : Available.t :=
  Available.mk [[2; 5]; [4; 1]] 1 false [PriceSize 2 5; PriceSize 4 1].

(** The payload has the ["id"] [idv]. *)
Definition payload_has_id (idv : value) (u : pydict) : bool :=
  match pydict_get "id" u with
  | Some id' => value_eqb id' idv
  | None => false
  end.

(** The snapshot [s] shows the scalars the runner change carries. *)
Definition shows (nd : runner_change) (s : RunnerBook.snapshot) : Prop :=
  (forall v, rc_ltp nd = Some v -> RunnerBook.lastPriceTraded s = Some v) /\
  (forall v, rc_tv nd = Some v -> RunnerBook.totalMatched s = Some v) /\
  (forall v,
      rc_spn nd = Some v ->
      RunnerBook.nearPrice (RunnerBook.sp s) = Some v) /\
  (forall v,
      rc_spf nd = Some v ->
      RunnerBook.farPrice (RunnerBook.sp s) = Some v).

(** A market change to evaluate the cache on: two changes of one runner
    and one of another. *)
Definition three_changes : market_change :=
  mkMarketChange None (Some 30)
    (Some [ltp_only 7 None 2; ltp_only 7 None 3; ltp_only 8 None 5]).

(** * Properties of the ladder *)

(** ** Numbers and indexing *)

Lemma Qeqb_refl (x : Q) : Qeq_bool x x = true.
Proof. apply Qeq_bool_iff. reflexivity. Qed.

Lemma Qeqb_sym (x y : Q) : Qeq_bool x y = Qeq_bool y x.
Proof.
  destruct (Qeq_bool x y) eqn:E, (Qeq_bool y x) eqn:F; try reflexivity.
  - apply Qeq_bool_iff in E. symmetry in E. apply Qeq_bool_iff in E. congruence.
  - apply Qeq_bool_iff in F. symmetry in F. apply Qeq_bool_iff in F. congruence.
Qed.

Lemma Qeqb_trans (x y z : Q) :
  Qeq_bool x y = true -> Qeq_bool y z = true -> Qeq_bool x z = true.
Proof.
  rewrite !Qeq_bool_iff. intros H1 H2. now rewrite H1.
Qed.

(** Two numbers equal to a third one are told apart from the same numbers. *)
Lemma Qeqb_congr (x y z : Q) :
  Qeq_bool x y = true -> Qeq_bool x z = Qeq_bool y z.
Proof.
  intros H.
  destruct (Qeq_bool y z) eqn:E.
  - eapply Qeqb_trans; eassumption.
  - destruct (Qeq_bool x z) eqn:F; try reflexivity.
    rewrite Qeqb_sym in H. rewrite <- E. symmetry.
    eapply Qeqb_trans; eassumption.
Qed.

Lemma py_index_0 (A : Type) (l : list A) :
  py_index l 0 = match l with [] => None | x :: _ => Some x end.
Proof. destruct l; reflexivity. Qed.

Lemma py_index_nil (A : Type) (i : Z) : py_index (@nil A) i = None.
Proof.
  unfold py_index. simpl.
  destruct (0 <=? i)%Z.
  - now destruct (Z.to_nat i).
  - destruct (0 <=? i + 0)%Z; try reflexivity. now destruct (Z.to_nat (i + 0)).
Qed.

(** ** Rendering *)

Lemma row_ok_has_id (ds : Z) (r : row) :
  row_ok ds r = true -> exists x r', r = x :: r'.
Proof.
  unfold row_ok, Available.render_row. destruct r as [|x r'].
  - rewrite py_index_nil. discriminate.
  - intros _. eauto.
Qed.

Lemma size_nonzero_has_id (ds : Z) (r : row) :
  size_nonzero ds r = true -> exists x r', r = x :: r'.
Proof.
  unfold size_nonzero. destruct r as [|x r'].
  - rewrite py_index_nil. discriminate.
  - intros _. eauto.
Qed.

Lemma size_is_zero_has_id (ds : Z) (r : row) :
  size_is_zero ds r = true -> exists x r', r = x :: r'.
Proof.
  unfold size_is_zero. destruct r as [|x r'].
  - rewrite py_index_nil. discriminate.
  - intros _. eauto.
Qed.

Lemma render_rows_ok (ds : Z) (ps : list row) :
  rows_ok ds ps = true <-> exists s, Available.render ds ps = Some s.
Proof.
  induction ps as [|r ps IH]; simpl.
  - split; eauto.
  - unfold row_ok. rewrite andb_true_iff, IH. split.
    + intros [Hr [s Hs]]. destruct (Available.render_row ds r); try discriminate.
      rewrite Hs. simpl. eauto.
    + intros [s Hs]. destruct (Available.render_row ds r); try discriminate.
      simpl in Hs. destruct (Available.render ds ps); try discriminate.
      split; eauto.
Qed.

Lemma consistent_rows_ok (a : Available.t) :
  consistent a ->
  rows_ok (Available.deletion_select a) (Available.prices a) = true.
Proof. intros H. apply render_rows_ok. eexists. exact H. Qed.

Lemma render_app (ds : Z) (l1 l2 : list row) :
  Available.render ds (l1 ++ l2)
  = s1 <- Available.render ds l1 ;;
    s2 <- Available.render ds l2 ;;
    Some (s1 ++ s2).
Proof.
  induction l1 as [|r l1 IH]; simpl.
  - now destruct (Available.render ds l2).
  - destruct (Available.render_row ds r); simpl; try reflexivity.
    rewrite IH. destruct (Available.render ds l1); simpl; try reflexivity.
    now destruct (Available.render ds l2).
Qed.

Lemma render_length (ds : Z) (ps : list row) (s : list price_size) :
  Available.render ds ps = Some s -> List.length s = List.length ps.
Proof.
  revert s. induction ps as [|r ps IH]; simpl; intros s H.
  - now inversion H.
  - destruct (Available.render_row ds r); try discriminate. simpl in H.
    destruct (Available.render ds ps) as [es|]; try discriminate.
    inversion H. simpl. now rewrite (IH es).
Qed.

Lemma rows_ok_app (ds : Z) (l1 l2 : list row) :
  rows_ok ds (l1 ++ l2) = rows_ok ds l1 && rows_ok ds l2.
Proof. apply forallb_app. Qed.

(** ** One incoming row *)

Lemma same_id_refl (r : row) : has_id r = true -> same_id r r = true.
Proof. destruct r; simpl; [discriminate|]. intros _. apply Qeqb_refl. Qed.

Lemma row_ok_has_idb (ds : Z) (r : row) : row_ok ds r = true -> has_id r = true.
Proof. intros H. now destruct (row_ok_has_id _ _ H) as (x & r' & ->). Qed.

Lemma rows_ok_has_id (ds : Z) (ps : list row) :
  rows_ok ds ps = true -> forallb has_id ps = true.
Proof.
  unfold rows_ok. rewrite !forallb_forall. intros H r Hr.
  eapply row_ok_has_idb. now apply H.
Qed.

Lemma same_id_has_id (r1 r2 : row) :
  same_id r1 r2 = true ->
  exists x r1' y r2', r1 = x :: r1' /\ r2 = y :: r2' /\ Qeq_bool x y = true.
Proof.
  destruct r1 as [|x r1'], r2 as [|y r2']; simpl; try discriminate.
  intros H. exists x, r1', y, r2'. auto.
Qed.

Lemma differs_id_has_id (r1 r2 : row) :
  differs_id r1 r2 = true ->
  exists x r1' y r2', r1 = x :: r1' /\ r2 = y :: r2' /\ Qeq_bool x y = false.
Proof.
  destruct r1 as [|x r1'], r2 as [|y r2']; simpl; try discriminate.
  intros H. exists x, r1', y, r2'. apply negb_true_iff in H. auto.
Qed.

Lemma same_id_sym (r1 r2 : row) : same_id r1 r2 = same_id r2 r1.
Proof.
  destruct r1, r2; simpl; try reflexivity. apply Qeqb_sym.
Qed.

Lemma differs_id_sym (r1 r2 : row) : differs_id r1 r2 = differs_id r2 r1.
Proof.
  destruct r1, r2; simpl; try reflexivity. now rewrite Qeqb_sym.
Qed.

Lemma same_id_trans (r1 r2 r3 : row) :
  same_id r1 r2 = true -> same_id r2 r3 = true -> same_id r1 r3 = true.
Proof.
  destruct r1, r2, r3; simpl; try discriminate. apply Qeqb_trans.
Qed.

(** Rows of one identity are told apart from the same rows. *)
Lemma differs_id_congr (r1 r2 r3 : row) :
  same_id r1 r2 = true -> differs_id r3 r1 = differs_id r3 r2.
Proof.
  destruct r1, r2, r3; simpl; try discriminate; try reflexivity.
  intros H. f_equal. rewrite (Qeqb_sym q1 q), (Qeqb_sym q1 q0).
  now apply Qeqb_congr.
Qed.

Lemma same_differs (r1 r2 : row) :
  same_id r1 r2 = true -> differs_id r1 r2 = false.
Proof.
  destruct r1, r2; simpl; try discriminate. now intros ->.
Qed.

(** No row matches: the [else] of the inner loop runs. *)
Lemma scan_unmatched (ds : Z) (book : row) (ps : list row) :
  unmatched book ps = true ->
  Available.scan ds book ps
  = s <- py_index book ds ;;
    if Qeq_bool s 0 then Some (ps, false) else Some (ps ++ [book], true).
Proof.
  induction ps as [|trade ps IH]; simpl; intros H.
  - reflexivity.
  - apply andb_true_iff in H. destruct H as [Hd Hu].
    destruct (differs_id_has_id _ _ Hd) as (t0 & tr & b0 & bk & -> & -> & Hne).
    rewrite !py_index_0. simpl. rewrite Hne.
    rewrite (IH Hu). destruct (py_index (b0 :: bk) ds) as [s|]; simpl.
    + now destruct (Qeq_bool s 0).
    + reflexivity.
Qed.

(** The first row that matches is deleted or replaced where it stands. *)
Lemma scan_matched (ds : Z) (book trade : row) (l1 l2 : list row) :
  unmatched book l1 = true ->
  same_id trade book = true ->
  Available.scan ds book (l1 ++ trade :: l2)
  = s <- py_index book ds ;;
    if Qeq_bool s 0 then Some (l1 ++ l2, false)
    else Some (l1 ++ book :: l2, false).
Proof.
  intros Hu Hs. induction l1 as [|r l1 IH]; simpl.
  - destruct (same_id_has_id _ _ Hs) as (t0 & tr & b0 & bk & -> & -> & He).
    rewrite !py_index_0. simpl. now rewrite He.
  - simpl in Hu. apply andb_true_iff in Hu. destruct Hu as [Hd Hu].
    destruct (differs_id_has_id _ _ Hd) as (t0 & tr & b0 & bk & -> & E & Hne).
    subst book. rewrite !py_index_0. simpl. rewrite Hne.
    rewrite (IH Hu). destruct (py_index (b0 :: bk) ds) as [s|]; simpl.
    + now destruct (Qeq_bool s 0).
    + reflexivity.
Qed.

(** Among rows that have an identity, either none matches [book] or there
    is a first one that does. *)
Lemma first_match (book : row) (ps : list row) :
  forallb has_id ps = true ->
  has_id book = true ->
  unmatched book ps = true \/
  exists l1 trade l2,
    ps = l1 ++ trade :: l2 /\ unmatched book l1 = true /\
    same_id trade book = true.
Proof.
  intros Hok Hb. destruct book as [|b0 bk]; try discriminate.
  induction ps as [|r ps IH].
  - now left.
  - simpl in Hok. apply andb_true_iff in Hok. destruct Hok as [Hr Hok].
    destruct r as [|x r']; try discriminate.
    destruct (same_id (x :: r') (b0 :: bk)) eqn:E.
    + right. exists [], (x :: r'), ps. auto.
    + destruct (IH Hok) as [Hu | (l1 & trade & l2 & -> & Hu & Hs)].
      * left. simpl. rewrite Hu. simpl in E. now rewrite E.
      * right. exists ((x :: r') :: l1), trade, l2. repeat split; auto.
        simpl. rewrite Hu. simpl in E. now rewrite E.
Qed.

Lemma matched_not_unmatched (book : row) (ps : list row) :
  matched book ps = true -> unmatched book ps = false.
Proof.
  induction ps as [|r ps IH]; simpl; try discriminate.
  intros H. apply orb_true_iff in H. destruct H as [H|H].
  - now rewrite (same_differs _ _ H).
  - rewrite (IH H). apply andb_false_r.
Qed.

(** ** Pairwise relations on lists *)

Lemma forallb_ext_all (A : Type) (P Q : A -> bool) (l : list A) :
  (forall a, P a = Q a) -> forallb P l = forallb Q l.
Proof.
  intros H. induction l as [|x l IH]; simpl; [reflexivity|].
  now rewrite H, IH.
Qed.

Lemma forallb_rev (A : Type) (P : A -> bool) (l : list A) :
  forallb P (rev l) = forallb P l.
Proof.
  induction l as [|x l IH]; simpl; [reflexivity|].
  rewrite forallb_app, IH. simpl.
  destruct (P x), (forallb P l); reflexivity.
Qed.

Lemma pairwise_app (A : Type) (R : A -> A -> bool) (l1 l2 : list A) :
  pairwise R (l1 ++ l2)
  = pairwise R l1 && pairwise R l2
    && forallb (fun a => forallb (R a) l2) l1.
Proof.
  induction l1 as [|x l1 IH]; simpl.
  - now rewrite andb_true_r.
  - rewrite forallb_app, IH.
    destruct (forallb (R x) l1), (forallb (R x) l2), (pairwise R l1),
      (pairwise R l2); reflexivity.
Qed.

Lemma pairwise_rev (A : Type) (R : A -> A -> bool) (l : list A) :
  pairwise R (rev l) = pairwise (fun a b => R b a) l.
Proof.
  induction l as [|x l IH]; simpl.
  - reflexivity.
  - rewrite pairwise_app, IH. simpl.
    assert (E : forallb (fun a => R a x && true) (rev l)
                = forallb (fun b => R b x) l).
    { rewrite forallb_rev. apply forallb_ext_all. intros a. apply andb_true_r. }
    rewrite E.
    destruct (pairwise (fun a b => R b a) l), (forallb (fun b => R b x) l);
      reflexivity.
Qed.

Lemma pairwise_ext (A : Type) (R R' : A -> A -> bool) (l : list A) :
  (forall a b, R a b = R' a b) -> pairwise R l = pairwise R' l.
Proof.
  intros H. induction l as [|x l IH]; simpl.
  - reflexivity.
  - rewrite IH. f_equal. apply forallb_ext_all. intros b. apply H.
Qed.

(** Two members that the relation does not tell apart are one member. *)
Lemma pairwise_In (A : Type) (R : A -> A -> bool) (l : list A) (x y : A) :
  (forall a b, R a b = R b a) ->
  pairwise R l = true -> In x l -> In y l -> R x y = false -> x = y.
Proof.
  intros Hsym. induction l as [|z l IH]; simpl; intros Hp Hx Hy Hr.
  - contradiction.
  - apply andb_true_iff in Hp. destruct Hp as [Hz Hp].
    rewrite forallb_forall in Hz.
    destruct Hx as [<-|Hx], Hy as [<-|Hy]; auto.
    + rewrite (Hz _ Hy) in Hr. discriminate.
    + rewrite Hsym, (Hz _ Hx) in Hr. discriminate.
Qed.

(** ** [list.sort] *)

Lemma forallb_insert_row (P : row -> bool) (x : row) (l : list row) :
  forallb P (insert_row x l) = P x && forallb P l.
Proof.
  induction l as [|y l IH]; simpl.
  - reflexivity.
  - destruct (row_ltb y x); simpl; rewrite ?IH;
      destruct (P x), (P y); reflexivity.
Qed.

Lemma forallb_sort_asc (P : row -> bool) (l : list row) :
  forallb P (sort_asc l) = forallb P l.
Proof.
  induction l as [|x l IH]; simpl.
  - reflexivity.
  - unfold sort_asc in *. simpl. now rewrite forallb_insert_row, IH.
Qed.

Lemma forallb_list_sort (P : row -> bool) (rev : bool) (l : list row) :
  forallb P (list_sort rev l) = forallb P l.
Proof.
  unfold list_sort. destruct rev.
  - now rewrite forallb_rev, forallb_sort_asc, forallb_rev.
  - apply forallb_sort_asc.
Qed.

Lemma Permutation_insert_row (x : row) (l : list row) :
  Permutation (x :: l) (insert_row x l).
Proof.
  induction l as [|y l IH]; simpl.
  - apply Permutation_refl.
  - destruct (row_ltb y x).
    + eapply perm_trans; [apply perm_swap|]. now apply perm_skip.
    + apply Permutation_refl.
Qed.

Lemma Permutation_sort_asc (l : list row) : Permutation l (sort_asc l).
Proof.
  induction l as [|x l IH]; simpl.
  - apply perm_nil.
  - eapply perm_trans; [apply perm_skip, IH|]. apply Permutation_insert_row.
Qed.

Lemma Permutation_list_sort (rev : bool) (l : list row) :
  Permutation l (list_sort rev l).
Proof.
  unfold list_sort. destruct rev.
  - eapply perm_trans; [apply Permutation_rev|].
    eapply perm_trans; [apply Permutation_sort_asc|]. apply Permutation_rev.
  - apply Permutation_sort_asc.
Qed.

Lemma Qle_bool_total (x y : Q) : Qle_bool x y = false -> Qle_bool y x = true.
Proof.
  intros H. apply Qle_bool_iff. destruct (Qlt_le_dec y x) as [L|L].
  - now apply Qlt_le_weak.
  - apply Qle_bool_iff in L. congruence.
Qed.

Lemma Qeqb_le (x y : Q) : Qeq_bool x y = true -> Qle_bool x y = true.
Proof.
  intros H. apply Qeq_bool_iff in H. apply Qle_bool_iff. rewrite H.
  apply Qle_refl.
Qed.

Lemma Qleb_trans (x y z : Q) :
  Qle_bool x y = true -> Qle_bool y z = true -> Qle_bool x z = true.
Proof.
  rewrite !Qle_bool_iff. apply Qle_trans.
Qed.

Lemma row_ltb_true_id (y0 x0 : Q) (y' x' : row) :
  row_ltb (y0 :: y') (x0 :: x') = true -> Qle_bool y0 x0 = true.
Proof.
  simpl. destruct (Qeq_bool y0 x0) eqn:E.
  - intros _. now apply Qeqb_le.
  - unfold Qlt_bool. intros H. apply negb_true_iff in H.
    now apply Qle_bool_total.
Qed.

Lemma row_ltb_false_id (y0 x0 : Q) (y' x' : row) :
  row_ltb (y0 :: y') (x0 :: x') = false -> Qle_bool x0 y0 = true.
Proof.
  simpl. destruct (Qeq_bool y0 x0) eqn:E.
  - intros _. rewrite Qeqb_sym in E. now apply Qeqb_le.
  - unfold Qlt_bool. intros H. now apply negb_false_iff in H.
Qed.

Lemma id_leb_trans (rev : bool) (r1 r2 r3 : row) :
  id_leb rev r1 r2 = true -> id_leb rev r2 r3 = true ->
  id_leb rev r1 r3 = true.
Proof.
  destruct r1, r2, r3; simpl; try discriminate.
  destruct rev; intros H1 H2; eapply Qleb_trans; eassumption.
Qed.

Lemma id_leb_flip (r1 r2 : row) : id_leb true r1 r2 = id_leb false r2 r1.
Proof. destruct r1, r2; reflexivity. Qed.

Lemma ids_sorted_insert_row (x : row) (l : list row) :
  has_id x = true -> forallb has_id l = true ->
  ids_sorted false l = true -> ids_sorted false (insert_row x l) = true.
Proof.
  unfold ids_sorted. intros Hx.
  induction l as [|y l IH]; simpl; intros Hl Hs.
  - reflexivity.
  - apply andb_true_iff in Hl. destruct Hl as [Hy Hl].
    apply andb_true_iff in Hs. destruct Hs as [Hyl Hs].
    destruct x as [|x0 x']; try discriminate.
    destruct y as [|y0 y']; try discriminate.
    destruct (row_ltb (y0 :: y') (x0 :: x')) eqn:E; simpl.
    + rewrite forallb_insert_row, (IH Hl Hs), Hyl. simpl.
      now rewrite (row_ltb_true_id _ _ _ _ E).
    + rewrite (row_ltb_false_id _ _ _ _ E), Hyl, Hs. simpl.
      rewrite !andb_true_r. apply forallb_forall. intros z Hz.
      rewrite forallb_forall in Hyl.
      apply id_leb_trans with (r2 := y0 :: y').
      * simpl. apply (row_ltb_false_id _ _ _ _ E).
      * now apply Hyl.
Qed.

Lemma ids_sorted_sort_asc (l : list row) :
  forallb has_id l = true -> ids_sorted false (sort_asc l) = true.
Proof.
  induction l as [|x l IH]; simpl; intros H.
  - reflexivity.
  - apply andb_true_iff in H. destruct H as [Hx Hl].
    apply ids_sorted_insert_row; auto.
    now rewrite forallb_sort_asc.
Qed.

(** Sorting puts the identities in the configured direction. *)
Lemma ids_sorted_list_sort (rev : bool) (l : list row) :
  forallb has_id l = true -> ids_sorted rev (list_sort rev l) = true.
Proof.
  intros H. unfold list_sort. destruct rev.
  - unfold ids_sorted. rewrite pairwise_rev.
    rewrite (pairwise_ext _ _ (id_leb false)) by (intros a b; apply id_leb_flip).
    apply ids_sorted_sort_asc. now rewrite forallb_rev.
  - now apply ids_sorted_sort_asc.
Qed.

Lemma ids_distinct_insert_row (x : row) (l : list row) :
  ids_distinct (insert_row x l) = ids_distinct (x :: l).
Proof.
  unfold ids_distinct. induction l as [|y l IH]; simpl.
  - reflexivity.
  - destruct (row_ltb y x); simpl; try reflexivity.
    rewrite forallb_insert_row, IH. simpl. rewrite (differs_id_sym y x).
    destruct (differs_id x y), (forallb (differs_id x) l),
      (forallb (differs_id y) l), (pairwise differs_id l); reflexivity.
Qed.

Lemma ids_distinct_sort_asc (l : list row) :
  ids_distinct (sort_asc l) = ids_distinct l.
Proof.
  induction l as [|x l IH]; simpl.
  - reflexivity.
  - change (sort_asc (x :: l)) with (insert_row x (sort_asc l)).
    rewrite ids_distinct_insert_row. unfold ids_distinct in *. simpl.
    now rewrite forallb_sort_asc, IH.
Qed.

Lemma ids_distinct_rev (l : list row) : ids_distinct (rev l) = ids_distinct l.
Proof.
  unfold ids_distinct. rewrite pairwise_rev. apply pairwise_ext.
  intros a b. apply differs_id_sym.
Qed.

(** Sorting neither merges nor splits identities. *)
Lemma ids_distinct_list_sort (rev : bool) (l : list row) :
  ids_distinct (list_sort rev l) = ids_distinct l.
Proof.
  unfold list_sort. destruct rev.
  - now rewrite ids_distinct_rev, ids_distinct_sort_asc, ids_distinct_rev.
  - apply ids_distinct_sort_asc.
Qed.

(** ** The inner loop as a step *)

Lemma size_zero_or_nonzero (ds : Z) (book : row) :
  row_ok ds book = true ->
  size_is_zero ds book = true \/ size_nonzero ds book = true.
Proof.
  unfold row_ok, Available.render_row, size_is_zero, size_nonzero.
  destruct (py_index book (ds - 1)); simpl; try discriminate.
  destruct (py_index book ds) as [s|]; simpl; try discriminate.
  intros _. destruct (Qeq_bool s 0); auto.
Qed.

Lemma size_zero_not_nonzero (ds : Z) (book : row) :
  size_is_zero ds book = true -> size_nonzero ds book = false.
Proof.
  unfold size_is_zero, size_nonzero.
  destruct (py_index book ds) as [s|]; try discriminate. now intros ->.
Qed.

(** A step is what [scan] computes. *)
Lemma step_scan (ds : Z) (book : row) (ps ps' : list row) (appended : bool) :
  merge_step ds book ps ps' appended ->
  Available.scan ds book ps = Some (ps', appended).
Proof.
  intros H. destruct H as [ps Hu Hz|ps Hu Hz|l1 trade l2 Hu Hs Hz|l1 trade l2 Hu Hs Hz].
  - rewrite (scan_unmatched _ _ _ Hu). unfold size_is_zero in Hz.
    destruct (py_index book ds); try discriminate. simpl. now rewrite Hz.
  - rewrite (scan_unmatched _ _ _ Hu). unfold size_nonzero in Hz.
    destruct (py_index book ds); try discriminate. simpl.
    apply negb_true_iff in Hz. now rewrite Hz.
  - rewrite (scan_matched _ _ _ _ _ Hu Hs). unfold size_is_zero in Hz.
    destruct (py_index book ds); try discriminate. simpl. now rewrite Hz.
  - rewrite (scan_matched _ _ _ _ _ Hu Hs). unfold size_nonzero in Hz.
    destruct (py_index book ds); try discriminate. simpl.
    apply negb_true_iff in Hz. now rewrite Hz.
Qed.

(** When the rows have identities and [book] has a size field, [scan] does
    not raise: it takes a step. *)
Lemma scan_step (ds : Z) (book : row) (ps : list row) :
  forallb has_id ps = true ->
  size_is_zero ds book = true \/ size_nonzero ds book = true ->
  exists ps' appended, merge_step ds book ps ps' appended.
Proof.
  intros Hps Hb.
  assert (Hid : has_id book = true).
  { destruct Hb as [Hz|Hz].
    - now destruct (size_is_zero_has_id _ _ Hz) as (x & r' & ->).
    - now destruct (size_nonzero_has_id _ _ Hz) as (x & r' & ->). }
  destruct (first_match book ps Hps Hid)
    as [Hu|(l1 & trade & l2 & -> & Hu & Hs)];
    destruct Hb as [Hz|Hz].
  - exists ps, false. now constructor.
  - exists (ps ++ [book]), true. now constructor.
  - exists (l1 ++ l2), false. now constructor.
  - exists (l1 ++ book :: l2), false. now constructor.
Qed.

Lemma step_rows_ok (ds : Z) (book : row) (ps ps' : list row) (appended : bool) :
  merge_step ds book ps ps' appended ->
  row_ok ds book = true -> rows_ok ds ps = true -> rows_ok ds ps' = true.
Proof.
  intros H Hb.
  destruct H as [ps Hu Hz|ps Hu Hz|l1 trade l2 Hu Hs Hz|l1 trade l2 Hu Hs Hz];
    rewrite ?rows_ok_app; simpl; rewrite ?Hb;
    intros Hps; rewrite ?andb_true_r; auto.
  - apply andb_true_iff in Hps. destruct Hps as [H1 H2].
    apply andb_true_iff in H2. destruct H2 as [_ H2]. now rewrite H1, H2.
  - apply andb_true_iff in Hps. destruct Hps as [H1 H2].
    apply andb_true_iff in H2. destruct H2 as [_ H2]. now rewrite H1, H2.
Qed.

(** A step never makes two rows share an identity. *)
Lemma step_ids_distinct (ds : Z) (book : row) (ps ps' : list row)
  (appended : bool) :
  merge_step ds book ps ps' appended ->
  ids_distinct ps = true -> ids_distinct ps' = true.
Proof.
  unfold ids_distinct.
  intros H. destruct H as [ps Hu Hz|ps Hu Hz|l1 trade l2 Hu Hs Hz|l1 trade l2 Hu Hs Hz];
    auto; rewrite !pairwise_app; simpl; intros Hd.
  - rewrite Hd. simpl. unfold unmatched in Hu.
    erewrite forallb_ext_all; [exact Hu|]. intros a. simpl.
    apply andb_true_r.
  - apply andb_true_iff in Hd. destruct Hd as [Hd Hc].
    apply andb_true_iff in Hd. destruct Hd as [H1 H2].
    apply andb_true_iff in H2. destruct H2 as [_ H2].
    rewrite H1, H2. simpl. rewrite forallb_forall in *. intros a Ha.
    specialize (Hc a Ha). simpl in Hc. apply andb_true_iff in Hc. tauto.
  - apply andb_true_iff in Hd. destruct Hd as [Hd Hc].
    apply andb_true_iff in Hd. destruct Hd as [H1 H2].
    apply andb_true_iff in H2. destruct H2 as [H3 H2].
    rewrite H1, H2. simpl. rewrite andb_true_r. apply andb_true_iff. split.
    + erewrite forallb_ext_all; [exact H3|]. intros a. simpl.
      rewrite (differs_id_sym book a), (differs_id_sym trade a).
      symmetry. now apply differs_id_congr.
    + rewrite forallb_forall in *. intros a Ha.
      specialize (Hc a Ha). simpl in *. apply andb_true_iff in Hc.
      destruct Hc as [Hc1 Hc2]. rewrite Hc2, andb_true_r.
      rewrite <- Hc1. symmetry. now apply differs_id_congr.
Qed.

Lemma id_leb_congr_r (rev : bool) (a trade book : row) :
  same_id trade book = true -> id_leb rev a trade = id_leb rev a book.
Proof.
  intros H.
  destruct (same_id_has_id _ _ H) as (t0 & tr & b0 & bk & -> & -> & E).
  apply Qeq_bool_iff in E. destruct a as [|a0 a']; simpl; try reflexivity.
  destruct rev; now rewrite E.
Qed.

Lemma id_leb_congr_l (rev : bool) (a trade book : row) :
  same_id trade book = true -> id_leb rev trade a = id_leb rev book a.
Proof.
  intros H.
  destruct (same_id_has_id _ _ H) as (t0 & tr & b0 & bk & -> & -> & E).
  apply Qeq_bool_iff in E. destruct a as [|a0 a']; simpl; try reflexivity.
  destruct rev; now rewrite E.
Qed.

(** A step that appends nothing keeps the identities in order. *)
Lemma step_ids_sorted (ds : Z) (rev : bool) (book : row) (ps ps' : list row) :
  merge_step ds book ps ps' false ->
  ids_sorted rev ps = true -> ids_sorted rev ps' = true.
Proof.
  unfold ids_sorted. intros H. inversion H as
    [ps0 Hu Hz|ps0 Hu Hz|l1 trade l2 Hu Hs Hz|l1 trade l2 Hu Hs Hz]; subst;
    auto; rewrite !pairwise_app; simpl; intros Hd.
  - apply andb_true_iff in Hd. destruct Hd as [Hd Hc].
    apply andb_true_iff in Hd. destruct Hd as [H1 H2].
    apply andb_true_iff in H2. destruct H2 as [_ H2].
    rewrite H1, H2. simpl. rewrite forallb_forall in *. intros a Ha.
    specialize (Hc a Ha). simpl in Hc. apply andb_true_iff in Hc. tauto.
  - apply andb_true_iff in Hd. destruct Hd as [Hd Hc].
    apply andb_true_iff in Hd. destruct Hd as [H1 H2].
    apply andb_true_iff in H2. destruct H2 as [H3 H2].
    rewrite H1, H2. simpl. rewrite andb_true_r. apply andb_true_iff. split.
    + erewrite forallb_ext_all; [exact H3|]. intros a. simpl.
      symmetry. now apply id_leb_congr_l.
    + rewrite forallb_forall in *. intros a Ha.
      specialize (Hc a Ha). simpl in *. apply andb_true_iff in Hc.
      destruct Hc as [Hc1 Hc2]. rewrite Hc2, andb_true_r.
      rewrite <- Hc1. symmetry. now apply id_leb_congr_r.
Qed.

(** ** Order kept by deletes and replaces *)

Lemma kept_refl (l : list row) : forallb has_id l = true -> kept_in_order l l.
Proof.
  induction l as [|r l IH]; simpl; intros H.
  - constructor.
  - apply andb_true_iff in H. destruct H as [Hr Hl].
    apply kept_row; auto. now apply same_id_refl.
Qed.

Lemma kept_app (a a' b b' : list row) :
  kept_in_order a a' -> kept_in_order b b' ->
  kept_in_order (a ++ b) (a' ++ b').
Proof.
  intros Ha Hb. induction Ha; simpl; auto.
  - now apply kept_delete.
  - now apply kept_row.
Qed.

Lemma kept_trans (a b c : list row) :
  kept_in_order a b -> kept_in_order b c -> kept_in_order a c.
Proof.
  intros Hab. revert c.
  induction Hab as [|r old new Hab IH|r r' old new Hs Hab IH]; intros c Hbc.
  - exact Hbc.
  - apply kept_delete. now apply IH.
  - inversion Hbc as [|r0 old0 new0 Hk|r0 r'' old0 new0 Hs' Hk]; subst.
    + apply kept_delete. now apply IH.
    + apply kept_row; [|now apply IH]. eapply same_id_trans; eassumption.
Qed.

Lemma step_kept (ds : Z) (book : row) (ps ps' : list row) :
  merge_step ds book ps ps' false ->
  forallb has_id ps = true -> kept_in_order ps ps'.
Proof.
  intros H. inversion H as
    [ps0 Hu Hz|ps0 Hu Hz|l1 trade l2 Hu Hs Hz|l1 trade l2 Hu Hs Hz]; subst;
    rewrite ?forallb_app; simpl; intros Hid.
  - now apply kept_refl.
  - apply andb_true_iff in Hid. destruct Hid as [H1 H2].
    apply andb_true_iff in H2. destruct H2 as [_ H2].
    apply kept_app; [now apply kept_refl|]. apply kept_delete.
    now apply kept_refl.
  - apply andb_true_iff in Hid. destruct Hid as [H1 H2].
    apply andb_true_iff in H2. destruct H2 as [_ H2].
    apply kept_app; [now apply kept_refl|]. apply kept_row; auto.
    now apply kept_refl.
Qed.

(** ** The outer loop *)

Lemma step_cons (ds : Z) (book trade : row) (ps ps' : list row)
  (appended : bool) :
  differs_id trade book = true ->
  merge_step ds book ps ps' appended ->
  merge_step ds book (trade :: ps) (trade :: ps') appended.
Proof.
  intros Hd H.
  destruct H as [ps Hu Hz|ps Hu Hz|l1 tr l2 Hu Hs Hz|l1 tr l2 Hu Hs Hz].
  - apply step_drop; auto. simpl. now rewrite Hd.
  - apply (step_append ds book (trade :: ps)); auto. simpl. now rewrite Hd.
  - apply (step_delete ds book (trade :: l1) tr l2); auto. simpl. now rewrite Hd.
  - apply (step_replace ds book (trade :: l1) tr l2); auto. simpl.
    now rewrite Hd.
Qed.

(** Whenever [scan] returns, it has taken a step. *)
Lemma scan_inv (ds : Z) (book : row) (ps ps' : list row) (appended : bool) :
  Available.scan ds book ps = Some (ps', appended) ->
  merge_step ds book ps ps' appended.
Proof.
  revert ps' appended. induction ps as [|trade rest IH]; simpl;
    intros ps' appended H.
  - destruct (py_index book ds) as [s|] eqn:E; try discriminate. simpl in H.
    destruct (Qeq_bool s 0) eqn:Z0; inversion H; subst.
    + apply step_drop; auto. unfold size_is_zero. now rewrite E.
    + apply (step_append ds book []); auto. unfold size_nonzero.
      now rewrite E, Z0.
  - rewrite !py_index_0 in H.
    destruct trade as [|t0 tr]; try discriminate.
    destruct book as [|b0 bk]; try discriminate. simpl in H.
    destruct (Qeq_bool t0 b0) eqn:E.
    + destruct (py_index (b0 :: bk) ds) as [s|] eqn:Es; try discriminate.
      simpl in H. destruct (Qeq_bool s 0) eqn:Z0; inversion H; subst.
      * apply (step_delete ds (b0 :: bk) [] (t0 :: tr) _); auto.
        unfold size_is_zero. now rewrite Es.
      * apply (step_replace ds (b0 :: bk) [] (t0 :: tr) _); auto.
        unfold size_nonzero. now rewrite Es, Z0.
    + destruct (Available.scan ds (b0 :: bk) rest) as [[rest' app]|] eqn:Er;
        try discriminate.
      simpl in H. inversion H; subst. apply step_cons.
      * simpl. now rewrite E.
      * now apply IH.
Qed.

Lemma step_has_id (ds : Z) (book : row) (ps ps' : list row) (appended : bool) :
  merge_step ds book ps ps' appended ->
  forallb has_id ps = true -> forallb has_id ps' = true.
Proof.
  intros H.
  destruct H as [ps Hu Hz|ps Hu Hz|l1 trade l2 Hu Hs Hz|l1 trade l2 Hu Hs Hz];
    rewrite ?forallb_app; simpl; intros Hid; auto.
  - rewrite Hid. destruct (size_nonzero_has_id _ _ Hz) as (x & r' & ->).
    reflexivity.
  - apply andb_true_iff in Hid. destruct Hid as [H1 H2].
    apply andb_true_iff in H2. destruct H2 as [_ H2]. now rewrite H1, H2.
  - apply andb_true_iff in Hid. destruct Hid as [H1 H2].
    apply andb_true_iff in H2. destruct H2 as [_ H2]. rewrite H1, H2.
    destruct (size_nonzero_has_id _ _ Hz) as (x & r' & ->). reflexivity.
Qed.

(** On well-formed rows the loop does not raise. *)
Lemma update_loop_total (ds : Z) (batch ps : list row) (s : bool) :
  rows_ok ds batch = true -> rows_ok ds ps = true ->
  exists ps' s',
    Available.update_loop ds batch ps s = Some (ps', s') /\
    rows_ok ds ps' = true.
Proof.
  revert ps s. induction batch as [|book more IH]; simpl; intros ps s Hb Hps.
  - eauto.
  - apply andb_true_iff in Hb. destruct Hb as [Hbook Hmore].
    destruct (scan_step ds book ps (rows_ok_has_id _ _ Hps)
                (size_zero_or_nonzero _ _ Hbook)) as (ps1 & app1 & Hstep).
    rewrite (step_scan _ _ _ _ _ Hstep). simpl. apply IH; auto.
    eapply step_rows_ok; eassumption.
Qed.

(** What every step keeps, the loop keeps. *)
Lemma update_loop_invariant (ds : Z) (I : list row -> bool -> Prop) :
  (forall book ps ps' s appended,
      merge_step ds book ps ps' appended -> I ps s -> I ps' (s || appended)) ->
  forall batch ps s ps' s',
    I ps s ->
    Available.update_loop ds batch ps s = Some (ps', s') ->
    I ps' s'.
Proof.
  intros Hstep. induction batch as [|book more IH]; simpl;
    intros ps s ps' s' HI Hloop.
  - inversion Hloop; subst. auto.
  - destruct (Available.scan ds book ps) as [[ps1 app1]|] eqn:Hscan;
      try discriminate.
    simpl in Hloop. apply scan_inv in Hscan.
    apply (IH ps1 (s || app1)); auto. eapply Hstep; eassumption.
Qed.

Lemma update_loop_has_id (ds : Z) (batch ps ps' : list row) (s s' : bool) :
  Available.update_loop ds batch ps s = Some (ps', s') ->
  forallb has_id ps = true -> forallb has_id ps' = true.
Proof.
  intros Hloop Hd.
  apply (update_loop_invariant ds (fun ps _ => forallb has_id ps = true))
    with (batch := batch) (ps := ps) (s := s) (s' := s'); auto.
  intros book ps0 ps1 s0 app Hstep. eapply step_has_id; eassumption.
Qed.

(** The loop never makes two rows share an identity. *)
Lemma update_loop_ids_distinct (ds : Z) (batch ps ps' : list row) (s s' : bool) :
  Available.update_loop ds batch ps s = Some (ps', s') ->
  ids_distinct ps = true -> ids_distinct ps' = true.
Proof.
  intros Hloop Hd.
  apply (update_loop_invariant ds (fun ps _ => ids_distinct ps = true))
    with (batch := batch) (ps := ps) (s := s) (s' := s'); auto.
  intros book ps0 ps1 s0 app Hstep. eapply step_ids_distinct; eassumption.
Qed.

(** A batch that appended nothing kept the order of the rows. *)
Lemma update_loop_unsorted (ds : Z) (rev : bool) (batch ps ps' : list row)
  (s : bool) :
  forallb has_id ps = true ->
  Available.update_loop ds batch ps s = Some (ps', false) ->
  kept_in_order ps ps' /\
  (ids_sorted rev ps = true -> ids_sorted rev ps' = true).
Proof.
  intros Hid Hloop.
  apply (update_loop_invariant ds
           (fun p f => forallb has_id p = true /\
                       (f = false ->
                        kept_in_order ps p /\
                        (ids_sorted rev ps = true -> ids_sorted rev p = true))))
    with (batch := batch) (ps := ps) (s := s) (s' := false); auto.
  - intros book ps0 ps1 s0 app Hstep [Hid0 HI]. split.
    + eapply step_has_id; eassumption.
    + intros Hf. apply orb_false_iff in Hf. destruct Hf as [-> ->].
      destruct (HI eq_refl) as [Hk Hsorted]. split.
      * eapply kept_trans; [exact Hk|]. eapply step_kept; eassumption.
      * intros H0. eapply step_ids_sorted; [exact Hstep|]. auto.
  - split; auto. intros _. split; auto. now apply kept_refl.
Qed.

Lemma update_loop_app (ds : Z) (b1 b2 ps : list row) (s : bool) :
  Available.update_loop ds (b1 ++ b2) ps s
  = '(p, f) <- Available.update_loop ds b1 ps s ;;
    Available.update_loop ds b2 p f.
Proof.
  revert ps s. induction b1 as [|book more IH]; simpl; intros ps s.
  - reflexivity.
  - destruct (Available.scan ds book ps) as [[ps1 app1]|]; simpl; auto.
Qed.

(** ** The methods of [Available] *)

Lemma sort_true_inv (a a' : Available.t) :
  Available.sort true a = Some a' ->
  Available.prices a' = list_sort (Available.reverse a) (Available.prices a) /\
  Available.deletion_select a' = Available.deletion_select a /\
  Available.reverse a' = Available.reverse a /\
  consistent a' /\
  ids_sorted (Available.reverse a') (Available.prices a') = true.
Proof.
  unfold Available.sort, consistent.
  destruct (Available.render (Available.deletion_select a)
              (list_sort (Available.reverse a) (Available.prices a)))
    as [ser|] eqn:E; try discriminate.
  simpl. intros H. inversion H; subst; simpl. repeat split; auto.
  apply ids_sorted_list_sort.
  apply rows_ok_has_id with (ds := Available.deletion_select a).
  unfold rows_ok.
  rewrite <- (forallb_list_sort (row_ok (Available.deletion_select a))
                (Available.reverse a)).
  apply render_rows_ok. eauto.
Qed.

Lemma sort_false_inv (a a' : Available.t) :
  Available.sort false a = Some a' ->
  Available.prices a' = Available.prices a /\
  Available.deletion_select a' = Available.deletion_select a /\
  Available.reverse a' = Available.reverse a /\
  consistent a'.
Proof.
  unfold Available.sort, consistent.
  destruct (Available.render (Available.deletion_select a) (Available.prices a))
    as [ser|] eqn:E; try discriminate.
  simpl. intros H. inversion H; subst; simpl. auto.
Qed.

(** A method that re-renders a consistent ladder without touching its rows
    gives the ladder back. *)
Lemma sort_false_consistent (a : Available.t) :
  consistent a -> Available.sort false a = Some a.
Proof.
  unfold Available.sort, consistent. intros ->. simpl. now destruct a.
Qed.

(** On well-formed rows [update] does not raise. *)
Lemma update_total (a : Available.t) (batch : list row) :
  consistent a -> rows_ok (Available.deletion_select a) batch = true ->
  exists a', Available.update a batch = Some a'.
Proof.
  intros Ha Hb. unfold Available.update.
  destruct (update_loop_total (Available.deletion_select a) batch
              (Available.prices a) false Hb (consistent_rows_ok a Ha))
    as (ps' & s' & -> & Hok).
  simpl. unfold Available.sort. simpl.
  assert (Hr : rows_ok (Available.deletion_select a)
                 (if s' then list_sort (Available.reverse a) ps' else ps')
               = true).
  { destruct s'; auto. unfold rows_ok. now rewrite forallb_list_sort. }
  apply render_rows_ok in Hr. destruct Hr as [ser ->]. simpl. eauto.
Qed.

Lemma render_app_inv (ds : Z) (l1 l2 : list row) (s : list price_size) :
  Available.render ds (l1 ++ l2) = Some s ->
  exists s1 s2,
    Available.render ds l1 = Some s1 /\ Available.render ds l2 = Some s2 /\
    s = s1 ++ s2.
Proof.
  rewrite render_app.
  destruct (Available.render ds l1) as [s1|]; try discriminate.
  destruct (Available.render ds l2) as [s2|]; try discriminate.
  simpl. intros H. inversion H. eauto.
Qed.

Lemma render_cons_inv (ds : Z) (r : row) (l : list row) (s : list price_size) :
  Available.render ds (r :: l) = Some s ->
  exists e s',
    Available.render_row ds r = Some e /\ Available.render ds l = Some s' /\
    s = e :: s'.
Proof.
  simpl. destruct (Available.render_row ds r) as [e|]; try discriminate.
  destruct (Available.render ds l) as [s'|]; try discriminate.
  simpl. intros H. inversion H. eauto.
Qed.

Lemma update_inv (a a' : Available.t) (batch : list row) :
  Available.update a batch = Some a' ->
  exists ps srt,
    Available.update_loop (Available.deletion_select a) batch
      (Available.prices a) false = Some (ps, srt) /\
    Available.sort srt
      (Available.mk ps (Available.deletion_select a) (Available.reverse a)
         (Available.serialise a)) = Some a'.
Proof.
  unfold Available.update.
  destruct (Available.update_loop (Available.deletion_select a) batch
              (Available.prices a) false) as [[ps srt]|]; try discriminate.
  simpl. eauto.
Qed.

(** What [update] keeps of a consistent ladder. *)
Lemma update_preserves (a a' : Available.t) (batch : list row) :
  consistent a ->
  Available.update a batch = Some a' ->
  consistent a' /\
  Available.deletion_select a' = Available.deletion_select a /\
  Available.reverse a' = Available.reverse a /\
  (ids_sorted (Available.reverse a) (Available.prices a) = true ->
   ids_sorted (Available.reverse a') (Available.prices a') = true) /\
  (ids_distinct (Available.prices a) = true ->
   ids_distinct (Available.prices a') = true).
Proof.
  intros Ha Hu. destruct (update_inv _ _ _ Hu) as (ps & srt & Hloop & Hsort).
  pose proof (update_loop_ids_distinct _ _ _ _ _ _ Hloop) as Hdist.
  destruct srt.
  - destruct (sort_true_inv _ _ Hsort) as (Hp & Hds & Hrev & Hc & Hs).
    simpl in *. repeat split; auto.
    intros Hd. rewrite Hp, ids_distinct_list_sort. auto.
  - destruct (sort_false_inv _ _ Hsort) as (Hp & Hds & Hrev & Hc).
    simpl in *. repeat split; auto.
    + intros Hs. rewrite Hp, Hrev.
      apply (update_loop_unsorted _ (Available.reverse a) _ _ _ _) in Hloop.
      * destruct Hloop as [_ H]. auto.
      * eapply rows_ok_has_id. apply consistent_rows_ok. exact Ha.
    + intros Hd. rewrite Hp. auto.
Qed.

Lemma clear_spec (a : Available.t) :
  Available.clear a
  = Some (Available.mk [] (Available.deletion_select a)
            (Available.reverse a) []).
Proof.
  unfold Available.clear, Available.sort. simpl.
  now destruct (Available.reverse a).
Qed.

Lemma init_inv (initial : option (list row)) (ds : Z) (rev : bool)
  (a : Available.t) :
  Available.init initial ds rev = Some a ->
  consistent a /\ Available.deletion_select a = ds /\
  Available.reverse a = rev /\
  ids_sorted rev (Available.prices a) = true /\
  Permutation (match initial with Some l => l | None => [] end)
    (Available.prices a).
Proof.
  unfold Available.init. intros H.
  destruct (sort_true_inv _ _ H) as (Hp & Hds & Hrev & Hc & Hs).
  simpl in *. rewrite Hrev in Hs. repeat split; auto.
  rewrite Hp. destruct initial as [[|r l]|]; apply Permutation_list_sort.
Qed.

(** Every ladder is consistent and sorted by identity. *)
Lemma ladder_sorted (a : Available.t) :
  ladder a ->
  consistent a /\
  ids_sorted (Available.reverse a) (Available.prices a) = true.
Proof.
  intros H. induction H as [initial ds rev a Hi|a batch a' Hl [Hc Hs] Hu|a a' Hl IH Hc].
  - destruct (init_inv _ _ _ _ Hi) as (Hc & _ & Hrev & Hs & _).
    rewrite Hrev. auto.
  - destruct (update_preserves _ _ _ Hc Hu) as (Hc' & _ & _ & Hs' & _). auto.
  - rewrite clear_spec in Hc. inversion Hc. split; reflexivity.
Qed.

(** ** What one incoming row does *)

(** C1.  An incoming row whose identity matches no row of the ladder and
    whose size field is zero is dropped: the inner loop returns the rows as
    they were and appends nothing; anywhere in a batch the row can be left
    out without changing what [update] computes; applied on its own to a
    ladder it gives the ladder back, rows and cached rendering alike; and
    [[2.5, 0]] applied to an empty ladder leaves the serialised list
    empty. *)
Theorem C1_unmatched_zero_size_row_is_dropped :
  (forall ds book ps,
      unmatched book ps = true -> size_is_zero ds book = true ->
      Available.scan ds book ps = Some (ps, false)) /\
  (forall a b1 b2 book ps srt,
      Available.update_loop (Available.deletion_select a) b1
        (Available.prices a) false = Some (ps, srt) ->
      unmatched book ps = true ->
      size_is_zero (Available.deletion_select a) book = true ->
      Available.update a (b1 ++ book :: b2) = Available.update a (b1 ++ b2)) /\
  (forall a book,
      consistent a ->
      unmatched book (Available.prices a) = true ->
      size_is_zero (Available.deletion_select a) book = true ->
      Available.update a [book] = Some a) /\
  (forall rev,
      (a <- Available.init (Some []) 1 rev ;; Available.update a [[5#2; 0]])
      = Some (Available.mk [] 1 rev [])).
Proof.
  assert (Hrow : forall ds book ps,
             unmatched book ps = true -> size_is_zero ds book = true ->
             Available.scan ds book ps = Some (ps, false)).
  { intros ds book ps Hu Hz. apply step_scan. now apply step_drop. }
  split; [exact Hrow|]. split; [|split].
  - intros a b1 b2 book ps srt Hloop Hu Hz. unfold Available.update.
    rewrite !update_loop_app, Hloop. simpl.
    rewrite (Hrow _ _ _ Hu Hz). simpl. now rewrite orb_false_r.
  - intros a book Ha Hu Hz. unfold Available.update. simpl.
    rewrite (Hrow _ _ _ Hu Hz). simpl.
    destruct a as [ps ds rv ser]. simpl. now apply sort_false_consistent.
  - intros rev. now destruct rev.
Qed.

Lemma C1_witness :
  Available.scan 1 [5#2; 0] [[2; 7]] = Some ([[2; 7]], false) /\
  Available.update (Available.mk [[2; 7]] 1 false [PriceSize 2 7])
    ([[2; 9]] ++ [5#2; 0] :: [[4; 1]])
  = Available.update (Available.mk [[2; 7]] 1 false [PriceSize 2 7])
      ([[2; 9]] ++ [[4; 1]]) /\
  Available.update (Available.mk [[2; 7]] 1 false [PriceSize 2 7]) [[5#2; 0]]
  = Some (Available.mk [[2; 7]] 1 false [PriceSize 2 7]).
Proof.
  destruct C1_unmatched_zero_size_row_is_dropped as (H1 & H2 & H3 & _).
  split; [apply H1; reflexivity|]. split.
  - apply (H2 (Available.mk [[2; 7]] 1 false [PriceSize 2 7]) [[2; 9]]
             [[4; 1]] [5#2; 0] [[2; 9]] false); reflexivity.
  - apply H3; reflexivity.
Defined.

(** C2.  When some row of the ladder has the identity of an incoming row
    whose size field is zero, [update] removes one row with that identity
    (the first, the only one when identities are distinct) and its entry
    of the serialised list; every other row and entry stays, in the same
    order.  [[2.5, 10]] updated with [[2.5, 0]] serialises to the empty
    list. *)
Theorem C2_zero_size_row_removes_its_row :
  (forall a book,
      consistent a ->
      matched book (Available.prices a) = true ->
      size_is_zero (Available.deletion_select a) book = true ->
      exists l1 trade l2 s1 e s2,
        Available.prices a = l1 ++ trade :: l2 /\
        same_id trade book = true /\ unmatched book l1 = true /\
        Available.serialise a = s1 ++ e :: s2 /\
        List.length s1 = List.length l1 /\
        Available.update a [book]
        = Some (Available.mk (l1 ++ l2) (Available.deletion_select a)
                  (Available.reverse a) (s1 ++ s2))) /\
  (forall rev,
      (a <- Available.init (Some [[5#2; 10]]) 1 rev ;;
       Available.update a [[5#2; 0]])
      = Some (Available.mk [] 1 rev [])).
Proof.
  split.
  - intros a book Ha Hm Hz.
    assert (Hid : has_id book = true)
      by now destruct (size_is_zero_has_id _ _ Hz) as (x & r' & ->).
    destruct (first_match book (Available.prices a)
                (rows_ok_has_id _ _ (consistent_rows_ok a Ha)) Hid)
      as [Hu|(l1 & trade & l2 & Hp & Hu & Hs)].
    { rewrite (matched_not_unmatched _ _ Hm) in Hu. discriminate. }
    unfold consistent in Ha. rewrite Hp in Ha.
    destruct (render_app_inv _ _ _ _ Ha) as (s1 & s' & H1 & H2 & Hser).
    destruct (render_cons_inv _ _ _ _ H2) as (e & s2 & He & Hs2 & ->).
    exists l1, trade, l2, s1, e, s2. repeat split; auto.
    + now apply render_length in H1.
    + unfold Available.update. simpl. rewrite Hp.
      rewrite (step_scan _ _ _ _ _ (step_delete _ _ l1 trade l2 Hu Hs Hz)).
      simpl. unfold Available.sort. simpl. rewrite render_app, H1, Hs2.
      reflexivity.
  - intros rev. now destruct rev.
Qed.

Lemma C2_witness :
  exists l1 trade l2 s1 e s2,
    [[2; 7]; [3; 1]] = l1 ++ trade :: l2 /\
    same_id trade [3; 0] = true /\ unmatched [3; 0] l1 = true /\
    [PriceSize 2 7; PriceSize 3 1] = s1 ++ e :: s2 /\
    List.length s1 = List.length l1 /\
    Available.update
      (Available.mk [[2; 7]; [3; 1]] 1 false [PriceSize 2 7; PriceSize 3 1])
      [[3; 0]]
    = Some (Available.mk (l1 ++ l2) 1 false (s1 ++ s2)).
Proof.
  apply (proj1 C2_zero_size_row_removes_its_row
           (Available.mk [[2; 7]; [3; 1]] 1 false
              [PriceSize 2 7; PriceSize 3 1]) [3; 0]);
    reflexivity.
Defined.

(** C3.  When some row of the ladder has the identity of an incoming row
    whose size field is not zero, [update] puts the incoming row in the
    place of that row: the rows before and after it, the number of rows and
    the other entries of the serialised list are as they were.  A batch
    that appends nothing leaves the [sort] flag unset: [update] stores the
    rows of the loop unsorted, and these are the old rows, some deleted
    and some replaced by rows of their identity, in their old order. *)
Theorem C3_nonzero_row_replaces_in_place :
  (forall a book,
      consistent a ->
      matched book (Available.prices a) = true ->
      size_nonzero (Available.deletion_select a) book = true ->
      row_ok (Available.deletion_select a) book = true ->
      exists l1 trade l2 s1 e e' s2 a',
        Available.prices a = l1 ++ trade :: l2 /\
        same_id trade book = true /\ unmatched book l1 = true /\
        Available.serialise a = s1 ++ e :: s2 /\
        List.length s1 = List.length l1 /\
        Available.render_row (Available.deletion_select a) book = Some e' /\
        Available.update a [book] = Some a' /\
        a' = Available.mk (l1 ++ book :: l2) (Available.deletion_select a)
               (Available.reverse a) (s1 ++ e' :: s2) /\
        List.length (Available.prices a') = List.length (Available.prices a)) /\
  (forall a batch ps',
      consistent a ->
      Available.update_loop (Available.deletion_select a) batch
        (Available.prices a) false = Some (ps', false) ->
      kept_in_order (Available.prices a) ps' /\
      Available.update a batch
      = Available.sort false
          (Available.mk ps' (Available.deletion_select a)
             (Available.reverse a) (Available.serialise a)) /\
      forall a', Available.update a batch = Some a' ->
                 Available.prices a' = ps').
Proof.
  split.
  - intros a book Ha Hm Hz Hok.
    assert (Hid : has_id book = true)
      by now destruct (size_nonzero_has_id _ _ Hz) as (x & r' & ->).
    destruct (first_match book (Available.prices a)
                (rows_ok_has_id _ _ (consistent_rows_ok a Ha)) Hid)
      as [Hu|(l1 & trade & l2 & Hp & Hu & Hs)].
    { rewrite (matched_not_unmatched _ _ Hm) in Hu. discriminate. }
    unfold consistent in Ha. rewrite Hp in Ha.
    destruct (render_app_inv _ _ _ _ Ha) as (s1 & s' & H1 & H2 & Hser).
    destruct (render_cons_inv _ _ _ _ H2) as (e & s2 & He & Hs2 & ->).
    unfold row_ok in Hok.
    destruct (Available.render_row (Available.deletion_select a) book)
      as [e'|] eqn:He'; try discriminate.
    exists l1, trade, l2, s1, e, e', s2.
    eexists. repeat split; auto.
    + now apply render_length in H1.
    + unfold Available.update. simpl. rewrite Hp.
      rewrite (step_scan _ _ _ _ _ (step_replace _ _ l1 trade l2 Hu Hs Hz)).
      simpl. unfold Available.sort. simpl. rewrite render_app, H1. simpl.
      rewrite He', Hs2. reflexivity.
    + simpl. rewrite Hp, !length_app. reflexivity.
  - intros a batch ps' Ha Hloop. split; [|split].
    + eapply update_loop_unsorted with (rev := false); [|exact Hloop].
      eapply rows_ok_has_id. apply consistent_rows_ok. exact Ha.
    + unfold Available.update. now rewrite Hloop.
    + intros a' Hu. unfold Available.update in Hu. rewrite Hloop in Hu.
      simpl in Hu. now destruct (sort_false_inv _ _ Hu) as (Hp & _).
Qed.

Lemma C3_witness :
  (exists l1 trade l2 s1 e e' s2 a',
      [[2; 7]; [3; 1]] = l1 ++ trade :: l2 /\
      same_id trade [2; 9] = true /\ unmatched [2; 9] l1 = true /\
      [PriceSize 2 7; PriceSize 3 1] = s1 ++ e :: s2 /\
      List.length s1 = List.length l1 /\
      Available.render_row 1 [2; 9] = Some e' /\
      Available.update
        (Available.mk [[2; 7]; [3; 1]] 1 false [PriceSize 2 7; PriceSize 3 1])
        [[2; 9]] = Some a' /\
      a' = Available.mk (l1 ++ [2; 9] :: l2) 1 false (s1 ++ e' :: s2) /\
      List.length (Available.prices a') = 2%nat) /\
  kept_in_order [[2; 7]; [3; 1]; [4; 2]] [[2; 9]; [4; 2]].
Proof.
  destruct C3_nonzero_row_replaces_in_place as (H1 & H2). split.
  - apply (H1 (Available.mk [[2; 7]; [3; 1]] 1 false
                 [PriceSize 2 7; PriceSize 3 1]) [2; 9]);
      reflexivity.
  - apply (H2 (Available.mk [[2; 7]; [3; 1]; [4; 2]] 1 false
                 [PriceSize 2 7; PriceSize 3 1; PriceSize 4 2])
              [[2; 9]; [3; 0]] [[2; 9]; [4; 2]]);
      reflexivity.
Defined.

(** ** The invariant of the ladder *)

(** C5.  Every ladder the program can hold is
    consistent (the serialised list is the rendering of the rows, in their
    order) and sorted by identity in its direction, after construction,
    after every [update] and after [clear].  [update] keeps the direction
    and never makes two rows share an identity: when the identities were
    distinct before the batch they are distinct after it.  On well-formed
    rows [update] returns, and [clear] always returns the empty ladder. *)
Theorem C5_sorted_and_distinctness_kept :
  (forall a, ladder a ->
      consistent a /\
      ids_sorted (Available.reverse a) (Available.prices a) = true) /\
  (forall a batch a',
      consistent a ->
      Available.update a batch = Some a' ->
      consistent a' /\
      Available.reverse a' = Available.reverse a /\
      (ids_sorted (Available.reverse a) (Available.prices a) = true ->
       ids_sorted (Available.reverse a') (Available.prices a') = true) /\
      (ids_distinct (Available.prices a) = true ->
       ids_distinct (Available.prices a') = true)) /\
  (forall a batch,
      consistent a ->
      rows_ok (Available.deletion_select a) batch = true ->
      exists a', Available.update a batch = Some a') /\
  (forall a,
      Available.clear a
      = Some (Available.mk [] (Available.deletion_select a)
                (Available.reverse a) [])).
Proof.
  split; [exact ladder_sorted|]. split; [|split].
  - intros a batch a' Ha Hu.
    destruct (update_preserves _ _ _ Ha Hu) as (Hc & _ & Hr & Hs & Hd). auto.
  - exact update_total.
  - exact clear_spec.
Qed.

Lemma C5_witness :
  (exists a',
      Available.update
        (Available.mk [[3; 1]; [2; 7]] 1 true [PriceSize 3 1; PriceSize 2 7])
        [[5; 4]; [3; 0]] = Some a' /\
      ids_sorted true (Available.prices a') = true /\
      ids_distinct (Available.prices a') = true) /\
  (consistent
     (Available.mk [[3; 1]; [2; 7]] 1 true [PriceSize 3 1; PriceSize 2 7]) /\
   ids_sorted true [[3; 1]; [2; 7]] = true).
Proof.
  destruct C5_sorted_and_distinctness_kept as (H1 & H2 & H3 & _). split.
  - destruct (H3 (Available.mk [[3; 1]; [2; 7]] 1 true
                    [PriceSize 3 1; PriceSize 2 7])
                 [[5; 4]; [3; 0]] eq_refl eq_refl) as [a' Hu].
    exists a'. split; [exact Hu|].
    destruct (H2 (Available.mk [[3; 1]; [2; 7]] 1 true
                    [PriceSize 3 1; PriceSize 2 7])
                 [[5; 4]; [3; 0]] a' eq_refl Hu)
      as (_ & Hr & Hs & Hd).
    rewrite Hr in Hs. split; [apply Hs|apply Hd]; reflexivity.
  - apply (H1 (Available.mk [[3; 1]; [2; 7]] 1 true
                 [PriceSize 3 1; PriceSize 2 7])).
    apply ladder_init with (initial := Some [[2; 7]; [3; 1]]) (ds := 1%Z)
      (rev := true).
    reflexivity.
Defined.

(** C5 without the premise on the identities before the batch: a ladder
    constructed from rows that share an identity still has them after a
    completed batch. *)
Lemma C5_counterexample :
  exists a a',
    Available.init (Some [[2; 1]; [2; 9]]) 1 false = Some a /\
    ladder a /\
    Available.update a [[3; 4]] = Some a' /\
    Available.prices a' = [[2; 1]; [2; 9]; [3; 4]] /\
    ids_distinct (Available.prices a') = false.
Proof.
  eexists. eexists. split; [reflexivity|]. split; [|split; [reflexivity|]].
  - eapply ladder_init with (initial := Some [[2; 1]; [2; 9]]) (ds := 1%Z)
      (rev := false). reflexivity.
  - split; reflexivity.
Qed.

(** C10.  The constructor sorts: with no rows ([None], or the empty list)
    it gives the empty ladder with an empty serialised list; with
    well-formed rows in any order it returns a ladder that holds the same
    rows, sorted by identity in the direction asked for, and whose
    serialised list is their rendering.  Whatever it is given, a ladder it
    returns is consistent and sorted. *)
Theorem C10_constructor_sorts_and_renders :
  (forall ds rev, Available.init None ds rev = Some (Available.mk [] ds rev []))
  /\
  (forall ds rev,
      Available.init (Some []) ds rev = Some (Available.mk [] ds rev [])) /\
  (forall l ds rev,
      rows_ok ds l = true ->
      exists a,
        Available.init (Some l) ds rev = Some a /\
        Permutation l (Available.prices a) /\
        Available.deletion_select a = ds /\ Available.reverse a = rev /\
        consistent a /\
        ids_sorted rev (Available.prices a) = true) /\
  (forall initial ds rev a,
      Available.init initial ds rev = Some a ->
      consistent a /\ ids_sorted rev (Available.prices a) = true).
Proof.
  split; [|split; [|split]].
  - intros ds rev. now destruct rev.
  - intros ds rev. now destruct rev.
  - intros l ds rev Hok.
    assert (Hs : exists a, Available.init (Some l) ds rev = Some a).
    { unfold Available.init, Available.sort. simpl.
      assert (Hr : rows_ok ds
                     (list_sort rev
                        match l with [] => [] | r :: l0 => r :: l0 end) = true).
      { unfold rows_ok. rewrite forallb_list_sort. now destruct l. }
      apply render_rows_ok in Hr. destruct Hr as [ser ->]. simpl. eauto. }
    destruct Hs as [a Ha]. exists a.
    destruct (init_inv _ _ _ _ Ha) as (Hc & Hds & Hrev & Hso & Hp). auto 10.
  - intros initial ds rev a Ha.
    destruct (init_inv _ _ _ _ Ha) as (Hc & Hds & Hrev & Hso & Hp). auto.
Qed.

Lemma C10_witness :
  (exists a,
      Available.init (Some [[3; 1]; [2; 7]; [5; 4]]) 1 true = Some a /\
      Permutation [[3; 1]; [2; 7]; [5; 4]] (Available.prices a) /\
      Available.deletion_select a = 1%Z /\ Available.reverse a = true /\
      consistent a /\
      ids_sorted true (Available.prices a) = true) /\
  (consistent
     (Available.mk [[0; 2; 5]; [1; 3; 4]] 2 false
        [PriceSize 2 5; PriceSize 3 4]) /\
   ids_sorted false [[0; 2; 5]; [1; 3; 4]] = true).
Proof.
  destruct C10_constructor_sorts_and_renders as (_ & _ & H3 & H4). split.
  - apply (H3 [[3; 1]; [2; 7]; [5; 4]] 1%Z true). reflexivity.
  - apply (H4 (Some [[1; 3; 4]; [0; 2; 5]]) 2%Z false
              (Available.mk [[0; 2; 5]; [1; 3; 4]] 2 false
                 [PriceSize 2 5; PriceSize 3 4])).
    reflexivity.
Defined.

(** ** Applying a batch of nonzero rows twice *)

Lemma override_same_id (batch : list row) (r : row) :
  has_id r = true -> same_id r (override batch r) = true.
Proof.
  revert r. induction batch as [|book more IH]; simpl; intros r Hr.
  - now apply same_id_refl.
  - destruct (same_id r book) eqn:E.
    + eapply same_id_trans; [exact E|]. apply IH.
      now destruct (same_id_has_id _ _ E) as (x & r1 & y & r2 & _ & -> & _).
    + now apply IH.
Qed.

(** After a step for a nonzero row, the row is in the ladder, and every
    earlier row is still there or has given its place to the row. *)
Lemma step_nonzero_In (ds : Z) (book : row) (ps ps' : list row)
  (appended : bool) :
  merge_step ds book ps ps' appended ->
  size_nonzero ds book = true ->
  In book ps' /\
  forall r, In r ps -> In (if same_id r book then book else r) ps'.
Proof.
  intros H Hnz.
  destruct H as [ps Hu Hz|ps Hu Hz|l1 trade l2 Hu Hs Hz|l1 trade l2 Hu Hs Hz].
  - rewrite (size_zero_not_nonzero _ _ Hz) in Hnz. discriminate.
  - split.
    + apply in_or_app. right. now left.
    + intros r Hr. destruct (same_id r book).
      * apply in_or_app. right. now left.
      * apply in_or_app. now left.
  - rewrite (size_zero_not_nonzero _ _ Hz) in Hnz. discriminate.
  - split.
    + apply in_or_app. right. now left.
    + intros r Hr. destruct (same_id r book) eqn:E.
      * apply in_or_app. right. now left.
      * apply in_app_or in Hr. apply in_or_app.
        destruct Hr as [Hr|[Hr|Hr]]; auto.
        -- subst r. congruence.
        -- right. now right.
Qed.

(** After a batch of nonzero rows, what [override] makes of a row of the
    ladder is in the ladder. *)
Lemma update_loop_override_In (ds : Z) (batch : list row) :
  forallb (size_nonzero ds) batch = true ->
  forall ps s ps' s',
    Available.update_loop ds batch ps s = Some (ps', s') ->
    forall r, In r ps -> In (override batch r) ps'.
Proof.
  induction batch as [|book more IH]; simpl; intros Hnz ps s ps' s' Hloop r Hr.
  - now inversion Hloop; subst.
  - apply andb_true_iff in Hnz. destruct Hnz as [Hb Hmore].
    destruct (Available.scan ds book ps) as [[ps1 app1]|] eqn:Hscan;
      try discriminate.
    simpl in Hloop. apply scan_inv in Hscan.
    destruct (step_nonzero_In _ _ _ _ _ Hscan Hb) as [_ Hin].
    eapply IH; eauto.
Qed.

(** After a batch of nonzero rows, every row of the batch has its identity
    in the ladder. *)
Lemma update_loop_matched (ds : Z) (batch : list row) :
  forallb (size_nonzero ds) batch = true ->
  forall ps s ps' s',
    Available.update_loop ds batch ps s = Some (ps', s') ->
    forall book, In book batch -> exists r, In r ps' /\ same_id r book = true.
Proof.
  induction batch as [|b more IH]; simpl;
    intros Hnz ps s ps' s' Hloop book Hbook.
  - contradiction.
  - apply andb_true_iff in Hnz. destruct Hnz as [Hb Hmore].
    destruct (Available.scan ds b ps) as [[ps1 app1]|] eqn:Hscan;
      try discriminate.
    simpl in Hloop. apply scan_inv in Hscan.
    destruct Hbook as [<-|Hbook].
    + destruct (step_nonzero_In _ _ _ _ _ Hscan Hb) as [Hin _].
      exists (override more b). split.
      * eapply update_loop_override_In; eauto.
      * rewrite same_id_sym. apply override_same_id.
        now destruct (size_nonzero_has_id _ _ Hb) as (x & r' & ->).
    + eapply IH; eauto.
Qed.

(** After a batch of nonzero rows applied to distinct identities, every
    row of the ladder is what the batch makes of it. *)
Lemma update_loop_settled (ds : Z) (batch : list row) :
  forallb (size_nonzero ds) batch = true ->
  forall ps s ps' s',
    ids_distinct ps = true ->
    Available.update_loop ds batch ps s = Some (ps', s') ->
    forall r, In r ps' -> override batch r = r.
Proof.
  induction batch as [|book more IH]; simpl;
    intros Hnz ps s ps' s' Hd Hloop r Hr.
  - reflexivity.
  - apply andb_true_iff in Hnz. destruct Hnz as [Hb Hmore].
    destruct (Available.scan ds book ps) as [[ps1 app1]|] eqn:Hscan;
      try discriminate.
    simpl in Hloop. apply scan_inv in Hscan.
    pose proof (step_ids_distinct _ _ _ _ _ Hscan Hd) as Hd1.
    pose proof (update_loop_ids_distinct _ _ _ _ _ _ Hloop Hd1) as Hd'.
    destruct (same_id r book) eqn:E.
    + destruct (step_nonzero_In _ _ _ _ _ Hscan Hb) as [Hin _].
      pose proof (update_loop_override_In ds more Hmore _ _ _ _ Hloop _ Hin)
        as Hin'.
      symmetry.
      apply (pairwise_In _ differs_id ps' r (override more book)
               differs_id_sym Hd' Hr Hin').
      apply same_differs. eapply same_id_trans; [exact E|].
      apply override_same_id.
      now destruct (size_nonzero_has_id _ _ Hb) as (x & r' & ->).
    + apply (IH Hmore ps1 (s || app1) ps' s' Hd1 Hloop r Hr).
Qed.

(** One nonzero row whose identity is in a ladder of distinct identities
    rewrites the ladder row by row. *)
Lemma step_replace_map (ds : Z) (book : row) (ps ps' : list row)
  (appended : bool) :
  merge_step ds book ps ps' appended ->
  size_nonzero ds book = true ->
  (exists r, In r ps /\ same_id r book = true) ->
  ids_distinct ps = true ->
  ps' = map (fun r => if same_id r book then book else r) ps /\
  appended = false.
Proof.
  intros H Hnz (r0 & Hr0 & Hs0) Hd.
  destruct H as [ps Hu Hz|ps Hu Hz|l1 trade l2 Hu Hs Hz|l1 trade l2 Hu Hs Hz].
  - rewrite (size_zero_not_nonzero _ _ Hz) in Hnz. discriminate.
  - unfold unmatched in Hu. rewrite forallb_forall in Hu.
    specialize (Hu _ Hr0). rewrite (same_differs _ _ Hs0) in Hu. discriminate.
  - rewrite (size_zero_not_nonzero _ _ Hz) in Hnz. discriminate.
  - split; [|reflexivity]. rewrite map_app. simpl. rewrite Hs. f_equal.
    + unfold unmatched in Hu. rewrite forallb_forall in Hu.
      rewrite <- (map_id l1) at 1. apply map_ext_in. intros r Hr.
      specialize (Hu _ Hr).
      destruct (differs_id_has_id _ _ Hu) as (x & r1 & y & r2 & -> & -> & E).
      simpl. now rewrite E.
    + f_equal. unfold ids_distinct in Hd. rewrite pairwise_app in Hd.
      apply andb_true_iff in Hd. destruct Hd as [Hd _].
      apply andb_true_iff in Hd. destruct Hd as [_ Hd]. simpl in Hd.
      apply andb_true_iff in Hd. destruct Hd as [Hd _].
      rewrite forallb_forall in Hd.
      rewrite <- (map_id l2) at 1. apply map_ext_in. intros r Hr.
      specialize (Hd _ Hr).
      rewrite differs_id_sym, (differs_id_congr _ _ r Hs) in Hd.
      destruct (differs_id_has_id _ _ Hd) as (x & r1 & y & r2 & -> & E' & E).
      subst book. simpl. now rewrite E.
Qed.

(** A batch of nonzero rows whose identities are all in a ladder of
    distinct identities rewrites the ladder row by row and appends
    nothing. *)
Lemma update_loop_absorb (ds : Z) (batch : list row) :
  forallb (size_nonzero ds) batch = true ->
  forall ps s ps' s',
    ids_distinct ps = true ->
    forallb has_id ps = true ->
    (forall book, In book batch -> exists r, In r ps /\ same_id r book = true) ->
    Available.update_loop ds batch ps s = Some (ps', s') ->
    ps' = map (override batch) ps /\ s' = s.
Proof.
  induction batch as [|book more IH]; simpl;
    intros Hnz ps s ps' s' Hd Hid Hall Hloop.
  - inversion Hloop; subst. now rewrite map_id.
  - apply andb_true_iff in Hnz. destruct Hnz as [Hb Hmore].
    destruct (Available.scan ds book ps) as [[ps1 app1]|] eqn:Hscan;
      try discriminate.
    simpl in Hloop. apply scan_inv in Hscan.
    destruct (step_replace_map _ _ _ _ _ Hscan Hb (Hall book (or_introl eq_refl))
                Hd) as [Hps1 ->].
    rewrite orb_false_r in Hloop.
    destruct (IH Hmore ps1 s ps' s') as [Hps' Hs']; auto.
    + eapply step_ids_distinct; eassumption.
    + eapply step_has_id; eassumption.
    + intros b Hin. destruct (Hall b (or_intror Hin)) as (r & Hr & Hsr).
      exists (if same_id r book then book else r). split.
      * rewrite Hps1.
        apply (in_map (fun r => if same_id r book then book else r) ps r Hr).
      * destruct (same_id r book) eqn:E; auto.
        eapply same_id_trans; [|exact Hsr]. now rewrite same_id_sym.
    + split; auto. rewrite Hps', Hps1, map_map. reflexivity.
Qed.

Lemma update_loop_total_nonzero (ds : Z) (batch ps : list row) (s : bool) :
  forallb (size_nonzero ds) batch = true -> forallb has_id ps = true ->
  exists ps' s', Available.update_loop ds batch ps s = Some (ps', s').
Proof.
  revert ps s. induction batch as [|book more IH]; simpl; intros ps s Hb Hps.
  - eauto.
  - apply andb_true_iff in Hb. destruct Hb as [Hbook Hmore].
    destruct (scan_step ds book ps Hps (or_intror Hbook))
      as (ps1 & app1 & Hstep).
    rewrite (step_scan _ _ _ _ _ Hstep). simpl. apply IH; auto.
    eapply step_has_id; eassumption.
Qed.

Lemma In_list_sort (rev : bool) (l : list row) (r : row) :
  In r (list_sort rev l) <-> In r l.
Proof.
  split; apply Permutation_in.
  - apply Permutation_sym, Permutation_list_sort.
  - apply Permutation_list_sort.
Qed.

(** Once a batch of nonzero rows has been applied to a ladder of distinct
    identities, applying it again changes nothing. *)
Lemma update_twice (a a1 : Available.t) (batch : list row) :
  consistent a ->
  ids_distinct (Available.prices a) = true ->
  forallb (size_nonzero (Available.deletion_select a)) batch = true ->
  Available.update a batch = Some a1 ->
  Available.update a1 batch = Some a1.
Proof.
  intros Ha Hd Hnz Hu.
  destruct (update_inv _ _ _ Hu) as (ps & srt & Hloop & Hsort).
  pose proof (update_loop_ids_distinct _ _ _ _ _ _ Hloop Hd) as Hd1.
  pose proof (update_loop_has_id _ _ _ _ _ _ Hloop
                (rows_ok_has_id _ _ (consistent_rows_ok a Ha))) as Hid1.
  pose proof (update_loop_matched _ _ Hnz _ _ _ _ Hloop) as Hm1.
  pose proof (update_loop_settled _ _ Hnz _ _ _ _ Hd Hloop) as Hs1.
  assert (H1 : Available.deletion_select a1 = Available.deletion_select a /\
               Available.reverse a1 = Available.reverse a /\
               consistent a1 /\
               ids_distinct (Available.prices a1) = true /\
               forallb has_id (Available.prices a1) = true /\
               forall r, In r (Available.prices a1) <-> In r ps).
  { destruct srt.
    - destruct (sort_true_inv _ _ Hsort) as (Hp & Hds & Hrev & Hc & _).
      simpl in *. rewrite Hp, ids_distinct_list_sort, forallb_list_sort.
      repeat split; auto; apply In_list_sort.
    - destruct (sort_false_inv _ _ Hsort) as (Hp & Hds & Hrev & Hc).
      simpl in *. rewrite Hp. repeat split; auto. }
  destruct H1 as (Hds & Hrev & Hc & Hda & Hida & HIn).
  unfold Available.update. rewrite Hds.
  destruct (update_loop_total_nonzero (Available.deletion_select a) batch
              (Available.prices a1) false Hnz Hida) as (ps2 & s2 & Hloop2).
  rewrite Hloop2. simpl.
  assert (Hall : forall book, In book batch ->
                   exists r, In r (Available.prices a1) /\
                             same_id r book = true).
  { intros book Hb. destruct (Hm1 book Hb) as (r & Hr & Hsr).
    exists r. split; auto. now apply HIn. }
  destruct (update_loop_absorb _ _ Hnz _ _ _ _ Hda Hida Hall Hloop2)
    as [Hps2 Hs2].
  subst s2.
  assert (E : ps2 = Available.prices a1).
  { rewrite Hps2. rewrite <- (map_id (Available.prices a1)) at 2.
    apply map_ext_in. intros r Hr. apply Hs1. now apply HIn. }
  rewrite E, <- Hds.
  destruct a1 as [p1 d1 r1 ser1]. simpl. now apply sort_false_consistent.
Qed.

(** C4.  On a ladder whose rows have pairwise distinct
    identities, applying a batch in which every row has a nonzero size
    field a second time gives the ladder the first application gave: the
    same rows and the same serialised list.  With well-formed rows the
    first application returns. *)
Theorem C4_nonzero_batch_idempotent :
  (forall a batch a1,
      consistent a ->
      ids_distinct (Available.prices a) = true ->
      forallb (size_nonzero (Available.deletion_select a)) batch = true ->
      Available.update a batch = Some a1 ->
      Available.update a1 batch = Some a1) /\
  (forall a batch,
      consistent a ->
      ids_distinct (Available.prices a) = true ->
      forallb (size_nonzero (Available.deletion_select a)) batch = true ->
      rows_ok (Available.deletion_select a) batch = true ->
      exists a1,
        Available.update a batch = Some a1 /\
        Available.update a1 batch = Some a1).
Proof.
  split; [intros a batch a1; apply update_twice|].
  intros a batch Ha Hd Hnz Hok.
  destruct (update_total a batch Ha Hok) as [a1 Hu].
  exists a1. split; [exact Hu|]. eapply update_twice; eassumption.
Qed.

Lemma C4_witness :
  (exists a1,
      Available.update
        (Available.mk [[2; 7]; [3; 1]] 1 false [PriceSize 2 7; PriceSize 3 1])
        [[3; 8]; [1; 4]; [3; 9]] = Some a1 /\
      Available.update a1 [[3; 8]; [1; 4]; [3; 9]] = Some a1) /\
  Available.update
    (Available.mk [[3; 9]; [2; 7]] 1 true [PriceSize 3 9; PriceSize 2 7])
    [[3; 9]] 
  = Some (Available.mk [[3; 9]; [2; 7]] 1 true [PriceSize 3 9; PriceSize 2 7]).
Proof.
  destruct C4_nonzero_batch_idempotent as (H1 & H2). split.
  - apply (H2 (Available.mk [[2; 7]; [3; 1]] 1 false
                 [PriceSize 2 7; PriceSize 3 1])
              [[3; 8]; [1; 4]; [3; 9]]);
      reflexivity.
  - apply (H1 (Available.mk [[3; 8]; [2; 7]] 1 true
                 [PriceSize 3 8; PriceSize 2 7]) [[3; 9]]);
      reflexivity.
Defined.

(** C4 without the premise on distinct identities: on a ladder constructed
    from rows that share an identity, the batch [[2, 10], [3, 1]] of
    nonzero rows applied once leaves sizes 9, 10, 1 and applied twice
    leaves sizes 10, 10, 1. *)
Lemma C4_counterexample :
  exists a a1 a2,
    Available.init (Some [[2; 1]; [2; 9]]) 1 false = Some a /\
    forallb (size_nonzero 1) [[2; 10]; [3; 1]] = true /\
    Available.update a [[2; 10]; [3; 1]] = Some a1 /\
    Available.update a1 [[2; 10]; [3; 1]] = Some a2 /\
    Available.serialise a1 = [PriceSize 2 9; PriceSize 2 10; PriceSize 3 1] /\
    Available.serialise a2 = [PriceSize 2 10; PriceSize 2 10; PriceSize 3 1] /\
    a2 <> a1.
Proof.
  eexists. eexists. eexists.
  split; [reflexivity|]. split; [reflexivity|].
  split; [reflexivity|]. split; [reflexivity|].
  split; [reflexivity|]. split; [reflexivity|].
  discriminate.
Qed.

(** * Properties of the runner and the market cache *)

(** C6.  [serialise_available_to_back] returns the serialised rows of the
    full-depth ladder when that ladder has rows; otherwise those of the
    best-display ladder when it has rows; otherwise those of the best
    ladder when it has rows; otherwise the empty list.
    [serialise_available_to_lay] does the same on the lay side. *)
Theorem C6_available_fallback_precedence (r : RunnerBook.t) :
  (Available.prices (RunnerBook.available_to_back r) <> [] ->
   RunnerBook.serialise_available_to_back r
   = Available.serialise (RunnerBook.available_to_back r)) /\
  (Available.prices (RunnerBook.available_to_back r) = [] ->
   Available.prices (RunnerBook.best_display_available_to_back r) <> [] ->
   RunnerBook.serialise_available_to_back r
   = Available.serialise (RunnerBook.best_display_available_to_back r)) /\
  (Available.prices (RunnerBook.available_to_back r) = [] ->
   Available.prices (RunnerBook.best_display_available_to_back r) = [] ->
   Available.prices (RunnerBook.best_available_to_back r) <> [] ->
   RunnerBook.serialise_available_to_back r
   = Available.serialise (RunnerBook.best_available_to_back r)) /\
  (Available.prices (RunnerBook.available_to_back r) = [] ->
   Available.prices (RunnerBook.best_display_available_to_back r) = [] ->
   Available.prices (RunnerBook.best_available_to_back r) = [] ->
   RunnerBook.serialise_available_to_back r = []) /\
  (Available.prices (RunnerBook.available_to_lay r) <> [] ->
   RunnerBook.serialise_available_to_lay r
   = Available.serialise (RunnerBook.available_to_lay r)) /\
  (Available.prices (RunnerBook.available_to_lay r) = [] ->
   Available.prices (RunnerBook.best_display_available_to_lay r) <> [] ->
   RunnerBook.serialise_available_to_lay r
   = Available.serialise (RunnerBook.best_display_available_to_lay r)) /\
  (Available.prices (RunnerBook.available_to_lay r) = [] ->
   Available.prices (RunnerBook.best_display_available_to_lay r) = [] ->
   Available.prices (RunnerBook.best_available_to_lay r) <> [] ->
   RunnerBook.serialise_available_to_lay r
   = Available.serialise (RunnerBook.best_available_to_lay r)) /\
  (Available.prices (RunnerBook.available_to_lay r) = [] ->
   Available.prices (RunnerBook.best_display_available_to_lay r) = [] ->
   Available.prices (RunnerBook.best_available_to_lay r) = [] ->
   RunnerBook.serialise_available_to_lay r = []).
Proof.
  unfold RunnerBook.serialise_available_to_back,
    RunnerBook.serialise_available_to_lay.
  simpl.
  destruct (Available.prices (RunnerBook.available_to_back r)),
    (Available.prices (RunnerBook.best_display_available_to_back r)),
    (Available.prices (RunnerBook.best_available_to_back r)),
    (Available.prices (RunnerBook.available_to_lay r)),
    (Available.prices (RunnerBook.best_display_available_to_lay r)),
    (Available.prices (RunnerBook.best_available_to_lay r));
    simpl; repeat split; intros; congruence.
Qed.

Lemma C6_witness :
  exists r,
    RunnerBook.init
      (mkRunnerChange 7 None None None None None
         (Some [[0; 2; 5]; [1; 3; 4]]) (Some [[0; 2; 6]]) None None None
         None None None None) None = Some r /\
    RunnerBook.serialise_available_to_back r = [PriceSize 2 6] /\
    RunnerBook.serialise_available_to_lay r = [].
Proof.
  eexists. split; [vm_compute; reflexivity|].
  match goal with
  | |- RunnerBook.serialise_available_to_back ?r = _ /\ _ =>
      destruct (C6_available_fallback_precedence r)
        as (_ & Hback & _ & _ & _ & _ & _ & Hlay)
  end.
  split.
  - apply Hback; [reflexivity|discriminate].
  - apply Hlay; reflexivity.
Defined.

(** ** A runner change on an existing runner *)

Lemma nth_error_list_set (A : Type) (l : list A) (i : nat) (x y : A) :
  nth_error l i = Some x -> nth_error (list_set i y l) i = Some y.
Proof.
  revert i. induction l as [|z l IH]; intros [|i]; simpl; try discriminate.
  - reflexivity.
  - apply IH.
Qed.

Lemma list_set_twice (A : Type) (l : list A) (i : nat) (x y : A) :
  list_set i x (list_set i y l) = list_set i x l.
Proof.
  revert i. induction l as [|z l IH]; intros [|i]; simpl; try reflexivity.
  now rewrite IH.
Qed.

(** A projection that the body of an [if key in new_data] leaves alone is
    the same after it. *)
Lemma when_frame (A X : Type) (p : RunnerBook.t -> X) (o : option A)
  (f : A -> RunnerBook.t -> option RunnerBook.t) (r r' : RunnerBook.t) :
  (forall v r1 r2, f v r1 = Some r2 -> p r2 = p r1) ->
  MarketBookCache.when o f r = Some r' -> p r' = p r.
Proof.
  intros Hf. destruct o as [v|]; simpl; intros H.
  - eapply Hf. exact H.
  - now inversion H.
Qed.

Lemma when_absent (A : Type) (o : option A)
  (f : A -> RunnerBook.t -> option RunnerBook.t) (r r' : RunnerBook.t) :
  o = None -> MarketBookCache.when o f r = Some r' -> r' = r.
Proof. intros ->. simpl. intros H. now inversion H. Qed.

Ltac solve_body :=
  let v := fresh "v" in
  let r1 := fresh "r1" in
  let r2 := fresh "r2" in
  let Hf := fresh "Hf" in
  intros v r1 r2 Hf;
  first
    [ inversion Hf; reflexivity
    | unfold MarketBookCache.update_ladder in Hf;
      match type of Hf with
      | context [Available.update ?a ?b] =>
          destruct (Available.update a b); try discriminate
      end;
      inversion Hf; reflexivity
    | unfold RunnerBook.update_traded in Hf; destruct v;
      match type of Hf with
      | context [Available.clear ?a] =>
          destruct (Available.clear a); try discriminate
      | context [Available.update ?a ?b] =>
          destruct (Available.update a b); try discriminate
      end;
      inversion Hf; reflexivity ].

(** Carries a projection back through the chain of [when] steps; the step
    of the absent key [Habs] is the identity. *)
Ltac frame_with Habs :=
  repeat match goal with
    | H : MarketBookCache.when ?o ?f ?r = Some ?r' |- ?p ?r' = _ =>
        transitivity (p r);
        [ first [ now rewrite (when_absent _ o f r r' Habs H)
                | apply (when_frame _ _ p o f r r'); [solve_body | exact H] ]
        | clear H ]
    end;
  reflexivity.

Ltac frame :=
  repeat match goal with
    | H : MarketBookCache.when ?o ?f ?r = Some ?r' |- ?p ?r' = _ =>
        transitivity (p r);
        [ apply (when_frame _ _ p o f r r'); [solve_body | exact H]
        | clear H ]
    end;
  reflexivity.

(** Cuts the chain of [apply_runner_change] into its thirteen steps. *)
Ltac cut_chain H :=
  unfold MarketBookCache.apply_runner_change in H;
  repeat match type of H with
    | bind (MarketBookCache.when ?o ?f ?r) _ = Some _ =>
        let r' := fresh "r" in
        let E := fresh "E" in
        destruct (MarketBookCache.when o f r) as [r'|] eqn:E;
        [simpl in H | discriminate]
    end.

(** Fields absent from a runner change are not touched. *)
Lemma apply_runner_change_frame (nd : runner_change) (R R' : RunnerBook.t) :
  MarketBookCache.apply_runner_change nd R = Some R' ->
  absent_fields_kept nd R R'.
Proof.
  intros H. unfold absent_fields_kept. cut_chain H.
  split; [repeat split; frame|].
  repeat split; intros Habs; frame_with Habs.
Qed.

Lemma list_set_middle (A : Type) (l1 l2 : list A) (e x : A) :
  list_set (List.length l1) x (l1 ++ e :: l2) = l1 ++ x :: l2.
Proof.
  induction l1 as [|y l1 IH]; simpl; [reflexivity|]. now rewrite IH.
Qed.

Lemma Forall_list_set (A : Type) (P : A -> Prop) (l : list A) (i : nat)
  (x : A) :
  Forall P l -> P x -> Forall P (list_set i x l).
Proof.
  intros Hl Hx. revert i. induction Hl as [|z l Hz Hl IH]; intros [|i]; simpl;
    constructor; auto.
Qed.

Lemma fresh_serialise (r : RunnerBook.t) : fresh (RunnerBook.serialise r).
Proof. reflexivity. Qed.

Lemma for_each_invariant (S X : Type) (I : S -> Prop)
  (body : S -> X -> option S) :
  (forall s x s', I s -> body s x = Some s' -> I s') ->
  forall xs s s', I s -> for_each body xs s = Some s' -> I s'.
Proof.
  intros Hbody. induction xs as [|x xs IH]; simpl; intros s s' HI H.
  - now inversion H; subst.
  - destruct (body s x) as [s1|] eqn:E; try discriminate. simpl in H.
    eapply IH; [|exact H]. eapply Hbody; eassumption.
Qed.

Lemma serialise_runner_fresh (m m' : MarketBookCache.t) (i : nat)
  (rs : list RunnerBook.t) (r : RunnerBook.t) :
  Forall fresh rs ->
  MarketBookCache.serialise_runner i
    (MarketBookCache.set_runners (list_set i r rs) m) = Some m' ->
  Forall fresh (MarketBookCache.runners m').
Proof.
  intros Hrs. unfold MarketBookCache.serialise_runner. simpl.
  destruct (nth_error (list_set i r rs) i) as [r0|]; try discriminate.
  simpl. intros H. inversion H. simpl. rewrite list_set_twice.
  apply Forall_list_set; auto. apply fresh_serialise.
Qed.

Lemma add_new_runner_fresh (m m' m'' : MarketBookCache.t) (i : nat)
  (nd : runner_change) (d : option runner_definition) :
  Forall fresh (MarketBookCache.runners m) ->
  MarketBookCache._add_new_runner nd d m = Some (m', i) ->
  MarketBookCache.serialise_runner i m' = Some m'' ->
  Forall fresh (MarketBookCache.runners m'').
Proof.
  intros Hrs. unfold MarketBookCache._add_new_runner.
  destruct (RunnerBook.init nd d) as [runner|]; try discriminate.
  simpl. intros H. inversion H. subst m' i. clear H.
  unfold MarketBookCache.serialise_runner. simpl.
  destruct (nth_error (MarketBookCache.runners m ++ [runner])
              (List.length (MarketBookCache.runners m))) as [r0|];
    try discriminate.
  simpl. intros H. inversion H. simpl. rewrite list_set_middle.
  apply Forall_app. split; auto. constructor; [apply fresh_serialise|auto].
Qed.

Lemma process_runner_change_fresh (m m' : MarketBookCache.t)
  (nd : runner_change) :
  Forall fresh (MarketBookCache.runners m) ->
  MarketBookCache.process_runner_change m nd = Some m' ->
  Forall fresh (MarketBookCache.runners m').
Proof.
  intros Hrs. unfold MarketBookCache.process_runner_change.
  destruct (dict_get runner_key_eqb (rc_id nd, hc_or_0 (rc_hc nd))
              (MarketBookCache.runner_dict m)) as [i|].
  - destruct (nth_error (MarketBookCache.runners m) i) as [runner|];
      try discriminate.
    simpl. destruct (MarketBookCache.apply_runner_change nd runner) as [r'|];
      try discriminate.
    simpl. now apply serialise_runner_fresh.
  - destruct (MarketBookCache._add_new_runner nd None m) as [[m1 i]|] eqn:E;
      try discriminate.
    simpl. eapply add_new_runner_fresh; eassumption.
Qed.

Lemma process_runner_definition_fresh (m m' : MarketBookCache.t)
  (rd : runner_definition) :
  Forall fresh (MarketBookCache.runners m) ->
  MarketBookCache.process_runner_definition m rd = Some m' ->
  Forall fresh (MarketBookCache.runners m').
Proof.
  intros Hrs. unfold MarketBookCache.process_runner_definition.
  destruct (dict_get runner_key_eqb (rd_id rd, hc_or_0 (rd_hc rd))
              (MarketBookCache.runner_dict m)) as [i|].
  - destruct (nth_error (MarketBookCache.runners m) i) as [runner|];
      try discriminate.
    simpl. now apply serialise_runner_fresh.
  - destruct (MarketBookCache._add_new_runner
                (MarketBookCache.definition_kwargs (rd_id rd)
                   (hc_or_0 (rd_hc rd))) (Some rd) m) as [[m1 i]|] eqn:E;
      try discriminate.
    simpl. eapply add_new_runner_fresh; eassumption.
Qed.

(** In every market cache the cached snapshot of every runner is
    current. *)
Lemma market_runners_fresh (m : MarketBookCache.t) :
  market m -> Forall fresh (MarketBookCache.runners m).
Proof.
  intros H. induction H as [mid pt|m mc pt m' Hm IH Hu].
  - constructor.
  - unfold MarketBookCache.update_cache in Hu.
    destruct (match mc_marketDefinition mc with
              | Some md =>
                  MarketBookCache._process_market_definition md
                    (MarketBookCache.set_publish_time pt m)
              | None => Some (MarketBookCache.set_publish_time pt m)
              end) as [m1|] eqn:E1; try discriminate.
    simpl in Hu.
    assert (H1 : Forall fresh (MarketBookCache.runners m1)).
    { destruct (mc_marketDefinition mc) as [md|].
      - unfold MarketBookCache._process_market_definition in E1.
        refine (for_each_invariant _ _
                  (fun m => Forall fresh (MarketBookCache.runners m))
                  _ _ _ _ _ _ E1).
        + intros s x s'. apply process_runner_definition_fresh.
        + exact IH.
      - now inversion E1. }
    destruct (mc_rc mc) as [rc|].
    + refine (for_each_invariant _ _
                (fun m => Forall fresh (MarketBookCache.runners m))
                _ _ _ _ _ _ Hu).
      * intros s x s'. apply process_runner_change_fresh.
      * now destruct (mc_tv mc).
    + inversion Hu. now destruct (mc_tv mc).
Qed.

(** C7.  A runner change for an existing runner that carries the identity
    fields and [ltp] only sets the runner's last traded price and
    refreshes its cached snapshot; nothing else of the runner, of the
    other runners or of the index changes, and the new snapshot is the
    runner's snapshot with [lastPriceTraded] replaced.  For any runner
    change applied to an existing runner, the fields whose keys are absent
    keep their values.  In a market cache the snapshot a runner holds is
    the snapshot of its fields, so it is the held snapshot that changes in
    [lastPriceTraded] only. *)
Theorem C7_absent_fields_untouched :
  (forall m id hc ltp pt i R,
      dict_get runner_key_eqb (id, hc_or_0 hc) (MarketBookCache.runner_dict m)
      = Some i ->
      nth_error (MarketBookCache.runners m) i = Some R ->
      exists m' R',
        MarketBookCache.update_cache m
          (mkMarketChange None None (Some [ltp_only id hc ltp])) pt = Some m' /\
        MarketBookCache.runners m' = list_set i R' (MarketBookCache.runners m) /\
        MarketBookCache.runner_dict m' = MarketBookCache.runner_dict m /\
        R' = RunnerBook.serialise
               (RunnerBook.set_last_price_traded (Some ltp) R) /\
        RunnerBook.last_price_traded R' = Some ltp /\
        RunnerBook.serialised R'
        = Some (with_lastPriceTraded (Some ltp) (RunnerBook.to_snapshot R)) /\
        absent_fields_kept (ltp_only id hc ltp) R
          (RunnerBook.set_last_price_traded (Some ltp) R)) /\
  (forall m nd i R m',
      dict_get runner_key_eqb (rc_id nd, hc_or_0 (rc_hc nd))
        (MarketBookCache.runner_dict m) = Some i ->
      nth_error (MarketBookCache.runners m) i = Some R ->
      MarketBookCache.process_runner_change m nd = Some m' ->
      exists R',
        MarketBookCache.apply_runner_change nd R = Some R' /\
        absent_fields_kept nd R R' /\
        MarketBookCache.runners m'
        = list_set i (RunnerBook.serialise R') (MarketBookCache.runners m)) /\
  (forall m i R,
      market m ->
      nth_error (MarketBookCache.runners m) i = Some R ->
      RunnerBook.serialised R = Some (RunnerBook.to_snapshot R)).
Proof.
  split; [|split].
  - intros m id hc ltp pt i R Hd Hn.
    exists (MarketBookCache.set_runners
              (list_set i
                 (RunnerBook.serialise
                    (RunnerBook.set_last_price_traded (Some ltp) R))
                 (MarketBookCache.runners m))
              (MarketBookCache.set_publish_time pt m)).
    exists (RunnerBook.serialise
              (RunnerBook.set_last_price_traded (Some ltp) R)).
    repeat split; try reflexivity.
    + unfold MarketBookCache.update_cache. simpl.
      unfold MarketBookCache.process_runner_change. simpl.
      rewrite Hd, Hn. simpl.
      unfold MarketBookCache.serialise_runner. simpl.
      rewrite (nth_error_list_set _ _ _ _ _ Hn). simpl.
      now rewrite list_set_twice.
    + discriminate.
  - intros m nd i R m' Hd Hn Hp.
    unfold MarketBookCache.process_runner_change in Hp.
    rewrite Hd, Hn in Hp. simpl in Hp.
    destruct (MarketBookCache.apply_runner_change nd R) as [R'|] eqn:E;
      try discriminate.
    simpl in Hp. exists R'. split; [reflexivity|].
    split; [now apply apply_runner_change_frame|].
    unfold MarketBookCache.serialise_runner in Hp. simpl in Hp.
    rewrite (nth_error_list_set _ _ _ _ _ Hn) in Hp. simpl in Hp.
    inversion Hp. simpl. now rewrite list_set_twice.
  - intros m i R Hm Hn. apply market_runners_fresh in Hm.
    rewrite Forall_forall in Hm. apply Hm. eapply nth_error_In. exact Hn.
Qed.

Lemma C7_witness :
  exists m,
    MarketBookCache.update_cache (MarketBookCache.init "1.101" 0)
      (mkMarketChange None (Some 40)
         (Some [mkRunnerChange 7 None (Some 2) (Some 30) None
                  (Some [[2; 5]; [3; 1]]) None None None None None (Some 4)
                  None None None])) 1 = Some m /\
    (exists m' R',
        MarketBookCache.update_cache m
          (mkMarketChange None None (Some [ltp_only 7 None 3])) 2 = Some m' /\
        MarketBookCache.runners m' = [R'] /\
        RunnerBook.last_price_traded R' = Some 3 /\
        RunnerBook.total_matched R' = Some 30 /\
        option_map RunnerBook.ex (RunnerBook.serialised R')
        = Some (RunnerBook.mkEx [] [PriceSize 3 1; PriceSize 2 5] [])) /\
    (exists m' R',
        MarketBookCache.process_runner_change m
          (mkRunnerChange 7 None None None None (Some [[2; 0]]) None None
             None None None None None None None) = Some m' /\
        MarketBookCache.runners m' = [RunnerBook.serialise R'] /\
        RunnerBook.last_price_traded R' = Some 2 /\
        RunnerBook.total_matched R' = Some 30 /\
        RunnerBook.starting_price_near R' = Some 4).
Proof.
  eexists. split; [vm_compute; reflexivity|].
  match goal with
  | |- (exists m' R', MarketBookCache.update_cache ?m _ _ = _ /\ _) /\ _ =>
      match eval vm_compute in (nth_error (MarketBookCache.runners m) 0) with
      | Some ?R =>
          destruct C7_absent_fields_untouched as (H1 & H2 & H3);
          pose proof
            (H3 m 0%nat R
               (market_update (MarketBookCache.init "1.101" 0)
                  (mkMarketChange None (Some 40)
                     (Some [mkRunnerChange 7 None (Some 2) (Some 30) None
                              (Some [[2; 5]; [3; 1]]) None None None None
                              None (Some 4) None None None]))
                  1%Z m (market_init "1.101" 0) eq_refl)
               eq_refl) as Hfresh;
          destruct (H1 m 7%Z None 3 2%Z 0%nat R eq_refl eq_refl)
            as (m1 & R1 & Hu & Hr & _ & HR & Hl & Hs & _);
          match eval vm_compute in
                (MarketBookCache.process_runner_change m
                   (mkRunnerChange 7 None None None None (Some [[2; 0]]) None
                      None None None None None None None None)) with
          | Some ?m2 =>
              destruct (H2 m
                          (mkRunnerChange 7 None None None None
                             (Some [[2; 0]]) None None None None None None
                             None None None)
                          0%nat R m2 eq_refl eq_refl eq_refl)
                as (R2 & Ha & Hk & Hr2)
          end
      end
  end.
  split.
  - exists m1, R1. split; [exact Hu|]. split; [exact Hr|].
    split; [exact Hl|]. subst R1. split; reflexivity.
  - eexists. exists R2. split; [reflexivity|]. split; [exact Hr2|].
    destruct Hk as (_ & Hltp & Htv & Hspn & _).
    split; [exact (Hltp eq_refl)|].
    split; [exact (Htv eq_refl)|exact (Hspn eq_refl)].
Defined.

(** * Properties of the keyed collections *)

Section DictFacts.

Variables (K V : Type) (keqb : K -> K -> bool).
Hypothesis keqb_refl : forall k, keqb k k = true.
Hypothesis keqb_sym : forall a b, keqb a b = keqb b a.
Hypothesis keqb_trans :
  forall a b c, keqb a b = true -> keqb b c = true -> keqb a c = true.

(** After [d[k] = v], a key equal to [k] reads [v]. *)
Lemma dict_get_set_eq (k k' : K) (v : V) (d : list (K * V)) :
  keqb k k' = true -> dict_get keqb k' (dict_set keqb k v d) = Some v.
Proof.
  intros E. induction d as [|[k0 v0] d IH]; simpl.
  - now rewrite E.
  - destruct (keqb k0 k) eqn:E0; simpl.
    + now rewrite (keqb_trans _ _ _ E0 E).
    + destruct (keqb k0 k') eqn:E1; auto.
      rewrite keqb_sym in E. rewrite (keqb_trans _ _ _ E1 E) in E0.
      discriminate.
Qed.

Lemma dict_get_set_same (k : K) (v : V) (d : list (K * V)) :
  dict_get keqb k (dict_set keqb k v d) = Some v.
Proof. apply dict_get_set_eq, keqb_refl. Qed.

(** After [d[k] = v], a key different from [k] reads what it read. *)
Lemma dict_get_set_other (k k' : K) (v : V) (d : list (K * V)) :
  keqb k k' = false ->
  dict_get keqb k' (dict_set keqb k v d) = dict_get keqb k' d.
Proof.
  intros E. induction d as [|[k0 v0] d IH]; simpl.
  - now rewrite E.
  - destruct (keqb k0 k) eqn:E0; simpl.
    + destruct (keqb k0 k') eqn:E1; auto.
      rewrite keqb_sym in E0. rewrite (keqb_trans _ _ _ E0 E1) in E.
      discriminate.
    + destruct (keqb k0 k'); auto.
Qed.

End DictFacts.

Lemma runner_key_eqb_refl (k : runner_key) : runner_key_eqb k k = true.
Proof.
  unfold runner_key_eqb. now rewrite Z.eqb_refl, Qeqb_refl.
Qed.

Lemma runner_key_eqb_sym (a b : runner_key) :
  runner_key_eqb a b = runner_key_eqb b a.
Proof.
  unfold runner_key_eqb. now rewrite Z.eqb_sym, Qeqb_sym.
Qed.

Lemma runner_key_eqb_trans (a b c : runner_key) :
  runner_key_eqb a b = true -> runner_key_eqb b c = true ->
  runner_key_eqb a c = true.
Proof.
  unfold runner_key_eqb. rewrite !andb_true_iff, !Z.eqb_eq.
  intros [H1 H2] [H3 H4]. split; [congruence|].
  eapply Qeqb_trans; eassumption.
Qed.

Lemma value_eqb_sym (v w : value) : value_eqb v w = value_eqb w v.
Proof.
  destruct v as [p|s|[|]], w as [q|t|[|]]; unfold value_eqb;
    cbn [as_number]; try reflexivity;
    first [apply Qeqb_sym | apply String.eqb_sym].
Qed.

Lemma value_eqb_trans (u v w : value) :
  value_eqb u v = true -> value_eqb v w = true -> value_eqb u w = true.
Proof.
  destruct u as [p|s|[|]], v as [q|t|[|]], w as [r|x|[|]];
    unfold value_eqb; cbn [as_number]; try discriminate;
    first [apply Qeqb_trans | rewrite !String.eqb_eq; congruence].
Qed.

(** On well-formed rows the constructor does not raise. *)
Lemma init_total (initial : option (list row)) (ds : Z) (rev : bool) :
  rows_ok ds (match initial with Some l => l | None => [] end) = true ->
  exists a, Available.init initial ds rev = Some a.
Proof.
  intros Hok. unfold Available.init, Available.sort. simpl.
  assert (Hr : rows_ok ds
                 (list_sort rev
                    match initial with Some (r :: l) => r :: l | _ => [] end)
               = true).
  { unfold rows_ok. rewrite forallb_list_sort.
    now destruct initial as [[|r l]|]. }
  apply render_rows_ok in Hr. destruct Hr as [ser ->]. simpl. eauto.
Qed.


(** * Properties of the order cache *)

Lemma string_eqb_trans (a b c : string) :
  String.eqb a b = true -> String.eqb b c = true -> String.eqb a c = true.
Proof. rewrite !String.eqb_eq. congruence. Qed.

Section OrderCache.

Context {D : DateOps}.

(** ** Unmatched orders *)

Lemma set_orders_snoc (orders : list order_payload) (i : order_payload)
  (d : list (string * UnmatchedOrder.t)) :
  OrderBookRunner.set_orders (orders ++ [i]) d
  = dict_set String.eqb (op_id i) (UnmatchedOrder.init i)
      (OrderBookRunner.set_orders orders d).
Proof. unfold OrderBookRunner.set_orders. now rewrite fold_left_app. Qed.

(** An id reads the order built from the last payload that has it, or what
    it read before. *)
Lemma set_orders_lookup (orders : list order_payload)
  (d : list (string * UnmatchedOrder.t)) (b : string) :
  dict_get String.eqb b (OrderBookRunner.set_orders orders d)
  = match find (fun i => String.eqb (op_id i) b) (rev orders) with
    | Some i => Some (UnmatchedOrder.init i)
    | None => dict_get String.eqb b d
    end.
Proof.
  induction orders as [|i orders IH] using rev_ind; [reflexivity|].
  rewrite set_orders_snoc, rev_app_distr. simpl.
  destruct (String.eqb (op_id i) b) eqn:E.
  - exact (dict_get_set_eq _ _ String.eqb String.eqb_sym string_eqb_trans
             _ _ _ _ E).
  - rewrite <- IH.
    exact (dict_get_set_other _ _ String.eqb String.eqb_sym string_eqb_trans
             _ _ _ _ E).
Qed.


End OrderCache.


(** * Properties of the race cache *)

Lemma length_list_set (A : Type) (l : list A) (i : nat) (x : A) :
  List.length (list_set i x l) = List.length l.
Proof.
  revert i. induction l as [|z l IH]; intros [|i]; simpl; auto.
Qed.

Lemma nth_error_list_set_other (A : Type) (l : list A) (i j : nat) (x : A) :
  i <> j -> nth_error (list_set i x l) j = nth_error l j.
Proof.
  revert i j. induction l as [|z l IH]; intros [|i] [|j]; simpl; auto;
    congruence.
Qed.

Lemma for_each_app (S X : Type) (body : S -> X -> option S) (xs ys : list X)
  (s : S) :
  for_each body (xs ++ ys) s
  = s1 <- for_each body xs s ;; for_each body ys s1.
Proof.
  revert s. induction xs as [|x xs IH]; simpl; intros s; [reflexivity|].
  destruct (body s x) as [s'|]; simpl; auto.
Qed.

Lemma skipn_list_set (A : Type) (l : list A) (n j : nat) (x : A) :
  (j < n)%nat -> skipn n (list_set j x l) = skipn n l.
Proof.
  revert n j. induction l as [|y l IH]; intros [|n] [|j] H; simpl; auto;
    try lia.
  apply IH. lia.
Qed.

Lemma id_differs_has_id (id : value) (e : RunnerChange.t) :
  id_differs id e = true -> has_race_id e = true.
Proof.
  unfold id_differs, has_race_id.
  now destruct (pydict_get "id" (RunnerChange.change e)).
Qed.

Section RaceCacheFacts.

Context {D : DateOps}.

Lemma build_runner_dict_app (l1 l2 : list RunnerChange.t) (i : nat)
  (d : list (value * nat)) :
  RaceCache.build_runner_dict i (l1 ++ l2) d
  = d1 <- RaceCache.build_runner_dict i l1 d ;;
    RaceCache.build_runner_dict (i + List.length l1) l2 d1.
Proof.
  revert i d. induction l1 as [|e l1 IH]; simpl; intros i d.
  - now rewrite Nat.add_0_r.
  - destruct (pydict_get "id" (RunnerChange.change e)); simpl; auto.
    rewrite IH. now rewrite Nat.add_succ_r.
Qed.

(** The lookup is built without a [KeyError] when every entry has an
    ["id"]. *)
Lemma build_runner_dict_total (l : list RunnerChange.t) (i : nat)
  (d : list (value * nat)) :
  forallb has_race_id l = true ->
  exists d', RaceCache.build_runner_dict i l d = Some d'.
Proof.
  revert i d. induction l as [|e l IH]; simpl; intros i d H.
  - eauto.
  - apply andb_true_iff in H. destruct H as [He Hl].
    unfold has_race_id in He.
    destruct (pydict_get "id" (RunnerChange.change e)); try discriminate.
    simpl. now apply IH.
Qed.

(** Entries with other ids do not change what an id reads. *)
Lemma build_runner_dict_unseen (id : value) (l : list RunnerChange.t) (i : nat)
  (d d' : list (value * nat)) :
  forallb (id_differs id) l = true ->
  RaceCache.build_runner_dict i l d = Some d' ->
  dict_get value_eqb id d' = dict_get value_eqb id d.
Proof.
  revert i d. induction l as [|e l IH]; simpl; intros i d H Hb.
  - now inversion Hb.
  - apply andb_true_iff in H. destruct H as [He Hl].
    unfold id_differs in He.
    destruct (pydict_get "id" (RunnerChange.change e)) as [id'|];
      try discriminate.
    simpl in Hb. rewrite (IH _ _ Hl Hb).
    apply negb_true_iff in He.
    exact (dict_get_set_other _ _ value_eqb value_eqb_sym value_eqb_trans
             _ _ _ _ He).
Qed.

(** What the lookup reads is the position of the last entry with the
    id. *)
Lemma build_runner_dict_lookup (id : value) (l : list RunnerChange.t)
  (i : nat) (d d' : list (value * nat)) :
  RaceCache.build_runner_dict i l d = Some d' ->
  dict_get value_eqb id d'
  = match last_with_id id i l with
    | Some j => Some j
    | None => dict_get value_eqb id d
    end.
Proof.
  revert i d. induction l as [|e l IH]; simpl; intros i d H.
  - now inversion H.
  - unfold id_matches.
    destruct (pydict_get "id" (RunnerChange.change e)) as [ide|];
      try discriminate.
    simpl in H. rewrite (IH _ _ H).
    destruct (last_with_id id (S i) l) as [j|]; [reflexivity|].
    destruct (value_eqb ide id) eqn:E.
    + exact (dict_get_set_eq _ _ value_eqb value_eqb_sym value_eqb_trans
               _ _ _ _ E).
    + exact (dict_get_set_other _ _ value_eqb value_eqb_sym value_eqb_trans
               _ _ _ _ E).
Qed.

Lemma last_with_id_range (id : value) (l : list RunnerChange.t) (i j : nat) :
  last_with_id id i l = Some j -> (i <= j < i + List.length l)%nat.
Proof.
  revert i. induction l as [|e l IH]; simpl; intros i H; [discriminate|].
  destruct (last_with_id id (S i) l) as [j'|] eqn:E.
  - inversion H. subst j'. specialize (IH _ E). lia.
  - destruct (id_matches id e); inversion H. lia.
Qed.

(** The loop of [update_cache] over the payloads, with the lookup built
    from the entries [l0]: a payload whose id an entry of [l0] has is
    written to the position of the last such entry, any other payload is
    appended. *)
Lemma race_loop_spec (d : list (value * nat)) (l0 : list RunnerChange.t)
  (updates : list pydict) (l' : list RunnerChange.t) :
  (forall id, dict_get value_eqb id d = last_with_id id 0 l0) ->
  for_each (RaceCache.process_runner_update d) updates l0 = Some l' ->
  List.length l' = (List.length l0 + List.length (appended l0 updates))%nat /\
  (forall j e,
      nth_error l0 j = Some e ->
      nth_error l' j
      = Some (match replacement l0 updates j with
              | Some p => RunnerChange.mk p
              | None => e
              end)) /\
  skipn (List.length l0) l' = map RunnerChange.mk (appended l0 updates).
Proof.
  intros Hd. revert l'.
  induction updates as [|u us IH] using rev_ind; intros l' H.
  - simpl in H. inversion H. subst l'. simpl.
    split; [lia|]. split; [auto|]. apply skipn_all.
  - rewrite for_each_app in H.
    destruct (for_each (RaceCache.process_runner_update d) us l0)
      as [l1|] eqn:E1; try discriminate.
    simpl in H. destruct (IH l1 eq_refl) as (Hlen & Hnth & Hskip).
    destruct (RaceCache.process_runner_update d l1 u) as [l2|] eqn:E2;
      try discriminate.
    simpl in H. inversion H. subst l2. clear H.
    unfold RaceCache.process_runner_update in E2.
    destruct (pydict_get "id" u) as [idv|] eqn:Eid; try discriminate.
    simpl in E2. rewrite Hd in E2.
    assert (Ht : target l0 u = last_with_id idv 0 l0)
      by (unfold target; now rewrite Eid).
    assert (Ha : appended l0 (us ++ [u])
                 = appended l0 us
                   ++ match target l0 u with
                      | Some _ => []
                      | None => [u]
                      end).
    { unfold appended. rewrite filter_app. simpl.
      now destruct (target l0 u). }
    assert (Hr : forall j',
               replacement l0 (us ++ [u]) j'
               = if match target l0 u with
                    | Some j => Nat.eqb j j'
                    | None => false
                    end
                 then Some u
                 else replacement l0 us j').
    { intros j'. unfold replacement. rewrite rev_app_distr. reflexivity. }
    rewrite Ha, Ht.
    destruct (last_with_id idv 0 l0) as [j|] eqn:Ej; inversion E2;
      subst l'; clear E2.
    + pose proof (last_with_id_range _ _ _ _ Ej) as Hj. simpl in Hj.
      rewrite app_nil_r. split; [|split].
      * rewrite length_list_set. exact Hlen.
      * intros j' e Hn. rewrite Hr, Ht.
        destruct (Nat.eqb j j') eqn:Ejj.
        -- apply Nat.eqb_eq in Ejj. subst j'.
           exact (nth_error_list_set _ _ _ _ _ (Hnth _ _ Hn)).
        -- apply Nat.eqb_neq in Ejj.
           rewrite (nth_error_list_set_other _ _ _ _ _ Ejj).
           exact (Hnth _ _ Hn).
      * rewrite skipn_list_set by lia. exact Hskip.
    + split; [|split].
      * rewrite !length_app, Hlen. simpl. lia.
      * intros j' e Hn. rewrite Hr, Ht.
        rewrite nth_error_app1; [exact (Hnth _ _ Hn)|].
        apply nth_error_Some. rewrite (Hnth _ _ Hn). discriminate.
      * rewrite skipn_app, Hskip, map_app.
        replace (List.length l0 - List.length l1)%nat with 0%nat by lia.
        reflexivity.
Qed.

(** C9.  The lookup of entries by id is the one of the entries the cache
    holds when [update_cache] is called.  A payload whose ["id"] is the
    id of such an entry takes the place of the whole payload of that
    entry (the last one with the id), nothing of the old payload being
    merged in; of several such payloads the last one stays.  A payload
    whose ["id"] is the id of no such entry is appended after the
    entries, in the order of the update, also when an earlier payload of
    the same update has its id.  The other entries stay as they are and in
    their order.  Applying [{id: "r1", x: 1}] and then
    [{id: "r1", x: 2}] in two updates to a cache without entries leaves
    the one payload [{id: "r1", x: 2}]. *)
Theorem C9_race_runner_change_replaces_payload :
  (forall c u pt id,
      pydict_get "id" u = Some id ->
      forallb (id_differs id) (RaceCache.rrc c) = true ->
      exists c',
        RaceCache.update_cache c (mkRaceUpdate None (Some [u])) pt = Some c' /\
        RaceCache.rrc c' = RaceCache.rrc c ++ [RunnerChange.mk u]) /\
  (forall c u pt id l1 e l2,
      pydict_get "id" u = Some id ->
      RaceCache.rrc c = l1 ++ e :: l2 ->
      forallb has_race_id l1 = true ->
      id_matches id e = true ->
      forallb (id_differs id) l2 = true ->
      exists c',
        RaceCache.update_cache c (mkRaceUpdate None (Some [u])) pt = Some c' /\
        RaceCache.rrc c' = l1 ++ RunnerChange.mk u :: l2) /\
  (forall c pt1 pt2,
      RaceCache.rrc c = [] ->
      exists c1 c2,
        RaceCache.update_cache c
          (mkRaceUpdate None
             (Some [[("id", VStr "r1"); ("x", VNum 1)]%string])) pt1
        = Some c1 /\
        RaceCache.update_cache c1
          (mkRaceUpdate None
             (Some [[("id", VStr "r1"); ("x", VNum 2)]%string])) pt2
        = Some c2 /\
        RaceCache.serialise_rrc c2
        = [[("id", VStr "r1"); ("x", VNum 2)]%string]) /\
  (forall c u pt c' updates,
      ru_rrc u = Some updates ->
      RaceCache.update_cache c u pt = Some c' ->
      (forall j e,
          nth_error (RaceCache.rrc c) j = Some e ->
          nth_error (RaceCache.rrc c') j
          = Some (match replacement (RaceCache.rrc c) updates j with
                  | Some p => RunnerChange.mk p
                  | None => e
                  end)) /\
      skipn (List.length (RaceCache.rrc c)) (RaceCache.rrc c')
      = map RunnerChange.mk (appended (RaceCache.rrc c) updates)).
Proof.
  split; [|split; [|split]].
  - intros c u pt id Hid Hd.
    assert (Hh : forallb has_race_id (RaceCache.rrc c) = true).
    { rewrite forallb_forall in *. intros e He.
      eapply id_differs_has_id. now apply Hd. }
    destruct (build_runner_dict_total _ 0 [] Hh) as [d' Hb].
    eexists. split.
    + unfold RaceCache.update_cache. simpl. rewrite Hb. simpl.
      unfold RaceCache.process_runner_update. rewrite Hid. simpl.
      rewrite (build_runner_dict_unseen _ _ _ _ _ Hd Hb). simpl. reflexivity.
    + reflexivity.
  - intros c u pt id l1 e l2 Hid Hrrc H1 He H2.
    destruct (build_runner_dict_total l1 0 [] H1) as [d1 Hb1].
    unfold id_matches in He.
    destruct (pydict_get "id" (RunnerChange.change e)) as [ide|] eqn:Eide;
      try discriminate.
    assert (Hh2 : forallb has_race_id l2 = true).
    { rewrite forallb_forall in *. intros x Hx.
      eapply id_differs_has_id. now apply H2. }
    destruct (build_runner_dict_total l2 (S (List.length l1))
                (dict_set value_eqb ide (List.length l1) d1) Hh2)
      as [d2 Hb2].
    assert (Hb : RaceCache.build_runner_dict 0 (l1 ++ e :: l2) [] = Some d2).
    { rewrite build_runner_dict_app, Hb1. simpl. rewrite Eide. simpl.
      exact Hb2. }
    assert (Hget : dict_get value_eqb id d2 = Some (List.length l1)).
    { rewrite (build_runner_dict_unseen _ _ _ _ _ H2 Hb2).
      exact (dict_get_set_eq _ _ value_eqb value_eqb_sym value_eqb_trans
               _ _ _ _ He). }
    eexists. split.
    + unfold RaceCache.update_cache. simpl. rewrite Hrrc, Hb. simpl.
      unfold RaceCache.process_runner_update. rewrite Hid. simpl.
      rewrite Hget. simpl. reflexivity.
    + simpl. apply list_set_middle.
  - intros c pt1 pt2 Hc. eexists. eexists.
    unfold RaceCache.update_cache, RaceCache.serialise_rrc. simpl.
    rewrite Hc. simpl. split; [reflexivity|]. simpl. split; reflexivity.
  - intros c u pt c' updates Hu H.
    unfold RaceCache.update_cache in H. rewrite Hu in H. simpl in H.
    destruct (RaceCache.build_runner_dict 0 (RaceCache.rrc c) [])
      as [d|] eqn:Hb; try discriminate.
    simpl in H.
    destruct (for_each (RaceCache.process_runner_update d) updates
                (RaceCache.rrc c)) as [l|] eqn:Hf; try discriminate.
    simpl in H. inversion H. simpl.
    destruct (race_loop_spec d (RaceCache.rrc c) updates l) as (_ & Hn & Hs).
    + intros id. rewrite (build_runner_dict_lookup id _ _ _ _ Hb).
      now destruct (last_with_id id 0 (RaceCache.rrc c)).
    + exact Hf.
    + split; assumption.
Qed.

End RaceCacheFacts.

Lemma C9_witness :
  (exists c',
      @RaceCache.update_cache epoch_dates
        (@RaceCache.mk epoch_dates None None None
           (Some "28587288.1650"%string) None
           [RunnerChange.mk [("id", VNum 1); ("x", VNum 5)]%string;
            RunnerChange.mk [("id", VNum 2); ("x", VNum 6)]%string;
            RunnerChange.mk [("id", VNum 3); ("x", VNum 7)]%string]
           None)
        (mkRaceUpdate None (Some [[("id", VNum 2); ("y", VNum 9)]%string])) 5
      = Some c' /\
      @RaceCache.serialise_rrc epoch_dates c'
      = [[("id", VNum 1); ("x", VNum 5)];
         [("id", VNum 2); ("y", VNum 9)];
         [("id", VNum 3); ("x", VNum 7)]]%string) /\
  (exists c',
      @RaceCache.update_cache epoch_dates
        (@RaceCache.mk epoch_dates None None None
           (Some "28587288.1650"%string) None
           [RunnerChange.mk [("id", VNum 1); ("x", VNum 5)]%string] None)
        (mkRaceUpdate None (Some [[("id", VNum 4); ("x", VNum 8)]%string])) 6
      = Some c' /\
      @RaceCache.rrc epoch_dates c'
      = [RunnerChange.mk [("id", VNum 1); ("x", VNum 5)]%string;
         RunnerChange.mk [("id", VNum 4); ("x", VNum 8)]%string]) /\
  (exists c',
      @RaceCache.update_cache epoch_dates
        (@RaceCache.mk epoch_dates None None None
           (Some "28587288.1650"%string) None
           [RunnerChange.mk [("id", VNum 1); ("x", VNum 5)]%string] None)
        (mkRaceUpdate None
           (Some [[("id", VBool true); ("x", VNum 8)]%string])) 6
      = Some c' /\
      @RaceCache.rrc epoch_dates c'
      = [RunnerChange.mk [("id", VBool true); ("x", VNum 8)]%string]) /\
  (exists c1 c2,
      @RaceCache.update_cache epoch_dates
        (@RaceCache.mk epoch_dates None None None None None [] None)
        (mkRaceUpdate None
           (Some [[("id", VStr "r1"); ("x", VNum 1)]%string])) 1
      = Some c1 /\
      @RaceCache.update_cache epoch_dates c1
        (mkRaceUpdate None
           (Some [[("id", VStr "r1"); ("x", VNum 2)]%string])) 2
      = Some c2 /\
      @RaceCache.serialise_rrc epoch_dates c2
      = [[("id", VStr "r1"); ("x", VNum 2)]%string]) /\
  (exists c',
      @RaceCache.update_cache epoch_dates two_entries second_and_new 5
      = Some c' /\
      nth_error (@RaceCache.rrc epoch_dates c') 0
      = Some (RunnerChange.mk [("id", VNum 1); ("x", VNum 5)]%string) /\
      nth_error (@RaceCache.rrc epoch_dates c') 1
      = Some (RunnerChange.mk [("id", VNum 2); ("y", VNum 9)]%string) /\
      skipn 2 (@RaceCache.rrc epoch_dates c')
      = [RunnerChange.mk [("id", VNum 3); ("y", VNum 7)]%string]).
Proof.
  destruct (@C9_race_runner_change_replaces_payload epoch_dates)
    as (H1 & H2 & H3 & H4).
  split; [|split; [|split; [|split]]].
  - destruct (H2 (@RaceCache.mk epoch_dates None None None
                    (Some "28587288.1650"%string) None
                    [RunnerChange.mk [("id", VNum 1); ("x", VNum 5)]%string;
                     RunnerChange.mk [("id", VNum 2); ("x", VNum 6)]%string;
                     RunnerChange.mk [("id", VNum 3); ("x", VNum 7)]%string]
                    None)
                 [("id", VNum 2); ("y", VNum 9)]%string 5%Z (VNum 2)
                 [RunnerChange.mk [("id", VNum 1); ("x", VNum 5)]%string]
                 (RunnerChange.mk [("id", VNum 2); ("x", VNum 6)]%string)
                 [RunnerChange.mk [("id", VNum 3); ("x", VNum 7)]%string]
                 eq_refl eq_refl eq_refl eq_refl eq_refl) as (c' & Hu & Hr).
    exists c'. split; [exact Hu|].
    unfold RaceCache.serialise_rrc. rewrite Hr. reflexivity.
  - apply (H1 (@RaceCache.mk epoch_dates None None None
                 (Some "28587288.1650"%string) None
                 [RunnerChange.mk [("id", VNum 1); ("x", VNum 5)]%string]
                 None)
              [("id", VNum 4); ("x", VNum 8)]%string 6%Z (VNum 4));
      reflexivity.
  - apply (H2 (@RaceCache.mk epoch_dates None None None
                 (Some "28587288.1650"%string) None
                 [RunnerChange.mk [("id", VNum 1); ("x", VNum 5)]%string]
                 None)
              [("id", VBool true); ("x", VNum 8)]%string 6%Z (VBool true)
              [] (RunnerChange.mk [("id", VNum 1); ("x", VNum 5)]%string) []);
      reflexivity.
  - apply (H3 (@RaceCache.mk epoch_dates None None None None None [] None)
              1%Z 2%Z).
    reflexivity.
  - eexists.
    match goal with
    | |- ?A /\ _ => assert (HA : A) by (vm_compute; reflexivity)
    end.
    split; [exact HA|].
    destruct (H4 two_entries second_and_new 5%Z _ _ eq_refl HA) as [Hn Hs].
    split; [exact (Hn 0%nat _ eq_refl)|].
    split; [exact (Hn 1%nat _ eq_refl)|exact Hs].
Defined.

(** C9 as worded, for a payload whose id is the id of an entry that an
    earlier payload of the same update has made: the payloads
    [{id: "r1", x: 1}] and [{id: "r1", x: 2}] sent in one update to a
    cache without entries are both appended, and the cache holds two
    entries with the id ["r1"]; the second payload has not taken the place
    of the first. *)
Lemma C9_counterexample :
  exists c',
    @RaceCache.update_cache epoch_dates
      (@RaceCache.mk epoch_dates None None None None None [] None)
      (mkRaceUpdate None
         (Some [[("id", VStr "r1"); ("x", VNum 1)];
                [("id", VStr "r1"); ("x", VNum 2)]]%string)) 1
    = Some c' /\
    @RaceCache.serialise_rrc epoch_dates c'
    = [[("id", VStr "r1"); ("x", VNum 1)];
       [("id", VStr "r1"); ("x", VNum 2)]]%string /\
    @RaceCache.serialise_rrc epoch_dates c'
    <> [[("id", VStr "r1"); ("x", VNum 2)]]%string.
Proof.
  eexists. split; [reflexivity|]. split; [reflexivity|]. discriminate.
Qed.

(** * Further properties of the ladder *)

Lemma step_sizes_nonzero (ds : Z) (book : row) (ps ps' : list row)
  (appended : bool) :
  merge_step ds book ps ps' appended ->
  forallb (size_nonzero ds) ps = true ->
  forallb (size_nonzero ds) ps' = true.
Proof.
  intros H.
  destruct H as [ps Hu Hz|ps Hu Hz|l1 trade l2 Hu Hs Hz|l1 trade l2 Hu Hs Hz];
    rewrite ?forallb_app; simpl; intros Hnz; auto.
  - now rewrite Hnz, Hz.
  - apply andb_true_iff in Hnz. destruct Hnz as [H1 H2].
    apply andb_true_iff in H2. destruct H2 as [_ H2]. now rewrite H1, H2.
  - apply andb_true_iff in Hnz. destruct Hnz as [H1 H2].
    apply andb_true_iff in H2. destruct H2 as [_ H2]. now rewrite H1, H2, Hz.
Qed.

Lemma render_sizes_nonzero (ds : Z) (ps : list row) (ser : list price_size) :
  Available.render ds ps = Some ser ->
  forallb (size_nonzero ds) ps = true ->
  forallb (fun e => negb (Qeq_bool (ps_size e) 0)) ser = true.
Proof.
  revert ser. induction ps as [|r ps IH]; simpl; intros ser H Hnz.
  - now inversion H.
  - apply andb_true_iff in Hnz. destruct Hnz as [Hr Hps].
    unfold Available.render_row in H. unfold size_nonzero in Hr.
    destruct (py_index r (ds - 1)) as [p|]; try discriminate.
    destruct (py_index r ds) as [sz|]; try discriminate. simpl in H.
    destruct (Available.render ds ps) as [es|]; try discriminate.
    inversion H. simpl. now rewrite Hr, (IH es).
Qed.

(** X1.  [update] never stores a level of size zero: when no row of the
    ladder has a zero size field before a batch, none has after it, and
    no entry of the serialised list has size zero. *)
Theorem X1_update_stores_no_zero_size_row :
  forall a batch a',
    forallb (size_nonzero (Available.deletion_select a)) (Available.prices a)
    = true ->
    Available.update a batch = Some a' ->
    forallb (size_nonzero (Available.deletion_select a')) (Available.prices a')
    = true /\
    forallb (fun e => negb (Qeq_bool (ps_size e) 0)) (Available.serialise a')
    = true.
Proof.
  intros a batch a' Hnz Hu.
  destruct (update_inv _ _ _ Hu) as (ps & srt & Hloop & Hsort).
  assert (Hps : forallb (size_nonzero (Available.deletion_select a)) ps = true).
  { apply (update_loop_invariant (Available.deletion_select a)
             (fun p _ =>
                forallb (size_nonzero (Available.deletion_select a)) p = true))
      with (batch := batch) (ps := Available.prices a) (s := false)
           (s' := srt); auto.
    intros book ps0 ps1 s0 app Hstep. eapply step_sizes_nonzero; eassumption. }
  assert (H : Available.deletion_select a' = Available.deletion_select a /\
              consistent a' /\
              forallb (size_nonzero (Available.deletion_select a))
                (Available.prices a') = true).
  { destruct srt.
    - destruct (sort_true_inv _ _ Hsort) as (Hp & Hds & _ & Hc & _).
      simpl in *. rewrite Hp, forallb_list_sort. auto.
    - destruct (sort_false_inv _ _ Hsort) as (Hp & Hds & _ & Hc).
      simpl in *. rewrite Hp. auto. }
  destruct H as (Hds & Hc & Hn). rewrite Hds. split; [exact Hn|].
  unfold consistent in Hc. rewrite Hds in Hc.
  eapply render_sizes_nonzero; eassumption.
Qed.

Lemma X1_witness :
  forallb (size_nonzero 1) [[2; 9]; [4; 1]] = true /\
  forallb (fun e => negb (Qeq_bool (ps_size e) 0))
    [PriceSize 2 9; PriceSize 4 1] = true.
Proof.
  apply (X1_update_stores_no_zero_size_row
           (Available.mk [[2; 7]; [3; 1]] 1 false [PriceSize 2 7; PriceSize 3 1])
           [[2; 9]; [3; 0]; [5; 0]; [4; 1]]
           (Available.mk [[2; 9]; [4; 1]] 1 false
              [PriceSize 2 9; PriceSize 4 1]));
    reflexivity.
Defined.

Lemma step_rows_from (ds : Z) (book : row) (ps ps' : list row)
  (appended : bool) :
  merge_step ds book ps ps' appended ->
  forall r, In r ps' ->
            In r ps \/ (r = book /\ size_nonzero ds book = true).
Proof.
  intros H r.
  destruct H as [ps Hu Hz|ps Hu Hz|l1 trade l2 Hu Hs Hz|l1 trade l2 Hu Hs Hz];
    rewrite ?in_app_iff; simpl; intuition.
Qed.

Lemma update_loop_rows_from (ds : Z) (batch : list row) :
  forall ps s ps' s',
    Available.update_loop ds batch ps s = Some (ps', s') ->
    forall r, In r ps' ->
              In r ps \/ (In r batch /\ size_nonzero ds r = true).
Proof.
  induction batch as [|book more IH]; simpl; intros ps s ps' s' Hloop r Hr.
  - inversion Hloop; subst. auto.
  - destruct (Available.scan ds book ps) as [[ps1 app1]|] eqn:Hscan;
      try discriminate.
    simpl in Hloop. apply scan_inv in Hscan.
    destruct (IH _ _ _ _ Hloop r Hr) as [H1|[H1 H2]]; [|auto].
    destruct (step_rows_from _ _ _ _ _ Hscan r H1) as [H3|[-> H3]]; auto.
Qed.

(** X2.  [update] invents no row: every row of the ladder after a batch
    was a row of the ladder before it or is a row of the batch whose size
    field is not zero. *)
Theorem X2_update_rows_come_from_ladder_or_batch :
  forall a batch a' r,
    Available.update a batch = Some a' ->
    In r (Available.prices a') ->
    In r (Available.prices a) \/
    (In r batch /\ size_nonzero (Available.deletion_select a) r = true).
Proof.
  intros a batch a' r Hu Hr.
  destruct (update_inv _ _ _ Hu) as (ps & srt & Hloop & Hsort).
  apply (update_loop_rows_from _ _ _ _ _ _ Hloop).
  destruct srt.
  - destruct (sort_true_inv _ _ Hsort) as (Hp & _). simpl in Hp.
    rewrite Hp in Hr. now apply In_list_sort in Hr.
  - destruct (sort_false_inv _ _ Hsort) as (Hp & _). simpl in Hp.
    now rewrite Hp in Hr.
Qed.

Lemma X2_witness :
  In [4; 1] [[2; 7]; [3; 1]] \/
  (In [4; 1] [[3; 0]; [4; 1]] /\ size_nonzero 1 [4; 1] = true).
Proof.
  apply (X2_update_rows_come_from_ladder_or_batch
           (Available.mk [[2; 7]; [3; 1]] 1 false [PriceSize 2 7; PriceSize 3 1])
           [[3; 0]; [4; 1]]
           (Available.mk [[2; 7]; [4; 1]] 1 false
              [PriceSize 2 7; PriceSize 4 1]) [4; 1]).
  - reflexivity.
  - right. now left.
Defined.

(** ** The ladder as a map *)

Lemma differs_not_same (r1 r2 : row) :
  differs_id r1 r2 = true -> same_id r1 r2 = false.
Proof.
  destruct r1, r2; simpl; try discriminate. now intros H%negb_true_iff.
Qed.

Lemma same_id_congr_l (a b x : row) :
  same_id a b = true -> same_id a x = same_id b x.
Proof.
  intros H.
  destruct (same_id_has_id _ _ H) as (a0 & a' & b0 & b' & -> & -> & E).
  destruct x as [|x0 x']; simpl; [reflexivity|]. now apply Qeqb_congr.
Qed.

Lemma lookup_app (x : row) (l1 l2 : list row) :
  lookup_id x (l1 ++ l2)
  = match lookup_id x l1 with
    | Some r => Some r
    | None => lookup_id x l2
    end.
Proof.
  unfold lookup_id. induction l1 as [|r l1 IH]; simpl; [reflexivity|].
  now destruct (same_id r x).
Qed.

Lemma lookup_unmatched (x book : row) (ps : list row) :
  unmatched book ps = true -> same_id book x = true -> lookup_id x ps = None.
Proof.
  unfold unmatched, lookup_id. intros Hu Hs.
  induction ps as [|r ps IH]; simpl in *; [reflexivity|].
  apply andb_true_iff in Hu. destruct Hu as [Hr Hu].
  rewrite (differs_id_congr _ _ r Hs) in Hr.
  rewrite (differs_not_same _ _ Hr). auto.
Qed.

Lemma lookup_after_same (x trade : row) (l2 : list row) :
  forallb (differs_id trade) l2 = true -> same_id trade x = true ->
  lookup_id x l2 = None.
Proof.
  intros Hd Hs. apply (lookup_unmatched x trade); auto.
  unfold unmatched. erewrite forallb_ext_all; [exact Hd|].
  intros r. apply differs_id_sym.
Qed.

Lemma lookup_Some (x r : row) (ps : list row) :
  lookup_id x ps = Some r -> In r ps /\ same_id r x = true.
Proof. unfold lookup_id. intros H. now apply find_some in H. Qed.

Lemma lookup_unique (x r : row) (ps : list row) :
  ids_distinct ps = true -> In r ps -> same_id r x = true ->
  lookup_id x ps = Some r.
Proof.
  intros Hd Hr Hs. destruct (lookup_id x ps) as [r'|] eqn:E.
  - destruct (lookup_Some _ _ _ E) as [Hr' Hs']. f_equal.
    apply (pairwise_In _ differs_id ps r' r differs_id_sym Hd Hr' Hr).
    apply same_differs. eapply same_id_trans; [exact Hs'|].
    now rewrite same_id_sym.
  - unfold lookup_id in E. rewrite (find_none _ _ E r Hr) in Hs. discriminate.
Qed.

(** Sorting rows of distinct identities does not change what an identity
    holds. *)
Lemma lookup_list_sort (x : row) (rev : bool) (ps : list row) :
  ids_distinct ps = true ->
  lookup_id x (list_sort rev ps) = lookup_id x ps.
Proof.
  intros Hd. destruct (lookup_id x ps) as [r|] eqn:E.
  - destruct (lookup_Some _ _ _ E) as [Hr Hs].
    apply lookup_unique; auto.
    + now rewrite ids_distinct_list_sort.
    + now apply In_list_sort.
  - destruct (lookup_id x (list_sort rev ps)) as [r'|] eqn:E'; auto.
    destruct (lookup_Some _ _ _ E') as [Hr' Hs'].
    apply In_list_sort in Hr'. unfold lookup_id in E.
    rewrite (find_none _ _ E r' Hr') in Hs'. discriminate.
Qed.

(** One step of the inner loop is one write into the map. *)
Lemma step_lookup (ds : Z) (x book : row) (ps ps' : list row)
  (appended : bool) :
  merge_step ds book ps ps' appended ->
  ids_distinct ps = true ->
  lookup_id x ps' = write ds x (lookup_id x ps) book.
Proof.
  unfold write, ids_distinct.
  intros H Hd.
  destruct H as [ps Hu Hz|ps Hu Hz|l1 trade l2 Hu Hs Hz|l1 trade l2 Hu Hs Hz].
  - rewrite (size_zero_not_nonzero _ _ Hz).
    destruct (same_id book x) eqn:E; auto. now apply (lookup_unmatched x book).
  - rewrite Hz, lookup_app. unfold lookup_id at 2. simpl.
    destruct (same_id book x) eqn:E.
    + now rewrite (lookup_unmatched x book ps Hu E).
    + now destruct (lookup_id x ps).
  - rewrite (size_zero_not_nonzero _ _ Hz), !lookup_app.
    rewrite pairwise_app in Hd. apply andb_true_iff in Hd.
    destruct Hd as [Hd _]. apply andb_true_iff in Hd. destruct Hd as [_ Hd].
    simpl in Hd. apply andb_true_iff in Hd. destruct Hd as [Hd _].
    unfold lookup_id at 4. simpl.
    rewrite (same_id_congr_l _ _ x Hs).
    destruct (same_id book x) eqn:E.
    + rewrite (lookup_unmatched x book l1 Hu E).
      apply (lookup_after_same x trade); auto.
      now rewrite (same_id_congr_l _ _ x Hs).
    + reflexivity.
  - rewrite Hz, !lookup_app.
    unfold lookup_id at 2 4. simpl.
    rewrite (same_id_congr_l _ _ x Hs).
    destruct (same_id book x) eqn:E.
    + now rewrite (lookup_unmatched x book l1 Hu E).
    + reflexivity.
Qed.

Lemma update_loop_lookup (ds : Z) (x : row) (batch : list row) :
  forall ps s ps' s',
    ids_distinct ps = true ->
    Available.update_loop ds batch ps s = Some (ps', s') ->
    lookup_id x ps' = fold_left (write ds x) batch (lookup_id x ps).
Proof.
  induction batch as [|book more IH]; simpl; intros ps s ps' s' Hd Hloop.
  - now inversion Hloop.
  - destruct (Available.scan ds book ps) as [[ps1 app1]|] eqn:Hscan;
      try discriminate.
    simpl in Hloop. apply scan_inv in Hscan.
    rewrite <- (step_lookup ds x _ _ _ _ Hscan Hd).
    eapply IH; [|exact Hloop]. eapply step_ids_distinct; eassumption.
Qed.

(** X3.  A ladder whose rows have distinct identities is a map from
    identities to rows, and [update] writes the batch into it row by row:
    under each identity the ladder then holds the last row of the batch
    with that identity, nothing when the size of that row is zero, and
    what it held before when the batch has no row of that identity. *)
Theorem X3_update_writes_batch_into_map :
  forall a batch a' x,
    ids_distinct (Available.prices a) = true ->
    Available.update a batch = Some a' ->
    lookup_id x (Available.prices a')
    = fold_left (write (Available.deletion_select a) x) batch
        (lookup_id x (Available.prices a)).
Proof.
  intros a batch a' x Hd Hu.
  destruct (update_inv _ _ _ Hu) as (ps & srt & Hloop & Hsort).
  rewrite <- (update_loop_lookup _ x _ _ _ _ _ Hd Hloop).
  pose proof (update_loop_ids_distinct _ _ _ _ _ _ Hloop Hd) as Hd'.
  destruct srt.
  - destruct (sort_true_inv _ _ Hsort) as (Hp & _). simpl in Hp.
    rewrite Hp. now apply lookup_list_sort.
  - destruct (sort_false_inv _ _ Hsort) as (Hp & _). simpl in Hp.
    now rewrite Hp.
Qed.

Lemma X3_witness :
  lookup_id [3] [[1; 4]; [2; 7]; [3; 9]] = Some [3; 9] /\
  lookup_id [2] [[1; 4]; [3; 9]] = None.
Proof.
  split.
  - apply (X3_update_writes_batch_into_map
             (Available.mk [[2; 7]; [3; 1]] 1 false
                [PriceSize 2 7; PriceSize 3 1])
             [[3; 8]; [1; 4]; [3; 9]]
             (Available.mk [[1; 4]; [2; 7]; [3; 9]] 1 false
                [PriceSize 1 4; PriceSize 2 7; PriceSize 3 9]) [3]);
      reflexivity.
  - apply (X3_update_writes_batch_into_map
             (Available.mk [[2; 7]; [3; 1]] 1 false
                [PriceSize 2 7; PriceSize 3 1])
             [[3; 9]; [2; 0]; [1; 4]]
             (Available.mk [[1; 4]; [3; 9]] 1 false
                [PriceSize 1 4; PriceSize 3 9]) [2]);
      reflexivity.
Defined.

(** * Further properties of the market cache *)

(** ** The index built from the runners *)

Lemma combine_snoc (A B : Type) (l : list A) (l' : list B) (a : A) (b : B) :
  List.length l = List.length l' ->
  combine (l ++ [a]) (l' ++ [b]) = combine l l' ++ [(a, b)].
Proof.
  revert l'. induction l as [|x l IH]; intros [|y l']; simpl;
    try discriminate; intros H.
  - reflexivity.
  - f_equal. apply IH. now inversion H.
Qed.

Lemma build_runner_dict_snoc (rs : list RunnerBook.t) (r : RunnerBook.t) :
  MarketBookCache.build_runner_dict (rs ++ [r])
  = dict_set runner_key_eqb (key_of r) (List.length rs)
      (MarketBookCache.build_runner_dict rs).
Proof.
  unfold MarketBookCache.build_runner_dict.
  rewrite length_app. simpl. rewrite seq_app. simpl.
  rewrite combine_snoc by apply length_seq.
  now rewrite fold_left_app.
Qed.

(** A key reads the position of the last runner that has it. *)
Lemma dict_get_build_snoc (k : runner_key) (rs : list RunnerBook.t)
  (r : RunnerBook.t) :
  dict_get runner_key_eqb k (MarketBookCache.build_runner_dict (rs ++ [r]))
  = if runner_key_eqb (key_of r) k then Some (List.length rs)
    else dict_get runner_key_eqb k (MarketBookCache.build_runner_dict rs).
Proof.
  rewrite build_runner_dict_snoc.
  destruct (runner_key_eqb (key_of r) k) eqn:E.
  - exact (dict_get_set_eq _ _ runner_key_eqb runner_key_eqb_sym
             runner_key_eqb_trans _ _ _ _ E).
  - exact (dict_get_set_other _ _ runner_key_eqb runner_key_eqb_sym
             runner_key_eqb_trans _ _ _ _ E).
Qed.

(** What a key reads is the position of a runner with that key. *)
Lemma build_sound (k : runner_key) (rs : list RunnerBook.t) (i : nat) :
  dict_get runner_key_eqb k (MarketBookCache.build_runner_dict rs) = Some i ->
  exists r, nth_error rs i = Some r /\ runner_key_eqb (key_of r) k = true.
Proof.
  induction rs as [|r rs IH] using rev_ind.
  - discriminate.
  - rewrite dict_get_build_snoc.
    destruct (runner_key_eqb (key_of r) k) eqn:E; intros H.
    + inversion H. exists r. split; auto.
      rewrite nth_error_app2, Nat.sub_diag by auto. reflexivity.
    + destruct (IH H) as (r0 & Hn & Hk). exists r0. split; auto.
      rewrite nth_error_app1; auto. apply nth_error_Some. congruence.
Qed.

(** A key that reads nothing is the key of no runner. *)
Lemma build_none (k : runner_key) (rs : list RunnerBook.t) :
  dict_get runner_key_eqb k (MarketBookCache.build_runner_dict rs) = None ->
  forallb (fun r => negb (runner_key_eqb (key_of r) k)) rs = true.
Proof.
  induction rs as [|r rs IH] using rev_ind.
  - reflexivity.
  - rewrite dict_get_build_snoc, forallb_app. simpl.
    destruct (runner_key_eqb (key_of r) k); try discriminate.
    intros H. now rewrite (IH H).
Qed.

(** Among distinct keys every runner is found at its own position. *)
Lemma build_complete (rs : list RunnerBook.t) (i : nat) (r : RunnerBook.t) :
  keys_distinct rs = true ->
  nth_error rs i = Some r ->
  dict_get runner_key_eqb (key_of r) (MarketBookCache.build_runner_dict rs)
  = Some i.
Proof.
  unfold keys_distinct. revert i.
  induction rs as [|r0 rs IH] using rev_ind; intros i Hd Hn.
  - now destruct i.
  - rewrite pairwise_app in Hd. apply andb_true_iff in Hd.
    destruct Hd as [Hd Hc]. apply andb_true_iff in Hd. destruct Hd as [Hd _].
    rewrite dict_get_build_snoc.
    destruct (Nat.lt_ge_cases i (List.length rs)) as [Hlt|Hge].
    + rewrite nth_error_app1 in Hn by exact Hlt.
      rewrite forallb_forall in Hc. specialize (Hc r (nth_error_In _ _ Hn)).
      simpl in Hc. rewrite andb_true_r in Hc. apply negb_true_iff in Hc.
      rewrite runner_key_eqb_sym, Hc. now apply IH.
    + rewrite nth_error_app2 in Hn by exact Hge.
      destruct (i - List.length rs)%nat as [|j] eqn:Ej; simpl in Hn.
      * inversion Hn. subst r0. rewrite runner_key_eqb_refl.
        f_equal. apply Nat.le_antisymm; auto.
        apply Nat.sub_0_le. exact Ej.
      * now destruct j.
Qed.

Lemma map_list_set_same (A B : Type) (f : A -> B) (l : list A) (i : nat)
  (x y : A) :
  nth_error l i = Some x -> f y = f x -> map f (list_set i y l) = map f l.
Proof.
  revert i. induction l as [|z l IH]; intros [|i]; simpl; try discriminate.
  - intros H E. inversion H. now rewrite E.
  - intros H E. f_equal. now apply IH.
Qed.

(** The index reads keys only. *)
Lemma build_runner_dict_keys (rs rs' : list RunnerBook.t) :
  map key_of rs = map key_of rs' ->
  MarketBookCache.build_runner_dict rs = MarketBookCache.build_runner_dict rs'.
Proof.
  revert rs'. induction rs as [|r rs IH] using rev_ind; intros rs' H.
  - destruct rs'; [reflexivity|discriminate].
  - destruct rs' as [|r' rs'] using rev_ind.
    + rewrite map_app in H. simpl in H.
      now destruct (map key_of rs).
    + clear IHrs'. rewrite !map_app in H. simpl in H.
      apply app_inj_tail in H. destruct H as [H1 H2].
      rewrite !build_runner_dict_snoc, (IH rs' H1), H2.
      f_equal. rewrite <- (length_map key_of rs), H1. apply length_map.
Qed.

Lemma pairwise_map (A B : Type) (f : A -> B) (R : B -> B -> bool)
  (l : list A) :
  pairwise (fun a b => R (f a) (f b)) l = pairwise R (map f l).
Proof.
  induction l as [|x l IH]; simpl; [reflexivity|].
  rewrite IH. f_equal. clear IH.
  induction l as [|y l IH]; simpl; [reflexivity|]. now rewrite IH.
Qed.

Lemma keys_distinct_keys (rs rs' : list RunnerBook.t) :
  map key_of rs = map key_of rs' -> keys_distinct rs = keys_distinct rs'.
Proof.
  unfold keys_distinct. intros H.
  rewrite (pairwise_map _ _ key_of (fun a b => negb (runner_key_eqb a b)) rs).
  rewrite (pairwise_map _ _ key_of (fun a b => negb (runner_key_eqb a b)) rs').
  now rewrite H.
Qed.

(** ** The body of the two loops *)

Lemma for_each_invariant_In (S X : Type) (I : S -> Prop)
  (body : S -> X -> option S) (xs : list X) :
  (forall s x s', In x xs -> I s -> body s x = Some s' -> I s') ->
  forall s s', I s -> for_each body xs s = Some s' -> I s'.
Proof.
  induction xs as [|x xs IH]; simpl; intros Hbody s s' HI H.
  - now inversion H; subst.
  - destruct (body s x) as [s1|] eqn:E; try discriminate. simpl in H.
    apply (IH (fun s0 x0 s0' Hin => Hbody s0 x0 s0' (or_intror Hin)) s1 s');
      auto.
    apply (Hbody s x s1); auto.
Qed.

(** A reflexive and transitive relation that every round of a loop
    respects relates the state before the loop to the state after it. *)
Lemma for_each_rel (S X : Type) (R : S -> S -> Prop)
  (body : S -> X -> option S) :
  (forall s, R s s) ->
  (forall s1 s2 s3, R s1 s2 -> R s2 s3 -> R s1 s3) ->
  (forall s x s', body s x = Some s' -> R s s') ->
  forall xs s s', for_each body xs s = Some s' -> R s s'.
Proof.
  intros Hrefl Htrans Hbody. induction xs as [|x xs IH]; simpl; intros s s' H.
  - inversion H; subst. apply Hrefl.
  - destruct (body s x) as [s1|] eqn:E; try discriminate. simpl in H.
    eapply Htrans; [eapply Hbody; exact E|]. now apply IH.
Qed.

Lemma serialise_runner_at (m : MarketBookCache.t) (rs : list RunnerBook.t)
  (i : nat) (r0 r : RunnerBook.t) :
  nth_error rs i = Some r0 ->
  MarketBookCache.serialise_runner i
    (MarketBookCache.set_runners (list_set i r rs) m)
  = Some (MarketBookCache.set_runners
            (list_set i (RunnerBook.serialise r) rs) m).
Proof.
  intros Hn. unfold MarketBookCache.serialise_runner. simpl.
  rewrite (nth_error_list_set _ _ _ _ _ Hn). simpl.
  now rewrite list_set_twice.
Qed.

(** A change for a runner in the index is applied to that runner. *)
Lemma process_runner_change_existing (m : MarketBookCache.t)
  (nd : runner_change) (i : nat) (R : RunnerBook.t) :
  dict_get runner_key_eqb (change_key nd) (MarketBookCache.runner_dict m)
  = Some i ->
  nth_error (MarketBookCache.runners m) i = Some R ->
  MarketBookCache.process_runner_change m nd
  = R' <- MarketBookCache.apply_runner_change nd R ;;
    Some (MarketBookCache.set_runners
            (list_set i (RunnerBook.serialise R') (MarketBookCache.runners m))
            m).
Proof.
  intros Hd Hn. unfold MarketBookCache.process_runner_change.
  unfold change_key in Hd. rewrite Hd, Hn. simpl.
  destruct (MarketBookCache.apply_runner_change nd R) as [R'|]; simpl; auto.
  now apply serialise_runner_at with (r0 := R).
Qed.

Lemma add_then_serialise (m : MarketBookCache.t) (nd : runner_change)
  (d : option runner_definition) :
  ('(m', i) <- MarketBookCache._add_new_runner nd d m ;;
   MarketBookCache.serialise_runner i m')
  = r <- RunnerBook.init nd d ;; Some (with_runner r m).
Proof.
  unfold MarketBookCache._add_new_runner.
  destruct (RunnerBook.init nd d) as [r|]; simpl; auto.
  unfold MarketBookCache.serialise_runner. simpl.
  rewrite nth_error_app2, Nat.sub_diag by auto. simpl.
  unfold with_runner, MarketBookCache.set_runners. simpl.
  now rewrite (list_set_middle _ (MarketBookCache.runners m) [] r).
Qed.

(** A change for a key that is not in the index adds a runner. *)
Lemma process_runner_change_new (m : MarketBookCache.t) (nd : runner_change) :
  dict_get runner_key_eqb (change_key nd) (MarketBookCache.runner_dict m)
  = None ->
  MarketBookCache.process_runner_change m nd
  = r <- RunnerBook.init nd None ;; Some (with_runner r m).
Proof.
  intros Hd. unfold MarketBookCache.process_runner_change.
  unfold change_key in Hd. rewrite Hd. apply add_then_serialise.
Qed.

Lemma process_runner_definition_existing (m : MarketBookCache.t)
  (rd : runner_definition) (i : nat) (R : RunnerBook.t) :
  dict_get runner_key_eqb (definition_key rd) (MarketBookCache.runner_dict m)
  = Some i ->
  nth_error (MarketBookCache.runners m) i = Some R ->
  MarketBookCache.process_runner_definition m rd
  = Some (MarketBookCache.set_runners
            (list_set i
               (RunnerBook.serialise (RunnerBook.update_definition (Some rd) R))
               (MarketBookCache.runners m)) m).
Proof.
  intros Hd Hn. unfold MarketBookCache.process_runner_definition.
  unfold definition_key in Hd. rewrite Hd, Hn. simpl.
  now apply serialise_runner_at with (r0 := R).
Qed.

Lemma process_runner_definition_new (m : MarketBookCache.t)
  (rd : runner_definition) :
  dict_get runner_key_eqb (definition_key rd) (MarketBookCache.runner_dict m)
  = None ->
  MarketBookCache.process_runner_definition m rd
  = r <- RunnerBook.init
           (MarketBookCache.definition_kwargs (rd_id rd) (hc_or_0 (rd_hc rd)))
           (Some rd) ;;
    Some (with_runner r m).
Proof.
  intros Hd. unfold MarketBookCache.process_runner_definition.
  unfold definition_key in Hd. rewrite Hd. apply add_then_serialise.
Qed.

(** What the constructor of a runner returns. *)
Lemma runner_init_inv (nd : runner_change) (d : option runner_definition)
  (r : RunnerBook.t) :
  RunnerBook.init nd d = Some r ->
  key_of r = change_key nd /\
  RunnerBook.definition r = d /\
  runner_synced r /\
  RunnerBook.last_price_traded r = rc_ltp nd /\
  RunnerBook.total_matched r = rc_tv nd /\
  RunnerBook.starting_price_near r = rc_spn nd /\
  RunnerBook.starting_price_far r = rc_spf nd /\
  Available.init (rc_trd nd) 1 false = Some (RunnerBook.traded r) /\
  Available.init (rc_atb nd) 1 true = Some (RunnerBook.available_to_back r) /\
  Available.init (rc_batb nd) 2 false
  = Some (RunnerBook.best_available_to_back r) /\
  Available.init (rc_bdatb nd) 2 false
  = Some (RunnerBook.best_display_available_to_back r) /\
  Available.init (rc_atl nd) 1 false = Some (RunnerBook.available_to_lay r) /\
  Available.init (rc_batl nd) 2 false
  = Some (RunnerBook.best_available_to_lay r) /\
  Available.init (rc_bdatl nd) 2 false
  = Some (RunnerBook.best_display_available_to_lay r) /\
  Available.init (rc_spb nd) 1 false
  = Some (RunnerBook.starting_price_back r) /\
  Available.init (rc_spl nd) 1 false = Some (RunnerBook.starting_price_lay r).
Proof.
  unfold RunnerBook.init.
  destruct (Available.init (rc_trd nd) 1 false); try discriminate.
  destruct (Available.init (rc_atb nd) 1 true); try discriminate.
  destruct (Available.init (rc_batb nd) 2 false); try discriminate.
  destruct (Available.init (rc_bdatb nd) 2 false); try discriminate.
  destruct (Available.init (rc_atl nd) 1 false); try discriminate.
  destruct (Available.init (rc_batl nd) 2 false); try discriminate.
  destruct (Available.init (rc_bdatl nd) 2 false); try discriminate.
  destruct (Available.init (rc_spb nd) 1 false); try discriminate.
  destruct (Available.init (rc_spl nd) 1 false); try discriminate.
  simpl. intros H. inversion H. simpl. unfold runner_synced. simpl.
  repeat split; reflexivity.
Qed.

(** ** The index and the keys *)

Lemma key_of_serialise (r : RunnerBook.t) :
  key_of (RunnerBook.serialise r) = key_of r.
Proof. reflexivity. Qed.

Lemma apply_runner_change_key (nd : runner_change) (R R' : RunnerBook.t) :
  MarketBookCache.apply_runner_change nd R = Some R' -> key_of R' = key_of R.
Proof.
  intros H. apply apply_runner_change_frame in H.
  destruct H as ((Hs & Hh & _) & _). unfold key_of. now rewrite Hs, Hh.
Qed.

Lemma existing_keeps_index (m : MarketBookCache.t) (i : nat)
  (R R' : RunnerBook.t) :
  indexed m -> keys_distinct (MarketBookCache.runners m) = true ->
  nth_error (MarketBookCache.runners m) i = Some R ->
  key_of R' = key_of R ->
  indexed (MarketBookCache.set_runners
             (list_set i R' (MarketBookCache.runners m)) m) /\
  keys_distinct (list_set i R' (MarketBookCache.runners m)) = true.
Proof.
  intros [Hd Hc] Hk Hn E.
  pose proof (map_list_set_same _ _ key_of _ _ _ _ Hn E) as Hm.
  split; [split|]; simpl.
  - rewrite Hd. symmetry. now apply build_runner_dict_keys.
  - now rewrite length_list_set.
  - now rewrite (keys_distinct_keys _ _ Hm).
Qed.

Lemma new_keeps_index (m : MarketBookCache.t) (r : RunnerBook.t) :
  indexed m -> keys_distinct (MarketBookCache.runners m) = true ->
  dict_get runner_key_eqb (key_of r) (MarketBookCache.runner_dict m) = None ->
  indexed (with_runner r m) /\
  keys_distinct (MarketBookCache.runners (with_runner r m)) = true.
Proof.
  intros [Hd Hc] Hk Hnone. split; [split|]; simpl.
  - apply build_runner_dict_keys. now rewrite !map_app.
  - now rewrite !length_app.
  - rewrite Hd in Hnone. apply build_none in Hnone.
    unfold keys_distinct in *. rewrite pairwise_app, Hk. simpl.
    erewrite forallb_ext_all; [exact Hnone|].
    intros a. simpl. now rewrite andb_true_r.
Qed.

Lemma index_lookup (m : MarketBookCache.t) (k : runner_key) (i : nat) :
  indexed m ->
  dict_get runner_key_eqb k (MarketBookCache.runner_dict m) = Some i ->
  exists r,
    nth_error (MarketBookCache.runners m) i = Some r /\
    runner_key_eqb (key_of r) k = true.
Proof. intros [Hd _] H. rewrite Hd in H. now apply build_sound. Qed.

Lemma process_runner_change_index (m m' : MarketBookCache.t)
  (nd : runner_change) :
  indexed m /\ keys_distinct (MarketBookCache.runners m) = true ->
  MarketBookCache.process_runner_change m nd = Some m' ->
  indexed m' /\ keys_distinct (MarketBookCache.runners m') = true.
Proof.
  intros [Hi Hk] H.
  destruct (dict_get runner_key_eqb (change_key nd)
              (MarketBookCache.runner_dict m)) as [i|] eqn:Hd.
  - destruct (index_lookup _ _ _ Hi Hd) as (R & Hn & _).
    rewrite (process_runner_change_existing _ _ _ _ Hd Hn) in H.
    destruct (MarketBookCache.apply_runner_change nd R) as [R'|] eqn:E;
      try discriminate.
    simpl in H. inversion H. apply existing_keeps_index with (R := R); auto.
    rewrite key_of_serialise. eapply apply_runner_change_key. exact E.
  - rewrite (process_runner_change_new _ _ Hd) in H.
    destruct (RunnerBook.init nd None) as [r|] eqn:E; try discriminate.
    simpl in H. inversion H. apply new_keeps_index; auto.
    destruct (runner_init_inv _ _ _ E) as (-> & _). exact Hd.
Qed.

Lemma process_runner_definition_index (m m' : MarketBookCache.t)
  (rd : runner_definition) :
  indexed m /\ keys_distinct (MarketBookCache.runners m) = true ->
  MarketBookCache.process_runner_definition m rd = Some m' ->
  indexed m' /\ keys_distinct (MarketBookCache.runners m') = true.
Proof.
  intros [Hi Hk] H.
  destruct (dict_get runner_key_eqb (definition_key rd)
              (MarketBookCache.runner_dict m)) as [i|] eqn:Hd.
  - destruct (index_lookup _ _ _ Hi Hd) as (R & Hn & _).
    rewrite (process_runner_definition_existing _ _ _ _ Hd Hn) in H.
    inversion H. apply existing_keeps_index with (R := R); auto.
  - rewrite (process_runner_definition_new _ _ Hd) in H.
    destruct (RunnerBook.init
                (MarketBookCache.definition_kwargs (rd_id rd)
                   (hc_or_0 (rd_hc rd))) (Some rd)) as [r|] eqn:E;
      try discriminate.
    simpl in H. inversion H. apply new_keeps_index; auto.
    destruct (runner_init_inv _ _ _ E) as (-> & _). exact Hd.
Qed.

(** The two loops of [update_cache], cut apart. *)
Lemma update_cache_inv (m m' : MarketBookCache.t) (mc : market_change)
  (pt : Z) :
  MarketBookCache.update_cache m mc pt = Some m' ->
  exists m1,
    for_each MarketBookCache.process_runner_definition
      (match mc_marketDefinition mc with
       | Some md => match md_runners md with Some l => l | None => [] end
       | None => []
       end)
      (match mc_marketDefinition mc with
       | Some md =>
           MarketBookCache.set_definition md
             (MarketBookCache.set_publish_time pt m)
       | None => MarketBookCache.set_publish_time pt m
       end) = Some m1 /\
    for_each MarketBookCache.process_runner_change
      (match mc_rc mc with Some rc => rc | None => [] end)
      (match mc_tv mc with
       | Some v => MarketBookCache.set_total_matched (Some v) m1
       | None => m1
       end) = Some m'.
Proof.
  unfold MarketBookCache.update_cache,
    MarketBookCache._process_market_definition.
  destruct (mc_marketDefinition mc) as [md|]; simpl.
  - destruct (for_each MarketBookCache.process_runner_definition _ _)
      as [m1|]; try discriminate.
    simpl. intros H. exists m1. split; auto. now destruct (mc_rc mc).
  - intros H. eexists. split; [reflexivity|]. now destruct (mc_rc mc).
Qed.

Lemma update_cache_index (m m' : MarketBookCache.t) (mc : market_change)
  (pt : Z) :
  indexed m /\ keys_distinct (MarketBookCache.runners m) = true ->
  MarketBookCache.update_cache m mc pt = Some m' ->
  indexed m' /\ keys_distinct (MarketBookCache.runners m') = true.
Proof.
  intros HI H. destruct (update_cache_inv _ _ _ _ H) as (m1 & H1 & H2).
  refine (for_each_invariant _ _
            (fun s => indexed s /\
                      keys_distinct (MarketBookCache.runners s) = true)
            _ _ _ _ _ _ H2).
  - intros s x s'. apply process_runner_change_index.
  - assert (HI1 : indexed m1 /\
                  keys_distinct (MarketBookCache.runners m1) = true).
    { refine (for_each_invariant _ _
                (fun s => indexed s /\
                          keys_distinct (MarketBookCache.runners s) = true)
                _ _ _ _ _ _ H1).
      - intros s x s'. apply process_runner_definition_index.
      - now destruct (mc_marketDefinition mc). }
    now destruct (mc_tv mc).
Qed.

Lemma market_index (m : MarketBookCache.t) :
  market m ->
  indexed m /\ keys_distinct (MarketBookCache.runners m) = true.
Proof.
  intros H. induction H as [mid pt|m mc pt m' Hm IH Hu].
  - repeat split.
  - eapply update_cache_index; eassumption.
Qed.

(** X4.  In every market cache the index is the one built from the
    runners and the count is their number: the key of a runner reads the
    position of that runner, what a key reads is the position of a runner
    with that key, and a key that reads nothing is the key of no
    runner. *)
Theorem X4_market_index_agrees_with_runners :
  forall m,
    market m ->
    indexed m /\
    (forall i r,
        nth_error (MarketBookCache.runners m) i = Some r ->
        dict_get runner_key_eqb (key_of r) (MarketBookCache.runner_dict m)
        = Some i) /\
    (forall k i,
        dict_get runner_key_eqb k (MarketBookCache.runner_dict m) = Some i ->
        exists r,
          nth_error (MarketBookCache.runners m) i = Some r /\
          runner_key_eqb (key_of r) k = true) /\
    (forall k,
        dict_get runner_key_eqb k (MarketBookCache.runner_dict m) = None ->
        forallb (fun r => negb (runner_key_eqb (key_of r) k))
          (MarketBookCache.runners m) = true).
Proof.
  intros m Hm. destruct (market_index m Hm) as [Hi Hk].
  split; [exact Hi|]. split; [|split].
  - intros i r Hn. destruct Hi as [Hd _]. rewrite Hd.
    now apply build_complete.
  - intros k i. now apply index_lookup.
  - intros k H. destruct Hi as [Hd _]. rewrite Hd in H. now apply build_none.
Qed.

Lemma keys_distinct_nth (l : list RunnerBook.t) (a b : RunnerBook.t)
  (p q : nat) :
  keys_distinct l = true ->
  nth_error l p = Some a -> nth_error l q = Some b -> (p < q)%nat ->
  runner_key_eqb (key_of a) (key_of b) = false.
Proof.
  unfold keys_distinct. revert p q.
  induction l as [|z l IH]; intros p q Hpw Ha Hb Hlt.
  - now destruct p.
  - simpl in Hpw. apply andb_true_iff in Hpw. destruct Hpw as [Hz Hl].
    destruct p as [|p], q as [|q]; simpl in *; try lia.
    + inversion Ha; subst z. rewrite forallb_forall in Hz.
      apply negb_true_iff. apply Hz. eapply nth_error_In. exact Hb.
    + eapply IH; eauto. lia.
Qed.

(** X5.  No two runners of a market cache have the same
    [(selection_id, handicap)]. *)
Theorem X5_market_runner_keys_are_distinct :
  forall m i j ri rj,
    market m ->
    nth_error (MarketBookCache.runners m) i = Some ri ->
    nth_error (MarketBookCache.runners m) j = Some rj ->
    runner_key_eqb (key_of ri) (key_of rj) = true ->
    i = j.
Proof.
  intros m i j ri rj Hm Hi Hj Hk.
  destruct (market_index m Hm) as [_ Hdist].
  destruct (Nat.lt_trichotomy i j) as [Hlt|[E|Hlt]]; [|exact E|].
  - rewrite (keys_distinct_nth _ _ _ _ _ Hdist Hi Hj Hlt) in Hk.
    discriminate.
  - rewrite runner_key_eqb_sym,
      (keys_distinct_nth _ _ _ _ _ Hdist Hj Hi Hlt) in Hk.
    discriminate.
Qed.

Lemma X4_witness :
  exists m,
    MarketBookCache.update_cache (MarketBookCache.init "1.101" 0)
      two_handicaps 1 = Some m /\
    indexed m /\
    dict_get runner_key_eqb (7%Z, 3#2) (MarketBookCache.runner_dict m)
    = Some 1%nat.
Proof.
  eexists. split; [vm_compute; reflexivity|].
  match goal with
  | |- indexed ?m /\ _ =>
      destruct (X4_market_index_agrees_with_runners m) as (Hi & Hc & _)
  end.
  - apply (market_update (MarketBookCache.init "1.101" 0) two_handicaps 1%Z
             _ (market_init _ _)).
    vm_compute. reflexivity.
  - split; [exact Hi|].
    match goal with
    | |- dict_get _ _ (MarketBookCache.runner_dict ?m) = _ =>
        match eval vm_compute in (nth_error (MarketBookCache.runners m) 1) with
        | Some ?r => exact (Hc 1%nat r eq_refl)
        end
    end.
Defined.

Lemma X5_witness :
  exists m r,
    MarketBookCache.update_cache (MarketBookCache.init "1.101" 0)
      two_handicaps 1 = Some m /\
    nth_error (MarketBookCache.runners m) 1 = Some r /\
    (forall j rj,
        nth_error (MarketBookCache.runners m) j = Some rj ->
        runner_key_eqb (key_of r) (key_of rj) = true -> 1%nat = j).
Proof.
  eexists. eexists. split; [vm_compute; reflexivity|].
  match goal with
  | |- nth_error (MarketBookCache.runners ?m) 1 = Some ?r /\ _ =>
      split; [reflexivity|]; intros j rj Hj Hk;
      apply (X5_market_runner_keys_are_distinct m 1%nat j r rj);
      [|reflexivity|exact Hj|exact Hk]
  end.
  apply (market_update (MarketBookCache.init "1.101" 0) two_handicaps 1%Z
           _ (market_init _ _)).
  vm_compute. reflexivity.
Defined.

(** ** Runners stay where they are *)

Lemma runners_kept_refl (m : MarketBookCache.t) : runners_kept m m.
Proof. intros i r H. eauto. Qed.

Lemma runners_kept_trans (m1 m2 m3 : MarketBookCache.t) :
  runners_kept m1 m2 -> runners_kept m2 m3 -> runners_kept m1 m3.
Proof.
  intros H12 H23 i r H. destruct (H12 i r H) as (r2 & H2 & E2).
  destruct (H23 i r2 H2) as (r3 & H3 & E3). exists r3. split; congruence.
Qed.

Lemma runners_kept_list_set (m : MarketBookCache.t) (i : nat)
  (R R' : RunnerBook.t) :
  nth_error (MarketBookCache.runners m) i = Some R ->
  key_of R' = key_of R ->
  runners_kept m
    (MarketBookCache.set_runners (list_set i R' (MarketBookCache.runners m)) m).
Proof.
  intros Hn E j r Hj. simpl. destruct (Nat.eq_dec i j) as [<-|ne].
  - exists R'. split; [eapply nth_error_list_set; exact Hn|]. congruence.
  - exists r. split; [|reflexivity].
    now rewrite nth_error_list_set_other.
Qed.

Lemma runners_kept_new (m : MarketBookCache.t) (r : RunnerBook.t) :
  runners_kept m (with_runner r m).
Proof.
  intros i r0 H. exists r0. split; [|reflexivity]. simpl.
  rewrite nth_error_app1; auto. apply nth_error_Some. congruence.
Qed.

Lemma process_runner_change_kept (m m' : MarketBookCache.t)
  (nd : runner_change) :
  MarketBookCache.process_runner_change m nd = Some m' -> runners_kept m m'.
Proof.
  intros H.
  destruct (dict_get runner_key_eqb (change_key nd)
              (MarketBookCache.runner_dict m)) as [i|] eqn:Hd.
  - destruct (nth_error (MarketBookCache.runners m) i) as [R|] eqn:Hn.
    + rewrite (process_runner_change_existing _ _ _ _ Hd Hn) in H.
      destruct (MarketBookCache.apply_runner_change nd R) as [R'|] eqn:E;
        try discriminate.
      simpl in H. inversion H. apply runners_kept_list_set with (R := R); auto.
      rewrite key_of_serialise. eapply apply_runner_change_key. exact E.
    + unfold MarketBookCache.process_runner_change in H.
      unfold change_key in Hd. rewrite Hd, Hn in H. discriminate.
  - rewrite (process_runner_change_new _ _ Hd) in H.
    destruct (RunnerBook.init nd None) as [r|]; try discriminate.
    simpl in H. inversion H. apply runners_kept_new.
Qed.

Lemma process_runner_definition_kept (m m' : MarketBookCache.t)
  (rd : runner_definition) :
  MarketBookCache.process_runner_definition m rd = Some m' ->
  runners_kept m m'.
Proof.
  intros H.
  destruct (dict_get runner_key_eqb (definition_key rd)
              (MarketBookCache.runner_dict m)) as [i|] eqn:Hd.
  - destruct (nth_error (MarketBookCache.runners m) i) as [R|] eqn:Hn.
    + rewrite (process_runner_definition_existing _ _ _ _ Hd Hn) in H.
      inversion H. apply runners_kept_list_set with (R := R); auto.
    + unfold MarketBookCache.process_runner_definition in H.
      unfold definition_key in Hd. rewrite Hd, Hn in H. discriminate.
  - rewrite (process_runner_definition_new _ _ Hd) in H.
    destruct (RunnerBook.init _ (Some rd)) as [r|]; try discriminate.
    simpl in H. inversion H. apply runners_kept_new.
Qed.

Lemma runners_kept_length (m m' : MarketBookCache.t) :
  runners_kept m m' ->
  (List.length (MarketBookCache.runners m)
   <= List.length (MarketBookCache.runners m'))%nat.
Proof.
  intros H.
  destruct (Nat.le_gt_cases (List.length (MarketBookCache.runners m))
              (List.length (MarketBookCache.runners m'))) as [L|L]; auto.
  destruct (nth_error (MarketBookCache.runners m)
              (List.length (MarketBookCache.runners m'))) as [r|] eqn:E.
  - destruct (H _ _ E) as (r' & Hr' & _).
    apply nth_error_Some in L. assert (Hn : nth_error
      (MarketBookCache.runners m') (List.length (MarketBookCache.runners m'))
      = None) by now apply nth_error_None.
    congruence.
  - apply nth_error_None in E. lia.
Qed.

(** X6.  [update_cache] never removes or moves a runner and never changes
    its key: every runner is at its position afterwards, with its
    selection id and handicap, and the runners are at least as many. *)
Theorem X6_update_cache_keeps_every_runner :
  forall m mc pt m',
    MarketBookCache.update_cache m mc pt = Some m' ->
    runners_kept m m' /\
    (List.length (MarketBookCache.runners m)
     <= List.length (MarketBookCache.runners m'))%nat.
Proof.
  intros m mc pt m' H.
  assert (Hk : runners_kept m m').
  { destruct (update_cache_inv _ _ _ _ H) as (m1 & H1 & H2).
    apply (for_each_rel _ _ runners_kept _ runners_kept_refl
             runners_kept_trans
             (fun s x s' => process_runner_definition_kept s s' x)) in H1.
    apply (for_each_rel _ _ runners_kept _ runners_kept_refl
             runners_kept_trans
             (fun s x s' => process_runner_change_kept s s' x)) in H2.
    apply runners_kept_trans with (m2 := m1).
    - intros i r Hn. apply H1. now destruct (mc_marketDefinition mc).
    - intros i r Hn. apply H2. now destruct (mc_tv mc). }
  split; [exact Hk|]. now apply runners_kept_length.
Qed.

Lemma X6_witness :
  exists m m',
    MarketBookCache.update_cache (MarketBookCache.init "1.101" 0)
      two_handicaps 1 = Some m /\
    MarketBookCache.update_cache m
      (mkMarketChange None None (Some [ltp_only 9 None 5; ltp_only 7 None 3]))
      2 = Some m' /\
    runners_kept m m' /\
    (2 <= List.length (MarketBookCache.runners m'))%nat.
Proof.
  eexists. eexists. split; [vm_compute; reflexivity|].
  split; [vm_compute; reflexivity|].
  match goal with
  | |- runners_kept ?m ?m' /\ _ =>
      apply (X6_update_cache_keeps_every_runner m
               (mkMarketChange None None
                  (Some [ltp_only 9 None 5; ltp_only 7 None 3])) 2%Z m')
  end.
  vm_compute. reflexivity.
Defined.

(** ** Runners that a change does not name *)

Lemma process_runner_change_other (m m' : MarketBookCache.t)
  (nd : runner_change) (i : nat) (r : RunnerBook.t) :
  indexed m ->
  nth_error (MarketBookCache.runners m) i = Some r ->
  runner_key_eqb (key_of r) (change_key nd) = false ->
  MarketBookCache.process_runner_change m nd = Some m' ->
  nth_error (MarketBookCache.runners m') i = Some r.
Proof.
  intros Hi Hn Hk H.
  destruct (dict_get runner_key_eqb (change_key nd)
              (MarketBookCache.runner_dict m)) as [j|] eqn:Hd.
  - destruct (index_lookup _ _ _ Hi Hd) as (R & HR & HkR).
    rewrite (process_runner_change_existing _ _ _ _ Hd HR) in H.
    destruct (MarketBookCache.apply_runner_change nd R) as [R'|];
      try discriminate.
    simpl in H. inversion H. simpl.
    rewrite nth_error_list_set_other; auto.
    intros <-. congruence.
  - rewrite (process_runner_change_new _ _ Hd) in H.
    destruct (RunnerBook.init nd None) as [r0|]; try discriminate.
    simpl in H. inversion H. simpl.
    rewrite nth_error_app1; auto. apply nth_error_Some. congruence.
Qed.

Lemma process_runner_definition_other (m m' : MarketBookCache.t)
  (rd : runner_definition) (i : nat) (r : RunnerBook.t) :
  indexed m ->
  nth_error (MarketBookCache.runners m) i = Some r ->
  runner_key_eqb (key_of r) (definition_key rd) = false ->
  MarketBookCache.process_runner_definition m rd = Some m' ->
  nth_error (MarketBookCache.runners m') i = Some r.
Proof.
  intros Hi Hn Hk H.
  destruct (dict_get runner_key_eqb (definition_key rd)
              (MarketBookCache.runner_dict m)) as [j|] eqn:Hd.
  - destruct (index_lookup _ _ _ Hi Hd) as (R & HR & HkR).
    rewrite (process_runner_definition_existing _ _ _ _ Hd HR) in H.
    inversion H. simpl.
    rewrite nth_error_list_set_other; auto.
    intros <-. congruence.
  - rewrite (process_runner_definition_new _ _ Hd) in H.
    destruct (RunnerBook.init _ (Some rd)) as [r0|]; try discriminate.
    simpl in H. inversion H. simpl.
    rewrite nth_error_app1; auto. apply nth_error_Some. congruence.
Qed.

(** X7.  [update_cache] changes only the runners a change names: a runner
    of a market cache whose key is the key of no entry of ["rc"] and of no
    runner definition is, after the update, the runner it was, cached
    snapshot included. *)
Theorem X7_update_cache_touches_named_runners_only :
  forall m mc pt m' i r,
    market m ->
    MarketBookCache.update_cache m mc pt = Some m' ->
    nth_error (MarketBookCache.runners m) i = Some r ->
    forallb (fun nd => negb (runner_key_eqb (key_of r) (change_key nd)))
      (match mc_rc mc with Some rc => rc | None => [] end) = true ->
    forallb (fun rd => negb (runner_key_eqb (key_of r) (definition_key rd)))
      (match mc_marketDefinition mc with
       | Some md => match md_runners md with Some l => l | None => [] end
       | None => []
       end) = true ->
    nth_error (MarketBookCache.runners m') i = Some r.
Proof.
  intros m mc pt m' i r Hm H Hn Hrc Hdef.
  destruct (update_cache_inv _ _ _ _ H) as (m1 & H1 & H2).
  pose proof (market_index m Hm) as HI.
  pose (J := fun s : MarketBookCache.t =>
               (indexed s /\
                keys_distinct (MarketBookCache.runners s) = true) /\
               nth_error (MarketBookCache.runners s) i = Some r).
  assert (J1 : J m1).
  { refine (for_each_invariant_In _ _ J _ _ _ _ _ _ H1).
    - intros s x s' Hin [Hs Hns] Hp. split.
      + eapply process_runner_definition_index; eassumption.
      + rewrite forallb_forall in Hdef. specialize (Hdef x Hin).
        apply negb_true_iff in Hdef.
        eapply process_runner_definition_other; eauto. apply Hs.
    - unfold J. now destruct (mc_marketDefinition mc). }
  assert (J2 : J m').
  { refine (for_each_invariant_In _ _ J _ _ _ _ _ _ H2).
    - intros s x s' Hin [Hs Hns] Hp. split.
      + eapply process_runner_change_index; eassumption.
      + rewrite forallb_forall in Hrc. specialize (Hrc x Hin).
        apply negb_true_iff in Hrc.
        eapply process_runner_change_other; eauto. apply Hs.
    - unfold J in *. now destruct (mc_tv mc). }
  apply J2.
Qed.

Lemma X7_witness :
  exists m m' r,
    MarketBookCache.update_cache (MarketBookCache.init "1.101" 0)
      two_handicaps 1 = Some m /\
    MarketBookCache.update_cache m
      (mkMarketChange None None (Some [ltp_only 9 None 5; ltp_only 7 None 3]))
      2 = Some m' /\
    nth_error (MarketBookCache.runners m) 1 = Some r /\
    nth_error (MarketBookCache.runners m') 1 = Some r.
Proof.
  eexists. eexists. eexists. split; [vm_compute; reflexivity|].
  split; [vm_compute; reflexivity|].
  match goal with
  | |- nth_error (MarketBookCache.runners ?m) 1 = Some ?r /\
       nth_error (MarketBookCache.runners ?m') 1 = _ =>
      split; [reflexivity|];
      apply (X7_update_cache_touches_named_runners_only m
               (mkMarketChange None None
                  (Some [ltp_only 9 None 5; ltp_only 7 None 3])) 2%Z m'
               1%nat r)
  end; try reflexivity.
  apply (market_update (MarketBookCache.init "1.101" 0) two_handicaps 1%Z
           _ (market_init _ _)).
  vm_compute. reflexivity.
Defined.

(** ** Runners seen for the first time *)

(** With rows of the right arity the constructor of a runner returns. *)
Lemma runner_init_total (nd : runner_change) (d : option runner_definition) :
  change_ok nd = true -> exists r, RunnerBook.init nd d = Some r.
Proof.
  unfold change_ok, rows_of. rewrite !andb_true_iff.
  intros ((((((((H1 & H2) & H3) & H4) & H5) & H6) & H7) & H8) & H9).
  unfold RunnerBook.init.
  destruct (init_total (rc_trd nd) 1 false H1) as [a1 ->].
  destruct (init_total (rc_atb nd) 1 true H2) as [a2 ->].
  destruct (init_total (rc_batb nd) 2 false H3) as [a3 ->].
  destruct (init_total (rc_bdatb nd) 2 false H4) as [a4 ->].
  destruct (init_total (rc_atl nd) 1 false H5) as [a5 ->].
  destruct (init_total (rc_batl nd) 2 false H6) as [a6 ->].
  destruct (init_total (rc_bdatl nd) 2 false H7) as [a7 ->].
  destruct (init_total (rc_spb nd) 1 false H8) as [a8 ->].
  destruct (init_total (rc_spl nd) 1 false H9) as [a9 ->].
  simpl. eauto.
Qed.

(** X8.  A runner change whose key is not in the index creates a runner:
    with rows of the right arity [update_cache] returns, the runner built
    from the change alone is appended after the runners, which stay as
    they are, its snapshot is taken, the count grows by one and the key
    reads the new position; of the market-level fields only the publish
    time changes.  From the identity fields and [ltp] alone the runner is
    the one with that last traded price and nine empty ladders. *)
Theorem X8_first_seen_runner_is_appended :
  (forall m nd pt,
      dict_get runner_key_eqb (change_key nd) (MarketBookCache.runner_dict m)
      = None ->
      change_ok nd = true ->
      exists r m',
        RunnerBook.init nd None = Some r /\
        MarketBookCache.update_cache m (mkMarketChange None None (Some [nd])) pt
        = Some m' /\
        MarketBookCache.runners m'
        = MarketBookCache.runners m ++ [RunnerBook.serialise r] /\
        MarketBookCache._number_of_runners m'
        = S (List.length (MarketBookCache.runners m)) /\
        dict_get runner_key_eqb (change_key nd) (MarketBookCache.runner_dict m')
        = Some (List.length (MarketBookCache.runners m)) /\
        market_level m' = market_level (MarketBookCache.set_publish_time pt m))
  /\
  (forall id hc ltp,
      RunnerBook.init (ltp_only id hc ltp) None
      = Some (bare_runner id hc ltp) /\
      RunnerBook.to_snapshot (bare_runner id hc ltp)
      = RunnerBook.mkSnapshot None (RunnerBook.mkEx [] [] [])
          (RunnerBook.mkSp None None [] [] None) None None (Some ltp)
          (hc_or_0 hc) None id).
Proof.
  split.
  - intros m nd pt Hd Hok.
    destruct (runner_init_total nd None Hok) as [r Hr].
    exists r. eexists. split; [exact Hr|]. split.
    + unfold MarketBookCache.update_cache. simpl.
      rewrite process_runner_change_new by exact Hd. rewrite Hr. simpl.
      reflexivity.
    + simpl. split; [reflexivity|]. split.
      { rewrite length_app. simpl. lia. }
      split; [|reflexivity].
      rewrite dict_get_build_snoc.
      destruct (runner_init_inv _ _ _ Hr) as (-> & _).
      now rewrite runner_key_eqb_refl.
  - intros id hc ltp. split; reflexivity.
Qed.

Lemma X8_witness :
  exists r m',
    RunnerBook.init (ltp_only 1 None (5#2)) None = Some r /\
    MarketBookCache.update_cache (MarketBookCache.init "1.101" 0)
      (mkMarketChange None None (Some [ltp_only 1 None (5#2)])) 3 = Some m' /\
    MarketBookCache.runners m' = [] ++ [RunnerBook.serialise r] /\
    MarketBookCache._number_of_runners m' = 1%nat /\
    dict_get runner_key_eqb (1%Z, 0) (MarketBookCache.runner_dict m')
    = Some 0%nat /\
    market_level m'
    = market_level
        (MarketBookCache.set_publish_time 3 (MarketBookCache.init "1.101" 0)).
Proof.
  apply (proj1 X8_first_seen_runner_is_appended
           (MarketBookCache.init "1.101" 0) (ltp_only 1 None (5#2)) 3%Z);
    reflexivity.
Defined.

(** X9.  Two runner changes whose keys differ and are not in the index of
    a market cache create two runners, in the order of the changes; so do
    two changes that share [id] and differ in [hc]. *)
Theorem X9_two_keys_make_two_runners :
  forall m nd1 nd2 pt r1 r2,
    market m ->
    dict_get runner_key_eqb (change_key nd1) (MarketBookCache.runner_dict m)
    = None ->
    dict_get runner_key_eqb (change_key nd2) (MarketBookCache.runner_dict m)
    = None ->
    runner_key_eqb (change_key nd1) (change_key nd2) = false ->
    RunnerBook.init nd1 None = Some r1 ->
    RunnerBook.init nd2 None = Some r2 ->
    exists m',
      MarketBookCache.update_cache m
        (mkMarketChange None None (Some [nd1; nd2])) pt = Some m' /\
      MarketBookCache.runners m'
      = MarketBookCache.runners m
        ++ [RunnerBook.serialise r1; RunnerBook.serialise r2] /\
      key_of r1 = change_key nd1 /\ key_of r2 = change_key nd2.
Proof.
  intros m nd1 nd2 pt r1 r2 Hm Hd1 Hd2 Hne Hr1 Hr2.
  destruct (market_index m Hm) as [[Hidx _] _].
  destruct (runner_init_inv _ _ _ Hr1) as (Hk1 & _).
  destruct (runner_init_inv _ _ _ Hr2) as (Hk2 & _).
  eexists. split.
  - unfold MarketBookCache.update_cache. simpl.
    rewrite process_runner_change_new by exact Hd1. rewrite Hr1. simpl.
    rewrite process_runner_change_new.
    + rewrite Hr2. simpl. reflexivity.
    + simpl. rewrite dict_get_build_snoc, Hk1, Hne, <- Hidx. exact Hd2.
  - simpl. rewrite <- app_assoc. simpl. auto.
Qed.

Lemma X9_witness :
  exists m',
    MarketBookCache.update_cache (MarketBookCache.init "1.101" 0)
      (mkMarketChange None None
         (Some [ltp_only 7 None 2; ltp_only 7 (Some (3#2)) 4])) 1 = Some m' /\
    MarketBookCache.runners m'
    = [] ++ [RunnerBook.serialise (bare_runner 7 None 2);
             RunnerBook.serialise (bare_runner 7 (Some (3#2)) 4)] /\
    key_of (bare_runner 7 None 2) = (7%Z, 0) /\
    key_of (bare_runner 7 (Some (3#2)) 4) = (7%Z, 3#2).
Proof.
  apply (X9_two_keys_make_two_runners (MarketBookCache.init "1.101" 0)
           (ltp_only 7 None 2) (ltp_only 7 (Some (3#2)) 4) 1%Z
           (bare_runner 7 None 2) (bare_runner 7 (Some (3#2)) 4)
           (market_init _ _));
    reflexivity.
Defined.

(** ** Market-level fields and definitions *)

Lemma process_runner_change_level (m m' : MarketBookCache.t)
  (nd : runner_change) :
  MarketBookCache.process_runner_change m nd = Some m' ->
  market_level m' = market_level m.
Proof.
  intros H.
  destruct (dict_get runner_key_eqb (change_key nd)
              (MarketBookCache.runner_dict m)) as [i|] eqn:Hd.
  - destruct (nth_error (MarketBookCache.runners m) i) as [R|] eqn:Hn.
    + rewrite (process_runner_change_existing _ _ _ _ Hd Hn) in H.
      destruct (MarketBookCache.apply_runner_change nd R) as [R'|];
        try discriminate.
      simpl in H. now inversion H.
    + unfold MarketBookCache.process_runner_change in H.
      unfold change_key in Hd. rewrite Hd, Hn in H. discriminate.
  - rewrite (process_runner_change_new _ _ Hd) in H.
    destruct (RunnerBook.init nd None) as [r|]; try discriminate.
    simpl in H. now inversion H.
Qed.

Lemma process_runner_definition_level (m m' : MarketBookCache.t)
  (rd : runner_definition) :
  MarketBookCache.process_runner_definition m rd = Some m' ->
  market_level m' = market_level m.
Proof.
  intros H.
  destruct (dict_get runner_key_eqb (definition_key rd)
              (MarketBookCache.runner_dict m)) as [i|] eqn:Hd.
  - destruct (nth_error (MarketBookCache.runners m) i) as [R|] eqn:Hn.
    + rewrite (process_runner_definition_existing _ _ _ _ Hd Hn) in H.
      now inversion H.
    + unfold MarketBookCache.process_runner_definition in H.
      unfold definition_key in Hd. rewrite Hd, Hn in H. discriminate.
  - rewrite (process_runner_definition_new _ _ Hd) in H.
    destruct (RunnerBook.init _ (Some rd)) as [r|]; try discriminate.
    simpl in H. now inversion H.
Qed.

(** The loops over runners leave the market-level fields as the
    assignments before them set them. *)
Lemma update_cache_level (m m' : MarketBookCache.t) (mc : market_change)
  (pt : Z) :
  MarketBookCache.update_cache m mc pt = Some m' ->
  market_level m'
  = market_level
      (match mc_tv mc with
       | Some v => MarketBookCache.set_total_matched (Some v)
       | None => fun s => s
       end
         (match mc_marketDefinition mc with
          | Some md => MarketBookCache.set_definition md
          | None => fun s => s
          end (MarketBookCache.set_publish_time pt m))).
Proof.
  intros H. destruct (update_cache_inv _ _ _ _ H) as (m1 & H1 & H2).
  apply (for_each_rel _ _ (fun s s' => market_level s' = market_level s))
    in H1.
  - apply (for_each_rel _ _ (fun s s' => market_level s' = market_level s))
      in H2.
    + rewrite H2. destruct (mc_tv mc) as [q|].
      * transitivity
          (market_level
             (MarketBookCache.set_total_matched (Some q) (market_level m1)));
          [reflexivity|].
        rewrite H1. now destruct (mc_marketDefinition mc).
      * rewrite H1. now destruct (mc_marketDefinition mc).
    + reflexivity.
    + intros s1 s2 s3 E1 E2. congruence.
    + intros s x s'. apply process_runner_change_level.
  - reflexivity.
  - intros s1 s2 s3 E1 E2. congruence.
  - intros s x s'. apply process_runner_definition_level.
Qed.

Lemma same_prices_refl (r : RunnerBook.t) : same_prices r r.
Proof. unfold same_prices. repeat split. Qed.

Lemma same_prices_trans (r1 r2 r3 : RunnerBook.t) :
  same_prices r1 r2 -> same_prices r2 r3 -> same_prices r1 r3.
Proof.
  unfold same_prices. intros H12 H23.
  repeat match goal with
    | H : _ /\ _ |- _ => destruct H
    end.
  repeat split; congruence.
Qed.

Lemma prices_kept_refl (m : MarketBookCache.t) : prices_kept m m.
Proof. intros i r H. exists r. split; auto. apply same_prices_refl. Qed.

Lemma prices_kept_trans (m1 m2 m3 : MarketBookCache.t) :
  prices_kept m1 m2 -> prices_kept m2 m3 -> prices_kept m1 m3.
Proof.
  intros H12 H23 i r H. destruct (H12 i r H) as (r2 & H2 & E2).
  destruct (H23 i r2 H2) as (r3 & H3 & E3). exists r3. split; auto.
  eapply same_prices_trans; eassumption.
Qed.

Lemma process_runner_definition_prices (m m' : MarketBookCache.t)
  (rd : runner_definition) :
  MarketBookCache.process_runner_definition m rd = Some m' ->
  prices_kept m m'.
Proof.
  intros H.
  destruct (dict_get runner_key_eqb (definition_key rd)
              (MarketBookCache.runner_dict m)) as [i|] eqn:Hd.
  - destruct (nth_error (MarketBookCache.runners m) i) as [R|] eqn:Hn.
    + rewrite (process_runner_definition_existing _ _ _ _ Hd Hn) in H.
      inversion H. intros j r Hj. simpl.
      destruct (Nat.eq_dec i j) as [<-|ne].
      * rewrite (nth_error_list_set _ _ _ _ _ Hn). eexists. split; eauto.
        assert (r = R) by congruence. subst r.
        unfold same_prices. simpl. repeat split.
      * rewrite nth_error_list_set_other by exact ne.
        exists r. split; auto. apply same_prices_refl.
    + unfold MarketBookCache.process_runner_definition in H.
      unfold definition_key in Hd. rewrite Hd, Hn in H. discriminate.
  - rewrite (process_runner_definition_new _ _ Hd) in H.
    destruct (RunnerBook.init _ (Some rd)) as [r0|]; try discriminate.
    simpl in H. inversion H. intros j r Hj. simpl.
    exists r. split; [|apply same_prices_refl].
    rewrite nth_error_app1; auto. apply nth_error_Some. congruence.
Qed.

(** X10.  A market change that carries a market definition makes the
    cache hold that definition, with the twelve cached scalars read from
    it and [closed] telling whether its status is ["CLOSED"], whatever the
    runner entries are; a change without one leaves the definition and
    [closed] as they were.  A change without ["rc"] changes no price data:
    every runner keeps its last traded price, total matched, starting
    prices and nine ladders. *)
Theorem X10_market_definition_is_replaced_and_prices_kept :
  (forall m mc pt m' md,
      mc_marketDefinition mc = Some md ->
      MarketBookCache.update_cache m mc pt = Some m' ->
      MarketBookCache.market_definition m' = Some md /\
      MarketBookCache.closed m' = status_closed md /\
      market_synced m') /\
  (forall m mc pt m',
      mc_marketDefinition mc = None ->
      MarketBookCache.update_cache m mc pt = Some m' ->
      MarketBookCache.market_definition m' = MarketBookCache.market_definition m
      /\ MarketBookCache.closed m' = MarketBookCache.closed m) /\
  (forall m mc pt m',
      mc_rc mc = None ->
      MarketBookCache.update_cache m mc pt = Some m' ->
      prices_kept m m').
Proof.
  split; [|split].
  - intros m mc pt m' md Hmd H. apply update_cache_level in H.
    rewrite Hmd in H.
    assert (E : MarketBookCache.market_definition m' = Some md).
    { change (MarketBookCache.market_definition (market_level m') = Some md).
      rewrite H. now destruct (mc_tv mc). }
    split; [exact E|]. split.
    + unfold MarketBookCache.closed. now rewrite E.
    + change (market_synced (market_level m')). rewrite H.
      destruct (mc_tv mc); unfold market_synced; simpl; repeat split.
  - intros m mc pt m' Hmd H. apply update_cache_level in H.
    rewrite Hmd in H.
    assert (E : MarketBookCache.market_definition m'
                = MarketBookCache.market_definition m).
    { change (MarketBookCache.market_definition (market_level m')
              = MarketBookCache.market_definition m).
      rewrite H. now destruct (mc_tv mc). }
    split; [exact E|]. unfold MarketBookCache.closed. now rewrite E.
  - intros m mc pt m' Hrc H.
    destruct (update_cache_inv _ _ _ _ H) as (m1 & H1 & H2).
    rewrite Hrc in H2. simpl in H2. inversion H2 as [E]. clear H2.
    apply (for_each_rel _ _ prices_kept _ prices_kept_refl prices_kept_trans
             (fun s x s' => process_runner_definition_prices s s' x)) in H1.
    intros i r Hn.
    destruct (H1 i r) as (r' & Hr' & Hs).
    { now destruct (mc_marketDefinition mc). }
    exists r'. split; auto. now destruct (mc_tv mc).
Qed.

Lemma X10_witness :
  exists m m',
    MarketBookCache.update_cache (MarketBookCache.init "1.101" 0)
      two_handicaps 1 = Some m /\
    MarketBookCache.update_cache m
      (mkMarketChange (Some closing_definition) (Some 12) None) 2 = Some m' /\
    (MarketBookCache.market_definition m' = Some closing_definition /\
     MarketBookCache.closed m' = true /\ market_synced m') /\
    (MarketBookCache.market_definition m = None /\
     MarketBookCache.closed m = false) /\
    prices_kept m m'.
Proof.
  destruct X10_market_definition_is_replaced_and_prices_kept
    as (H1 & H2 & H3).
  eexists. eexists. split; [vm_compute; reflexivity|].
  split; [vm_compute; reflexivity|].
  match goal with
  | |- (MarketBookCache.market_definition ?m' = _ /\ _) /\
       (MarketBookCache.market_definition ?m = _ /\ _) /\ _ =>
      split;
      [apply (H1 m (mkMarketChange (Some closing_definition) (Some 12) None)
                2%Z m' closing_definition eq_refl)
      |split;
       [apply (H2 (MarketBookCache.init "1.101" 0) two_handicaps 1%Z m
                 eq_refl)
       |apply (H3 m (mkMarketChange (Some closing_definition) (Some 12) None)
                 2%Z m' eq_refl)]]
  end; vm_compute; reflexivity.
Defined.

(** ** The snapshot of a market *)

Lemma runner_synced_serialise (r : RunnerBook.t) :
  runner_synced r -> runner_synced (RunnerBook.serialise r).
Proof. intros H. exact H. Qed.

Lemma process_runner_change_synced (m m' : MarketBookCache.t)
  (nd : runner_change) :
  Forall runner_synced (MarketBookCache.runners m) ->
  MarketBookCache.process_runner_change m nd = Some m' ->
  Forall runner_synced (MarketBookCache.runners m').
Proof.
  intros Hs H.
  destruct (dict_get runner_key_eqb (change_key nd)
              (MarketBookCache.runner_dict m)) as [i|] eqn:Hd.
  - destruct (nth_error (MarketBookCache.runners m) i) as [R|] eqn:Hn.
    + rewrite (process_runner_change_existing _ _ _ _ Hd Hn) in H.
      destruct (MarketBookCache.apply_runner_change nd R) as [R'|] eqn:E;
        try discriminate.
      simpl in H. inversion H. simpl. apply Forall_list_set; auto.
      apply runner_synced_serialise.
      rewrite Forall_forall in Hs. specialize (Hs R (nth_error_In _ _ Hn)).
      apply apply_runner_change_frame in E.
      destruct E as ((_ & _ & Ed & E1 & E2 & E3 & E4 & _) & _).
      unfold runner_synced in *. now rewrite Ed, E1, E2, E3, E4.
    + unfold MarketBookCache.process_runner_change in H.
      unfold change_key in Hd. rewrite Hd, Hn in H. discriminate.
  - rewrite (process_runner_change_new _ _ Hd) in H.
    destruct (RunnerBook.init nd None) as [r|] eqn:E; try discriminate.
    simpl in H. inversion H. simpl. apply Forall_app. split; auto.
    constructor; auto. apply runner_synced_serialise.
    now destruct (runner_init_inv _ _ _ E) as (_ & _ & Hsync & _).
Qed.

Lemma process_runner_definition_synced (m m' : MarketBookCache.t)
  (rd : runner_definition) :
  Forall runner_synced (MarketBookCache.runners m) ->
  MarketBookCache.process_runner_definition m rd = Some m' ->
  Forall runner_synced (MarketBookCache.runners m').
Proof.
  intros Hs H.
  destruct (dict_get runner_key_eqb (definition_key rd)
              (MarketBookCache.runner_dict m)) as [i|] eqn:Hd.
  - destruct (nth_error (MarketBookCache.runners m) i) as [R|] eqn:Hn.
    + rewrite (process_runner_definition_existing _ _ _ _ Hd Hn) in H.
      inversion H. simpl. apply Forall_list_set; auto.
      unfold runner_synced. simpl. repeat split.
    + unfold MarketBookCache.process_runner_definition in H.
      unfold definition_key in Hd. rewrite Hd, Hn in H. discriminate.
  - rewrite (process_runner_definition_new _ _ Hd) in H.
    destruct (RunnerBook.init _ (Some rd)) as [r|] eqn:E; try discriminate.
    simpl in H. inversion H. simpl. apply Forall_app. split; auto.
    constructor; auto. apply runner_synced_serialise.
    now destruct (runner_init_inv _ _ _ E) as (_ & _ & Hsync & _).
Qed.

Lemma market_runners_synced (m : MarketBookCache.t) :
  market m -> Forall runner_synced (MarketBookCache.runners m).
Proof.
  intros H. induction H as [mid pt|m mc pt m' Hm IH Hu].
  - constructor.
  - destruct (update_cache_inv _ _ _ _ Hu) as (m1 & H1 & H2).
    refine (for_each_invariant _ _
              (fun s => Forall runner_synced (MarketBookCache.runners s))
              _ _ _ _ _ _ H2).
    + intros s x s'. apply process_runner_change_synced.
    + assert (Hs1 : Forall runner_synced (MarketBookCache.runners m1)).
      { refine (for_each_invariant _ _
                  (fun s => Forall runner_synced (MarketBookCache.runners s))
                  _ _ _ _ _ _ H1).
        - intros s x s'. apply process_runner_definition_synced.
        - now destruct (mc_marketDefinition mc). }
      now destruct (mc_tv mc).
Qed.

Lemma market_is_synced (m : MarketBookCache.t) : market m -> market_synced m.
Proof.
  intros H. induction H as [mid pt|m mc pt m' Hm IH Hu].
  - unfold market_synced. simpl. repeat split.
  - apply update_cache_level in Hu.
    change (market_synced (market_level m')). rewrite Hu.
    destruct (mc_marketDefinition mc) as [md|].
    + destruct (mc_tv mc); unfold market_synced; simpl; repeat split.
    + destruct (mc_tv mc); exact IH.
Qed.

(** X11.  The snapshot of a market cache is current: its ["runners"] are
    the snapshots of the runners' fields, in the order of the runners,
    ["numberOfRunners"] is their number, ["status"] is the status of the
    market definition the cache holds and is ["CLOSED"] exactly when
    [closed] is true, and the status, starting price, adjustment factor
    and removal date of each runner's snapshot are those of the runner
    definition it holds. *)
Theorem X11_market_snapshot_is_current :
  forall m,
    market m ->
    MarketBookCache.runners_out (MarketBookCache.serialise m)
    = map (fun r => Some (RunnerBook.to_snapshot r))
        (MarketBookCache.runners m) /\
    MarketBookCache.numberOfRunners (MarketBookCache.serialise m)
    = List.length (MarketBookCache.runners_out (MarketBookCache.serialise m))
    /\
    MarketBookCache.status (MarketBookCache.serialise m)
    = market_definition_get "status" m /\
    (MarketBookCache.closed m = true <->
     MarketBookCache.status (MarketBookCache.serialise m)
     = Some (VStr "CLOSED")) /\
    (forall i r,
        nth_error (MarketBookCache.runners m) i = Some r ->
        RunnerBook.status (RunnerBook.to_snapshot r)
        = RunnerBook.definition_get "status" (RunnerBook.definition r) /\
        RunnerBook.actualSP (RunnerBook.sp (RunnerBook.to_snapshot r))
        = RunnerBook.definition_get "bsp" (RunnerBook.definition r) /\
        RunnerBook.adjustmentFactor (RunnerBook.to_snapshot r)
        = RunnerBook.definition_get "adjustmentFactor"
            (RunnerBook.definition r) /\
        RunnerBook.removalDate (RunnerBook.to_snapshot r)
        = RunnerBook.definition_get "removalDate" (RunnerBook.definition r)).
Proof.
  intros m Hm.
  pose proof (market_runners_fresh m Hm) as Hf.
  destruct (market_index m Hm) as [[_ Hn] _].
  destruct (market_is_synced m Hm) as (_ & _ & _ & _ & Hst & _).
  pose proof (market_runners_synced m Hm) as Hs.
  split; [|split; [|split; [|split]]].
  - simpl. apply map_ext_in. intros r Hr.
    rewrite Forall_forall in Hf. now apply Hf.
  - simpl. now rewrite length_map.
  - exact Hst.
  - simpl. rewrite Hst. unfold MarketBookCache.closed, market_definition_get.
    destruct (MarketBookCache.market_definition m) as [md|].
    + destruct (pydict_get "status" (md_fields md)) as [[q|s|b]|];
        split; try discriminate.
      * intros H. apply String.eqb_eq in H. now subst s.
      * intros H. inversion H. apply String.eqb_refl.
    + split; discriminate.
  - intros i r Hr. rewrite Forall_forall in Hs.
    apply (Hs r (nth_error_In _ _ Hr)).
Qed.

Lemma X11_witness :
  exists m,
    MarketBookCache.update_cache (MarketBookCache.init "1.101" 0)
      (mkMarketChange (Some closing_definition) None
         (Some [ltp_only 7 None 3])) 1 = Some m /\
    MarketBookCache.numberOfRunners (MarketBookCache.serialise m) = 1%nat /\
    MarketBookCache.status (MarketBookCache.serialise m)
    = Some (VStr "CLOSED") /\
    MarketBookCache.closed m = true.
Proof.
  eexists. split; [vm_compute; reflexivity|].
  match goal with
  | |- MarketBookCache.numberOfRunners (MarketBookCache.serialise ?m) = _ /\ _
    =>
      destruct (X11_market_snapshot_is_current m) as (_ & Hn & Hst & Hc & _)
  end.
  - apply (market_update (MarketBookCache.init "1.101" 0)
             (mkMarketChange (Some closing_definition) None
                (Some [ltp_only 7 None 3])) 1%Z _ (market_init _ _)).
    vm_compute. reflexivity.
  - split; [rewrite Hn; reflexivity|].
    split; [rewrite Hst; reflexivity|].
    apply Hc. rewrite Hst. reflexivity.
Defined.

(** * Further properties of the runner *)

(** ** What a runner change writes *)

(** The step [E] of the chain merges rows into the ladder [get]: the
    earlier steps left the ladder as it was in [R], the later steps leave
    it as it is in [R']. *)
Ltac ladder_written Hk E R :=
  rewrite Hk in E; simpl in E; unfold MarketBookCache.update_ladder in E;
  match type of E with
  | bind (Available.update (?get ?r) ?rows) _ = Some ?r1 =>
      let a := fresh "a" in
      let Ea := fresh "Ea" in
      let Hpre := fresh "Hpre" in
      let Hpost := fresh "Hpost" in
      destruct (Available.update (get r) rows) as [a|] eqn:Ea;
      [|discriminate];
      simpl in E;
      assert (Hpre : get r = get R) by frame;
      match goal with
      | |- _ = Some (get ?R') =>
          assert (Hpost : get R' = get r1) by frame;
          try rewrite Hpost
      end;
      rewrite <- Hpre, Ea; inversion E; reflexivity
  end.

Lemma apply_runner_change_written (nd : runner_change) (R R' : RunnerBook.t) :
  MarketBookCache.apply_runner_change nd R = Some R' ->
  present_fields_written nd R R'.
Proof.
  intros H. unfold present_fields_written. cut_chain H.
  split; [|split; [|split; [|split]]].
  - intros v Hk. rewrite Hk in E. simpl in E. inversion E as [E'].
    transitivity (RunnerBook.last_price_traded r); [|now rewrite <- E'].
    clear E. frame.
  - intros v Hk. rewrite Hk in E0. simpl in E0. inversion E0 as [E'].
    transitivity (RunnerBook.total_matched r0); [|now rewrite <- E'].
    clear E0. frame.
  - intros v Hk. rewrite Hk in E1. simpl in E1. inversion E1 as [E'].
    transitivity (RunnerBook.starting_price_near r1); [|now rewrite <- E'].
    clear E1. frame.
  - intros v Hk. rewrite Hk in E2. simpl in E2. inversion E2 as [E'].
    transitivity (RunnerBook.starting_price_far r2); [|now rewrite <- E'].
    clear E2. frame.
  - split; [|split].
    + intros Hk. rewrite Hk in E3. simpl in E3.
      rewrite clear_spec in E3. simpl in E3. inversion E3 as [E'].
      assert (Hpre : RunnerBook.traded r2 = RunnerBook.traded R) by frame.
      assert (Hpost : RunnerBook.traded R' = RunnerBook.traded r3)
        by (clear E3; frame).
      rewrite Hpost, <- E', <- Hpre. reflexivity.
    + intros rows Hk Hne. rewrite Hk in E3. simpl in E3.
      destruct rows as [|row rows]; [congruence|].
      unfold RunnerBook.update_traded in E3.
      destruct (Available.update (RunnerBook.traded r2) (row :: rows))
        as [a|] eqn:Ea; [|discriminate].
      simpl in E3. inversion E3 as [E'].
      assert (Hpre : RunnerBook.traded r2 = RunnerBook.traded R) by frame.
      assert (Hpost : RunnerBook.traded R' = RunnerBook.traded r3)
        by (clear E3; frame).
      rewrite Hpost, <- E', <- Hpre. exact Ea.
    + repeat split; intros rows Hk.
      * ladder_written Hk E4 R.
      * ladder_written Hk E5 R.
      * ladder_written Hk E6 R.
      * ladder_written Hk E7 R.
      * ladder_written Hk E8 R.
      * ladder_written Hk E9 R.
      * ladder_written Hk E10 R.
      * ladder_written Hk H R.
Qed.

Lemma update_no_rows (a : Available.t) :
  consistent a -> Available.update a [] = Some a.
Proof.
  intros H. unfold Available.update. simpl.
  destruct a as [ps ds rev ser]. now apply sort_false_consistent.
Qed.

(** X12.  A runner change on a runner the cache holds stores each scalar
    it carries (["ltp"], ["tv"], ["spn"], ["spf"]) and merges the rows of
    each ladder key it carries into the ladder of that key with [update],
    each ladder being read as the runner held it before the change.
    ["trd"] is the exception: without rows it empties the traded ladder.
    Any other ladder key without rows leaves its ladder as it is. *)
Theorem X12_runner_change_writes_present_fields :
  (forall nd R R',
      MarketBookCache.apply_runner_change nd R = Some R' ->
      present_fields_written nd R R') /\
  (forall a, consistent a -> Available.update a [] = Some a).
Proof.
  split.
  - apply apply_runner_change_written.
  - apply update_no_rows.
Qed.

Lemma X12_witness :
  exists R R',
    RunnerBook.init traded_and_back None = Some R /\
    MarketBookCache.apply_runner_change no_rows R = Some R' /\
    Available.serialise (RunnerBook.traded R) = [PriceSize 2 5] /\
    RunnerBook.traded R' = Available.mk [] 1 false [] /\
    Available.update (RunnerBook.available_to_back R) []
    = Some (RunnerBook.available_to_back R') /\
    Available.update (RunnerBook.available_to_back R) []
    = Some (RunnerBook.available_to_back R).
Proof.
  destruct X12_runner_change_writes_present_fields as [Hw Hn].
  eexists. eexists. split; [vm_compute; reflexivity|].
  match goal with
  | |- MarketBookCache.apply_runner_change ?nd ?R = Some ?R' /\ _ =>
      assert (Ha : MarketBookCache.apply_runner_change nd R
                   = Some (RunnerBook.set_traded (Available.mk [] 1 false [])
                             R))
        by (vm_compute; reflexivity);
      destruct (Hw nd R _ Ha) as (_ & _ & _ & _ & Htrd & _ & Hatb & _);
      split; [exact Ha|];
      split; [reflexivity|];
      split; [exact (Htrd eq_refl)|];
      split; [exact (Hatb [] eq_refl)|];
      apply Hn; vm_compute; reflexivity
  end.
Defined.

(** * When the ladder and the market cache raise *)

(** ** Rows without a size field *)

(** The inner loop reads the size field of the incoming row on every
    path. *)
Lemma scan_reads_size (ds : Z) (book : row) (ps : list row)
  (res : list row * bool) :
  Available.scan ds book ps = Some res ->
  exists s, py_index book ds = Some s.
Proof.
  revert res. induction ps as [|trade rest IH]; simpl; intros res H.
  - destruct (py_index book ds) as [s|]; [eauto|discriminate].
  - destruct (py_index trade 0) as [t0|]; try discriminate.
    destruct (py_index book 0) as [b0|]; try discriminate. simpl in H.
    destruct (Qeq_bool t0 b0).
    + destruct (py_index book ds) as [s|]; [eauto|discriminate].
    + destruct (Available.scan ds book rest) as [res'|]; try discriminate.
      now apply (IH res').
Qed.

(** With the size after the identity, a row that has a size field can be
    rendered. *)
Lemma size_field_row_ok (ds : Z) (r : row) (s : Q) :
  (0 < ds)%Z -> py_index r ds = Some s -> row_ok ds r = true.
Proof.
  intros Hds H. unfold row_ok, Available.render_row. rewrite H.
  unfold py_index in *.
  destruct (0 <=? ds)%Z eqn:E1; [|apply Z.leb_gt in E1; lia].
  destruct (0 <=? ds - 1)%Z eqn:E2; [|apply Z.leb_gt in E2; lia].
  destruct (nth_error r (Z.to_nat (ds - 1))) as [p|] eqn:E3; [reflexivity|].
  apply nth_error_None in E3.
  assert (Hlt : (Z.to_nat ds < List.length r)%nat).
  { apply nth_error_Some. congruence. }
  assert (Z.to_nat (ds - 1) <= Z.to_nat ds)%nat by lia. lia.
Qed.

Lemma update_loop_rows_ok (ds : Z) (batch ps : list row) (s : bool)
  (res : list row * bool) :
  (0 < ds)%Z ->
  Available.update_loop ds batch ps s = Some res ->
  rows_ok ds batch = true.
Proof.
  intros Hds. revert ps s res.
  induction batch as [|book more IH]; simpl; intros ps s res H; auto.
  destruct (Available.scan ds book ps) as [[ps' appended]|] eqn:E;
    try discriminate.
  simpl in H. destruct (scan_reads_size _ _ _ _ E) as [sz Hsz].
  rewrite (size_field_row_ok ds book sz Hds Hsz). simpl.
  exact (IH _ _ _ H).
Qed.

Lemma update_returns_rows_ok (a a' : Available.t) (batch : list row) :
  (0 < Available.deletion_select a)%Z ->
  Available.update a batch = Some a' ->
  rows_ok (Available.deletion_select a) batch = true.
Proof.
  intros Hds H. destruct (update_inv _ _ _ H) as (ps & srt & Hl & _).
  exact (update_loop_rows_ok _ _ _ _ _ Hds Hl).
Qed.

(** X13.  On a rendered ladder whose size field comes after the identity
    (the program uses positions 1 and 2), [update] returns exactly when
    every row of the batch has the fields up to the size field: it raises
    as soon as one row is too short, also when that row names an identity
    that is not in the ladder or follows rows that are well formed. *)
Theorem X13_update_raises_exactly_on_short_rows :
  forall a batch,
    consistent a ->
    (0 < Available.deletion_select a)%Z ->
    (rows_ok (Available.deletion_select a) batch = true ->
     exists a', Available.update a batch = Some a') /\
    (rows_ok (Available.deletion_select a) batch = false ->
     Available.update a batch = None).
Proof.
  intros a batch Hc Hds. split.
  - now apply update_total.
  - intros Hr. destruct (Available.update a batch) as [a'|] eqn:E; auto.
    rewrite (update_returns_rows_ok _ _ _ Hds E) in Hr. discriminate.
Qed.

Lemma X13_witness :
  (exists a',
      Available.update (Available.mk [[2; 5]] 1 false [PriceSize 2 5])
        [[3; 1]; [2; 0]] = Some a') /\
  Available.update (Available.mk [[2; 5]] 1 false [PriceSize 2 5])
    [[3; 1]; [4]] = None.
Proof.
  split.
  - apply (X13_update_raises_exactly_on_short_rows
             (Available.mk [[2; 5]] 1 false [PriceSize 2 5])
             [[3; 1]; [2; 0]]); [reflexivity|simpl; lia|reflexivity].
  - apply (X13_update_raises_exactly_on_short_rows
             (Available.mk [[2; 5]] 1 false [PriceSize 2 5])
             [[3; 1]; [4]]); [reflexivity|simpl; lia|reflexivity].
Defined.

(** ** The ladders of the runners of a market *)

Lemma well_kept_init (initial : option (list row)) (ds : Z) (rev : bool)
  (a : Available.t) :
  Available.init initial ds rev = Some a -> well_kept ds rev a.
Proof.
  intros H. destruct (init_inv _ _ _ _ H) as (Hc & Hd & Hr & Hs & _).
  unfold well_kept. now rewrite Hr.
Qed.

Lemma well_kept_update (ds : Z) (rev : bool) (a a' : Available.t)
  (batch : list row) :
  well_kept ds rev a -> Available.update a batch = Some a' ->
  well_kept ds rev a'.
Proof.
  intros (Hc & Hd & Hr & Hs) H.
  destruct (update_preserves _ _ _ Hc H) as (Hc' & Hd' & Hr' & Hs' & _).
  unfold well_kept. rewrite Hd', Hr', Hd, Hr. repeat split; auto.
  rewrite <- Hr, <- Hr'. apply Hs'. now rewrite Hr.
Qed.

Lemma well_kept_empty (ds : Z) (rev : bool) (a : Available.t) :
  well_kept ds rev a ->
  well_kept ds rev
    (Available.mk [] (Available.deletion_select a) (Available.reverse a) []).
Proof.
  intros (Hc & Hd & Hr & Hs). unfold well_kept, consistent. simpl.
  repeat split; auto.
Qed.

(** A key of the runner change leaves its ladder well kept, present or
    not. *)
Lemma written_well_kept (ds : Z) (rev : bool) (o : option (list row))
  (a a' : Available.t) :
  well_kept ds rev a ->
  (o = None -> a' = a) ->
  (forall rows, o = Some rows -> Available.update a rows = Some a') ->
  well_kept ds rev a'.
Proof.
  intros Hk Hnone Hsome. destruct o as [rows|].
  - exact (well_kept_update _ _ _ _ _ Hk (Hsome rows eq_refl)).
  - now rewrite (Hnone eq_refl).
Qed.

Lemma runner_init_ladders (nd : runner_change) (d : option runner_definition)
  (r : RunnerBook.t) :
  RunnerBook.init nd d = Some r -> runner_ladders_ok r.
Proof.
  intros H.
  destruct (runner_init_inv _ _ _ H)
    as (_ & _ & _ & _ & _ & _ & _ & H1 & H2 & H3 & H4 & H5 & H6 & H7 & H8
        & H9).
  unfold runner_ladders_ok.
  split; [|split; [|split; [|split; [|split; [|split; [|split; [|split]]]]]]];
    eapply well_kept_init; eassumption.
Qed.

Lemma apply_runner_change_ladders (nd : runner_change) (R R' : RunnerBook.t) :
  runner_ladders_ok R ->
  MarketBookCache.apply_runner_change nd R = Some R' ->
  runner_ladders_ok R'.
Proof.
  intros (K1 & K2 & K3 & K4 & K5 & K6 & K7 & K8 & K9) H.
  destruct (apply_runner_change_frame _ _ _ H)
    as (_ & _ & _ & _ & _ & A1 & A2 & A5 & A3 & A6 & A4 & A7 & A8 & A9).
  destruct (apply_runner_change_written _ _ _ H)
    as (_ & _ & _ & _ & W0 & W1 & W2 & W5 & W3 & W6 & W4 & W7 & W8 & W9).
  unfold runner_ladders_ok.
  split; [|split; [|split; [|split; [|split; [|split; [|split; [|split]]]]]]].
  - destruct (rc_trd nd) as [[|row rows]|] eqn:E.
    + rewrite (W0 eq_refl). now apply well_kept_empty.
    + assert (Hne : row :: rows <> []) by discriminate.
      exact (well_kept_update _ _ _ _ _ K1 (W1 _ eq_refl Hne)).
    + now rewrite (A1 eq_refl).
  - exact (written_well_kept _ _ _ _ _ K2 A2 W2).
  - exact (written_well_kept _ _ _ _ _ K3 A3 W3).
  - exact (written_well_kept _ _ _ _ _ K4 A4 W4).
  - exact (written_well_kept _ _ _ _ _ K5 A5 W5).
  - exact (written_well_kept _ _ _ _ _ K6 A6 W6).
  - exact (written_well_kept _ _ _ _ _ K7 A7 W7).
  - exact (written_well_kept _ _ _ _ _ K8 A8 W8).
  - exact (written_well_kept _ _ _ _ _ K9 A9 W9).
Qed.

Lemma runner_ladders_ok_serialise (r : RunnerBook.t) :
  runner_ladders_ok r -> runner_ladders_ok (RunnerBook.serialise r).
Proof. intros H. exact H. Qed.

Lemma process_runner_change_ladders (m m' : MarketBookCache.t)
  (nd : runner_change) :
  Forall runner_ladders_ok (MarketBookCache.runners m) ->
  MarketBookCache.process_runner_change m nd = Some m' ->
  Forall runner_ladders_ok (MarketBookCache.runners m').
Proof.
  intros Hs H.
  destruct (dict_get runner_key_eqb (change_key nd)
              (MarketBookCache.runner_dict m)) as [i|] eqn:Hd.
  - destruct (nth_error (MarketBookCache.runners m) i) as [R|] eqn:Hn.
    + rewrite (process_runner_change_existing _ _ _ _ Hd Hn) in H.
      destruct (MarketBookCache.apply_runner_change nd R) as [R'|] eqn:E;
        try discriminate.
      simpl in H. inversion H. simpl. apply Forall_list_set; auto.
      apply runner_ladders_ok_serialise.
      rewrite Forall_forall in Hs.
      exact (apply_runner_change_ladders _ _ _
               (Hs R (nth_error_In _ _ Hn)) E).
    + unfold MarketBookCache.process_runner_change in H.
      unfold change_key in Hd. rewrite Hd, Hn in H. discriminate.
  - rewrite (process_runner_change_new _ _ Hd) in H.
    destruct (RunnerBook.init nd None) as [r|] eqn:E; try discriminate.
    simpl in H. inversion H. simpl. apply Forall_app. split; auto.
    constructor; auto. apply runner_ladders_ok_serialise.
    exact (runner_init_ladders _ _ _ E).
Qed.

Lemma process_runner_definition_ladders (m m' : MarketBookCache.t)
  (rd : runner_definition) :
  Forall runner_ladders_ok (MarketBookCache.runners m) ->
  MarketBookCache.process_runner_definition m rd = Some m' ->
  Forall runner_ladders_ok (MarketBookCache.runners m').
Proof.
  intros Hs H.
  destruct (dict_get runner_key_eqb (definition_key rd)
              (MarketBookCache.runner_dict m)) as [i|] eqn:Hd.
  - destruct (nth_error (MarketBookCache.runners m) i) as [R|] eqn:Hn.
    + rewrite (process_runner_definition_existing _ _ _ _ Hd Hn) in H.
      inversion H. simpl. apply Forall_list_set; auto.
      rewrite Forall_forall in Hs.
      exact (Hs R (nth_error_In _ _ Hn)).
    + unfold MarketBookCache.process_runner_definition in H.
      unfold definition_key in Hd. rewrite Hd, Hn in H. discriminate.
  - rewrite (process_runner_definition_new _ _ Hd) in H.
    destruct (RunnerBook.init _ (Some rd)) as [r|] eqn:E; try discriminate.
    simpl in H. inversion H. simpl. apply Forall_app. split; auto.
    constructor; auto. apply runner_ladders_ok_serialise.
    exact (runner_init_ladders _ _ _ E).
Qed.

Lemma update_cache_ladders (m m' : MarketBookCache.t) (mc : market_change)
  (pt : Z) :
  Forall runner_ladders_ok (MarketBookCache.runners m) ->
  MarketBookCache.update_cache m mc pt = Some m' ->
  Forall runner_ladders_ok (MarketBookCache.runners m').
Proof.
  intros Hs Hu.
  destruct (update_cache_inv _ _ _ _ Hu) as (m1 & H1 & H2).
  refine (for_each_invariant _ _
            (fun s => Forall runner_ladders_ok (MarketBookCache.runners s))
            _ _ _ _ _ _ H2).
  - intros s x s'. apply process_runner_change_ladders.
  - assert (Hs1 : Forall runner_ladders_ok (MarketBookCache.runners m1)).
    { refine (for_each_invariant _ _
                (fun s =>
                   Forall runner_ladders_ok (MarketBookCache.runners s))
                _ _ _ _ _ _ H1).
      - intros s x s'. apply process_runner_definition_ladders.
      - now destruct (mc_marketDefinition mc). }
    now destruct (mc_tv mc).
Qed.

Lemma market_runner_ladders (m : MarketBookCache.t) :
  market m -> Forall runner_ladders_ok (MarketBookCache.runners m).
Proof.
  intros H. induction H as [mid pt|m mc pt m' Hm IH Hu].
  - constructor.
  - exact (update_cache_ladders _ _ _ _ IH Hu).
Qed.

(** X14.  Every runner of a market cache, however the cache was updated,
    holds its nine ladders as the constructor set them up: the size at
    position 1 (2 for the best and best-display ladders), the full-depth
    back ladder descending and every other one ascending, each one
    rendered and sorted by its identity in that direction.  In
    particular the traded volume of the runner's snapshot has one entry
    for every row of the traded ladder. *)
Theorem X14_market_runner_ladders_are_well_kept :
  forall m i r,
    market m ->
    nth_error (MarketBookCache.runners m) i = Some r ->
    runner_ladders_ok r /\
    List.length
      (RunnerBook.tradedVolume (RunnerBook.ex (RunnerBook.to_snapshot r)))
    = List.length (Available.prices (RunnerBook.traded r)).
Proof.
  intros m i r Hm Hn.
  pose proof (market_runner_ladders m Hm) as Hs.
  rewrite Forall_forall in Hs. specialize (Hs r (nth_error_In _ _ Hn)).
  split; [exact Hs|].
  destruct Hs as ((Hc & _) & _). simpl.
  exact (render_length _ _ _ Hc).
Qed.

Lemma X14_witness :
  exists m r,
    MarketBookCache.update_cache (MarketBookCache.init "1.101" 0)
      (mkMarketChange None None (Some [traded_and_back; no_rows])) 1
    = Some m /\
    nth_error (MarketBookCache.runners m) 0 = Some r /\
    runner_ladders_ok r /\
    List.length
      (RunnerBook.tradedVolume (RunnerBook.ex (RunnerBook.to_snapshot r)))
    = List.length (Available.prices (RunnerBook.traded r)).
Proof.
  eexists. eexists. split; [vm_compute; reflexivity|].
  match goal with
  | |- nth_error (MarketBookCache.runners ?m) 0 = Some _ /\ _ =>
      assert (Hm : market m)
        by (apply (market_update (MarketBookCache.init "1.101" 0)
                     (mkMarketChange None None
                        (Some [traded_and_back; no_rows]))
                     1%Z _ (market_init _ _));
            vm_compute; reflexivity);
      split; [reflexivity|];
      match goal with
      | |- runner_ladders_ok ?r /\ _ =>
          apply (X14_market_runner_ladders_are_well_kept m 0%nat r Hm);
          reflexivity
      end
  end.
Defined.

(** ** Market changes that make [update_cache] raise *)

Lemma init_returns_rows_ok (initial : option (list row)) (ds : Z) (rev : bool)
  (a : Available.t) :
  Available.init initial ds rev = Some a ->
  rows_ok ds (rows_of initial) = true.
Proof.
  intros H. destruct (init_inv _ _ _ _ H) as (Hc & Hd & _ & _ & Hp).
  assert (Hr : rows_ok ds (Available.prices a) = true).
  { apply render_rows_ok. rewrite <- Hd. eexists. exact Hc. }
  unfold rows_ok in *. rewrite forallb_forall in *.
  intros r Hr'. apply Hr. eapply Permutation_in; [exact Hp|exact Hr'].
Qed.

Lemma runner_init_returns_ok (nd : runner_change)
  (d : option runner_definition) (r : RunnerBook.t) :
  RunnerBook.init nd d = Some r -> change_ok nd = true.
Proof.
  intros H.
  destruct (runner_init_inv _ _ _ H)
    as (_ & _ & _ & _ & _ & _ & _ & H1 & H2 & H3 & H4 & H5 & H6 & H7 & H8
        & H9).
  unfold change_ok.
  rewrite (init_returns_rows_ok _ _ _ _ H1), (init_returns_rows_ok _ _ _ _ H2),
    (init_returns_rows_ok _ _ _ _ H3), (init_returns_rows_ok _ _ _ _ H4),
    (init_returns_rows_ok _ _ _ _ H5), (init_returns_rows_ok _ _ _ _ H6),
    (init_returns_rows_ok _ _ _ _ H7), (init_returns_rows_ok _ _ _ _ H8),
    (init_returns_rows_ok _ _ _ _ H9).
  reflexivity.
Qed.

Lemma written_rows_ok (ds : Z) (rev : bool) (o : option (list row))
  (a a' : Available.t) :
  (0 < ds)%Z ->
  well_kept ds rev a ->
  (forall rows, o = Some rows -> Available.update a rows = Some a') ->
  rows_ok ds (rows_of o) = true.
Proof.
  intros Hds (_ & Hd & _) Hw. destruct o as [rows|]; [|reflexivity].
  simpl. rewrite <- Hd. apply (update_returns_rows_ok a a').
  - now rewrite Hd.
  - now apply Hw.
Qed.

Lemma apply_runner_change_returns_ok (nd : runner_change)
  (R R' : RunnerBook.t) :
  runner_ladders_ok R ->
  MarketBookCache.apply_runner_change nd R = Some R' ->
  change_ok nd = true.
Proof.
  intros (K1 & K2 & K3 & K4 & K5 & K6 & K7 & K8 & K9) H.
  destruct (apply_runner_change_written _ _ _ H)
    as (_ & _ & _ & _ & W0 & W1 & W2 & W5 & W3 & W6 & W4 & W7 & W8 & W9).
  assert (H1 : rows_ok 1 (rows_of (rc_trd nd)) = true).
  { destruct (rc_trd nd) as [[|row rows]|] eqn:E; try reflexivity.
    assert (Hne : row :: rows <> []) by discriminate.
    destruct K1 as (_ & Hd & _). rewrite <- Hd.
    apply (update_returns_rows_ok _ _ _ ltac:(rewrite Hd; lia)
             (W1 _ eq_refl Hne)). }
  unfold change_ok. rewrite H1.
  rewrite (written_rows_ok 1 _ _ _ _ ltac:(lia) K2 W2),
    (written_rows_ok 2 _ _ _ _ ltac:(lia) K3 W3),
    (written_rows_ok 2 _ _ _ _ ltac:(lia) K4 W4),
    (written_rows_ok 1 _ _ _ _ ltac:(lia) K5 W5),
    (written_rows_ok 2 _ _ _ _ ltac:(lia) K6 W6),
    (written_rows_ok 2 _ _ _ _ ltac:(lia) K7 W7),
    (written_rows_ok 1 _ _ _ _ ltac:(lia) K8 W8),
    (written_rows_ok 1 _ _ _ _ ltac:(lia) K9 W9).
  reflexivity.
Qed.

(** One [if key in new_data] step on a scalar returns and leaves the
    ladders. *)
Lemma when_scalar_step (A : Type)
  (set : option A -> RunnerBook.t -> RunnerBook.t) (o : option A)
  (r : RunnerBook.t) :
  (forall v r, runner_ladders_ok r -> runner_ladders_ok (set v r)) ->
  runner_ladders_ok r ->
  exists r',
    MarketBookCache.when o (fun v r => Some (set (Some v) r)) r = Some r' /\
    runner_ladders_ok r'.
Proof.
  intros Hset Hok. destruct o as [v|]; simpl; eauto.
Qed.

(** One step on a ladder key returns when the rows are well formed. *)
Lemma when_ladder_step (get : RunnerBook.t -> Available.t)
  (set : Available.t -> RunnerBook.t -> RunnerBook.t) (ds : Z) (rev : bool)
  (o : option (list row)) (r : RunnerBook.t) :
  (forall r, runner_ladders_ok r -> well_kept ds rev (get r)) ->
  (forall a r,
      runner_ladders_ok r -> well_kept ds rev a ->
      runner_ladders_ok (set a r)) ->
  runner_ladders_ok r ->
  rows_ok ds (rows_of o) = true ->
  exists r',
    MarketBookCache.when o (MarketBookCache.update_ladder get set) r
    = Some r' /\
    runner_ladders_ok r'.
Proof.
  intros Hget Hset Hok Hrows. destruct o as [rows|]; simpl; [|eauto].
  unfold MarketBookCache.update_ladder.
  pose proof (Hget r Hok) as Hk. destruct Hk as (Hc & Hd & Hrest).
  simpl in Hrows. rewrite <- Hd in Hrows.
  destruct (update_total _ _ Hc Hrows) as [a Ha]. rewrite Ha. simpl.
  eexists. split; [reflexivity|]. apply Hset; [exact Hok|].
  exact (well_kept_update ds rev (get r) a rows
           (conj Hc (conj Hd Hrest)) Ha).
Qed.

Lemma when_traded_step (o : option (list row)) (r : RunnerBook.t) :
  runner_ladders_ok r ->
  rows_ok 1 (rows_of o) = true ->
  exists r',
    MarketBookCache.when o RunnerBook.update_traded r = Some r' /\
    runner_ladders_ok r'.
Proof.
  intros Hok Hrows. destruct o as [[|row rows]|]; simpl; [| |eauto].
  - rewrite clear_spec. simpl. eexists. split; [reflexivity|].
    destruct Hok as (K1 & Hrest). split; [|exact Hrest].
    now apply well_kept_empty.
  - pose proof Hok as (K1 & Hrest). pose proof K1 as (Hc & Hd & Hk).
    simpl in Hrows.
    change (rows_ok 1 (row :: rows) = true) in Hrows. rewrite <- Hd in Hrows.
    destruct (update_total _ _ Hc Hrows) as [a Ha]. rewrite Ha. simpl.
    eexists. split; [reflexivity|]. split; [|exact Hrest].
    exact (well_kept_update _ _ _ _ _ K1 Ha).
Qed.

Ltac ladders_of_setter :=
  let a := fresh "a" in
  let r := fresh "r" in
  let K := fresh "K" in
  let Ha := fresh "Ha" in
  intros a r K Ha; unfold runner_ladders_ok in *; simpl;
  decompose [and] K; clear K;
  repeat match goal with
    | |- _ /\ _ => split
    end; assumption.

Ltac ladder_of_getter :=
  let r := fresh "r" in
  let K := fresh "K" in
  intros r K; unfold runner_ladders_ok in K; tauto.

Lemma apply_runner_change_total (nd : runner_change) (R : RunnerBook.t) :
  runner_ladders_ok R -> change_ok nd = true ->
  exists R', MarketBookCache.apply_runner_change nd R = Some R'.
Proof.
  intros Hok. unfold change_ok. rewrite !andb_true_iff.
  intros ((((((((H1 & H2) & H3) & H4) & H5) & H6) & H7) & H8) & H9).
  unfold MarketBookCache.apply_runner_change.
  destruct (when_scalar_step _ RunnerBook.set_last_price_traded (rc_ltp nd) R
              ltac:(intros v r K; exact K) Hok) as (r1 & -> & Hok1).
  simpl.
  destruct (when_scalar_step _ RunnerBook.set_total_matched (rc_tv nd) r1
              ltac:(intros v r K; exact K) Hok1) as (r2 & -> & Hok2).
  simpl.
  destruct (when_scalar_step _ RunnerBook.set_starting_price_near (rc_spn nd)
              r2 ltac:(intros v r K; exact K) Hok2) as (r3 & -> & Hok3).
  simpl.
  destruct (when_scalar_step _ RunnerBook.set_starting_price_far (rc_spf nd)
              r3 ltac:(intros v r K; exact K) Hok3) as (r4 & -> & Hok4).
  simpl.
  destruct (when_traded_step (rc_trd nd) r4 Hok4 H1) as (r5 & -> & Hok5).
  simpl.
  destruct (when_ladder_step RunnerBook.available_to_back
              RunnerBook.set_available_to_back 1 true (rc_atb nd) r5
              ltac:(ladder_of_getter) ltac:(ladders_of_setter) Hok5 H2)
    as (r6 & -> & Hok6).
  simpl.
  destruct (when_ladder_step RunnerBook.available_to_lay
              RunnerBook.set_available_to_lay 1 false (rc_atl nd) r6
              ltac:(ladder_of_getter) ltac:(ladders_of_setter) Hok6 H5)
    as (r7 & -> & Hok7).
  simpl.
  destruct (when_ladder_step RunnerBook.best_available_to_back
              RunnerBook.set_best_available_to_back 2 false (rc_batb nd) r7
              ltac:(ladder_of_getter) ltac:(ladders_of_setter) Hok7 H3)
    as (r8 & -> & Hok8).
  simpl.
  destruct (when_ladder_step RunnerBook.best_available_to_lay
              RunnerBook.set_best_available_to_lay 2 false (rc_batl nd) r8
              ltac:(ladder_of_getter) ltac:(ladders_of_setter) Hok8 H6)
    as (r9 & -> & Hok9).
  simpl.
  destruct (when_ladder_step RunnerBook.best_display_available_to_back
              RunnerBook.set_best_display_available_to_back 2 false
              (rc_bdatb nd) r9
              ltac:(ladder_of_getter) ltac:(ladders_of_setter) Hok9 H4)
    as (r10 & -> & Hok10).
  simpl.
  destruct (when_ladder_step RunnerBook.best_display_available_to_lay
              RunnerBook.set_best_display_available_to_lay 2 false
              (rc_bdatl nd) r10
              ltac:(ladder_of_getter) ltac:(ladders_of_setter) Hok10 H7)
    as (r11 & -> & Hok11).
  simpl.
  destruct (when_ladder_step RunnerBook.starting_price_back
              RunnerBook.set_starting_price_back 1 false (rc_spb nd) r11
              ltac:(ladder_of_getter) ltac:(ladders_of_setter) Hok11 H8)
    as (r12 & -> & Hok12).
  simpl.
  destruct (when_ladder_step RunnerBook.starting_price_lay
              RunnerBook.set_starting_price_lay 1 false (rc_spl nd) r12
              ltac:(ladder_of_getter) ltac:(ladders_of_setter) Hok12 H9)
    as (r13 & -> & Hok13).
  eauto.
Qed.

Lemma for_each_total (S X : Type) (I : S -> Prop) (P : X -> Prop)
  (body : S -> X -> option S) :
  (forall s x s', I s -> body s x = Some s' -> I s') ->
  (forall s x, I s -> P x -> exists s', body s x = Some s') ->
  forall xs s, I s -> Forall P xs -> exists s', for_each body xs s = Some s'.
Proof.
  intros Hinv Htot. induction xs as [|x xs IH]; simpl; intros s Hs Hxs.
  - eauto.
  - inversion Hxs as [|x' xs' Hx Hxs']. subst.
    destruct (Htot s x Hs Hx) as [s1 E]. rewrite E. simpl.
    apply IH; auto. exact (Hinv _ _ _ Hs E).
Qed.

Lemma for_each_returns_all (S X : Type) (I : S -> Prop) (P : X -> Prop)
  (body : S -> X -> option S) :
  (forall s x s', I s -> body s x = Some s' -> I s' /\ P x) ->
  forall xs s s', I s -> for_each body xs s = Some s' -> Forall P xs.
Proof.
  intros Hinv. induction xs as [|x xs IH]; simpl; intros s s' Hs H.
  - constructor.
  - destruct (body s x) as [s1|] eqn:E; try discriminate. simpl in H.
    destruct (Hinv _ _ _ Hs E) as [Hs1 Hx].
    constructor; auto. exact (IH _ _ Hs1 H).
Qed.

Lemma process_runner_change_ok (m : MarketBookCache.t) (nd : runner_change)
  (m' : MarketBookCache.t) :
  cache_ok m ->
  MarketBookCache.process_runner_change m nd = Some m' ->
  cache_ok m'.
Proof.
  intros [Hi Hl] H. split.
  - exact (process_runner_change_index _ _ _ Hi H).
  - exact (process_runner_change_ladders _ _ _ Hl H).
Qed.

Lemma process_runner_definition_ok (m : MarketBookCache.t)
  (rd : runner_definition) (m' : MarketBookCache.t) :
  cache_ok m ->
  MarketBookCache.process_runner_definition m rd = Some m' ->
  cache_ok m'.
Proof.
  intros [Hi Hl] H. split.
  - exact (process_runner_definition_index _ _ _ Hi H).
  - exact (process_runner_definition_ladders _ _ _ Hl H).
Qed.

Lemma process_runner_change_total (m : MarketBookCache.t)
  (nd : runner_change) :
  cache_ok m -> change_ok nd = true ->
  exists m', MarketBookCache.process_runner_change m nd = Some m'.
Proof.
  intros [[Hi Hk] Hl] Hok.
  destruct (dict_get runner_key_eqb (change_key nd)
              (MarketBookCache.runner_dict m)) as [i|] eqn:Hd.
  - destruct (index_lookup _ _ _ Hi Hd) as (R & Hn & _).
    rewrite (process_runner_change_existing _ _ _ _ Hd Hn).
    rewrite Forall_forall in Hl.
    destruct (apply_runner_change_total nd R (Hl R (nth_error_In _ _ Hn)) Hok)
      as [R' ->].
    simpl. eauto.
  - rewrite (process_runner_change_new _ _ Hd).
    destruct (runner_init_total nd None Hok) as [r ->]. simpl. eauto.
Qed.

Lemma process_runner_change_returns_ok (m m' : MarketBookCache.t)
  (nd : runner_change) :
  cache_ok m ->
  MarketBookCache.process_runner_change m nd = Some m' ->
  change_ok nd = true.
Proof.
  intros [[Hi Hk] Hl] H.
  destruct (dict_get runner_key_eqb (change_key nd)
              (MarketBookCache.runner_dict m)) as [i|] eqn:Hd.
  - destruct (index_lookup _ _ _ Hi Hd) as (R & Hn & _).
    rewrite (process_runner_change_existing _ _ _ _ Hd Hn) in H.
    destruct (MarketBookCache.apply_runner_change nd R) as [R'|] eqn:E;
      try discriminate.
    rewrite Forall_forall in Hl.
    exact (apply_runner_change_returns_ok _ _ _
             (Hl R (nth_error_In _ _ Hn)) E).
  - rewrite (process_runner_change_new _ _ Hd) in H.
    destruct (RunnerBook.init nd None) as [r|] eqn:E; try discriminate.
    exact (runner_init_returns_ok _ _ _ E).
Qed.

Lemma process_runner_definition_total (m : MarketBookCache.t)
  (rd : runner_definition) :
  cache_ok m ->
  exists m', MarketBookCache.process_runner_definition m rd = Some m'.
Proof.
  intros [[Hi Hk] Hl].
  destruct (dict_get runner_key_eqb (definition_key rd)
              (MarketBookCache.runner_dict m)) as [i|] eqn:Hd.
  - destruct (index_lookup _ _ _ Hi Hd) as (R & Hn & _).
    rewrite (process_runner_definition_existing _ _ _ _ Hd Hn). eauto.
  - rewrite (process_runner_definition_new _ _ Hd).
    destruct (runner_init_total
                (MarketBookCache.definition_kwargs (rd_id rd)
                   (hc_or_0 (rd_hc rd)))
                (Some rd) eq_refl) as [r ->].
    simpl. eauto.
Qed.

Lemma market_cache_ok (m : MarketBookCache.t) : market m -> cache_ok m.
Proof.
  intros Hm. split.
  - now apply market_index.
  - now apply market_runner_ladders.
Qed.

(** The market definition part of [update_cache] returns, whatever the
    definition holds. *)
Lemma definitions_total (m : MarketBookCache.t) (mc : market_change) (pt : Z) :
  cache_ok m ->
  exists m1,
    match mc_marketDefinition mc with
    | Some md =>
        MarketBookCache._process_market_definition md
          (MarketBookCache.set_publish_time pt m)
    | None => Some (MarketBookCache.set_publish_time pt m)
    end = Some m1 /\
    cache_ok m1.
Proof.
  intros Hok. destruct (mc_marketDefinition mc) as [md|].
  - unfold MarketBookCache._process_market_definition.
    assert (H0 : cache_ok
                   (MarketBookCache.set_definition md
                      (MarketBookCache.set_publish_time pt m))) by exact Hok.
    destruct (for_each_total _ _ cache_ok (fun _ => True)
                MarketBookCache.process_runner_definition
                process_runner_definition_ok
                (fun s x Hs _ => process_runner_definition_total s x Hs)
                (match md_runners md with Some l => l | None => [] end)
                _ H0) as [m1 E].
    { apply Forall_forall. auto. }
    exists m1. split; [exact E|].
    exact (for_each_invariant _ _ cache_ok _ process_runner_definition_ok
             _ _ _ H0 E).
  - eexists. split; [reflexivity|]. exact Hok.
Qed.

(** X15.  On a market cache, however it was updated, [update_cache]
    returns exactly when every row of every ladder key of every runner
    change has the fields up to the size field of its ladder (two numbers,
    three for the best and best-display ladders); the market definition,
    the scalars and runners not seen before never make it raise.  One row
    that is too short makes the whole call raise. *)
Theorem X15_update_cache_raises_exactly_on_short_rows :
  forall m mc pt,
    market m ->
    (market_change_ok mc = true ->
     exists m', MarketBookCache.update_cache m mc pt = Some m') /\
    (market_change_ok mc = false ->
     MarketBookCache.update_cache m mc pt = None).
Proof.
  intros m mc pt Hm. pose proof (market_cache_ok m Hm) as Hok. split.
  - intros Hmc. unfold MarketBookCache.update_cache.
    destruct (definitions_total m mc pt Hok) as (m1 & -> & Hok1). simpl.
    assert (Hok2 : cache_ok
                     (match mc_tv mc with
                      | Some v => MarketBookCache.set_total_matched (Some v) m1
                      | None => m1
                      end)) by now destruct (mc_tv mc).
    destruct (mc_rc mc) as [rc|] eqn:Erc; [|eauto].
    apply (for_each_total _ _ cache_ok (fun nd => change_ok nd = true)
             MarketBookCache.process_runner_change
             process_runner_change_ok process_runner_change_total rc _ Hok2).
    apply Forall_forall. unfold market_change_ok in Hmc. rewrite Erc in Hmc.
    rewrite forallb_forall in Hmc. exact Hmc.
  - intros Hmc.
    destruct (MarketBookCache.update_cache m mc pt) as [m'|] eqn:E; auto.
    destruct (update_cache_inv _ _ _ _ E) as (m1 & H1 & H2).
    assert (Hok1 : cache_ok m1).
    { refine (for_each_invariant _ _ cache_ok _ process_runner_definition_ok
                _ _ _ _ H1).
      now destruct (mc_marketDefinition mc). }
    assert (Hok2 : cache_ok
                     (match mc_tv mc with
                      | Some v => MarketBookCache.set_total_matched (Some v) m1
                      | None => m1
                      end)) by now destruct (mc_tv mc).
    pose proof (for_each_returns_all _ _ cache_ok
                  (fun nd => change_ok nd = true)
                  MarketBookCache.process_runner_change
                  (fun s x s' Hs Hb =>
                     conj (process_runner_change_ok s x s' Hs Hb)
                       (process_runner_change_returns_ok s s' x Hs Hb))
                  _ _ _ Hok2 H2) as Hall.
    unfold market_change_ok in Hmc.
    rewrite Forall_forall in Hall.
    assert (Ht : forallb change_ok
                   (match mc_rc mc with Some rc => rc | None => [] end)
                 = true).
    { apply forallb_forall. exact Hall. }
    rewrite Ht in Hmc. discriminate.
Qed.

Lemma X15_witness :
  exists m,
    MarketBookCache.update_cache (MarketBookCache.init "1.101" 0)
      two_handicaps 1 = Some m /\
    (exists m',
        MarketBookCache.update_cache m
          (mkMarketChange (Some closing_definition) (Some 12)
             (Some [traded_and_back; no_rows])) 2 = Some m') /\
    MarketBookCache.update_cache m short_row 2 = None.
Proof.
  eexists. split; [vm_compute; reflexivity|].
  match goal with
  | |- (exists m', MarketBookCache.update_cache ?m _ _ = _) /\ _ =>
      assert (Hm : market m)
        by (apply (market_update (MarketBookCache.init "1.101" 0)
                     two_handicaps 1%Z _ (market_init _ _));
            vm_compute; reflexivity);
      split;
      [apply (X15_update_cache_raises_exactly_on_short_rows m
                (mkMarketChange (Some closing_definition) (Some 12)
                   (Some [traded_and_back; no_rows])) 2%Z Hm);
       reflexivity
      |apply (X15_update_cache_raises_exactly_on_short_rows m short_row 2%Z
                Hm);
       reflexivity]
  end.
Defined.

(** * Further properties of the keyed collections *)

Section DictOrder.

Variables (K V : Type) (keqb : K -> K -> bool).
Hypothesis keqb_refl : forall k, keqb k k = true.
Hypothesis keqb_sym : forall a b, keqb a b = keqb b a.
Hypothesis keqb_trans :
  forall a b c, keqb a b = true -> keqb b c = true -> keqb a c = true.

(** [d[k] = v] on a key the mapping has leaves the keys and their order. *)
Lemma dict_set_present (k : K) (v w : V) (d : list (K * V)) :
  dict_get keqb k d = Some w -> map fst (dict_set keqb k v d) = map fst d.
Proof.
  induction d as [|[k0 v0] d IH]; simpl; [discriminate|].
  destruct (keqb k0 k); simpl; intros H; [reflexivity|].
  now rewrite IH.
Qed.

(** [d[k] = v] on a new key puts the entry last. *)
Lemma dict_set_absent (k : K) (v : V) (d : list (K * V)) :
  dict_get keqb k d = None -> dict_set keqb k v d = d ++ [(k, v)].
Proof.
  induction d as [|[k0 v0] d IH]; simpl; [reflexivity|].
  destruct (keqb k0 k); simpl; intros H; [discriminate|].
  now rewrite IH.
Qed.

(** Keys are never removed, and stay where they are. *)
Lemma dict_set_keys (k : K) (v : V) (d : list (K * V)) :
  exists extra, map fst (dict_set keqb k v d) = map fst d ++ extra.
Proof.
  destruct (dict_get keqb k d) as [w|] eqn:E.
  - exists []. rewrite app_nil_r. exact (dict_set_present _ _ _ _ E).
  - exists [k]. rewrite (dict_set_absent _ _ _ E), map_app. reflexivity.
Qed.

Lemma dict_get_In (k : K) (v : V) (d : list (K * V)) :
  dict_get keqb k d = Some v ->
  exists k0, In (k0, v) d /\ keqb k0 k = true.
Proof.
  induction d as [|[k0 v0] d IH]; simpl; [discriminate|].
  destruct (keqb k0 k) eqn:E; intros H.
  - inversion H. subst. exists k0. auto.
  - destruct (IH H) as (k1 & Hin & Hk). exists k1. auto.
Qed.

Lemma dict_get_None_In (k k0 : K) (v : V) (d : list (K * V)) :
  dict_get keqb k d = None -> In (k0, v) d -> keqb k0 k = false.
Proof.
  induction d as [|[k1 v1] d IH]; simpl; [contradiction|].
  destruct (keqb k1 k) eqn:E; intros H [Hin|Hin]; try discriminate.
  - inversion Hin. now subst.
  - now apply IH.
Qed.

(** The entries after [d[k] = v] are those of [d], and [v] under a key
    equal to [k]. *)
Lemma Forall_dict_set (P : K * V -> Prop) (k : K) (v : V) (d : list (K * V)) :
  Forall P d ->
  (forall k', keqb k' k = true -> P (k', v)) ->
  Forall P (dict_set keqb k v d).
Proof.
  intros Hd Hv. induction Hd as [|[k0 v0] d H0 Hd IH]; simpl.
  - constructor; auto.
  - destruct (keqb k0 k) eqn:E; constructor; auto.
Qed.

Lemma In_dict_set (k k0 : K) (v v0 : V) (d : list (K * V)) :
  In (k0, v0) (dict_set keqb k v d) ->
  In (k0, v0) d \/ (keqb k0 k = true /\ v0 = v).
Proof.
  induction d as [|[k1 v1] d IH]; simpl.
  - intros [H|[]]. inversion H. subst. right. auto.
  - destruct (keqb k1 k) eqn:E; simpl; intros [H|H].
    + inversion H. subst. right. auto.
    + auto.
    + auto.
    + destruct (IH H); auto.
Qed.

Lemma forallb_keys_dict_set (Q : K -> bool) (k : K) (v : V)
  (d : list (K * V)) :
  forallb (fun e => Q (fst e)) d = true -> Q k = true ->
  forallb (fun e => Q (fst e)) (dict_set keqb k v d) = true.
Proof.
  intros Hd Hk. induction d as [|[k0 v0] d IH]; simpl in *.
  - now rewrite Hk.
  - apply andb_true_iff in Hd. destruct Hd as [H0 Hd].
    destruct (keqb k0 k); simpl.
    + now rewrite H0, Hd.
    + now rewrite H0, IH.
Qed.

(** [d[k] = v] keeps the keys of the mapping distinct. *)
Lemma dict_set_distinct (k : K) (v : V) (d : list (K * V)) :
  dict_keys_distinct keqb d = true ->
  dict_keys_distinct keqb (dict_set keqb k v d) = true.
Proof.
  unfold dict_keys_distinct.
  induction d as [|[k0 v0] d IH]; simpl; [reflexivity|].
  rewrite andb_true_iff. intros [H0 Hd].
  destruct (keqb k0 k) eqn:E; simpl.
  - now rewrite H0, Hd.
  - rewrite IH by exact Hd. rewrite andb_true_r.
    apply (forallb_keys_dict_set (fun x => negb (keqb k0 x))); auto.
    now rewrite E.
Qed.

End DictOrder.

(** * Further properties of the order cache *)

Section OrderCacheMore.

Context {D : DateOps}.

(** ** Unmatched orders *)

Lemma set_orders_keys (orders : list order_payload)
  (d : list (string * UnmatchedOrder.t)) :
  exists extra,
    map fst (OrderBookRunner.set_orders orders d) = map fst d ++ extra.
Proof.
  induction orders as [|i orders IH] using rev_ind.
  - exists []. now rewrite app_nil_r.
  - rewrite set_orders_snoc. destruct IH as [extra IH].
    destruct (dict_set_keys _ _ String.eqb (op_id i) (UnmatchedOrder.init i)
                (OrderBookRunner.set_orders orders d)) as [extra' H].
    exists (extra ++ extra'). now rewrite H, IH, app_assoc.
Qed.

Lemma set_orders_ok (orders : list order_payload)
  (d : list (string * UnmatchedOrder.t)) :
  Forall (fun kv => UnmatchedOrder.bet_id (snd kv) = fst kv) d ->
  dict_keys_distinct String.eqb d = true ->
  Forall (fun kv => UnmatchedOrder.bet_id (snd kv) = fst kv)
    (OrderBookRunner.set_orders orders d) /\
  dict_keys_distinct String.eqb (OrderBookRunner.set_orders orders d) = true.
Proof.
  intros Hd Hk. induction orders as [|i orders IH] using rev_ind.
  - auto.
  - rewrite set_orders_snoc. destruct IH as [IH1 IH2]. split.
    + apply (Forall_dict_set _ _ String.eqb String.eqb_refl); [exact IH1|].
      intros k' Hk'. apply String.eqb_eq in Hk'. now subst.
    + now apply dict_set_distinct.
Qed.

(** X16.  [update_unmatched] stores every order of the update under its
    bet id: afterwards an id reads the order built from the last payload
    of the update that has it, and an id the update does not name reads
    what it read before.  No order is ever removed, whatever its status,
    and the orders the runner held keep their places; new ids follow
    them.  The other fields of the runner are not touched. *)
Theorem X16_update_unmatched_stores_by_bet_id :
  forall orders r,
    (forall b,
        dict_get String.eqb b
          (OrderBookRunner.unmatched_orders
             (OrderBookRunner.update_unmatched orders r))
        = match find (fun i => String.eqb (op_id i) b) (rev orders) with
          | Some i => Some (UnmatchedOrder.init i)
          | None =>
              dict_get String.eqb b (OrderBookRunner.unmatched_orders r)
          end) /\
    (exists extra,
        map fst
          (OrderBookRunner.unmatched_orders
             (OrderBookRunner.update_unmatched orders r))
        = map fst (OrderBookRunner.unmatched_orders r) ++ extra) /\
    OrderBookRunner.matched_lays (OrderBookRunner.update_unmatched orders r)
    = OrderBookRunner.matched_lays r /\
    OrderBookRunner.matched_backs (OrderBookRunner.update_unmatched orders r)
    = OrderBookRunner.matched_backs r /\
    OrderBookRunner.selection_id (OrderBookRunner.update_unmatched orders r)
    = OrderBookRunner.selection_id r /\
    OrderBookRunner.handicap (OrderBookRunner.update_unmatched orders r)
    = OrderBookRunner.handicap r.
Proof.
  intros orders r. split; [|split].
  - intros b. apply set_orders_lookup.
  - apply set_orders_keys.
  - repeat split.
Qed.

(** ** A change without [fullImage] on a runner the cache holds *)

Lemma process_order_change_replace (c : OrderBookCache.t)
  (oc : order_change) :
  OrderBookCache.replaces (oc_fullImage oc)
    (dict_get runner_key_eqb (order_key oc) (OrderBookCache.runners c))
  = true ->
  OrderBookCache.process_order_change c oc
  = r <- OrderBookRunner.init oc ;;
    Some (OrderBookCache.set_runners
            (dict_set runner_key_eqb (order_key oc) r
               (OrderBookCache.runners c)) c).
Proof.
  intros H. unfold OrderBookCache.process_order_change.
  unfold order_key in H. now rewrite H.
Qed.

Lemma process_order_change_merge (c : OrderBookCache.t) (oc : order_change)
  (runner : OrderBookRunner.t) :
  oc_fullImage oc <> Some true ->
  dict_get runner_key_eqb (order_key oc) (OrderBookCache.runners c)
  = Some runner ->
  OrderBookCache.process_order_change c oc
  = r <- OrderBookCache.apply_order_change oc runner ;;
    Some (OrderBookCache.set_runners
            (dict_set runner_key_eqb (order_key oc) r
               (OrderBookCache.runners c)) c).
Proof.
  intros Hf Hd. unfold OrderBookCache.process_order_change.
  unfold order_key in Hd. rewrite Hd.
  destruct (oc_fullImage oc) as [[|]|]; try reflexivity. congruence.
Qed.

Lemma replaces_or_merges (c : OrderBookCache.t) (oc : order_change) :
  OrderBookCache.replaces (oc_fullImage oc)
    (dict_get runner_key_eqb (order_key oc) (OrderBookCache.runners c))
  = true \/
  (oc_fullImage oc <> Some true /\
   exists runner,
     dict_get runner_key_eqb (order_key oc) (OrderBookCache.runners c)
     = Some runner).
Proof.
  destruct (dict_get runner_key_eqb (order_key oc) (OrderBookCache.runners c))
    as [runner|].
  - destruct (oc_fullImage oc) as [[|]|]; simpl; auto;
      right; split; try discriminate; eauto.
  - left. now destruct (oc_fullImage oc) as [[|]|].
Qed.

Lemma apply_order_change_merged (oc : order_change)
  (r r' : OrderBookRunner.t) :
  OrderBookCache.apply_order_change oc r = Some r' ->
  order_runner_merged oc r r'.
Proof.
  unfold OrderBookCache.apply_order_change, order_runner_merged.
  destruct (oc_ml oc) as [ml|]; simpl.
  - destruct (Available.update (OrderBookRunner.matched_lays r) ml)
      as [a|] eqn:Ea; try discriminate. simpl.
    destruct (oc_mb oc) as [mb|]; simpl.
    + destruct (Available.update (OrderBookRunner.matched_backs r) mb)
        as [a'|] eqn:Ea'; try discriminate. simpl.
      intros H. inversion H. now destruct (oc_uo oc).
    + intros H. inversion H. now destruct (oc_uo oc).
  - destruct (oc_mb oc) as [mb|]; simpl.
    + destruct (Available.update (OrderBookRunner.matched_backs r) mb)
        as [a'|] eqn:Ea'; try discriminate. simpl.
      intros H. inversion H. now destruct (oc_uo oc).
    + intros H. inversion H. now destruct (oc_uo oc).
Qed.

(** X17.  An order runner change without [fullImage] (absent or false) on
    a key the cache holds updates the runner in place: the rows of ["ml"]
    and ["mb"] are merged into the matched ladders with [update], the
    orders of ["uo"] are stored by [update_unmatched], and a part the
    change omits is left as it is.  The selection id, the handicap, the
    [full_image] marker and the strategy matches of the runner stay as
    they are: ["smc"] of such a change is not read.  The keys of the cache
    and their order stay, and the other runners are not touched. *)
Theorem X17_partial_order_change_merges_in_place :
  forall c oc c' runner,
    oc_fullImage oc <> Some true ->
    dict_get runner_key_eqb (order_key oc) (OrderBookCache.runners c)
    = Some runner ->
    OrderBookCache.process_order_change c oc = Some c' ->
    exists r',
      dict_get runner_key_eqb (order_key oc) (OrderBookCache.runners c')
      = Some r' /\
      order_runner_merged oc runner r' /\
      map fst (OrderBookCache.runners c') = map fst (OrderBookCache.runners c)
      /\
      (forall k,
          runner_key_eqb (order_key oc) k = false ->
          dict_get runner_key_eqb k (OrderBookCache.runners c')
          = dict_get runner_key_eqb k (OrderBookCache.runners c)).
Proof.
  intros c oc c' runner Hf Hd H.
  rewrite (process_order_change_merge _ _ _ Hf Hd) in H.
  destruct (OrderBookCache.apply_order_change oc runner) as [r'|] eqn:E;
    try discriminate.
  simpl in H. inversion H. simpl. exists r'. split; [|split; [|split]].
  - exact (dict_get_set_same _ _ runner_key_eqb runner_key_eqb_refl
             runner_key_eqb_sym runner_key_eqb_trans _ _ _).
  - exact (apply_order_change_merged _ _ _ E).
  - exact (dict_set_present _ _ runner_key_eqb _ _ _ _ Hd).
  - intros k Hk.
    exact (dict_get_set_other _ _ runner_key_eqb runner_key_eqb_sym
             runner_key_eqb_trans _ _ _ _ Hk).
Qed.

End OrderCacheMore.

Lemma X17_witness :
  exists c1 c2 runner r',
    @OrderBookCache.update_cache epoch_dates empty_order_cache
      (mkOrderBook None (Some [opening_image])) 1 = Some c1 /\
    dict_get runner_key_eqb (order_key later_change)
      (@OrderBookCache.runners epoch_dates c1) = Some runner /\
    @OrderBookCache.process_order_change epoch_dates c1 later_change
    = Some c2 /\
    dict_get runner_key_eqb (order_key later_change)
      (@OrderBookCache.runners epoch_dates c2) = Some r' /\
    @order_runner_merged epoch_dates later_change runner r' /\
    Available.serialise (@OrderBookRunner.matched_lays epoch_dates r')
    = [PriceSize 3 1] /\
    @OrderBookRunner.strategy_matches epoch_dates r' = None.
Proof.
  eexists. eexists. eexists.
  match goal with
  | |- exists r', ?A /\ ?B /\ ?C /\ _ =>
      assert (HA : A) by (vm_compute; reflexivity);
      assert (HB : B) by (vm_compute; reflexivity);
      assert (HC : C) by (vm_compute; reflexivity)
  end.
  assert (Hf : oc_fullImage later_change <> Some true) by discriminate.
  destruct (@X17_partial_order_change_merges_in_place epoch_dates _
              later_change _ _ Hf HB HC) as (r' & Hget & Hm & _).
  exists r'. split; [exact HA|]. split; [exact HB|]. split; [exact HC|].
  split; [exact Hget|]. split; [exact Hm|].
  vm_compute in Hget. inversion Hget. split; reflexivity.
Defined.

Section OrderCacheInvariant.

Context {D : DateOps}.

(** ** The state the order cache is kept in *)

Lemma order_runner_init_inv (oc : order_change) (r : OrderBookRunner.t) :
  OrderBookRunner.init oc = Some r ->
  OrderBookRunner.selection_id r = oc_id oc /\
  OrderBookRunner.handicap r = hc_or_0 (oc_hc oc) /\
  Available.init (oc_ml oc) 1 false = Some (OrderBookRunner.matched_lays r) /\
  Available.init (oc_mb oc) 1 false = Some (OrderBookRunner.matched_backs r) /\
  OrderBookRunner.unmatched_orders r
  = OrderBookRunner.set_orders
      (match oc_uo oc with Some uo => uo | None => [] end) [].
Proof.
  unfold OrderBookRunner.init.
  destruct (Available.init (oc_ml oc) 1 false) as [ml|]; try discriminate.
  destruct (Available.init (oc_mb oc) 1 false) as [mb|]; try discriminate.
  simpl. intros H. inversion H. simpl. repeat split.
  now destruct (oc_uo oc).
Qed.

Lemma order_runner_init_ok (oc : order_change) (r : OrderBookRunner.t)
  (k : runner_key) :
  OrderBookRunner.init oc = Some r ->
  runner_key_eqb k (order_key oc) = true ->
  order_runner_ok (k, r).
Proof.
  intros H Hk.
  destruct (order_runner_init_inv _ _ H) as (Hs & Hh & Hml & Hmb & Huo).
  unfold order_runner_ok. simpl. rewrite Hs, Hh, Huo.
  split; [exact Hk|].
  split; [exact (well_kept_init _ _ _ _ Hml)|].
  split; [exact (well_kept_init _ _ _ _ Hmb)|].
  apply set_orders_ok; [constructor|reflexivity].
Qed.

Lemma order_runner_merged_ok (oc : order_change) (r r' : OrderBookRunner.t)
  (k : runner_key) :
  order_runner_ok (k, r) -> order_runner_merged oc r r' ->
  order_runner_ok (k, r').
Proof.
  intros (Hk & Hml & Hmb & Hb & Hd) (Es & Eh & _ & _ & Eml & Emb & Euo).
  unfold order_runner_ok. simpl in *. rewrite Es, Eh, Euo.
  split; [exact Hk|]. split; [|split].
  - destruct (oc_ml oc) as [ml|].
    + exact (well_kept_update _ _ _ _ _ Hml Eml).
    + now rewrite Eml.
  - destruct (oc_mb oc) as [mb|].
    + exact (well_kept_update _ _ _ _ _ Hmb Emb).
    + now rewrite Emb.
  - destruct (oc_uo oc) as [uo|]; [|auto]. now apply set_orders_ok.
Qed.

(** The runner a key reads is stored under a key equal to it, and is well
    kept. *)
Lemma order_lookup_ok (c : OrderBookCache.t) (k : runner_key)
  (runner : OrderBookRunner.t) :
  order_cache_ok c ->
  dict_get runner_key_eqb k (OrderBookCache.runners c) = Some runner ->
  forall k', runner_key_eqb k' k = true -> order_runner_ok (k', runner).
Proof.
  intros [_ Hall] Hd k' Hk'.
  destruct (dict_get_In _ _ runner_key_eqb _ _ _ Hd) as (k0 & Hin & Hk0).
  rewrite Forall_forall in Hall. specialize (Hall _ Hin).
  destruct Hall as (Hkey & Hrest). split; [|exact Hrest]. simpl in *.
  apply (runner_key_eqb_trans _ k); [exact Hk'|].
  apply (runner_key_eqb_trans _ k0); [|exact Hkey].
  now rewrite runner_key_eqb_sym.
Qed.

Lemma process_order_change_ok (c : OrderBookCache.t) (oc : order_change)
  (c' : OrderBookCache.t) :
  order_cache_ok c ->
  OrderBookCache.process_order_change c oc = Some c' ->
  order_cache_ok c'.
Proof.
  intros Hok H. pose proof Hok as [Hk Hall].
  destruct (replaces_or_merges c oc) as [Hr|(Hf & runner & Hd)].
  - rewrite (process_order_change_replace _ _ Hr) in H.
    destruct (OrderBookRunner.init oc) as [r|] eqn:E; try discriminate.
    simpl in H. inversion H. split; simpl.
    + now apply dict_set_distinct.
    + apply (Forall_dict_set _ _ runner_key_eqb runner_key_eqb_refl);
        [exact Hall|].
      intros k' Hk'. exact (order_runner_init_ok _ _ _ E Hk').
  - rewrite (process_order_change_merge _ _ _ Hf Hd) in H.
    destruct (OrderBookCache.apply_order_change oc runner) as [r'|] eqn:E;
      try discriminate.
    simpl in H. inversion H. split; simpl.
    + now apply dict_set_distinct.
    + apply (Forall_dict_set _ _ runner_key_eqb runner_key_eqb_refl);
        [exact Hall|].
      intros k' Hk'.
      apply (order_runner_merged_ok oc runner r').
      * exact (order_lookup_ok _ _ _ Hok Hd k' Hk').
      * exact (apply_order_change_merged _ _ _ E).
Qed.

Lemma process_order_change_keys (c : OrderBookCache.t) (oc : order_change)
  (c' : OrderBookCache.t) :
  OrderBookCache.process_order_change c oc = Some c' ->
  exists extra,
    map fst (OrderBookCache.runners c')
    = map fst (OrderBookCache.runners c) ++ extra.
Proof.
  intros H.
  destruct (replaces_or_merges c oc) as [Hr|(Hf & runner & Hd)].
  - rewrite (process_order_change_replace _ _ Hr) in H.
    destruct (OrderBookRunner.init oc) as [r|] eqn:E; try discriminate.
    simpl in H. inversion H. simpl. apply dict_set_keys.
  - rewrite (process_order_change_merge _ _ _ Hf Hd) in H.
    destruct (OrderBookCache.apply_order_change oc runner) as [r'|] eqn:E;
      try discriminate.
    simpl in H. inversion H. simpl. apply dict_set_keys.
Qed.

Lemma update_cache_orders_inv (c : OrderBookCache.t) (ob : order_book)
  (pt : Z) (c' : OrderBookCache.t) :
  OrderBookCache.update_cache c ob pt = Some c' ->
  exists c0,
    OrderBookCache.runners c0 = OrderBookCache.runners c /\
    for_each OrderBookCache.process_order_change
      (match ob_orc ob with Some l => l | None => [] end) c0 = Some c'.
Proof.
  unfold OrderBookCache.update_cache. intros H. eexists. split; [|exact H].
  reflexivity.
Qed.

Lemma order_cache_is_ok (c : OrderBookCache.t) :
  order_cache c -> order_cache_ok c.
Proof.
  intros H. induction H as [c Hc|c ob pt c' Hc IH Hu].
  - unfold order_cache_ok. rewrite Hc. split; [reflexivity|constructor].
  - destruct (update_cache_orders_inv _ _ _ _ Hu) as (c0 & E0 & Hf).
    refine (for_each_invariant _ _ order_cache_ok _ process_order_change_ok
              _ _ _ _ Hf).
    unfold order_cache_ok. now rewrite E0.
Qed.

(** X18.  The order cache, however it was updated, holds every runner
    under the key of its own selection id and handicap, and no two runners
    under one key; the matched ladders of every runner are rendered and
    sorted ascending with the size at position 1; every unmatched order is
    stored under its own bet id, once.  [update_cache] never removes a
    runner: the keys it held stay in their order, new keys follow. *)
Theorem X18_order_cache_is_keyed_by_selection_and_handicap :
  (forall c, order_cache c -> order_cache_ok c) /\
  (forall c ob pt c',
      OrderBookCache.update_cache c ob pt = Some c' ->
      exists extra,
        map fst (OrderBookCache.runners c')
        = map fst (OrderBookCache.runners c) ++ extra).
Proof.
  split; [exact order_cache_is_ok|].
  intros c ob pt c' Hu.
  destruct (update_cache_orders_inv _ _ _ _ Hu) as (c0 & E0 & Hf).
  rewrite <- E0.
  refine (for_each_rel _ _
            (fun s s' =>
               exists extra,
                 map fst (OrderBookCache.runners s')
                 = map fst (OrderBookCache.runners s) ++ extra)
            OrderBookCache.process_order_change _ _ _ _ _ _ Hf).
  - intros s. exists []. now rewrite app_nil_r.
  - intros s1 s2 s3 [e1 H1] [e2 H2]. exists (e1 ++ e2).
    now rewrite H2, H1, app_assoc.
  - intros s x s'. apply process_order_change_keys.
Qed.

(** ** Order books that make [update_cache] raise *)

Lemma order_runner_init_total (oc : order_change) :
  order_change_ok oc = true -> exists r, OrderBookRunner.init oc = Some r.
Proof.
  unfold order_change_ok. rewrite andb_true_iff. intros [Hml Hmb].
  unfold OrderBookRunner.init.
  destruct (init_total (oc_ml oc) 1 false Hml) as [ml ->].
  destruct (init_total (oc_mb oc) 1 false Hmb) as [mb ->].
  simpl. eauto.
Qed.

Lemma order_runner_init_returns_ok (oc : order_change)
  (r : OrderBookRunner.t) :
  OrderBookRunner.init oc = Some r -> order_change_ok oc = true.
Proof.
  intros H.
  destruct (order_runner_init_inv _ _ H) as (_ & _ & Hml & Hmb & _).
  unfold order_change_ok.
  now rewrite (init_returns_rows_ok _ _ _ _ Hml),
    (init_returns_rows_ok _ _ _ _ Hmb).
Qed.

Lemma apply_order_change_total (oc : order_change) (k : runner_key)
  (r : OrderBookRunner.t) :
  order_runner_ok (k, r) -> order_change_ok oc = true ->
  exists r', OrderBookCache.apply_order_change oc r = Some r'.
Proof.
  intros (_ & Hml & Hmb & _). unfold order_change_ok.
  rewrite andb_true_iff. intros [Rml Rmb]. simpl in *.
  unfold OrderBookCache.apply_order_change.
  destruct Hml as (Hc1 & Hd1 & _). destruct Hmb as (Hc2 & Hd2 & _).
  destruct (oc_ml oc) as [ml|]; simpl in *.
  - rewrite <- Hd1 in Rml. destruct (update_total _ _ Hc1 Rml) as [a ->].
    simpl. destruct (oc_mb oc) as [mb|]; simpl in *; [|eauto].
    rewrite <- Hd2 in Rmb. destruct (update_total _ _ Hc2 Rmb) as [a' ->].
    simpl. eauto.
  - destruct (oc_mb oc) as [mb|]; simpl in *; [|eauto].
    rewrite <- Hd2 in Rmb. destruct (update_total _ _ Hc2 Rmb) as [a' ->].
    simpl. eauto.
Qed.

Lemma apply_order_change_returns_ok (oc : order_change) (k : runner_key)
  (r r' : OrderBookRunner.t) :
  order_runner_ok (k, r) ->
  OrderBookCache.apply_order_change oc r = Some r' ->
  order_change_ok oc = true.
Proof.
  intros (_ & Hml & Hmb & _) H. simpl in *.
  destruct (apply_order_change_merged _ _ _ H)
    as (_ & _ & _ & _ & Eml & Emb & _).
  unfold order_change_ok.
  rewrite (written_rows_ok 1 false (oc_ml oc)
             (OrderBookRunner.matched_lays r)
             (OrderBookRunner.matched_lays r') ltac:(lia) Hml),
    (written_rows_ok 1 false (oc_mb oc)
       (OrderBookRunner.matched_backs r)
       (OrderBookRunner.matched_backs r') ltac:(lia) Hmb).
  - reflexivity.
  - intros rows E. rewrite E in Emb. exact Emb.
  - intros rows E. rewrite E in Eml. exact Eml.
Qed.

Lemma process_order_change_total (c : OrderBookCache.t) (oc : order_change) :
  order_cache_ok c -> order_change_ok oc = true ->
  exists c', OrderBookCache.process_order_change c oc = Some c'.
Proof.
  intros Hok Hoc.
  destruct (replaces_or_merges c oc) as [Hr|(Hf & runner & Hd)].
  - rewrite (process_order_change_replace _ _ Hr).
    destruct (order_runner_init_total oc Hoc) as [r ->]. simpl. eauto.
  - rewrite (process_order_change_merge _ _ _ Hf Hd).
    pose proof (order_lookup_ok _ _ _ Hok Hd (order_key oc)
                  (runner_key_eqb_refl _)) as Hrun.
    destruct (apply_order_change_total oc _ runner Hrun Hoc) as [r' ->].
    simpl. eauto.
Qed.

Lemma process_order_change_returns_ok (c : OrderBookCache.t)
  (oc : order_change) (c' : OrderBookCache.t) :
  order_cache_ok c ->
  OrderBookCache.process_order_change c oc = Some c' ->
  order_change_ok oc = true.
Proof.
  intros Hok H.
  destruct (replaces_or_merges c oc) as [Hr|(Hf & runner & Hd)].
  - rewrite (process_order_change_replace _ _ Hr) in H.
    destruct (OrderBookRunner.init oc) as [r|] eqn:E; try discriminate.
    exact (order_runner_init_returns_ok _ _ E).
  - rewrite (process_order_change_merge _ _ _ Hf Hd) in H.
    destruct (OrderBookCache.apply_order_change oc runner) as [r'|] eqn:E;
      try discriminate.
    pose proof (order_lookup_ok _ _ _ Hok Hd (order_key oc)
                  (runner_key_eqb_refl _)) as Hrun.
    exact (apply_order_change_returns_ok _ _ _ _ Hrun E).
Qed.

(** X19.  On an order cache, however it was updated, [update_cache]
    returns exactly when every row of every ["ml"] and ["mb"] of the order
    book has a price and a size.  One row that is too short makes the
    whole call raise; unmatched orders, strategy matches and the [closed]
    flag never do. *)
Theorem X19_order_update_raises_exactly_on_short_rows :
  forall c ob pt,
    order_cache c ->
    (order_book_ok ob = true ->
     exists c', OrderBookCache.update_cache c ob pt = Some c') /\
    (order_book_ok ob = false ->
     OrderBookCache.update_cache c ob pt = None).
Proof.
  intros c ob pt Hc. pose proof (order_cache_is_ok c Hc) as Hok. split.
  - intros Hob. unfold OrderBookCache.update_cache.
    apply (for_each_total _ _ order_cache_ok
             (fun oc => order_change_ok oc = true)
             OrderBookCache.process_order_change
             process_order_change_ok process_order_change_total).
    + exact Hok.
    + apply Forall_forall. unfold order_book_ok in Hob.
      rewrite forallb_forall in Hob. exact Hob.
  - intros Hob.
    destruct (OrderBookCache.update_cache c ob pt) as [c'|] eqn:E; auto.
    destruct (update_cache_orders_inv _ _ _ _ E) as (c0 & E0 & Hf).
    assert (Hok0 : order_cache_ok c0).
    { unfold order_cache_ok. now rewrite E0. }
    pose proof (for_each_returns_all _ _ order_cache_ok
                  (fun oc => order_change_ok oc = true)
                  OrderBookCache.process_order_change
                  (fun s x s' Hs Hb =>
                     conj (process_order_change_ok s x s' Hs Hb)
                       (process_order_change_returns_ok s x s' Hs Hb))
                  _ _ _ Hok0 Hf) as Hall.
    rewrite Forall_forall in Hall.
    assert (Ht : order_book_ok ob = true).
    { apply forallb_forall. exact Hall. }
    rewrite Ht in Hob. discriminate.
Qed.

End OrderCacheInvariant.

Lemma X18_witness :
  exists c1,
    @OrderBookCache.update_cache epoch_dates empty_order_cache
      (mkOrderBook None (Some [opening_image; later_change])) 1 = Some c1 /\
    @order_cache_ok epoch_dates c1 /\
    exists extra,
      map fst (@OrderBookCache.runners epoch_dates c1)
      = map fst (@OrderBookCache.runners epoch_dates empty_order_cache)
        ++ extra.
Proof.
  destruct (@X18_order_cache_is_keyed_by_selection_and_handicap epoch_dates)
    as [Hok Hkeys].
  eexists.
  match goal with
  | |- ?A /\ _ => assert (HA : A) by (vm_compute; reflexivity)
  end.
  split; [exact HA|]. split.
  - apply Hok.
    exact (order_cache_update _ _ _ _
             (order_cache_init empty_order_cache eq_refl) HA).
  - exact (Hkeys _ _ _ _ HA).
Defined.

Lemma X19_witness :
  (exists c',
      @OrderBookCache.update_cache epoch_dates empty_order_cache
        (mkOrderBook None (Some [opening_image; later_change])) 1
      = Some c') /\
  @OrderBookCache.update_cache epoch_dates empty_order_cache
    short_order_book 1 = None.
Proof.
  split.
  - apply (@X19_order_update_raises_exactly_on_short_rows epoch_dates
             empty_order_cache
             (mkOrderBook None (Some [opening_image; later_change])) 1%Z
             (order_cache_init empty_order_cache eq_refl)).
    reflexivity.
  - apply (@X19_order_update_raises_exactly_on_short_rows epoch_dates
             empty_order_cache short_order_book 1%Z
             (order_cache_init empty_order_cache eq_refl)).
    reflexivity.
Defined.

(** * Further properties of the race cache *)

Lemma value_eqb_refl (v : value) : value_eqb v v = true.
Proof.
  destruct v as [q|s|[|]]; unfold value_eqb; cbn [as_number];
    first [apply Qeqb_refl | apply String.eqb_refl].
Qed.

Section RaceCacheMore.

Context {D : DateOps}.

Lemma build_runner_dict_returns (l : list RunnerChange.t) (i : nat)
  (d d' : list (value * nat)) :
  RaceCache.build_runner_dict i l d = Some d' ->
  forallb has_race_id l = true.
Proof.
  revert i d. induction l as [|e l IH]; simpl; intros i d H; auto.
  unfold has_race_id at 1.
  destruct (pydict_get "id" (RunnerChange.change e)); try discriminate.
  simpl in *. exact (IH _ _ H).
Qed.

(** What an id reads in the lookup is the position of an entry with that
    id. *)
Lemma build_runner_dict_sound (id : value) (l : list RunnerChange.t) (i : nat)
  (d d' : list (value * nat)) (j : nat) :
  RaceCache.build_runner_dict i l d = Some d' ->
  dict_get value_eqb id d' = Some j ->
  dict_get value_eqb id d = Some j \/
  exists e, (i <= j)%nat /\ nth_error l (j - i) = Some e /\
            id_matches id e = true.
Proof.
  revert i d. induction l as [|e l IH]; simpl; intros i d H Hj.
  - inversion H. subst. auto.
  - destruct (pydict_get "id" (RunnerChange.change e)) as [ide|] eqn:Eide;
      try discriminate.
    simpl in H. destruct (IH _ _ H Hj) as [Hd|(e' & Hle & Hn & Hm)].
    + destruct (value_eqb ide id) eqn:E.
      * rewrite (dict_get_set_eq _ _ value_eqb value_eqb_sym value_eqb_trans
                   _ _ _ _ E) in Hd.
        inversion Hd. subst. right. exists e.
        rewrite Nat.sub_diag. simpl. repeat split; auto.
        unfold id_matches. now rewrite Eide.
      * rewrite (dict_get_set_other _ _ value_eqb value_eqb_sym
                   value_eqb_trans _ _ _ _ E) in Hd.
        auto.
    + right. exists e'. split; [lia|]. split; auto.
      replace (j - i)%nat with (S (j - S i)) by lia. exact Hn.
Qed.

Lemma race_update_inv (c : RaceCache.t) (u : race_update) (pt : Z)
  (c' : RaceCache.t) :
  RaceCache.update_cache c u pt = Some c' ->
  RaceCache.rpc c'
  = match ru_rpc u with Some p => Some p | None => RaceCache.rpc c end /\
  RaceCache.publish_time c' = Some pt /\
  RaceCache.streaming_update c' = Some u /\
  RaceCache.market_id c' = RaceCache.market_id c /\
  RaceCache.race_id c' = RaceCache.race_id c /\
  match ru_rrc u with
  | Some updates =>
      exists d,
        RaceCache.build_runner_dict 0 (RaceCache.rrc c) [] = Some d /\
        for_each (RaceCache.process_runner_update d) updates (RaceCache.rrc c)
        = Some (RaceCache.rrc c')
  | None => RaceCache.rrc c' = RaceCache.rrc c
  end.
Proof.
  unfold RaceCache.update_cache. destruct (ru_rrc u) as [updates|]; simpl.
  - destruct (RaceCache.build_runner_dict 0 (RaceCache.rrc c) [])
      as [d|]; try discriminate.
    simpl.
    destruct (for_each (RaceCache.process_runner_update d) updates
                (RaceCache.rrc c)) as [l|] eqn:E; try discriminate.
    simpl. intros H. inversion H. simpl.
    repeat (split; [reflexivity|]). exists d. split; [reflexivity|exact E].
  - intros H. inversion H. simpl. repeat split.
Qed.

(** One payload of the update, applied with the lookup built from the
    entries [l0] the cache held before the update. *)
Lemma process_runner_update_keeps (u : race_update)
  (l0 l l' : list RunnerChange.t) (d : list (value * nat)) (upd : pydict) :
  RaceCache.build_runner_dict 0 l0 [] = Some d ->
  In upd (match ru_rrc u with Some l => l | None => [] end) ->
  (forall i e,
      nth_error l0 i = Some e ->
      exists e', nth_error l i = Some e' /\ kept_or_replaced u e e') ->
  RaceCache.process_runner_update d l upd = Some l' ->
  forall i e,
    nth_error l0 i = Some e ->
    exists e', nth_error l' i = Some e' /\ kept_or_replaced u e e'.
Proof.
  intros Hd Hin Hinv H i e Hn.
  unfold RaceCache.process_runner_update in H.
  destruct (pydict_get "id" upd) as [idv|] eqn:Eid; try discriminate.
  simpl in H. destruct (Hinv i e Hn) as (e' & Hn' & Hk).
  destruct (dict_get value_eqb idv d) as [j|] eqn:Ej; inversion H; subst l'.
  - destruct (build_runner_dict_sound idv l0 0 [] d j Hd Ej)
      as [Hnil|(e0 & _ & Hn0 & Hm)]; [discriminate|].
    rewrite Nat.sub_0_r in Hn0.
    destruct (Nat.eq_dec j i) as [->|Hne].
    + exists (RunnerChange.mk upd). split.
      * exact (nth_error_list_set _ _ _ _ _ Hn').
      * right. exists upd, idv. repeat split; auto. congruence.
    + exists e'. split; auto.
      now rewrite (nth_error_list_set_other _ _ _ _ _ Hne).
  - exists e'. split; auto. rewrite nth_error_app1; auto.
    apply nth_error_Some. congruence.
Qed.

Lemma process_runner_update_total (d : list (value * nat))
  (l : list RunnerChange.t) (upd : pydict) :
  has_id_key upd = true ->
  exists l', RaceCache.process_runner_update d l upd = Some l'.
Proof.
  unfold has_id_key, RaceCache.process_runner_update.
  destruct (pydict_get "id" upd); try discriminate. intros _. simpl.
  destruct (dict_get value_eqb v d); eauto.
Qed.

Lemma process_runner_update_returns (d : list (value * nat))
  (l l' : list RunnerChange.t) (upd : pydict) :
  RaceCache.process_runner_update d l upd = Some l' ->
  has_id_key upd = true.
Proof.
  unfold has_id_key, RaceCache.process_runner_update.
  now destruct (pydict_get "id" upd).
Qed.

(** X20.  A race update leaves every entry of the cache at its position:
    the entry stays as it is, or a payload of the update with the id of
    that entry has taken its place; the entries are never fewer
    afterwards.  ["rpc"] is replaced when the update carries it and kept
    otherwise.  The update raises exactly when it carries ["rrc"] and an
    entry of the cache or a payload of ["rrc"] has no ["id"]; so an entry
    without id makes every later update with ["rrc"] raise, also one
    without payloads. *)
Theorem X20_race_update_keeps_entries_in_place :
  (forall c u pt c',
      RaceCache.update_cache c u pt = Some c' ->
      (forall i e,
          nth_error (RaceCache.rrc c) i = Some e ->
          exists e',
            nth_error (RaceCache.rrc c') i = Some e' /\
            kept_or_replaced u e e') /\
      (List.length (RaceCache.rrc c) <= List.length (RaceCache.rrc c'))%nat /\
      RaceCache.rpc c'
      = match ru_rpc u with Some p => Some p | None => RaceCache.rpc c end) /\
  (forall c u pt,
      race_update_ok (RaceCache.rrc c) u = true ->
      exists c', RaceCache.update_cache c u pt = Some c') /\
  (forall c u pt,
      race_update_ok (RaceCache.rrc c) u = false ->
      RaceCache.update_cache c u pt = None).
Proof.
  assert (Hkeep : forall c u pt c',
             RaceCache.update_cache c u pt = Some c' ->
             forall i e,
               nth_error (RaceCache.rrc c) i = Some e ->
               exists e',
                 nth_error (RaceCache.rrc c') i = Some e' /\
                 kept_or_replaced u e e').
  { intros c u pt c' H.
    destruct (race_update_inv _ _ _ _ H) as (_ & _ & _ & _ & _ & Hr).
    destruct (ru_rrc u) as [updates|] eqn:Eu.
    - destruct Hr as (d & Hd & Hf).
      refine (for_each_invariant_In _ _
                (fun l =>
                   forall i e,
                     nth_error (RaceCache.rrc c) i = Some e ->
                     exists e',
                       nth_error l i = Some e' /\ kept_or_replaced u e e')
                (RaceCache.process_runner_update d) updates _ _ _ _ Hf).
      + intros l upd l' Hin Hinv Hb.
        apply (process_runner_update_keeps u (RaceCache.rrc c) l l' d upd);
          auto.
        now rewrite Eu.
      + intros i e Hn. exists e. split; auto. now left.
    - rewrite Hr. intros i e Hn. exists e. split; auto. now left. }
  split; [|split].
  - intros c u pt c' H. split; [exact (Hkeep _ _ _ _ H)|]. split.
    + destruct (Nat.le_gt_cases (List.length (RaceCache.rrc c))
                  (List.length (RaceCache.rrc c'))) as [Hle|Hgt]; auto.
      destruct (nth_error (RaceCache.rrc c)
                  (List.length (RaceCache.rrc c'))) as [e|] eqn:En.
      * destruct (Hkeep _ _ _ _ H _ _ En) as (e' & Hn' & _).
        assert (Hlt : (List.length (RaceCache.rrc c')
                       < List.length (RaceCache.rrc c'))%nat).
        { apply nth_error_Some. congruence. }
        lia.
      * apply nth_error_None in En. lia.
    + now destruct (race_update_inv _ _ _ _ H) as (Hrpc & _).
  - intros c u pt Hok. unfold race_update_ok in Hok.
    unfold RaceCache.update_cache. destruct (ru_rrc u) as [updates|]; simpl.
    + apply andb_true_iff in Hok. destruct Hok as [He Hu].
      destruct (build_runner_dict_total _ 0 [] He) as [d ->]. simpl.
      destruct (for_each_total _ _ (fun _ => True)
                  (fun upd => has_id_key upd = true)
                  (RaceCache.process_runner_update d)
                  (fun _ _ _ _ _ => I)
                  (fun l upd _ Hupd => process_runner_update_total d l upd Hupd)
                  updates (RaceCache.rrc c) I) as [l ->].
      { apply Forall_forall. rewrite forallb_forall in Hu. exact Hu. }
      simpl. eauto.
    + eauto.
  - intros c u pt Hok.
    destruct (RaceCache.update_cache c u pt) as [c'|] eqn:E; auto.
    destruct (race_update_inv _ _ _ _ E) as (_ & _ & _ & _ & _ & Hr).
    unfold race_update_ok in Hok.
    destruct (ru_rrc u) as [updates|]; [|discriminate].
    destruct Hr as (d & Hd & Hf).
    rewrite (build_runner_dict_returns _ _ _ _ Hd) in Hok. simpl in Hok.
    pose proof (for_each_returns_all _ _ (fun _ => True)
                  (fun upd => has_id_key upd = true)
                  (RaceCache.process_runner_update d)
                  (fun l upd l' _ Hb =>
                     conj I (process_runner_update_returns d l l' upd Hb))
                  _ _ _ I Hf) as Hall.
    rewrite Forall_forall in Hall.
    assert (Ht : forallb has_id_key updates = true).
    { apply forallb_forall. exact Hall. }
    rewrite Ht in Hok. discriminate.
Qed.

(** X21.  The lookup of entries by id is built once, before the payloads
    of an update are applied.  Two payloads with one id that no entry has,
    sent in one update, are therefore both appended, and the cache then
    holds two entries with that id; sent in two updates, the second takes
    the place of the first and the cache holds one. *)
Theorem X21_same_new_id_twice_in_one_update :
  forall c u1 u2 pt id,
    pydict_get "id" u1 = Some id ->
    pydict_get "id" u2 = Some id ->
    forallb (id_differs id) (RaceCache.rrc c) = true ->
    (exists c',
        RaceCache.update_cache c (mkRaceUpdate None (Some [u1; u2])) pt
        = Some c' /\
        RaceCache.rrc c'
        = RaceCache.rrc c ++ [RunnerChange.mk u1; RunnerChange.mk u2]) /\
    (exists c1 c2,
        RaceCache.update_cache c (mkRaceUpdate None (Some [u1])) pt
        = Some c1 /\
        RaceCache.update_cache c1 (mkRaceUpdate None (Some [u2])) pt
        = Some c2 /\
        RaceCache.rrc c2 = RaceCache.rrc c ++ [RunnerChange.mk u2]).
Proof.
  intros c u1 u2 pt id H1 H2 Hd.
  assert (Hh : forallb has_race_id (RaceCache.rrc c) = true).
  { rewrite forallb_forall in *. intros e He.
    eapply id_differs_has_id. now apply Hd. }
  destruct (build_runner_dict_total _ 0 [] Hh) as [d Hb].
  pose proof (build_runner_dict_unseen _ _ _ _ _ Hd Hb) as Hnone.
  simpl in Hnone. split.
  - eexists. split.
    + unfold RaceCache.update_cache. simpl. rewrite Hb. simpl.
      unfold RaceCache.process_runner_update. rewrite H1. simpl.
      rewrite Hnone. simpl. rewrite H2. simpl. rewrite Hnone. simpl.
      reflexivity.
    + simpl. rewrite <- app_assoc. reflexivity.
  - eexists. eexists. split; [|split].
    + unfold RaceCache.update_cache. simpl. rewrite Hb. simpl.
      unfold RaceCache.process_runner_update. rewrite H1. simpl.
      rewrite Hnone. simpl. reflexivity.
    + unfold RaceCache.update_cache. simpl.
      rewrite build_runner_dict_app, Hb. simpl. rewrite H1. simpl.
      unfold RaceCache.process_runner_update. rewrite H2. simpl.
      rewrite (dict_get_set_same _ _ value_eqb value_eqb_refl value_eqb_sym
                 value_eqb_trans). simpl.
      reflexivity.
    + simpl. exact (list_set_middle _ (RaceCache.rrc c) [] _ _).
Qed.

End RaceCacheMore.

Lemma X20_witness :
  (exists c',
      @RaceCache.update_cache epoch_dates two_entries second_and_new 5
      = Some c' /\
      (exists e',
          nth_error (@RaceCache.rrc epoch_dates c') 1 = Some e' /\
          kept_or_replaced second_and_new
            (RunnerChange.mk [("id", VNum 2); ("x", VNum 6)]%string) e') /\
      (2 <= List.length (@RaceCache.rrc epoch_dates c'))%nat /\
      @RaceCache.rpc epoch_dates c' = Some [("ord", VNum 1)]%string) /\
  (exists c',
      @RaceCache.update_cache epoch_dates two_entries second_and_new 5
      = Some c') /\
  @RaceCache.update_cache epoch_dates entry_without_id
    (mkRaceUpdate None (Some [])) 5 = None.
Proof.
  destruct (@X20_race_update_keeps_entries_in_place epoch_dates)
    as (H1 & H2 & H3).
  split; [|split].
  - eexists.
    match goal with
    | |- ?A /\ _ => assert (HA : A) by (vm_compute; reflexivity)
    end.
    split; [exact HA|].
    destruct (H1 _ _ _ _ HA) as (Hk & Hl & Hr).
    split; [|split].
    + exact (Hk 1%nat _ eq_refl).
    + exact Hl.
    + exact Hr.
  - apply (H2 two_entries second_and_new 5%Z). reflexivity.
  - apply (H3 entry_without_id (mkRaceUpdate None (Some [])) 5%Z).
    reflexivity.
Defined.

Lemma X21_witness :
  (exists c',
      @RaceCache.update_cache epoch_dates two_entries
        (mkRaceUpdate None
           (Some [[("id", VNum 3); ("y", VNum 7)];
                  [("id", VNum 3); ("y", VNum 8)]]%string)) 5
      = Some c' /\
      List.length (@RaceCache.rrc epoch_dates c') = 4%nat) /\
  (exists c1 c2,
      @RaceCache.update_cache epoch_dates two_entries
        (mkRaceUpdate None (Some [[("id", VNum 3); ("y", VNum 7)]%string])) 5
      = Some c1 /\
      @RaceCache.update_cache epoch_dates c1
        (mkRaceUpdate None (Some [[("id", VNum 3); ("y", VNum 8)]%string])) 5
      = Some c2 /\
      List.length (@RaceCache.rrc epoch_dates c2) = 3%nat).
Proof.
  destruct (@X21_same_new_id_twice_in_one_update epoch_dates two_entries
              [("id", VNum 3); ("y", VNum 7)]%string
              [("id", VNum 3); ("y", VNum 8)]%string 5%Z (VNum 3)
              eq_refl eq_refl eq_refl)
    as ((c' & Hu & Hr) & (c1 & c2 & Hu1 & Hu2 & Hr2)).
  split.
  - exists c'. split; [exact Hu|]. rewrite Hr. reflexivity.
  - exists c1, c2. split; [exact Hu1|]. split; [exact Hu2|].
    rewrite Hr2. reflexivity.
Defined.

(** * Properties of the serialised order book *)

Lemma comprehension_Forall2 (A B : Type) (f : A -> option B) (l : list A)
  (ys : list B) :
  comprehension f l = Some ys -> Forall2 (fun x y => f x = Some y) l ys.
Proof.
  revert ys. induction l as [|x l IH]; simpl; intros ys H.
  - inversion H. constructor.
  - destruct (f x) as [y|] eqn:E; try discriminate. simpl in H.
    destruct (comprehension f l) as [ys'|]; try discriminate.
    simpl in H. inversion H. constructor; auto.
Qed.

Lemma comprehension_total (A B : Type) (f : A -> option B) (l : list A) :
  forallb (fun x => is_some (f x)) l = true ->
  exists ys, comprehension f l = Some ys.
Proof.
  induction l as [|x l IH]; simpl; intros H; [eauto|].
  apply andb_true_iff in H. destruct H as [Hx Hl].
  destruct (f x) as [y|]; try discriminate.
  destruct (IH Hl) as [ys ->]. simpl. eauto.
Qed.

Lemma comprehension_returns (A B : Type) (f : A -> option B) (l : list A)
  (ys : list B) :
  comprehension f l = Some ys ->
  forallb (fun x => is_some (f x)) l = true.
Proof.
  revert ys. induction l as [|x l IH]; simpl; intros ys H; auto.
  destruct (f x) as [y|]; try discriminate. simpl in *.
  destruct (comprehension f l) as [ys'|]; try discriminate.
  exact (IH _ eq_refl).
Qed.

Lemma forallb_over_map (A B : Type) (f : B -> bool) (g : A -> B)
  (l : list A) :
  forallb f (map g l) = forallb (fun x => f (g x)) l.
Proof.
  induction l as [|x l IH]; simpl; [reflexivity|]. now rewrite IH.
Qed.

Lemma Forall2_In_right (A B : Type) (R : A -> B -> Prop) (l : list A)
  (l' : list B) (y : B) :
  Forall2 R l l' -> In y l' -> exists x, In x l /\ R x y.
Proof.
  intros H. induction H as [|x y' l l' Hxy H IH]; simpl; [contradiction|].
  intros [->|Hin].
  - exists x. auto.
  - destruct (IH Hin) as (x0 & Hx0 & Hr). exists x0. auto.
Qed.

Section SerialisedOrders.

Context {D : DateOps} {E : EnumOps}.

Lemma serialise_order_inv (mid : option string) (sid : Z) (hc : Q)
  (uo : UnmatchedOrder.t) (o : UnmatchedOrder.current_order) :
  UnmatchedOrder.serialise mid sid hc uo = Some o ->
  UnmatchedOrder.marketId o = mid /\
  UnmatchedOrder.selectionId o = sid /\
  UnmatchedOrder.handicap o = hc /\
  UnmatchedOrder.betId o = UnmatchedOrder.bet_id uo /\
  UnmatchedOrder.priceSize o
  = PriceSize (UnmatchedOrder.price uo) (UnmatchedOrder.size uo) /\
  StreamingStatus (UnmatchedOrder.status uo)
  = Some (UnmatchedOrder.status_out o) /\
  StreamingSide (UnmatchedOrder.side uo) = Some (UnmatchedOrder.side_out o) /\
  StreamingOrderType (UnmatchedOrder.order_type uo)
  = Some (UnmatchedOrder.orderType o).
Proof.
  unfold UnmatchedOrder.serialise.
  destruct (StreamingOrderType (UnmatchedOrder.order_type uo));
    try discriminate.
  destruct (UnmatchedOrder.persistence_value
              (UnmatchedOrder.persistence_type uo)); try discriminate.
  destruct (StreamingSide (UnmatchedOrder.side uo)); try discriminate.
  destruct (StreamingStatus (UnmatchedOrder.status uo)); try discriminate.
  simpl. intros H. inversion H. simpl. repeat split.
Qed.

Lemma serialise_order_known (mid : option string) (sid : Z) (hc : Q)
  (uo : UnmatchedOrder.t) :
  is_some (UnmatchedOrder.serialise mid sid hc uo) = names_known uo.
Proof.
  unfold UnmatchedOrder.serialise, names_known.
  destruct (StreamingOrderType (UnmatchedOrder.order_type uo));
    try reflexivity.
  destruct (UnmatchedOrder.persistence_value
              (UnmatchedOrder.persistence_type uo)); try reflexivity.
  destruct (StreamingSide (UnmatchedOrder.side uo)); try reflexivity.
  destruct (StreamingStatus (UnmatchedOrder.status uo)); reflexivity.
Qed.

Lemma serialise_orders_inv (mid : option string) (r : OrderBookRunner.t)
  (os : list UnmatchedOrder.current_order) :
  OrderBookRunner.serialise_orders mid r = Some os ->
  Forall2 (serialised_from mid) (orders_of [r]) os.
Proof.
  unfold OrderBookRunner.serialise_orders, orders_of. simpl.
  rewrite app_nil_r. intros H. apply comprehension_Forall2 in H.
  revert os H.
  induction (OrderBookRunner.unmatched_orders r) as [|kv l IH]; simpl;
    intros os H; inversion H; subst; constructor; auto.
Qed.

Lemma orders_of_app (l1 l2 : list OrderBookRunner.t) :
  orders_of (l1 ++ l2) = orders_of l1 ++ orders_of l2.
Proof. unfold orders_of. apply flat_map_app. Qed.

(** The loop of [serialise], from any pair of lists. *)
Lemma serialise_loop_inv (mid : option string) (rs : list OrderBookRunner.t)
  (acc acc' : list UnmatchedOrder.current_order
              * list OrderBookRunner.matches) :
  for_each (OrderBookCache.serialise_runner mid) rs acc = Some acc' ->
  snd acc' = snd acc ++ map OrderBookRunner.serialise_matches rs /\
  exists os,
    fst acc' = fst acc ++ os /\
    Forall2 (serialised_from mid) (orders_of rs) os.
Proof.
  revert acc. induction rs as [|r rs IH]; intros acc H; simpl in H.
  - inversion H. simpl. rewrite app_nil_r. split; [reflexivity|].
    exists []. rewrite app_nil_r. split; [reflexivity|constructor].
  - unfold OrderBookCache.serialise_runner at 1 in H.
    destruct (OrderBookRunner.serialise_orders mid r) as [os|] eqn:Eo;
      try discriminate.
    simpl in H. destruct (IH _ H) as (Hm & os' & Ho & Hf).
    simpl fst in *. simpl snd in *.
    split.
    + rewrite Hm, <- app_assoc. reflexivity.
    + exists (os ++ os'). split.
      * rewrite Ho, <- app_assoc. reflexivity.
      * change (r :: rs) with ([r] ++ rs). rewrite orders_of_app.
        apply Forall2_app; auto. exact (serialise_orders_inv _ _ _ Eo).
Qed.

Lemma serialise_orders_known (mid : option string) (r : OrderBookRunner.t) :
  is_some (OrderBookRunner.serialise_orders mid r)
  = forallb (fun kv => names_known (snd kv))
      (OrderBookRunner.unmatched_orders r).
Proof.
  unfold OrderBookRunner.serialise_orders.
  destruct (comprehension _ _) as [os|] eqn:Ec; simpl.
  - apply comprehension_returns in Ec. rewrite forallb_over_map in Ec.
    rewrite <- Ec. symmetry. apply forallb_ext_all. intros kv.
    now rewrite serialise_order_known.
  - destruct (forallb (fun kv => names_known (snd kv))
                (OrderBookRunner.unmatched_orders r)) eqn:Ef; auto.
    destruct (comprehension_total _ _
                (fun order =>
                   UnmatchedOrder.serialise mid
                     (OrderBookRunner.selection_id r)
                     (OrderBookRunner.handicap r) order)
                (map snd (OrderBookRunner.unmatched_orders r))) as [ys Hys].
    { rewrite forallb_over_map. rewrite <- Ef. apply forallb_ext_all.
      intros kv.
      now rewrite serialise_order_known. }
    congruence.
Qed.

Lemma serialise_loop_known (mid : option string)
  (rs : list OrderBookRunner.t)
  (acc : list UnmatchedOrder.current_order * list OrderBookRunner.matches) :
  is_some (for_each (OrderBookCache.serialise_runner mid) rs acc)
  = forallb
      (fun r =>
         forallb (fun kv => names_known (snd kv))
           (OrderBookRunner.unmatched_orders r)) rs.
Proof.
  revert acc. induction rs as [|r rs IH]; simpl; intros acc; auto.
  unfold OrderBookCache.serialise_runner at 1.
  rewrite <- serialise_orders_known with (mid := mid).
  destruct (OrderBookRunner.serialise_orders mid r) as [os|]; simpl; auto.
Qed.

(** X22.  The serialised order book lists, under ["matches"], one entry
    for every runner of the cache in the order of the keys, and under
    ["currentOrders"] the unmatched orders of the runners, runner by
    runner in that order and within a runner in the order the bet ids
    were first stored; every order carries the market id of the cache and
    the selection id and handicap of the runner that holds it.
    [serialise] raises exactly when some stored order holds an order
    type, side, status or non-empty persistence type that is not a member
    of its enumeration: one such order makes the whole book
    unserialisable. *)
Theorem X22_serialised_order_book_lists_stored_orders :
  forall c,
    (forall s,
        OrderBookCache.serialise c = Some s ->
        OrderBookCache.matches s
        = map (fun e => OrderBookRunner.serialise_matches (snd e))
            (OrderBookCache.runners c) /\
        Forall2 (serialised_from (OrderBookCache.market_id c))
          (stored_orders c) (OrderBookCache.currentOrders s) /\
        OrderBookCache.moreAvailable s = false /\
        (forall o,
            In o (OrderBookCache.currentOrders s) ->
            UnmatchedOrder.marketId o = OrderBookCache.market_id c /\
            exists k r b uo,
              In (k, r) (OrderBookCache.runners c) /\
              In (b, uo) (OrderBookRunner.unmatched_orders r) /\
              UnmatchedOrder.selectionId o = OrderBookRunner.selection_id r /\
              UnmatchedOrder.handicap o = OrderBookRunner.handicap r /\
              UnmatchedOrder.betId o = UnmatchedOrder.bet_id uo)) /\
    (forallb
       (fun e =>
          forallb (fun kv => names_known (snd kv))
            (OrderBookRunner.unmatched_orders (snd e)))
       (OrderBookCache.runners c) = true ->
     exists s, OrderBookCache.serialise c = Some s) /\
    (forallb
       (fun e =>
          forallb (fun kv => names_known (snd kv))
            (OrderBookRunner.unmatched_orders (snd e)))
       (OrderBookCache.runners c) = false ->
     OrderBookCache.serialise c = None).
Proof.
  intros c.
  assert (Hknown :
            is_some (OrderBookCache.serialise c)
            = forallb
                (fun e =>
                   forallb (fun kv => names_known (snd kv))
                     (OrderBookRunner.unmatched_orders (snd e)))
                (OrderBookCache.runners c)).
  { unfold OrderBookCache.serialise.
    rewrite <- (forallb_over_map _ _
                  (fun r =>
                     forallb (fun kv => names_known (snd kv))
                       (OrderBookRunner.unmatched_orders r)) snd).
    rewrite <- (serialise_loop_known (OrderBookCache.market_id c) _ ([], [])).
    now destruct (for_each _ _ _). }
  split; [|split].
  - intros s H. unfold OrderBookCache.serialise in H.
    destruct (for_each (OrderBookCache.serialise_runner
                          (OrderBookCache.market_id c))
                (map snd (OrderBookCache.runners c)) ([], []))
      as [acc|] eqn:Ef; try discriminate.
    simpl in H. inversion H. subst s. simpl.
    destruct (serialise_loop_inv _ _ _ _ Ef) as (Hm & os & Ho & Hf).
    simpl in Hm, Ho. subst os.
    split; [now rewrite Hm, map_map|]. split; [exact Hf|].
    split; [reflexivity|].
    intros o Hin.
    destruct (Forall2_In_right _ _ _ _ _ _ Hf Hin) as ([r uo] & Hro & Hser).
    unfold serialised_from in Hser. simpl in Hser.
    destruct (serialise_order_inv _ _ _ _ _ Hser)
      as (Hmid & Hsid & Hhc & Hbet & _).
    split; [exact Hmid|].
    unfold stored_orders, orders_of in Hro.
    apply in_flat_map in Hro. destruct Hro as (r0 & Hr0 & Hkv).
    apply in_map_iff in Hkv. destruct Hkv as ([b uo'] & Heq & Hkv).
    inversion Heq. subst r0 uo'.
    apply in_map_iff in Hr0. destruct Hr0 as ([k r'] & Hk & Hin').
    simpl in Hk. subst r'.
    exists k, r, b, uo. repeat split; auto.
  - intros Hf. rewrite <- Hknown in Hf.
    destruct (OrderBookCache.serialise c) as [s|]; [eauto|discriminate].
  - intros Hf. rewrite <- Hknown in Hf.
    destruct (OrderBookCache.serialise c) as [s|]; [discriminate|auto].
Qed.

End SerialisedOrders.

Lemma X22_witness :
  (exists c s,
      @OrderBookCache.update_cache epoch_dates empty_order_cache
        (mkOrderBook None (Some [opening_image])) 1 = Some c /\
      @OrderBookCache.serialise epoch_dates stream_enums c = Some s /\
      List.length (@OrderBookCache.matches s) = 1%nat /\
      (exists s', @OrderBookCache.serialise epoch_dates stream_enums c
                  = Some s') /\
      Forall2
        (@serialised_from epoch_dates stream_enums
           (@OrderBookCache.market_id epoch_dates c))
        (@stored_orders epoch_dates c) (@OrderBookCache.currentOrders s)) /\
  (exists c,
      @OrderBookCache.update_cache epoch_dates empty_order_cache
        (mkOrderBook None
           (Some [opening_image;
                  mkOrderChange 8 None None None (Some [odd_order]) None
                    None])) 1 = Some c /\
      @OrderBookCache.serialise epoch_dates stream_enums c = None).
Proof.
  split.
  - eexists. eexists.
    match goal with
    | |- ?A /\ _ => assert (HA : A) by (vm_compute; reflexivity)
    end.
    split; [exact HA|].
    match goal with
    | |- ?B /\ _ => assert (HB : B) by (vm_compute; reflexivity)
    end.
    split; [exact HB|].
    match type of HB with
    | OrderBookCache.serialise ?c = Some ?s =>
        destruct (@X22_serialised_order_book_lists_stored_orders epoch_dates
                    stream_enums c) as (H1 & H2 & _);
        destruct (H1 s HB) as (Hm & Hf & _)
    end.
    split; [rewrite Hm; reflexivity|].
    split; [apply H2; reflexivity|exact Hf].
  - eexists.
    match goal with
    | |- ?A /\ _ => assert (HA : A) by (vm_compute; reflexivity)
    end.
    split; [exact HA|].
    match type of HA with
    | _ = Some ?c =>
        apply (@X22_serialised_order_book_lists_stored_orders epoch_dates
                 stream_enums c)
    end.
    reflexivity.
Defined.

(** * Batches applied one after the other *)

Lemma update_lookup (a a' : Available.t) (batch : list row) (x : row) :
  ids_distinct (Available.prices a) = true ->
  Available.update a batch = Some a' ->
  lookup_id x (Available.prices a')
  = fold_left (write (Available.deletion_select a) x) batch
      (lookup_id x (Available.prices a)).
Proof.
  intros Hd Hu.
  destruct (update_inv _ _ _ Hu) as (ps & srt & Hloop & Hsort).
  rewrite <- (update_loop_lookup _ x _ _ _ _ _ Hd Hloop).
  pose proof (update_loop_ids_distinct _ _ _ _ _ _ Hloop Hd) as Hd'.
  destruct srt.
  - destruct (sort_true_inv _ _ Hsort) as (Hp & _). simpl in Hp.
    rewrite Hp. now apply lookup_list_sort.
  - destruct (sort_false_inv _ _ Hsort) as (Hp & _). simpl in Hp.
    now rewrite Hp.
Qed.

Lemma id_leb_antisym (rev : bool) (r1 r2 : row) :
  id_leb rev r1 r2 = true -> id_leb rev r2 r1 = true ->
  same_id r1 r2 = true.
Proof.
  destruct r1 as [|x r1], r2 as [|y r2]; simpl; try discriminate.
  destruct rev; rewrite !Qle_bool_iff; intros H1 H2;
    apply Qeq_bool_iff; apply Qle_antisym; auto.
Qed.

(** Two ladders sorted in one direction, each with distinct identities,
    that hold the same row under every identity are the same list. *)
Lemma sorted_map_unique (rev : bool) (l1 l2 : list row) :
  forallb has_id l1 = true -> forallb has_id l2 = true ->
  ids_sorted rev l1 = true -> ids_sorted rev l2 = true ->
  ids_distinct l1 = true -> ids_distinct l2 = true ->
  (forall x, lookup_id x l1 = lookup_id x l2) ->
  l1 = l2.
Proof.
  unfold ids_sorted, ids_distinct, lookup_id. revert l2.
  induction l1 as [|r1 t1 IH]; intros [|r2 t2] Hh1 Hh2 Hs1 Hs2 Hd1 Hd2 H;
    simpl in *.
  - reflexivity.
  - apply andb_true_iff in Hh2. destruct Hh2 as [Hr2 _].
    specialize (H r2). simpl in H. rewrite (same_id_refl _ Hr2) in H.
    discriminate.
  - apply andb_true_iff in Hh1. destruct Hh1 as [Hr1 _].
    specialize (H r1). simpl in H. rewrite (same_id_refl _ Hr1) in H.
    discriminate.
  - apply andb_true_iff in Hh1, Hh2, Hs1, Hs2, Hd1, Hd2.
    destruct Hh1 as [Hr1 Hh1], Hh2 as [Hr2 Hh2], Hs1 as [Hl1 Hs1],
      Hs2 as [Hl2 Hs2], Hd1 as [Hn1 Hd1], Hd2 as [Hn2 Hd2].
    assert (E : same_id r2 r1 = true).
    { destruct (same_id r2 r1) eqn:E; auto.
      pose proof (H r1) as H1. rewrite (same_id_refl _ Hr1), E in H1.
      symmetry in H1. apply find_some in H1. destruct H1 as [Hin1 _].
      pose proof (H r2) as H2. rewrite (same_id_refl _ Hr2) in H2.
      rewrite same_id_sym, E in H2.
      apply find_some in H2. destruct H2 as [Hin2 _].
      rewrite forallb_forall in Hl1, Hl2.
      rewrite <- E. rewrite same_id_sym.
      apply (id_leb_antisym rev); auto. }
    assert (Heq : r1 = r2).
    { pose proof (H r1) as H1. rewrite (same_id_refl _ Hr1), E in H1.
      now inversion H1. }
    subst r2. f_equal. apply IH; auto.
    intros x. specialize (H x). destruct (same_id r1 x) eqn:Ex; auto.
    transitivity (@None row).
    + exact (lookup_after_same x r1 t1 Hn1 Ex).
    + symmetry. exact (lookup_after_same x r1 t2 Hn2 Ex).
Qed.

(** X23.  On a ladder that is rendered, sorted and holds distinct
    identities, applying a batch and then a second one leaves the ladder
    that applying the two batches as one leaves: a batch can be split or
    merged without changing the result. *)
Theorem X23_two_batches_are_one_batch :
  forall a b1 b2 a1 a2,
    consistent a ->
    (0 < Available.deletion_select a)%Z ->
    ids_sorted (Available.reverse a) (Available.prices a) = true ->
    ids_distinct (Available.prices a) = true ->
    Available.update a b1 = Some a1 ->
    Available.update a1 b2 = Some a2 ->
    Available.update a (b1 ++ b2) = Some a2.
Proof.
  intros a b1 b2 a1 a2 Hc Hds Hs Hd H1 H2.
  destruct (update_preserves _ _ _ Hc H1) as (Hc1 & Hds1 & Hr1 & Hs1 & Hd1).
  specialize (Hs1 Hs). specialize (Hd1 Hd).
  destruct (update_preserves _ _ _ Hc1 H2) as (Hc2 & Hds2 & Hr2 & Hs2 & Hd2).
  specialize (Hs2 Hs1). specialize (Hd2 Hd1).
  assert (Hrows : rows_ok (Available.deletion_select a) (b1 ++ b2) = true).
  { rewrite rows_ok_app, (update_returns_rows_ok _ _ _ Hds H1).
    rewrite <- Hds1. apply (update_returns_rows_ok a1 a2); auto.
    now rewrite Hds1. }
  destruct (update_total _ _ Hc Hrows) as [a12 H12].
  destruct (update_preserves _ _ _ Hc H12) as (Hc3 & Hds3 & Hr3 & Hs3 & Hd3).
  specialize (Hs3 Hs). specialize (Hd3 Hd).
  rewrite H12. f_equal.
  assert (Hp : Available.prices a12 = Available.prices a2).
  { apply (sorted_map_unique (Available.reverse a)).
    - apply (rows_ok_has_id (Available.deletion_select a12)).
      now apply consistent_rows_ok.
    - apply (rows_ok_has_id (Available.deletion_select a2)).
      now apply consistent_rows_ok.
    - now rewrite <- Hr3.
    - now rewrite <- Hr1, <- Hr2.
    - exact Hd3.
    - exact Hd2.
    - intros x. rewrite (update_lookup _ _ _ x Hd H12), fold_left_app.
      rewrite <- (update_lookup _ _ _ x Hd H1).
      rewrite <- Hds1. symmetry. exact (update_lookup _ _ _ x Hd1 H2). }
  unfold consistent in Hc2, Hc3.
  destruct a12 as [p12 d12 r12 s12], a2 as [p2 d2 r2 s2]. simpl in *.
  assert (Ed : d12 = d2) by congruence.
  assert (Er : r12 = r2) by congruence.
  rewrite Hp, Ed in Hc3. rewrite Hc3 in Hc2. inversion Hc2.
  now rewrite Hp, Ed, Er.
Qed.

Lemma X23_witness :
  exists a1 a2,
    Available.update two_rows [[3; 1]; [2; 0]] = Some a1 /\
    Available.update a1 [[3; 0]; [5; 2]; [4; 7]] = Some a2 /\
    Available.update two_rows ([[3; 1]; [2; 0]] ++ [[3; 0]; [5; 2]; [4; 7]])
    = Some a2 /\
    Available.serialise a2 = [PriceSize 4 7; PriceSize 5 2].
Proof.
  eexists. eexists.
  match goal with
  | |- ?A /\ ?B /\ _ =>
      assert (HA : A) by (vm_compute; reflexivity);
      assert (HB : B) by (vm_compute; reflexivity)
  end.
  split; [exact HA|]. split; [exact HB|]. split.
  - assert (Hds : (0 < Available.deletion_select two_rows)%Z)
      by (simpl; lia).
    exact (X23_two_batches_are_one_batch two_rows _ _ _ _ eq_refl Hds
             eq_refl eq_refl HA HB).
  - reflexivity.
Defined.

(** * Payloads of a race update in the snapshot *)

Section RaceSnapshot.

Context {D : DateOps}.

Lemma process_runner_update_length (d : list (value * nat))
  (l : list RunnerChange.t) (upd : pydict) (l' : list RunnerChange.t) :
  RaceCache.process_runner_update d l upd = Some l' ->
  (List.length l <= List.length l')%nat.
Proof.
  unfold RaceCache.process_runner_update.
  destruct (pydict_get "id" upd) as [idv|]; try discriminate. simpl.
  destruct (dict_get value_eqb idv d) as [j|]; intros H; inversion H.
  - now rewrite length_list_set.
  - rewrite length_app. simpl. lia.
Qed.

(** A payload with another id leaves the position [p] of the payload
    [upd], which a lookup with another id does not read. *)
Lemma process_runner_update_leaves (d : list (value * nat)) (idv : value)
  (p : nat) (e : RunnerChange.t) (l : list RunnerChange.t) (upd' : pydict)
  (l' : list RunnerChange.t) :
  (forall id' j',
      dict_get value_eqb id' d = Some j' -> value_eqb id' idv = false ->
      j' <> p) ->
  payload_has_id idv upd' = false ->
  nth_error l p = Some e ->
  RaceCache.process_runner_update d l upd' = Some l' ->
  nth_error l' p = Some e.
Proof.
  intros Hpos Hid Hn.
  unfold RaceCache.process_runner_update, payload_has_id in *.
  destruct (pydict_get "id" upd') as [id'|]; try discriminate. simpl.
  destruct (dict_get value_eqb id' d) as [j'|] eqn:Ej; intros H; inversion H.
  - rewrite nth_error_list_set_other; auto. exact (Hpos _ _ Ej Hid).
  - rewrite nth_error_app1; auto. apply nth_error_Some. congruence.
Qed.

(** X24.  A payload of a race update can be read back from the snapshot
    of the cache, exactly as it was sent, unless a later payload of the
    same update has its id.  The snapshot reports the publish time of the
    update; the market id and the race id of the cache never change. *)
Theorem X24_race_payload_is_in_the_snapshot :
  forall c u pt c' pre upd post idv,
    ru_rrc u = Some (pre ++ upd :: post) ->
    pydict_get "id" upd = Some idv ->
    existsb (payload_has_id idv) post = false ->
    RaceCache.update_cache c u pt = Some c' ->
    In upd (RaceCache.rrc_out (RaceCache.serialise c')) /\
    RaceCache.pt_out (RaceCache.serialise c') = Some pt /\
    RaceCache.mid_out (RaceCache.serialise c') = RaceCache.market_id c /\
    RaceCache.id_out (RaceCache.serialise c') = RaceCache.race_id c.
Proof.
  intros c u pt c' pre upd post idv Hu Hid Hpost H.
  destruct (race_update_inv _ _ _ _ H) as (_ & Hpt & _ & Hmid & Hrid & Hr).
  split; [|simpl; auto].
  rewrite Hu in Hr. destruct Hr as (d & Hd & Hf).
  rewrite for_each_app in Hf.
  destruct (for_each (RaceCache.process_runner_update d) pre (RaceCache.rrc c))
    as [l1|] eqn:E1; try discriminate.
  simpl in Hf.
  destruct (RaceCache.process_runner_update d l1 upd) as [l2|] eqn:E2;
    try discriminate.
  simpl in Hf.
  assert (Hlen : (List.length (RaceCache.rrc c) <= List.length l1)%nat).
  { refine (for_each_rel _ _
              (fun s s' => (List.length s <= List.length s')%nat)
              (RaceCache.process_runner_update d) _ _ _ _ _ _ E1).
    - auto.
    - intros. lia.
    - intros s x s'. apply process_runner_update_length. }
  assert (Hp : exists p,
             nth_error l2 p = Some (RunnerChange.mk upd) /\
             forall id' j',
               dict_get value_eqb id' d = Some j' ->
               value_eqb id' idv = false -> j' <> p).
  { unfold RaceCache.process_runner_update in E2. rewrite Hid in E2.
    simpl in E2.
    destruct (dict_get value_eqb idv d) as [j|] eqn:Ej; inversion E2.
    - destruct (build_runner_dict_sound idv _ 0 [] d j Hd Ej)
        as [Hnil|(e0 & _ & Hn0 & Hm)]; [discriminate|].
      rewrite Nat.sub_0_r in Hn0.
      assert (Hj : (j < List.length l1)%nat).
      { apply Nat.lt_le_trans with (List.length (RaceCache.rrc c)); auto.
        apply nth_error_Some. congruence. }
      destruct (nth_error l1 j) as [e1|] eqn:En1;
        [|apply nth_error_None in En1; lia].
      exists j. split; [exact (nth_error_list_set _ _ _ _ _ En1)|].
      intros id' j' Ej' Hne ->.
      destruct (build_runner_dict_sound id' _ 0 [] d j Hd Ej')
        as [Hnil|(e0' & _ & Hn0' & Hm')]; [discriminate|].
      rewrite Nat.sub_0_r in Hn0'. rewrite Hn0 in Hn0'. inversion Hn0'.
      subst e0'. unfold id_matches in Hm, Hm'.
      destruct (pydict_get "id" (RunnerChange.change e0)) as [ide|];
        try discriminate.
      rewrite value_eqb_sym in Hm'.
      rewrite (value_eqb_trans _ _ _ Hm' Hm) in Hne. discriminate.
    - exists (List.length l1). split.
      + rewrite nth_error_app2, Nat.sub_diag; auto.
      + intros id' j' Ej' _ ->.
        destruct (build_runner_dict_sound id' _ 0 [] d _ Hd Ej')
          as [Hnil|(e0' & _ & Hn0' & _)]; [discriminate|].
        rewrite Nat.sub_0_r in Hn0'.
        assert (List.length l1 < List.length (RaceCache.rrc c))%nat
          by (apply nth_error_Some; congruence).
        lia. }
  destruct Hp as (p & Hn & Hpos).
  assert (Hfin : nth_error (RaceCache.rrc c') p = Some (RunnerChange.mk upd)).
  { refine (for_each_invariant_In _ _
              (fun l => nth_error l p = Some (RunnerChange.mk upd))
              (RaceCache.process_runner_update d) post _ _ _ Hn Hf).
    intros l upd' l' Hin Hl Hb.
    apply (process_runner_update_leaves d idv p _ l upd' l'); auto.
    destruct (payload_has_id idv upd') eqn:Ep; auto.
    assert (existsb (payload_has_id idv) post = true).
    { apply existsb_exists. eauto. }
    congruence. }
  simpl. unfold RaceCache.serialise_rrc.
  apply (in_map RunnerChange.change _ (RunnerChange.mk upd)).
  exact (nth_error_In _ _ Hfin).
Qed.

End RaceSnapshot.

Lemma X24_witness :
  exists c',
    @RaceCache.update_cache epoch_dates two_entries second_and_new 5
    = Some c' /\
    In [("id", VNum 2); ("y", VNum 9)]%string
      (@RaceCache.rrc_out (@RaceCache.serialise epoch_dates c')) /\
    @RaceCache.pt_out (@RaceCache.serialise epoch_dates c') = Some 5%Z.
Proof.
  eexists.
  match goal with
  | |- ?A /\ _ => assert (HA : A) by (vm_compute; reflexivity)
  end.
  split; [exact HA|].
  destruct (@X24_race_payload_is_in_the_snapshot epoch_dates two_entries
              second_and_new 5%Z _ []
              [("id", VNum 2); ("y", VNum 9)]%string
              [[("id", VNum 3); ("y", VNum 7)]%string] (VNum 2)
              eq_refl eq_refl eq_refl HA) as (Hin & Hpt & _).
  split; [exact Hin|exact Hpt].
Defined.

(** * Runner changes in the snapshot of a market *)

(** What one runner change leaves under its key. *)
Lemma process_runner_change_shows (m m' : MarketBookCache.t)
  (nd : runner_change) :
  cache_ok m ->
  MarketBookCache.process_runner_change m nd = Some m' ->
  exists i r,
    nth_error (MarketBookCache.runners m') i = Some r /\
    runner_key_eqb (key_of r) (change_key nd) = true /\
    fresh r /\
    shows nd (RunnerBook.to_snapshot r).
Proof.
  intros [[Hi Hk] Hl] H.
  destruct (dict_get runner_key_eqb (change_key nd)
              (MarketBookCache.runner_dict m)) as [i|] eqn:Hd.
  - destruct (index_lookup _ _ _ Hi Hd) as (R & Hn & HkR).
    rewrite (process_runner_change_existing _ _ _ _ Hd Hn) in H.
    destruct (MarketBookCache.apply_runner_change nd R) as [R'|] eqn:E;
      try discriminate.
    simpl in H. inversion H. simpl.
    exists i, (RunnerBook.serialise R').
    split; [exact (nth_error_list_set _ _ _ _ _ Hn)|].
    split.
    { rewrite key_of_serialise, (apply_runner_change_key _ _ _ E).
      exact HkR. }
    split; [reflexivity|].
    destruct (apply_runner_change_written _ _ _ E)
      as (W1 & W2 & W3 & W4 & _).
    unfold shows. simpl. auto.
  - rewrite (process_runner_change_new _ _ Hd) in H.
    destruct (RunnerBook.init nd None) as [r|] eqn:E; try discriminate.
    simpl in H. inversion H. simpl.
    exists (List.length (MarketBookCache.runners m)), (RunnerBook.serialise r).
    split.
    { rewrite nth_error_app2, Nat.sub_diag; auto. }
    destruct (runner_init_inv _ _ _ E)
      as (Hkey & _ & _ & L1 & L2 & L3 & L4 & _).
    split.
    { rewrite key_of_serialise, Hkey. apply runner_key_eqb_refl. }
    split; [reflexivity|].
    unfold shows. simpl. rewrite L1, L2, L3, L4. auto.
Qed.

(** X25.  After [update_cache], the snapshot of the market shows, for the
    runner of each runner change that no later change of the same market
    change names again, the scalars that change carries: its ["ltp"],
    ["tv"], ["spn"] and ["spf"] are the last price traded, the total
    matched and the near and far price of that runner's entry, whether
    the runner was in the cache before or not.  The snapshot's publish
    time is the one of the call. *)
Theorem X25_last_change_of_a_runner_is_in_the_snapshot :
  forall m mc pt m' pre nd post,
    market m ->
    mc_rc mc = Some (pre ++ nd :: post) ->
    forallb
      (fun nd' => negb (runner_key_eqb (change_key nd) (change_key nd')))
      post = true ->
    MarketBookCache.update_cache m mc pt = Some m' ->
    MarketBookCache.publishTime (MarketBookCache.serialise m') = pt /\
    exists i s,
      nth_error (MarketBookCache.runners_out (MarketBookCache.serialise m')) i
      = Some (Some s) /\
      RunnerBook.selectionId s = rc_id nd /\
      Qeq_bool (RunnerBook.handicap_out s) (hc_or_0 (rc_hc nd)) = true /\
      shows nd s.
Proof.
  intros m mc pt m' pre nd post Hm Hrc Hpost Hu.
  split.
  { apply update_cache_level in Hu.
    change (MarketBookCache.publish_time (market_level m') = pt).
    rewrite Hu. now destruct (mc_tv mc), (mc_marketDefinition mc). }
  destruct (update_cache_inv _ _ _ _ Hu) as (m1 & H1 & H2).
  assert (Hok1 : cache_ok m1).
  { refine (for_each_invariant _ _ cache_ok _ process_runner_definition_ok
              _ _ _ _ H1).
    pose proof (market_cache_ok m Hm) as Hok.
    now destruct (mc_marketDefinition mc). }
  assert (Hok2 : cache_ok
                   (match mc_tv mc with
                    | Some v => MarketBookCache.set_total_matched (Some v) m1
                    | None => m1
                    end)) by now destruct (mc_tv mc).
  rewrite Hrc, for_each_app in H2.
  destruct (for_each MarketBookCache.process_runner_change pre _)
    as [s1|] eqn:E1; try discriminate.
  simpl in H2.
  destruct (MarketBookCache.process_runner_change s1 nd) as [s2|] eqn:E2;
    try discriminate.
  simpl in H2.
  pose proof (for_each_invariant _ _ cache_ok _ process_runner_change_ok
                _ _ _ Hok2 E1) as Hs1.
  pose proof (process_runner_change_ok _ _ _ Hs1 E2) as Hs2.
  destruct (process_runner_change_shows _ _ _ Hs1 E2)
    as (i & r & Hn & Hkey & Hfresh & Hshows).
  assert (Hfin : cache_ok m' /\
                 nth_error (MarketBookCache.runners m') i = Some r).
  { refine (for_each_invariant_In _ _
              (fun s =>
                 cache_ok s /\
                 nth_error (MarketBookCache.runners s) i = Some r)
              MarketBookCache.process_runner_change post _ _ _
              (conj Hs2 Hn) H2).
    intros s nd' s' Hin [Hs Hns] Hb. split.
    - exact (process_runner_change_ok _ _ _ Hs Hb).
    - apply (process_runner_change_other s s' nd' i r); auto.
      + apply Hs.
      + rewrite forallb_forall in Hpost. specialize (Hpost nd' Hin).
        apply negb_true_iff in Hpost.
        destruct (runner_key_eqb (key_of r) (change_key nd')) eqn:E; auto.
        rewrite runner_key_eqb_sym in Hkey.
        rewrite (runner_key_eqb_trans _ _ _ Hkey E) in Hpost.
        discriminate. }
  destruct Hfin as [_ Hfin].
  exists i, (RunnerBook.to_snapshot r). split; [|split; [|split]].
  - simpl. rewrite (map_nth_error _ _ _ Hfin). now rewrite Hfresh.
  - unfold runner_key_eqb, key_of in Hkey. simpl in *.
    apply andb_true_iff in Hkey. destruct Hkey as [Hz _].
    now apply Z.eqb_eq in Hz.
  - unfold runner_key_eqb, key_of in Hkey. simpl in *.
    apply andb_true_iff in Hkey. now destruct Hkey as [_ Hq].
  - exact Hshows.
Qed.

Lemma X25_witness :
  exists m' i s,
    MarketBookCache.update_cache (MarketBookCache.init "1.101" 0)
      three_changes 9 = Some m' /\
    MarketBookCache.publishTime (MarketBookCache.serialise m') = 9%Z /\
    nth_error (MarketBookCache.runners_out (MarketBookCache.serialise m')) i
    = Some (Some s) /\
    RunnerBook.selectionId s = 7%Z /\
    RunnerBook.lastPriceTraded s = Some 3.
Proof.
  eexists.
  match goal with
  | |- exists i s, ?A /\ _ =>
      assert (HA : A) by (vm_compute; reflexivity)
  end.
  destruct (X25_last_change_of_a_runner_is_in_the_snapshot
              (MarketBookCache.init "1.101" 0) three_changes 9%Z _
              [ltp_only 7 None 2] (ltp_only 7 None 3) [ltp_only 8 None 5]
              (market_init _ _) eq_refl eq_refl HA)
    as (Hpt & i & s & Hn & Hid & _ & Hltp & _).
  exists i, s. split; [exact HA|]. split; [exact Hpt|].
  split; [exact Hn|]. split; [exact Hid|].
  exact (Hltp 3 eq_refl).
Defined.
